(* ===== verification/_CoqProject ===== *)
-Q . S2P
Prelude.v
GoLib.v
GoValue.v
JsonPath.v
Heap.v
Converter.v
Workload.v
WorkloadSpec.v
Kube.v
Binding.v
Apis.v
Service.v
Application.v
Sha256.v
Context.v
Kinds.v
Collect.v
Project.v
Pipeline.v
Webhooks.v
CrdController.v
Cluster.v
BindingSpec.v
Invariant.v
Safety.v
ApisSpec.v
ContextSpec.v
Names.v
PipelineSpec.v
CollectSpec.v
WebhooksSpec.v
CrdSpec.v
Writes.v
Marks.v
System.v
WhoAmI.v
Events.v
Startup.v
CopyMemory.v
DeepCopy.v
DeepCopySpec.v
Tree.v
TreeEdit.v
TreeOps.v
TreePods.v
TreeApps.v
Projection.v
TreeLaws.v
TreeBind.v
TreeShape.v
TreeWire.v
TreeNil.v
TreePair.v
TreeEnv.v
ProjectionSpec.v
ProjectionPair.v
ProjectionEnv.v
Locking.v
Interleaving.v
