(* ===== verification/Prelude.v ===== *)
(** * Service Binding Operator: a verified model

    ** The program

    The operator binds services to workloads.  A [ServiceBinding] names
    services (databases, queues, ...) and a workload (a deployment, ...).  The
    reconciler ([controllers/common.go]) keeps a finalizer on the binding and
    hands it to a pipeline ([pkg/reconcile/pipeline/builder/pipeline.go]): a
    list of handlers over a shared context, of which there are two, one for each
    binding resource (coreos [v1alpha1] and spec [v1beta1]).  Collecting handlers
    ([handler/collect], [handler/mapping], [handler/naming]) read the services,
    evaluate the annotations of services and their CRDs ([pkg/binding],
    [context/service]) and gather binding items; projecting handlers
    ([handler/project]) write them into a secret, and the secret into the
    workload, through a mapping that says where containers and volumes are
    ([pipeline/mapping.go]).  Closing the context updates the workloads and the
    status of the binding.  Webhooks ([apis/webhooks], [*_webhook.go]) record
    who asked for a binding, protect ready bindings and check mappings; a CRD
    controller ([controllers/crd]) publishes the bindable kinds.  [main.go] asks
    the API server for the operator's own name ([whoami.go]) and registers all of
    these with a manager, whose event filter ([controllers/common.go]) decides
    when a binding is reconciled.

    ** The model

    Go code is translated into executable definitions in the state monad [M] of
    this file: [M S A] is a function from a state to a returned value or a panic,
    and a new state.  Go errors are values of [res]; loops with early return are
    [for_each]; maps are association lists, whose order is the iteration order,
    or [gmap] where only the contents matter.  A slice that may be nil where the
    difference is seen is an option ([Apis]) or has a type of its own
    ([SliceMapNil] of [GoValue], which [normalize] writes as null).

    - [Prelude]: the monad, association lists, shared list lemmas, and the
      invariant logic [inv] with its hint database and the tactic [inv_auto].
    - [GoLib]: the parts of [strings], [path] and [encoding/base64] that are
      used.  [GoValue]: dynamic values, errors and the unstructured accessors,
      written once for every representation of values (class [GoView]).
      [Sha256]: the hash behind secret names, with known answers.
    - [JsonPath]: templates and their evaluation.  The parser, filters and
      ranges are parameters (class [JSONPathLib], laws [JSONPathLaws]).
    - [Heap]: a store of mutable maps for workloads, which handlers change
      through pointers; deep copy, deep equality, reading trees back.
      [Converter]: [pkg/converter]; whether a map converts to a core type is a
      parameter (class [Converter]).
    - [Workload] and [WorkloadSpec]: [pipeline/mapping.go].
    - [Kube]: the API server, as parameters (classes [KubeAPI], [BindingAPI],
      [Clock]).
    - [Binding] and [BindingSpec]: [pkg/binding].
    - [Apis] and [ApisSpec]: [apis/common.go], [apis/conditions.go] and both
      [ServiceBinding] resources (modules [v1alpha1], [v1beta1]), with the
      interface [ServiceBindingKind] through which shared code sees them.
    - [Service]: [context/service] and [pkg/binding/registry].  [Application]:
      [context/application.go].
    - [Context] and [ContextSpec]: [context/impl.go], [flow_ctrl.go] and
      [secretbackedbindings.go].  [Kinds]: the two context implementations, as
      instances of [PipelineContext].
    - [Collect], [Project] and [CollectSpec]: the handlers.  [Pipeline] and
      [PipelineSpec]: the flows, [Process] and [Reconcile].
    - [Invariant]: what every handler of both flows keeps, for any promise
      ([pledge]) about the binding, its workloads and the world; the world and the
      two kinds discharge the interfaces [SafeWorld] and [SafeContext] the handlers
      rely on.  [Safety] instantiates it, [Writes] does so with a log of all calls.
    - [Webhooks], [CrdController], [WebhooksSpec], [CrdSpec] and [Marks]: the
      webhooks, the CRD controller and [crddescription.go].
    - [Tree], [TreeEdit], [TreeOps], [TreePods] and [TreeApps]: workloads as plain
      trees, the projecting operations as functions on them, and how a tree is
      represented in the store.  [Projection]: the projecting handlers on trees.
      [TreeLaws], [TreeBind], [TreeShape], [TreeWire] and [TreeNil]: the algebra of
      these functions, the workloads they apply to, what survives being written to
      the server and read back, and where nil slices come up.  [ProjectionSpec]: the handlers against the trees.
      [TreePair] and [ProjectionPair]: two bindings on the same workloads.
      [TreeEnv] and [ProjectionEnv]: projecting variables twice.
    - [System]: users, admission, the environment and the reconciler as one step
      relation.  [Interleaving]: the same with others acting between any two calls
      of a reconciliation and with reads from a stale cache.  [Locking]: a server
      that compares resource versions, and [persistBinding] on it.
    - [WhoAmI]: [whoami.go].  [Events]: the event filter.  [Startup]: [main.go],
      the set-up functions, the schemes and the builders of pipelines.
    - [Names]: names of secrets and volumes against DNS-1123.
    - [CopyMemory]: objects laid out in a memory of cells.  [DeepCopy] and
      [DeepCopySpec]: [zz_generated.deepcopy.go] of [v1alpha1] and [v1beta1].
    - [Cluster]: a cluster in memory that instantiates every parameter; the
      witnesses and the example runs evaluate in it.

    ** What is shown

    - Changing workloads ([WorkloadSpec]): removing a volume or mount undoes
      adding it; adding replaces what has the same name, keeps the rest and makes
      no duplicates; every binding is mounted below one root; a restricted path selects what its
      fields select.
    - Projecting ([ProjectionSpec]): the handlers that project a binding as files or
      as variables and the one that takes it out refine functions on trees, for
      every workload and on success, error and panic; projecting files, or
      variables that no container sets twice ([ProjectionEnv]), into a bound
      workload again changes nothing, unless a container has no variable at all.
      Unbinding a binding that was projected as files, without variables, gives back
      the volumes and mounts that were there before, and all the rest but the
      variable [SERVICE_BINDING_ROOT].  A binding that is projected as files stays
      so, exactly, whatever is bound to or unbound from the same workloads under
      another name ([ProjectionPair]).  In all of these a workload is read back
      exactly as it was written ([reread]): the server adds no fields and no
      defaults.
    - The whole system ([System]): in every state reached by any sequence of
      actions, the requester recorded in a binding is the user who wrote it
      last, and every call a reconciliation made is one that [accounted] ([Writes])
      allows for that user.  [Interleaving] shows the same when a reconciliation is
      interrupted before each of its calls, and that it takes the comparison of
      versions. [Locking] shows what that comparison does to the operator: no
      change of the status ends without an error and a retry.  [WhoAmI] shows
      that an operator with a bearer token finds the name it is exempted by, and
      which names are made up without one, [Startup] that it
      never runs half set up, [Events] that its own writes do not wake it up.
    - Safety of whole flows ([Safety], [Writes]): after any part of either flow, on
      success, error and panic, all references into the store are valid; processing
      changes nothing in the metadata of a binding but may take away the mark of a
      changed mapping; and with a recorded requester only workloads that the
      requester may update are worked on.  [accounted] lists the calls that are
      made: reads the requester may make, lists the requester may make or, unasked,
      of the types of resources services own, the binding, its secret, CRDs, and
      updates of types of which the requester may update some object.  These are invariants proved once per operation and lifted by [inv_auto].
    - The pipeline ([PipelineSpec]): where a flow stops, how panics end it, the
      finalizer protocol, deletions that cannot finish, and whole reconciliations in [Cluster].
    - Reading definitions ([BindingSpec], [CollectSpec]): the annotation parser
      and printer, annotation names, the data a secret annotation yields.
    - Status and secret ([ApisSpec], [ContextSpec]): conditions, the [Ready]
      report, the order-independent name of the secret, which mapping template is
      used, when a workload counts as changed.
    - Webhooks ([WebhooksSpec], [Marks]): who asked is recorded truthfully, what an
      update may change, exactly which mappings are accepted, and that the
      reconciler can use them, changing one marks exactly the bindings that use it,
      what the parser reads in the annotations of the registry and of OLM.
    - The CRD controller ([CrdSpec]) refines a set of kinds that it publishes.
    - Names ([Names]): the name of the secret is valid, and how long it is.
    - Copies ([DeepCopySpec]) read as the original and share no memory with it.

    Some theorems describe behaviour the code does not intend: variables left
    behind, reordered, taken away one at a time or replaced by a null, a deletion that never finishes, a
    failed secret reported as ready, a secret read under a wrong name, partial items
    after an error, a conflict after every change of the status, an update
    redirected by the secret path, secrets of services read unasked, kinds that stay
    published, names that are too long or made up.

    ** Bounds and fuel

    All definitions are total without fuel except reading a tree out of the
    store ([reify], used by [IsUpdated] and [FromUnstructured]), whose fuel is the
    size of the store; [reify_enough] shows that this is enough whenever any fuel
    is.  Base64 and SHA-256 compute on bytes and 32-bit words with their
    wrap-around; durations are [Z] nanoseconds far from overflow.

    ** What is not modelled

    The JSONPath parser, the template engines, JSON codecs, conversion to core
    types, the API server and the steps of the manager library are parameters.
    Logging, mocks, build metadata and the package [v1alpha3], which no code imports
    and whose types are those of [v1beta1], are left out.  Error texts are kept as
    the expression that builds them, since nothing inspects the rendered text.
    [System] and [Interleaving] are about one binding; other bindings are part of
    the environment.  What remains of the sources beside the definitions are
    imports, comments, the declarations of interfaces and of their mocks. *)

From stdpp Require Export base gmap strings list sorting.
From Stdlib Require Export ZArith Lia.

#[export] Set Default Goal Selector "!".
Global Open Scope string_scope.
Global Open Scope list_scope.
Global Open Scope nat_scope.

(** ** Go results

    [res A] is Go's [(A, error)] pair as every function of the operator uses
    it: a value or an error, never both.  The error type is a parameter here
    and is fixed to [GoValue.goerr] by the components. *)
Inductive res (E A : Type) : Type :=
| Ok (a : A)
| Err (e : E).
Arguments Ok {E A} a.
Arguments Err {E A} e.

(** The outcome of running a piece of Go code: it returns, or it panics with
    a message.  A panic unwinds to the nearest deferred [recover]. *)
Inductive outcome (A : Type) : Type :=
| Ret (a : A)
| Panic (msg : string).
Arguments Ret {A} a.
Arguments Panic {A} msg.

(** ** The state and panic monad

    A Go function that mutates what it can reach through its pointers is a
    function from the state before to its outcome and the state after; the
    state reached when the code panics is kept, because the mutations made
    before the panic stay visible after [recover]. *)
Definition M (S A : Type) : Type := S → outcome A * S.

#[export] Instance M_ret S : MRet (M S) := λ A a s, (Ret a, s).
#[export] Instance M_bind S : MBind (M S) := λ A B k m s,
  match m s with
  | (Ret a, s') => k a s'
  | (Panic e, s') => (Panic e, s')
  end.
#[export] Instance M_map S : FMap (M S) := λ A B f m,
  m ≫= (λ a, mret (f a)).

Definition mpanic {S A} (msg : string) : M S A := λ s, (Panic msg, s).
Definition mget {S} : M S S := λ s, (Ret s, s).
Definition mput {S} (s : S) : M S unit := λ _, (Ret tt, s).
Definition mgets {S A} (f : S → A) : M S A := λ s, (Ret (f s), s).
Definition mmodify {S} (f : S → S) : M S unit := λ s, (Ret tt, f s).

(** Running an operation on one field of a larger state. *)
Definition zoom {S T A} (get : S → T) (set : T → S → S) (m : M T A) : M S A :=
  λ s, let '(r, t) := m (get s) in (r, set t s).

(** Propagation of an error result: [let! x := m in k] runs [m] and, like
    [if err != nil { return err }], hands an error straight back. *)
Definition rbind {S E A B} (m : M S (res E A)) (k : A → M S (res E B)) :
    M S (res E B) :=
  m ≫= λ r, match r with Ok a => k a | Err e => mret (Err e) end.

(** The same on plain results. *)
Definition res_bind {E A B} (m : res E A) (k : A → res E B) : res E B :=
  match m with Ok a => k a | Err e => Err e end.

Declare Scope go_scope.
Delimit Scope go_scope with go.
Notation "'let!' x ':=' m 'in' k" := (rbind m (λ x, k))
  (at level 10, x binder, m at level 100, k at level 200) : go_scope.
Notation "'let?' x ':=' m 'in' k" := (res_bind m (λ x, k))
  (at level 10, x binder, m at level 100, k at level 200) : go_scope.
Global Open Scope go_scope.

(** ** Loops

    [for _, x := range xs { body }] where the body may [return r] out of the
    enclosing function. *)
Inductive ctl (R : Type) : Type :=
| Next
| Return (r : R).
Arguments Next {R}.
Arguments Return {R} r.

Fixpoint for_each {S A R} (xs : list A) (body : A → M S (ctl R)) : M S (ctl R) :=
  match xs with
  | [] => mret Next
  | x :: xs' =>
      c ← body x;
      match c with
      | Next => for_each xs' body
      | Return r => mret (Return r)
      end
  end.

(** A loop whose body never returns out of the function. *)
Fixpoint for_all {S A} (xs : list A) (body : A → M S unit) : M S unit :=
  match xs with
  | [] => mret tt
  | x :: xs' => _ ← body x; for_all xs' body
  end.

(** A loop that collects values and stops at the first error. *)
Fixpoint map_res {E A B} (f : A → res E B) (xs : list A) : res E (list B) :=
  match xs with
  | [] => Ok []
  | x :: xs' => let? y := f x in let? ys := map_res f xs' in Ok (y :: ys)
  end.

(** ** Go maps as lists of entries

    A [map[string]T] that is ranged over is the list of its entries in the
    order the range visits them; Go leaves that order open, so a statement
    that holds for every list of entries holds for every iteration order. *)
Fixpoint aget {A} (k : string) (m : list (string * A)) : option A :=
  match m with
  | [] => None
  | (k', v) :: m' => if String.eqb k k' then Some v else aget k m'
  end.

Fixpoint aset {A} (k : string) (v : A) (m : list (string * A)) : list (string * A) :=
  match m with
  | [] => [(k, v)]
  | (k', v') :: m' => if String.eqb k k' then (k, v) :: m' else (k', v') :: aset k v m'
  end.

Fixpoint adel {A} (k : string) (m : list (string * A)) : list (string * A) :=
  match m with
  | [] => []
  | (k', v') :: m' => if String.eqb k k' then m' else (k', v') :: adel k m'
  end.

(** [append(l[:i], l[i+1:]...)] at the first index whose element satisfies
    [p], followed by a [break]; [None] when no element does. *)
Fixpoint remove_first {A} (p : A → bool) (l : list A) : option (list A) :=
  match l with
  | [] => None
  | x :: l' => if p x then Some l' else (x ::.) <$> remove_first p l'
  end.

(** The replace-or-append loop of [AddVolume] and [AddVolumeMount]: every
    element that satisfies [p] becomes [u]; when none does, [u] is appended. *)
Definition replace_or_append {A} (p : A → bool) (u : A) (l : list A) : list A :=
  let l' := map (λ x, if p x then u else x) l in
  if existsb p l then l' else l' ++ [u].

(** ** String order, for [sort.Strings] *)
Definition string_le (a b : string) : Prop := String.leb a b = true.
#[export] Instance string_le_dec : RelDecision string_le := λ a b, bool_eq_dec _ _.
Definition sort_strings (l : list string) : list string := merge_sort string_le l.

(** * Tactics and lemmas *)

Create HintDb go discriminated.

(** Case analysis on the scrutinee of the first [match] or [if] found, with
    the resulting equations simplified. *)
Ltac go_case :=
  match goal with
  | |- context [match ?x with _ => _ end] => destruct x eqn:?; simplify_eq/=
  | H : context [match ?x with _ => _ end] |- _ => destruct x eqn:?; simplify_eq/=
  end.
Ltac go_cases := repeat (go_case; try done).

(** Unfolds one layer of the monad. *)
Ltac m_unfold :=
  unfold rbind, mbind, M_bind, mret, M_ret, fmap, M_map, mgets, mmodify, mput, mget,
    mpanic in *.

(** [set_solver] on the named hypotheses only. *)
Tactic Notation "set_by" hyp_list(hs) := revert hs; clear; intros; set_solver.

(** Turns boolean string tests into equalities. *)
Ltac str_cases :=
  repeat match goal with
  | |- context [String.eqb ?a ?b] => destruct (String.eqb_spec a b)
  | H : context [String.eqb ?a ?b] |- _ => destruct (String.eqb_spec a b)
  end.

(** Case analysis on boolean comparisons of integers, closed by [lia]. *)
Ltac z_cases :=
  rewrite ?Z.geb_leb, ?Z.gtb_ltb in *;
  repeat (cbn [andb orb negb] in *; match goal with
  | |- context [(?a <? ?b)%Z] => destruct (Z.ltb_spec a b); try lia
  | |- context [(?a <=? ?b)%Z] => destruct (Z.leb_spec a b); try lia
  | |- context [(?a =? ?b)%Z] => destruct (Z.eqb_spec a b); try lia
  end); cbn [andb orb negb] in *; try lia.

Section Monad.
Context {S : Type}.

Lemma mbind_ret {A B} (m : M S A) (k : A → M S B) s a s' :
  m s = (Ret a, s') → (m ≫= k) s = k a s'.
Proof. intros H. m_unfold. by rewrite H. Qed.

Lemma mbind_panic {A B} (m : M S A) (k : A → M S B) s e s' :
  m s = (Panic e, s') → (m ≫= k) s = (Panic e, s').
Proof. intros H. m_unfold. by rewrite H. Qed.

Lemma mbind_inv {A B} (m : M S A) (k : A → M S B) s b s' :
  (m ≫= k) s = (Ret b, s') →
  ∃ a s1, m s = (Ret a, s1) ∧ k a s1 = (Ret b, s').
Proof. m_unfold. destruct (m s) as [[a|e] s1]; naive_solver. Qed.

Lemma rbind_inv {E A B} (m : M S (res E A)) (k : A → M S (res E B)) s b s' :
  rbind m k s = (Ret (Ok b), s') →
  ∃ a s1, m s = (Ret (Ok a), s1) ∧ k a s1 = (Ret (Ok b), s').
Proof.
  unfold rbind. intros ([a|e] & s1 & Hm & Hk)%mbind_inv; [eauto|].
  m_unfold. simplify_eq.
Qed.

Lemma for_all_app {A} (xs ys : list A) (body : A → M S unit) s :
  for_all (xs ++ ys) body s = (for_all xs body ≫= λ _, for_all ys body) s.
Proof.
  revert s. induction xs as [|x xs IH]; intros s; [done|].
  simpl. m_unfold. destruct (body x s) as [[u|e] s1]; [apply IH|done].
Qed.

(** A predicate on states that every iteration keeps is kept by the loop. *)
Lemma for_all_inv {A} (P : S → Prop) (xs : list A) (body : A → M S unit) s r s' :
  (∀ x t u t', x ∈ xs → P t → body x t = (u, t') → P t') →
  P s → for_all xs body s = (r, s') → P s'.
Proof.
  revert s. induction xs as [|x xs IH]; intros s Hb Hs; simpl; m_unfold.
  - intros ?; by simplify_eq.
  - destruct (body x s) as [[u|e] s1] eqn:Hx; intros Hr.
    + apply (IH s1); [|by eapply Hb, Hx; [left|]|done].
      intros y t v t' Hy. apply Hb. by right.
    + simplify_eq. by eapply Hb, Hx; [left|].
Qed.

Lemma for_each_inv {A R} (P : S → Prop) (xs : list A) (body : A → M S (ctl R)) s r s' :
  (∀ x t u t', x ∈ xs → P t → body x t = (u, t') → P t') →
  P s → for_each xs body s = (r, s') → P s'.
Proof.
  revert s. induction xs as [|x xs IH]; intros s Hb Hs; simpl; m_unfold.
  - intros ?; by simplify_eq.
  - destruct (body x s) as [[[|v]|e] s1] eqn:Hx; intros Hr.
    + apply (IH s1); [|by eapply Hb, Hx; [left|]|done].
      intros y t w t' Hy. apply Hb. by right.
    + simplify_eq. by eapply Hb, Hx; [left|].
    + simplify_eq. by eapply Hb, Hx; [left|].
Qed.
End Monad.

Section Assoc.
Context {A : Type}.
Implicit Types (m : list (string * A)) (v : A).

Lemma aget_aset k k' v m : aget k (aset k' v m) = if String.eqb k k' then Some v else aget k m.
Proof.
  induction m as [|[k1 v1] m IH]; simpl; [done|].
  destruct (String.eqb_spec k' k1) as [->|]; simpl.
  - by destruct (String.eqb k k1).
  - rewrite IH. str_cases; subst; done.
Qed.

Lemma aget_aset_eq k v m : aget k (aset k v m) = Some v.
Proof. by rewrite aget_aset, String.eqb_refl. Qed.

Lemma aget_aset_ne k k' v m : k ≠ k' → aget k (aset k' v m) = aget k m.
Proof. intros. rewrite aget_aset. by str_cases. Qed.

Lemma aget_adel_ne k k' m : k ≠ k' → aget k (adel k' m) = aget k m.
Proof.
  intros Hk. induction m as [|[x v] m IH]; simpl; [done|].
  destruct (String.eqb_spec k' x) as [<-|]; simpl.
  - by destruct (String.eqb_spec k k').
  - by rewrite IH.
Qed.

Lemma aget_elem k v m : aget k m = Some v → (k, v) ∈ m.
Proof.
  induction m as [|[k1 v1] m IH]; simpl; [done|].
  str_cases; intros; simplify_eq; [left|right; auto].
Qed.

Lemma aget_None k m : aget k m = None ↔ k ∉ m.*1.
Proof.
  induction m as [|[k1 v1] m IH]; csimpl; [split; [intros _ ?%elem_of_nil|]; done|].
  rewrite not_elem_of_cons. str_cases; naive_solver.
Qed.

Lemma elem_aget k v m : NoDup m.*1 → (k, v) ∈ m → aget k m = Some v.
Proof.
  induction m as [|[k1 v1] m IH]; csimpl; [intros _ ?%elem_of_nil; done|].
  intros [Hk1 Hm]%NoDup_cons [?|Hin]%elem_of_cons; simplify_eq.
  - by rewrite String.eqb_refl.
  - str_cases; subst; [|auto].
    destruct Hk1. apply list_elem_of_fmap. by exists (k1, v).
Qed.

Lemma aset_keys k v m : k ∈ m.*1 → (aset k v m).*1 = m.*1.
Proof.
  induction m as [|[k1 v1] m IH]; csimpl; [intros ?%elem_of_nil; done|].
  intros Hk. str_cases; subst; csimpl; [done|]. f_equal. apply IH. set_solver.
Qed.

Lemma aset_keys_fresh k v m : k ∉ m.*1 → aset k v m = m ++ [(k, v)].
Proof.
  induction m as [|[k1 v1] m IH]; csimpl; [done|].
  intros Hk. str_cases; subst; [set_solver|]. f_equal. apply IH. set_solver.
Qed.

Lemma aset_NoDup k v m : NoDup m.*1 → NoDup (aset k v m).*1.
Proof.
  intros Hm. destruct (decide (k ∈ m.*1)) as [Hk|Hk].
  - by rewrite aset_keys.
  - rewrite aset_keys_fresh, fmap_app by done. apply NoDup_app.
    split; [done|]. split; [set_solver|]. apply NoDup_singleton.
Qed.

(** The value stored under a key does not depend on the order of the entries. *)
Lemma aget_perm k m1 m2 : NoDup m1.*1 → m1 ≡ₚ m2 → aget k m1 = aget k m2.
Proof.
  intros Hnd Hp. destruct (aget k m1) as [v|] eqn:H1.
  - symmetry. apply elem_aget; [by rewrite <- Hp|]. rewrite <- Hp. by apply aget_elem.
  - symmetry. apply aget_None. rewrite <- Hp. by apply aget_None.
Qed.
End Assoc.

Section Lists.
Context {A : Type} (p : A → bool).

Lemma remove_first_None l : remove_first p l = None ↔ Forall (λ x, p x = false) l.
Proof.
  induction l as [|x l IH]; simpl; [by split|].
  rewrite Forall_cons. destruct (p x); [naive_solver|].
  rewrite fmap_None, IH. naive_solver.
Qed.

Lemma remove_first_Some l l' : remove_first p l = Some l' ↔
  ∃ l1 x l2, l = l1 ++ x :: l2 ∧ l' = l1 ++ l2 ∧ p x = true ∧ Forall (λ y, p y = false) l1.
Proof.
  revert l'. induction l as [|x l IH]; intros l'; simpl.
  { split; [done|]. by intros ([|??] & ? & ? & ? & _). }
  destruct (p x) eqn:Hx.
  - split.
    + intros ?; simplify_eq. by exists [], x, l'.
    + intros ([|y l1] & z & l2 & ? & ? & ? & HF); simplify_eq/=; [done|].
      apply Forall_cons in HF. naive_solver congruence.
  - rewrite fmap_Some. setoid_rewrite IH. split.
    + intros (l0 & (l1 & y & l2 & -> & -> & ? & ?) & ->). exists (x :: l1), y, l2. by auto.
    + intros ([|y l1] & z & l2 & ? & ? & ? & HF); simplify_eq/=; [congruence|].
      apply Forall_cons in HF as [??]. eexists. split; [|done]. by exists l1, z, l2.
Qed.

Lemma replace_or_append_elem u l : u ∈ replace_or_append p u l.
Proof.
  unfold replace_or_append. destruct (existsb p l) eqn:He; [|set_solver].
  apply existsb_exists in He as (x & Hx & Hp). apply list_elem_of_In.
  apply in_map_iff. exists x. by rewrite Hp.
Qed.

Lemma replace_or_append_others u l x :
  p x = false → (x ∈ replace_or_append p u l ↔ x ∈ l ∨ x = u).
Proof.
  intros Hx. unfold replace_or_append.
  assert (x ∈ map (λ x, if p x then u else x) l ↔ x ∈ l ∨ x = u ∧ existsb p l = true) as Hm.
  { induction l as [|y l IH]; simpl; [set_solver|].
    rewrite !elem_of_cons, IH. destruct (p y) eqn:Hy; naive_solver congruence. }
  destruct (existsb p l); rewrite ?elem_of_app, Hm; set_solver.
Qed.

(** Exactly one element satisfies [p] afterwards, when at most one did before. *)
Lemma replace_or_append_unique u l :
  p u = true → length (filter (λ x, p x = true) l) ≤ 1 →
  filter (λ x, p x = true) (replace_or_append p u l) = [u].
Proof.
  intros Hu Hl. unfold replace_or_append.
  assert (Hnone : ∀ l', existsb p l' = false →
    filter (λ x, p x = true) (map (λ x, if p x then u else x) l') = []).
  { induction l' as [|y l' IH]; simpl; [done|]. intros [Hy He]%orb_false_iff.
    rewrite Hy, filter_cons_False by congruence. auto. }
  destruct (existsb p l) eqn:He.
  - revert Hl He. induction l as [|y l IH]; simpl; [done|].
    rewrite filter_cons. destruct (p y) eqn:Hy; simpl; intros Hl He.
    + rewrite filter_cons_True by done. f_equal.
      apply Hnone. destruct (existsb p l) eqn:He'; [|done].
      apply existsb_exists in He' as (z & Hz & Hp). simpl in Hl.
      assert (z ∈ filter (λ x, p x = true) l) as Hin
        by (apply list_elem_of_filter; split; [done|]; by apply list_elem_of_In).
      destruct (filter _ l); [by apply elem_of_nil in Hin|simpl in Hl; lia].
    + rewrite filter_cons_False by congruence. auto.
  - rewrite filter_app, Hnone by done. rewrite filter_cons_True by done. done.
Qed.

(** Doing it twice is doing it once. *)
Lemma replace_or_append_idem u l :
  p u = true → replace_or_append p u (replace_or_append p u l) = replace_or_append p u l.
Proof.
  intros Hu. unfold replace_or_append at 1.
  assert (existsb p (replace_or_append p u l) = true) as ->.
  { apply existsb_exists. exists u. split; [|done].
    apply list_elem_of_In, replace_or_append_elem. }
  assert (Hmap : ∀ l', map (λ x, if p x then u else x) (map (λ x, if p x then u else x) l')
    = map (λ x, if p x then u else x) l').
  { intros l'. rewrite map_map. apply map_ext. intros x. destruct (p x) eqn:Hx; by rewrite ?Hu, ?Hx. }
  unfold replace_or_append. destruct (existsb p l); [apply Hmap|].
  rewrite map_app, Hmap. simpl. by rewrite Hu.
Qed.

(** Removing what was appended gives the list back. *)
Lemma remove_first_replace_or_append u l :
  p u = true → existsb p l = false →
  remove_first p (replace_or_append p u l) = Some l.
Proof.
  intros Hu Hl. unfold replace_or_append. rewrite Hl.
  assert (map (λ x, if p x then u else x) l = l) as ->.
  { induction l as [|y l IH]; simpl in *; [done|].
    apply orb_false_iff in Hl as [-> Hl]. by rewrite IH. }
  apply remove_first_Some. exists l, u, []. rewrite app_nil_r.
  repeat split; [done|]. clear Hu. induction l; simpl in *; [done|].
  apply orb_false_iff in Hl as [??]. auto.
Qed.
End Lists.

Lemma mapM_ext_elem {A B} (f g : A → option B) l :
  (∀ x, x ∈ l → f x = g x) → mapM f l = mapM g l.
Proof.
  induction l as [|x l IH]; intros Hfg; simpl; [done|].
  rewrite Hfg by set_solver. rewrite IH; [done|]. intros. apply Hfg. set_solver.
Qed.

Lemma existsb_false {A} (f : A → bool) l x : existsb f l = false → x ∈ l → f x = false.
Proof.
  intros He Hx%list_elem_of_In. destruct (f x) eqn:E; [|done].
  enough (existsb f l = true) by congruence. apply existsb_exists. eauto.
Qed.

(** ** Invariants of stateful code

    [inv P m]: running [m] from a state that satisfies [P] ends in one that
    does, whether it returns or panics.  The rules follow the structure of the
    code, so [inv_auto] proves an invariant of a program from the invariants of
    its parts, which are hints of the database [inv]. *)
Definition inv {S A} (P : S → Prop) (m : M S A) : Prop := ∀ s, P s → P (m s).2.

Create HintDb inv discriminated.
#[export] Hint Constants Opaque : inv.

Section Inv.
Context {S : Type} (P : S → Prop).

Lemma inv_ret {A} (a : A) : inv P (mret a).
Proof. by intros s Hs. Qed.
Lemma inv_panic {A} e : inv P (mpanic (A := A) e).
Proof. by intros s Hs. Qed.
Lemma inv_gets {A} (f : S → A) : inv P (mgets f).
Proof. by intros s Hs. Qed.
Lemma inv_get : inv P mget.
Proof. by intros s Hs. Qed.

Lemma inv_bind {A B} (m : M S A) (k : A → M S B) :
  inv P m → (∀ a, inv P (k a)) → inv P (m ≫= k).
Proof.
  intros Hm Hk s Hs. specialize (Hm s Hs). m_unfold.
  destruct (m s) as [[a|e] s1]; [by apply Hk|done].
Qed.

Lemma inv_rbind {E A B} (m : M S (res E A)) (k : A → M S (res E B)) :
  inv P m → (∀ a, inv P (k a)) → inv P (rbind m k).
Proof. intros Hm Hk. apply inv_bind; [done|]. intros [a|e]; [done|apply inv_ret]. Qed.

Lemma inv_for_each {A R} (xs : list A) (body : A → M S (ctl R)) :
  (∀ x, x ∈ xs → inv P (body x)) → inv P (for_each xs body).
Proof.
  induction xs as [|x xs IH]; intros Hb; [apply inv_ret|]. apply inv_bind; [by apply Hb; left|].
  intros [|r]; [|apply inv_ret]. apply IH. intros y Hy. apply Hb. by right.
Qed.

Lemma inv_for_all {A} (xs : list A) (body : A → M S unit) :
  (∀ x, x ∈ xs → inv P (body x)) → inv P (for_all xs body).
Proof.
  induction xs as [|x xs IH]; intros Hb; [apply inv_ret|]. apply inv_bind; [by apply Hb; left|].
  intros _. apply IH. intros y Hy. apply Hb. by right.
Qed.

Lemma inv_modify (f : S → S) : (∀ s, P s → P (f s)) → inv P (mmodify f).
Proof. intros Hf s Hs. by apply Hf. Qed.

Lemma inv_fmap {A B} (f : A → B) (m : M S A) : inv P m → inv P (f <$> m).
Proof. intros Hm. exact (inv_bind m (λ a, mret (f a)) Hm (λ a, inv_ret (f a))). Qed.

(** A postcondition that the rest of the program may rely on. *)
Lemma inv_bind_post {A B} (Q : A → Prop) (m : M S A) (k : A → M S B) :
  inv P m → (∀ s a s', P s → m s = (Ret a, s') → Q a) → (∀ a, Q a → inv P (k a)) → inv P (m ≫= k).
Proof.
  intros Hm HQ Hk s Hs. pose proof (Hm s Hs) as Hs1. m_unfold.
  destruct (m s) as [[a|e] s1] eqn:E; [|done]. apply (Hk a); [exact (HQ _ _ _ Hs E)|done].
Qed.
End Inv.

#[export] Hint Resolve inv_ret inv_panic inv_gets inv_get : inv.

(** One structural step of an invariant proof. *)
Ltac inv_step :=
  match goal with
  | |- inv _ (mbind _ _) => apply inv_bind; [|intros ?]
  | |- inv _ (rbind _ _) => apply inv_rbind; [|intros ?]
  | |- inv _ (for_each _ _) => apply inv_for_each; intros ? ?
  | |- inv _ (for_all _ _) => apply inv_for_all; intros ? ?
  | |- inv _ (fmap _ _) => apply inv_fmap
  | |- inv _ (let '(_, _) := ?x in _) => destruct x
  | |- inv _ (match ?x with _ => _ end) => destruct x
  | |- inv _ (let _ := _ in _) => cbv zeta
  end.
Ltac inv_auto := repeat inv_step; try solve [eauto 3 with inv].
