(* ===== verification/GoLib.v ===== *)
(** * The parts of the Go standard library the operator calls

    [strings], [path], [sort] and [encoding/base64], as executable functions
    on byte strings, with the laws the components rely on. *)

From S2P Require Import Prelude.
From stdpp Require Export pretty.
From Stdlib Require Export Ascii.

(** ** Package [strings] *)

(** [strings.HasPrefix(s, p)]. *)
Definition HasPrefix (s p : string) : bool := String.prefix p s.

(** [s[n:]]. *)
Fixpoint drop_str (n : nat) (s : string) : string :=
  match n, s with
  | S n', String _ s' => drop_str n' s'
  | _, _ => s
  end.

(** [strings.TrimPrefix(s, p)]. *)
Definition TrimPrefix (s p : string) : string :=
  if HasPrefix s p then drop_str (String.length p) s else s.

(** [strings.Split(s, sep)] for a one-byte separator, the only ones used. *)
Fixpoint Split (s : string) (sep : ascii) : list string :=
  match s with
  | EmptyString => [""]
  | String a s' =>
      if Ascii.eqb a sep then "" :: Split s' sep
      else match Split s' sep with
           | [] => [String a ""]
           | h :: t => String a h :: t
           end
  end.

(** [strings.SplitN(s, sep, 2)]. *)
Fixpoint SplitN2 (s : string) (sep : ascii) : list string :=
  match s with
  | EmptyString => [""]
  | String a s' =>
      if Ascii.eqb a sep then [""; s']
      else match SplitN2 s' sep with
           | [] => [String a ""]
           | h :: t => String a h :: t
           end
  end.

(** [strings.Join(l, sep)]. *)
Fixpoint Join (l : list string) (sep : string) : string :=
  match l with
  | [] => ""
  | [s] => s
  | s :: l' => s +:+ sep +:+ Join l' sep
  end.

(** [strings.Count(s, c)] for a one-byte substring. *)
Fixpoint Count (s : string) (c : ascii) : nat :=
  match s with
  | EmptyString => 0
  | String a s' => (if Ascii.eqb a c then 1 else 0) + Count s' c
  end.

(** [strings.TrimSpace(s) == ""]: only white space, in UTF-8: the ASCII
    characters, U+0085 and U+00A0 in two bytes, and U+1680, U+2000 to U+200A,
    U+2028, U+2029, U+202F, U+205F and U+3000 in three. *)
Definition is_space (a : ascii) : bool :=
  let n := nat_of_ascii a in
  (n =? 32) || (n =? 9) || (n =? 10) || (n =? 11) || (n =? 12) || (n =? 13).
Definition is_space2 (a b : ascii) : bool :=
  (nat_of_ascii a =? 194) && ((nat_of_ascii b =? 133) || (nat_of_ascii b =? 160)).
Definition is_space3 (a b c : ascii) : bool :=
  let '(x, y, z) := (nat_of_ascii a, nat_of_ascii b, nat_of_ascii c) in
  (x =? 225) && (y =? 154) && (z =? 128) ||
  (x =? 226) && (y =? 128) &&
    ((128 <=? z) && (z <=? 138) || (z =? 168) || (z =? 169) || (z =? 175)) ||
  (x =? 226) && (y =? 129) && (z =? 159) ||
  (x =? 227) && (y =? 128) && (z =? 128).
Fixpoint blank (s : string) : bool :=
  match s with
  | EmptyString => true
  | String a s1 =>
      if is_space a then blank s1
      else match s1 with
           | EmptyString => false
           | String b s2 =>
               if is_space2 a b then blank s2
               else match s2 with
                    | EmptyString => false
                    | String c s3 => is_space3 a b c && blank s3
                    end
           end
  end.

Arguments Split s%_string sep%_char.
Arguments SplitN2 s%_string sep%_char.
Arguments Count s%_string c%_char.

(** ** Package [path] *)

(** One component of [path.Clean]; the stack holds the cleaned components,
    innermost first. *)
Definition clean_step (rooted : bool) (stack : list string) (c : string) : list string :=
  if String.eqb c "" then stack
  else if String.eqb c "." then stack
  else if String.eqb c ".." then
    match stack with
    | [] => if rooted then [] else [".."]
    | t :: stack' => if String.eqb t ".." then ".." :: stack else stack'
    end
  else c :: stack.

(** [path.Clean]. *)
Definition Clean (p : string) : string :=
  if String.eqb p "" then "."
  else
    let rooted := HasPrefix p "/" in
    let body := Join (rev (foldl (clean_step rooted) [] (Split p "/"))) "/" in
    if rooted then "/" +:+ body
    else if String.eqb body "" then "." else body.

(** [path.Join(a, b)]: empty elements are ignored, the result is cleaned. *)
Definition path_Join (a b : string) : string :=
  match filter (λ s, s ≠ "") [a; b] with
  | [] => ""
  | l => Clean (Join l "/")
  end.

(** ** Package [encoding/base64], standard encoding *)

(** A sextet, most significant bit first. *)
Definition sextet : Type := (bool * bool * bool) * (bool * bool * bool).

Definition alphabet : string :=
  "ABCDEFGHIJKLMNOPQRSTUVWXYZabcdefghijklmnopqrstuvwxyz0123456789+/".

Definition b2n (b : bool) : nat := if b then 1 else 0.
Definition sextet_index (s : sextet) : nat :=
  let '((a, b, c), (d, e, f)) := s in
  32 * b2n a + 16 * b2n b + 8 * b2n c + 4 * b2n d + 2 * b2n e + b2n f.
Definition index_sextet (n : nat) : sextet :=
  ((Nat.testbit n 5, Nat.testbit n 4, Nat.testbit n 3),
   (Nat.testbit n 2, Nat.testbit n 1, Nat.testbit n 0)).

Fixpoint index_of (c : ascii) (s : string) : option nat :=
  match s with
  | EmptyString => None
  | String a s' => if Ascii.eqb a c then Some 0 else S <$> index_of c s'
  end.

Definition enc6 (s : sextet) : ascii :=
  default "A"%char (String.get (sextet_index s) alphabet).
Definition dec6 (c : ascii) : option sextet := index_sextet <$> index_of c alphabet.

(** Three bytes as four sextets, and back. *)
Definition sextets (x y z : ascii) : sextet * sextet * sextet * sextet :=
  let '(Ascii x0 x1 x2 x3 x4 x5 x6 x7) := x in
  let '(Ascii y0 y1 y2 y3 y4 y5 y6 y7) := y in
  let '(Ascii z0 z1 z2 z3 z4 z5 z6 z7) := z in
  (((x7, x6, x5), (x4, x3, x2)), ((x1, x0, y7), (y6, y5, y4)),
   ((y3, y2, y1), (y0, z7, z6)), ((z5, z4, z3), (z2, z1, z0))).
Definition octet1 (s t : sextet) : ascii :=
  let '((a, b, c), (d, e, f)) := s in let '((g, h, _), _) := t in
  Ascii h g f e d c b a.
Definition octet2 (s t : sextet) : ascii :=
  let '((_, _, a), (b, c, d)) := s in let '((e, f, g), (h, _, _)) := t in
  Ascii h g f e d c b a.
Definition octet3 (s t : sextet) : ascii :=
  let '(_, (_, a, b)) := s in let '((c, d, e), (f, g, h)) := t in
  Ascii h g f e d c b a.

Definition padc : ascii := "="%char.
Definition zero : ascii := "000"%char.

(** [base64.StdEncoding.EncodeToString]. *)
Fixpoint EncodeToString (s : string) : string :=
  match s with
  | String x (String y (String z s')) =>
      let '(a, b, c, d) := sextets x y z in
      String (enc6 a) (String (enc6 b) (String (enc6 c) (String (enc6 d) (EncodeToString s'))))
  | String x (String y EmptyString) =>
      let '(a, b, c, _) := sextets x y zero in
      String (enc6 a) (String (enc6 b) (String (enc6 c) (String padc EmptyString)))
  | String x EmptyString =>
      let '(a, b, _, _) := sextets x zero zero in
      String (enc6 a) (String (enc6 b) (String padc (String padc EmptyString)))
  | EmptyString => EmptyString
  end.

(** The decoder skips carriage returns and line feeds wherever they are. *)
Fixpoint skip_newlines (s : string) : string :=
  match s with
  | EmptyString => EmptyString
  | String a s' =>
      if Ascii.eqb a "010"%char || Ascii.eqb a "013"%char then skip_newlines s'
      else String a (skip_newlines s')
  end.

(** Quantum by quantum; [None] is Go's [CorruptInputError].  Padding is
    accepted only in the last quantum and the unused low bits before it are
    not checked (the encoding is not strict). *)
Fixpoint decode_quanta (s : string) : option string :=
  match s with
  | EmptyString => Some EmptyString
  | String a (String b (String c (String d s'))) =>
      match dec6 a, dec6 b with
      | Some sa, Some sb =>
          if Ascii.eqb c padc then
            if Ascii.eqb d padc
            then match s' with
                 | EmptyString => Some (String (octet1 sa sb) EmptyString)
                 | _ => None
                 end
            else None
          else
            match dec6 c with
            | Some sc =>
                if Ascii.eqb d padc
                then match s' with
                     | EmptyString => Some (String (octet1 sa sb) (String (octet2 sb sc) EmptyString))
                     | _ => None
                     end
                else
                  match dec6 d with
                  | Some sd =>
                      (λ r, String (octet1 sa sb) (String (octet2 sb sc) (String (octet3 sc sd) r)))
                        <$> decode_quanta s'
                  | None => None
                  end
            | None => None
            end
      | _, _ => None
      end
  | _ => None
  end.

(** [base64.StdEncoding.DecodeString]. *)
Definition DecodeString (s : string) : option string := decode_quanta (skip_newlines s).

(** * Laws *)

Lemma string_app_cons a s t : String a s +:+ t = String a (s +:+ t).
Proof. reflexivity. Qed.

Lemma string_app_nil_r s : s +:+ "" = s.
Proof. induction s as [|a s IH]; [done|]. by rewrite string_app_cons, IH. Qed.

Lemma string_app_assoc (a b c : string) : (a +:+ b) +:+ c = a +:+ b +:+ c.
Proof. induction a as [|x a IH]; [done|]. by rewrite !string_app_cons, IH. Qed.

Lemma string_length_app s t : String.length (s +:+ t) = String.length s + String.length t.
Proof. induction s as [|a s IH]; [done|]. change (S (String.length (s +:+ t)) = S (String.length s + String.length t)). by rewrite IH. Qed.

Lemma Count_app s t c : Count (s +:+ t) c = Count s c + Count t c.
Proof. induction s as [|a s IH]; [done|]. rewrite string_app_cons. simpl. rewrite IH. lia. Qed.

(** Two ways to cut the same text. *)
Lemma string_app_cut (a b c d : string) :
  a +:+ b = c +:+ d → (∃ k, a = c +:+ k ∧ d = k +:+ b) ∨ (∃ k, c = a +:+ k ∧ b = k +:+ d).
Proof.
  revert c. induction a as [|x a IH]; intros c Heq; [right; by exists c|].
  destruct c as [|y c]; [left; by exists (String x a)|]. rewrite !string_app_cons in Heq.
  injection Heq as <- [(k & -> & ->)|(k & -> & ->)]%IH; [left|right]; exists k; by rewrite ?string_app_cons.
Qed.

Lemma prefix_app p s : String.prefix p (p +:+ s) = true.
Proof.
  induction p as [|a p IH]; [by destruct s|].
  rewrite string_app_cons. simpl. by destruct (ascii_dec a a).
Qed.

Lemma drop_str_app p s : drop_str (String.length p) (p +:+ s) = s.
Proof. induction p as [|a p IH]; [done|]. by rewrite string_app_cons. Qed.

Lemma prefix_split p s :
  String.prefix p s = true → s = p +:+ drop_str (String.length p) s.
Proof.
  revert s. induction p as [|a p IH]; intros s; [by destruct s|].
  destruct s as [|b s]; [done|]. simpl. destruct (ascii_dec a b) as [->|]; [|done].
  intros H. rewrite string_app_cons. f_equal. by apply IH.
Qed.

Lemma HasPrefix_spec s p : HasPrefix s p = true ↔ ∃ t, s = p +:+ t.
Proof.
  unfold HasPrefix. split.
  - intros H. eexists. by apply prefix_split.
  - intros [t ->]. apply prefix_app.
Qed.

Lemma Split_ne s c : Split s c ≠ [].
Proof. destruct s; simpl; [done|]. repeat case_match; done. Qed.

(** Splitting and joining again gives the string back. *)
Lemma Join_Split s c : Join (Split s c) (String c EmptyString) = s.
Proof.
  induction s as [|a s IH]; [done|]. simpl.
  pose proof (Split_ne s c) as Hne.
  destruct (Ascii.eqb_spec a c) as [->|Hac].
  - destruct (Split s c) as [|h t] eqn:E; [done|]. cbn [Join].
    change (String c (Join (h :: t) (String c EmptyString)) = String c s). by f_equal.
  - destruct (Split s c) as [|h t] eqn:E; [done|].
    destruct t as [|h' t]; cbn [Join] in IH |- *; by rewrite <- IH.
Qed.

Lemma Split_app_sep s c t : Count s c = 0 → Split (s +:+ String c t) c = s :: Split t c.
Proof.
  induction s as [|a s IH]; rewrite ?string_app_cons; simpl.
  - by rewrite Ascii.eqb_refl.
  - destruct (Ascii.eqb a c); [done|]. intros H. by rewrite IH.
Qed.

Lemma Split_single s c : Count s c = 0 → Split s c = [s].
Proof.
  induction s as [|a s IH]; cbn; [done|].
  destruct (Ascii.eqb a c); [done|]. intros H. by rewrite IH.
Qed.

(** Joining separator-free parts and splitting again gives the parts back. *)
Lemma Split_Join l c :
  l ≠ [] → Forall (λ s, Count s c = 0) l → Split (Join l (String c EmptyString)) c = l.
Proof.
  induction l as [|s l IH]; [done|]. intros _ [Hs Hl]%Forall_cons.
  destruct l as [|s' l]; [by apply Split_single|].
  change (Join (s :: s' :: l) (String c "")) with (s +:+ String c (Join (s' :: l) (String c ""))).
  rewrite Split_app_sep by done. f_equal. by apply IH.
Qed.

Lemma dec6_enc6 s : dec6 (enc6 s) = Some s.
Proof. destruct s as [[[[] []] []] [[[] []] []]]; vm_compute; reflexivity. Qed.

Lemma enc6_not_pad s : Ascii.eqb (enc6 s) padc = false.
Proof. destruct s as [[[[] []] []] [[[] []] []]]; vm_compute; reflexivity. Qed.

Lemma enc6_not_newline s :
  Ascii.eqb (enc6 s) "010"%char || Ascii.eqb (enc6 s) "013"%char = false.
Proof. destruct s as [[[[] []] []] [[[] []] []]]; vm_compute; reflexivity. Qed.

(** Induction over a string three bytes at a time. *)
Lemma string_ind3 (P : string → Prop) :
  P "" → (∀ x, P (String x "")) → (∀ x y, P (String x (String y ""))) →
  (∀ x y z s, P s → P (String x (String y (String z s)))) → ∀ s, P s.
Proof.
  intros H0 H1 H2 H3.
  assert (∀ n s, String.length s ≤ n → P s) as H; [|by eauto].
  induction n as [|n IH]; intros [|x [|y [|z s]]] Hl; simpl in Hl; auto; try lia.
  apply H3, IH. lia.
Qed.

Lemma skip_newlines_encode s : skip_newlines (EncodeToString s) = EncodeToString s.
Proof.
  induction s as [|x|x y|x y z s IH] using string_ind3; [done| | |];
    cbn [EncodeToString]; destruct (sextets _ _ _) as [[[a b] c] d];
    cbn [skip_newlines]; rewrite !enc6_not_newline; cbn; by rewrite ?IH.
Qed.

Lemma decode_quanta_encode s : decode_quanta (EncodeToString s) = Some s.
Proof.
  induction s as [|x|x y|x y z s IH] using string_ind3; [done| | |];
    cbn [EncodeToString]; destruct (sextets _ _ _) as [[[a b] c] d] eqn:E;
    cbn [decode_quanta]; rewrite !dec6_enc6, ?enc6_not_pad, ?Ascii.eqb_refl, ?IH.
  - by destruct x; injection E as <- <- <- <-.
  - by destruct x, y; injection E as <- <- <- <-.
  - by destruct x, y, z; injection E as <- <- <- <-.
Qed.

(** [base64.StdEncoding]: decoding undoes encoding. *)
Lemma DecodeString_encode s : DecodeString (EncodeToString s) = Some s.
Proof. unfold DecodeString. by rewrite skip_newlines_encode, decode_quanta_encode. Qed.
