(* ===== verification/GoValue.v ===== *)
(** * Dynamic Go values, errors and the unstructured accessors

    Kubernetes objects reach the operator as [map[string]interface{}] trees.
    A tree that is only read (a service, a secret, an object on its way to or
    from the API server) is a [json]; a tree that is mutated through pointers
    into its inside (a workload being bound) lives in a [heap], where every
    map is a cell with an address.  The accessors of
    [k8s.io/apimachinery/.../unstructured] are written once, against the
    [GoView] interface that both representations implement. *)

From S2P Require Import Prelude.
From S2P Require Import GoLib.

(** The two slice types that occur, [[]interface{}] and
    [[]map[string]interface{}], which Go type switches tell apart, and the nil
    slice of the second type, which has no elements but is not equal to an
    empty slice. *)
Inductive slice_ty : Type := SliceAny | SliceMap | SliceMapNil.

(** A [[]map[string]interface{}] that was built by [append] from a nil slice is
    still nil when nothing was appended; [n] is the number of its elements. *)
Definition built (n : nat) : slice_ty := match n with 0 => SliceMapNil | S _ => SliceMap end.

Lemma built_app {A} (l : list A) x l' : built (length (l ++ x :: l')) = SliceMap.
Proof. by destruct l. Qed.

(** A [float64] is represented by its shortest decimal rendering. *)
Unset Elimination Schemes.
Inductive json : Type :=
| JNil
| JBool (b : bool)
| JInt (z : Z)
| JFloat (repr : string)
| JStr (s : string)
| JArr (t : slice_ty) (l : list json)
| JObj (m : list (string * json)).

(** ** Errors

    An error is the expression that builds it: [errors.New] of a text,
    [fmt.Errorf] of a format and its arguments, an API error with the answer
    to [errors.IsNotFound], or a wrapped error.  Nothing in the operator looks
    at the rendered text. *)
Inductive garg : Type :=
| AStr (s : string)
| AVal (v : json)
| AErr (e : goerr)
with goerr : Type :=
| ENew (text : string)
| EErrorf (format : string) (args : list garg)
| EAPI (notFound : bool) (text : string)
| EEmptyApplications (originalErr : option goerr).
Set Elimination Schemes.

Abbreviation result := (res goerr).

(** [errors.IsNotFound(err)] for a non-nil error; an
    [emptyApplicationsErr] does not unwrap. *)
Definition IsNotFound (e : goerr) : bool :=
  match e with EAPI b _ => b | _ => false end.

(** ** Views *)

(** What a type switch on an [interface{}] can see. *)
Inductive shape (V : Type) : Type :=
| SNil
| SBool (b : bool)
| SInt (z : Z)
| SFloat (repr : string)
| SStr (s : string)
| SSlice (t : slice_ty) (l : list V)
| SMap (m : list (string * V)).
Arguments SNil {V}.
Arguments SBool {V} b.
Arguments SInt {V} z.
Arguments SFloat {V} repr.
Arguments SStr {V} s.
Arguments SSlice {V} t l.
Arguments SMap {V} m.

(** A representation of Go values: how to look at one, how to make a scalar,
    how to unpack an interface ([template.Indirect]), and a bound on the
    nesting depth of what it can reach. *)
Class GoView (V : Type) := {
  view : V → shape V;
  of_int : Z → V;
  of_bool : bool → V;
  of_float : string → V;
  of_str : string → V;
  indirect : V → V;
  depth_bound : list V → nat
}.

Fixpoint json_depth (j : json) : nat :=
  match j with
  | JArr _ l => S (fold_right (λ x n, json_depth x `max` n) 0 l)
  | JObj m => S (fold_right (λ kv n, json_depth (snd kv) `max` n) 0 m)
  | _ => 1
  end.

#[export] Instance json_view : GoView json := {|
  view j := match j with
    | JNil => SNil
    | JBool b => SBool b
    | JInt z => SInt z
    | JFloat r => SFloat r
    | JStr s => SStr s
    | JArr t l => SSlice t l
    | JObj m => SMap m
    end;
  of_int := JInt;
  of_bool := JBool;
  of_float := JFloat;
  of_str := JStr;
  indirect j := j;
  depth_bound l := S (fold_right (λ x n, json_depth x `max` n) 0 l)
|}.

(** A [reflect.Value]: a dynamic value and whether it is still wrapped in an
    [interface{}].  What is looked up in a [map[string]interface{}] or in an
    [[]interface{}] is wrapped; a map of a [[]map[string]interface{}], a
    literal and an unpacked value are not. *)
Record rvalue := { rv_boxed : bool; rv_val : json }.

(** [v.Interface()] is [rv_val]; [reflect.ValueOf(x)] is not wrapped. *)
Definition ValueOf (x : json) : rvalue := {| rv_boxed := false; rv_val := x |}.
Definition box (x : json) : rvalue := {| rv_boxed := true; rv_val := x |}.

#[export] Instance reflect_view : GoView rvalue := {|
  view v := match rv_val v with
    | JNil => SNil
    | JBool b => SBool b
    | JInt z => SInt z
    | JFloat r => SFloat r
    | JStr s => SStr s
    | JArr SliceAny l => SSlice SliceAny (box <$> l)
    | JArr t l => SSlice t (ValueOf <$> l)
    | JObj m => SMap ((λ kv, (kv.1, box kv.2)) <$> m)
    end;
  of_int z := ValueOf (JInt z);
  of_bool b := ValueOf (JBool b);
  of_float r := ValueOf (JFloat r);
  of_str s := ValueOf (JStr s);
  indirect v := ValueOf (rv_val v);
  depth_bound l := S (fold_right (λ x n, json_depth (rv_val x) `max` n) 0 l)
|}.

(** [reflect.Value.String]: the text of a string that is not wrapped; any other
    value gives a description of its type. *)
Definition reflect_String (v : rvalue) : string :=
  if rv_boxed v then "<interface {} Value>"
  else match rv_val v with
       | JStr s => s
       | JNil => "<invalid Value>"
       | JBool _ => "<bool Value>"
       | JInt _ => "<int64 Value>"
       | JFloat _ => "<float64 Value>"
       | JArr SliceAny _ => "<[]interface {} Value>"
       | JArr _ _ => "<[]map[string]interface {} Value>"
       | JObj _ => "<map[string]interface {} Value>"
       end.

(** ** The unstructured accessors *)

(** Go's [(value, found, err)] triple; the accessors report [found = false]
    together with every error. *)
Inductive nested (A : Type) : Type :=
| Found (a : A)
| NotFound
| NErr (e : goerr).
Arguments Found {A} a.
Arguments NotFound {A}.
Arguments NErr {A} e.

Definition nested_bind {A B} (n : nested A) (k : A → nested B) : nested B :=
  match n with Found a => k a | NotFound => NotFound | NErr e => NErr e end.

Definition accessor_error : goerr :=
  ENew "accessor error".

Section Accessors.
Context {V : Type} `{GoView V}.

(** [unstructured.NestedFieldNoCopy(obj, fields...)]. *)
Fixpoint NestedFieldNoCopy (val : V) (fields : list string) : nested V :=
  match fields with
  | [] => Found val
  | field :: fields' =>
      match view val with
      | SNil => NotFound
      | SMap m =>
          match aget field m with
          | Some v => NestedFieldNoCopy v fields'
          | None => NotFound
          end
      | _ => NErr accessor_error
      end
  end.

(** [unstructured.NestedString(obj, fields...)]. *)
Definition NestedString (obj : V) (fields : list string) : nested string :=
  nested_bind (NestedFieldNoCopy obj fields) (λ v,
    match view v with SStr s => Found s | _ => NErr accessor_error end).

Fixpoint string_entries (m : list (string * V)) : nested (list (string * string)) :=
  match m with
  | [] => Found []
  | (k, v) :: m' =>
      match view v with
      | SStr s => nested_bind (string_entries m') (λ l, Found ((k, s) :: l))
      | _ => NErr accessor_error
      end
  end.

(** [unstructured.NestedStringMap(obj, fields...)]. *)
Definition NestedStringMap (obj : V) (fields : list string) : nested (list (string * string)) :=
  nested_bind (NestedFieldNoCopy obj fields) (λ v,
    match view v with SMap m => string_entries m | _ => NErr accessor_error end).

(** [getNestedString], which the metadata getters share. *)
Definition getNestedString (obj : V) (fields : list string) : string :=
  match NestedString obj fields with Found s => s | _ => "" end.

Definition GetName (obj : V) : string := getNestedString obj ["metadata"; "name"].
Definition GetNamespace (obj : V) : string := getNestedString obj ["metadata"; "namespace"].
Definition GetUID (obj : V) : string := getNestedString obj ["metadata"; "uid"].
Definition GetKind (obj : V) : string := getNestedString obj ["kind"].
Definition GetAPIVersion (obj : V) : string := getNestedString obj ["apiVersion"].

(** [Unstructured.GetAnnotations]: nil when missing or not a string map. *)
Definition GetAnnotations (obj : V) : list (string * string) :=
  match NestedStringMap obj ["metadata"; "annotations"] with Found m => m | _ => [] end.
End Accessors.

(** ** Group, version, kind *)
Record GroupVersionKind := { gvk_group : string; gvk_version : string; gvk_kind : string }.
Record GroupVersionResource := { gvr_group : string; gvr_version : string; gvr_resource : string }.

(** [schema.ParseGroupVersion]. *)
Definition ParseGroupVersion (gv : string) : result (string * string) :=
  if String.eqb gv "" || String.eqb gv "/" then Ok ("", "")
  else match Split gv "/" with
       | [v] => Ok ("", v)
       | [g; v] => Ok (g, v)
       | _ => Err (EErrorf "unexpected GroupVersion string: %v" [AStr gv])
       end.

(** [Unstructured.GroupVersionKind]. *)
Definition object_gvk {V} `{GoView V} (obj : V) : GroupVersionKind :=
  match ParseGroupVersion (GetAPIVersion obj) with
  | Ok (g, v) => {| gvk_group := g; gvk_version := v; gvk_kind := GetKind obj |}
  | Err _ => {| gvk_group := ""; gvk_version := ""; gvk_kind := "" |}
  end.

(** [GroupResource.String]. *)
Definition GroupResource_String (gvr : GroupVersionResource) : string :=
  if String.eqb (gvr_group gvr) "" then gvr_resource gvr
  else gvr_resource gvr +:+ "." +:+ gvr_group gvr.

(** ** [fmt.Sprintf("%v", v)] *)

Definition fmt_keys_le : relation (string * string) := λ a b, string_le a.1 b.1.
#[export] Instance fmt_keys_le_dec : RelDecision fmt_keys_le := λ a b, string_le_dec a.1 b.1.

(** Maps print in key order, and nothing is quoted. *)
Fixpoint fmt_v (j : json) : string :=
  match j with
  | JNil => "<nil>"
  | JBool b => if b then "true" else "false"
  | JInt z => pretty z
  | JFloat r => r
  | JStr s => s
  | JArr _ l => "[" +:+ Join (map fmt_v l) " " +:+ "]"
  | JObj m =>
      "map[" +:+ Join (map (λ kv, kv.1 +:+ ":" +:+ kv.2)
        (merge_sort fmt_keys_le (map (λ kv, (kv.1, fmt_v kv.2)) m))) " " +:+ "]"
  end.
