(* ===== verification/JsonPath.v ===== *)
(** * JSONPath templates ([k8s.io/client-go/util/jsonpath])

    The parse tree and the evaluator.  The parser itself is a parameter of
    the development ([JSONPathLib]): it is third-party code the operator only
    calls.  Filters and [range ... end] blocks are opaque templates whose
    evaluation is a parameter too; every other node is evaluated here. *)

From S2P Require Import Prelude.
From S2P Require Import GoLib.
From S2P Require Import GoValue.

(** [ParamsEntry] of an [ArrayNode]. *)
Record ParamsEntry := { p_value : Z; p_known : bool; p_derived : bool }.

Unset Elimination Schemes.
Inductive node : Type :=
| NodeText (text : string)
| NodeField (value : string)
| NodeArray (from to step : ParamsEntry)
| NodeInt (z : Z)
| NodeFloat (repr : string)
| NodeBool (b : bool)
| NodeWildcard
| NodeRecursive
| NodeUnion (branches : list (list node))
| NodeList (nodes : list node)
| NodeFilter (id : nat)
| NodeIdentifier (name : string).
Set Elimination Schemes.

(** A parsed template: the nodes of its root list, or a template with a
    filter or a range in it, known only by an identifier. *)
Inductive JSONPath : Type :=
| Template (root : list node)
| OpaqueTemplate (root : list node) (id : nat).

Definition Root (j : JSONPath) : list node :=
  match j with Template r => r | OpaqueTemplate r _ => r end.

(** The third-party part. *)
Class JSONPathLib := {
  jsonpath_Parse : string → result JSONPath;
  find_opaque : ∀ {V} `{GoView V}, nat → V → result (list (list V));
  (** [PrintResults]: JSON text for maps and slices, [fmt.Fprint] otherwise. *)
  print_container : json → result string
}.

Section Eval.
Context {V : Type} `{GoView V}.

(** The elements [evalWildcard] and [evalRecursive] visit. *)
Fixpoint bytes_of (s : string) : list V :=
  match s with
  | EmptyString => []
  | String a s' => of_int (Z.of_nat (nat_of_ascii a)) :: bytes_of s'
  end.

Definition children (v : V) : list V :=
  match view v with
  | SMap m => m.*2
  | SSlice _ l => l
  | SStr s => bytes_of s
  | _ => []
  end.

Definition is_nil (v : V) : bool := match view v with SNil => true | _ => false end.

(** [value.Index(0)], [value.Index(step)], ... of a slice. *)
Fixpoint every (fuel : nat) (step : nat) (l : list V) : list V :=
  match fuel, l with
  | S fuel', x :: _ => x :: every fuel' step (drop step l)
  | _, _ => []
  end.

(** One iteration of [evalArray]: the selected elements, [None] when the loop
    returns what it has collected so far. *)
Definition eval_array_one (p0 p1 p2 : ParamsEntry) (l : list V) : result (option (list V)) :=
  let len := Z.of_nat (length l) in
  let v0 := if p_known p0 then p_value p0 else 0%Z in
  let v0 := if (v0 <? 0)%Z then (v0 + len)%Z else v0 in
  let v1 := if p_known p1 then p_value p1 else len in
  let v1 := if ((v1 <? 0) || ((v1 =? 0) && p_derived p1))%Z then (v1 + len)%Z else v1 in
  if (v1 =? v0)%Z then Ok None
  else if ((v0 >=? len) || (v0 <? 0))%Z then Err (ENew "array index out of bounds")
  else if ((v1 >? len) || (v1 <? 0))%Z then Err (ENew "array index out of bounds")
  else if (v0 >? v1)%Z then Err (ENew "starting index is greater than ending index")
  else
    let sub := take (Z.to_nat (v1 - v0)) (drop (Z.to_nat v0) l) in
    if p_known p2 then
      if (p_value p2 <=? 0)%Z then Err (ENew "step must be > 0")
      else Ok (Some (every (length sub) (Z.to_nat (p_value p2)) sub))
    else Ok (Some sub).

Fixpoint evalArray (p0 p1 p2 : ParamsEntry) (input : list V) : result (list V) :=
  match input with
  | [] => Ok []
  | v :: input' =>
      match view v with
      | SNil => evalArray p0 p1 p2 input'
      | SSlice _ l =>
          let? sel := eval_array_one p0 p1 p2 l in
          match sel with
          | None => Ok []
          | Some xs => let? ys := evalArray p0 p1 p2 input' in Ok (xs ++ ys)
          end
      | _ => Err (ENew "is not array or slice")
      end
  end.

(** [evalField]: map keys only (no Go struct occurs in an object). *)
Definition evalField (name : string) (input : list V) : result (list V) :=
  match input with
  | [] => Ok []
  | _ =>
      match omap (λ v, match view v with SMap m => aget name m | _ => None end) input with
      | [] => Err (EErrorf "%s is not found" [AStr name])
      | results => Ok results
      end
  end.

Definition evalWildcard (input : list V) : list V :=
  flat_map (λ v, if is_nil v then [] else children v) input.

Fixpoint evalRecursive (fuel : nat) (input : list V) : list V :=
  match fuel with
  | 0 => []
  | S fuel' =>
      flat_map (λ v,
        if is_nil v then []
        else match children v with
             | [] => []
             | cs => indirect v :: evalRecursive fuel' cs
             end) input
  end.

(** [walk]. *)
Fixpoint walk (n : node) (value : list V) {struct n} : result (list V) :=
  match n with
  | NodeList nodes =>
      (fix evalList (ns : list node) (cur : list V) : result (list V) :=
         match ns with
         | [] => Ok cur
         | n' :: ns' => let? cur' := walk n' cur in evalList ns' cur'
         end) nodes value
  | NodeText t => Ok [of_str t]
  | NodeField f => evalField f value
  | NodeArray p0 p1 p2 => evalArray p0 p1 p2 value
  | NodeInt z => Ok (map (λ _, of_int z) value)
  | NodeFloat r => Ok (map (λ _, of_float r) value)
  | NodeBool b => Ok (map (λ _, of_bool b) value)
  | NodeWildcard => Ok (evalWildcard value)
  | NodeRecursive => Ok (evalRecursive (depth_bound value) value)
  | NodeUnion branches =>
      (fix evalUnion (bs : list (list node)) : result (list V) :=
         match bs with
         | [] => Ok []
         | b :: bs' =>
             let? xs := (fix evalList (ns : list node) (cur : list V) : result (list V) :=
               match ns with
               | [] => Ok cur
               | n' :: ns' => let? cur' := walk n' cur in evalList ns' cur'
               end) b value in
             let? ys := evalUnion bs' in Ok (xs ++ ys)
         end) branches
  | NodeFilter _ => Err (ENew "filter outside an opaque template")
  | NodeIdentifier name => Err (EErrorf "unrecognized identifier %v" [AStr name])
  end.

(** [JSONPath.FindResults(data)]: one result list per root node. *)
Definition FindResults `{JSONPathLib} (j : JSONPath) (data : V) : result (list (list V)) :=
  match j with
  | Template root => map_res (λ n, walk n [data]) root
  | OpaqueTemplate _ id => find_opaque id data
  end.
End Eval.

(** [JSONPath.PrintResults] of one result list: the elements separated by
    blanks. *)
Definition print_value `{JSONPathLib} (v : json) : result string :=
  match v with
  | JArr _ _ | JObj _ => print_container v
  | _ => Ok (fmt_v v)
  end.

Definition PrintResults `{JSONPathLib} (results : list json) : result string :=
  let? texts := map_res print_value results in Ok (Join texts " ").

(** * Lemmas *)

(** Induction on parse trees, for the nodes inside a list. *)
Lemma node_ind' (P : node → Prop) :
  (∀ ns, Forall P ns → P (NodeList ns)) →
  (∀ n, (∀ ns, n ≠ NodeList ns) → P n) → ∀ n, P n.
Proof.
  intros Hl Ho. fix go 1. intros n. destruct n as [| | | | | | | | |ns| |]; try by apply Ho.
  apply Hl. induction ns as [|n ns IH]; constructor; [apply go|apply IH].
Qed.

Section Facts.
Context {V : Type} `{GoView V}.

(** The tree [spec.template...] of field nodes the parser makes of a dotted
    path: evaluating it is [NestedFieldNoCopy]. *)
Lemma walk_list_app ns1 ns2 (cur : list V) :
  walk (NodeList (ns1 ++ ns2)) cur =
  res_bind (walk (NodeList ns1) cur) (λ cur', walk (NodeList ns2) cur').
Proof.
  revert cur. induction ns1 as [|n ns1 IH]; intros cur; [done|].
  specialize (IH). simpl in *. destruct (walk n cur) as [cur'|e]; [|done]. apply IH.
Qed.

Lemma walk_fields (v v' : V) fields :
  NestedFieldNoCopy v fields = Found v' →
  walk (NodeList (map NodeField fields)) [v] = Ok [v'].
Proof.
  revert v. induction fields as [|f fields IH]; intros v Hv; simpl in *; [by simplify_eq|].
  destruct (view v) as [| | | | | |m]; try done.
  destruct (aget f m) as [v1|] eqn:Hf; [|done]. simpl. by apply IH.
Qed.

Lemma walk_fields_inv (v v' : V) fields :
  walk (NodeList (map NodeField fields)) [v] = Ok [v'] → NestedFieldNoCopy v fields = Found v'.
Proof.
  revert v. induction fields as [|f fields IH]; intros v Hv; simpl in *; [by simplify_eq|].
  destruct (view v) as [| | | | | |m]; try done.
  destruct (aget f m) as [v1|]; [|done]. by apply IH.
Qed.

(** [[*]] selects every element. *)
Definition all_elements : node :=
  NodeArray {| p_value := 0; p_known := false; p_derived := false |}
            {| p_value := 0; p_known := false; p_derived := false |}
            {| p_value := 0; p_known := false; p_derived := false |}.

Lemma eval_all_elements (l : list V) :
  eval_array_one
    {| p_value := 0; p_known := false; p_derived := false |}
    {| p_value := 0; p_known := false; p_derived := false |}
    {| p_value := 0; p_known := false; p_derived := false |} l
  = Ok (match l with [] => None | _ => Some l end).
Proof.
  destruct l as [|x l]; [done|]. unfold eval_array_one. cbn [p_known p_value p_derived].
  rewrite andb_false_r.
  assert (0 < Z.of_nat (length (x :: l)))%Z by (simpl; lia). z_cases.
  by rewrite Z.sub_0_r, Nat2Z.id, take_ge.
Qed.

Lemma walk_all_elements (v : V) t l :
  view v = SSlice t l → walk all_elements [v] = Ok l.
Proof.
  intros Hv. simpl. rewrite Hv, eval_all_elements. destruct l; simpl; [done|].
  by rewrite app_nil_r.
Qed.
End Facts.

(** ** What a template selects is part of what it is applied to *)

Lemma node_ind_full (P : node → Prop) :
  (∀ ns, Forall P ns → P (NodeList ns)) →
  (∀ bs, Forall (Forall P) bs → P (NodeUnion bs)) →
  (∀ n, (∀ ns, n ≠ NodeList ns) → (∀ bs, n ≠ NodeUnion bs) → P n) → ∀ n, P n.
Proof.
  intros Hl Hu Ho. fix go 1. intros n. destruct n as [| | | | | | | |bs|ns| |]; try by apply Ho.
  - apply Hu. induction bs as [|b bs IH]; constructor; [|apply IH].
    induction b as [|n b IHb]; constructor; [apply go|apply IHb].
  - apply Hl. induction ns as [|n ns IH]; constructor; [apply go|apply IH].
Qed.

(** A set of values closed under looking inside, with every scalar. *)
Class ViewClosed {V} `{GoView V} (P : V → Prop) := {
  closed_slice v t l : view v = SSlice t l → P v → Forall P l;
  closed_map v m : view v = SMap m → P v → Forall P m.*2;
  closed_int z : P (of_int z);
  closed_bool b : P (of_bool b);
  closed_float r : P (of_float r);
  closed_str s : P (of_str s);
  closed_indirect v : P v → P (indirect v)
}.

(** Filters and ranges select parts of their input too. *)
Class JSONPathLaws `{JSONPathLib} :=
  opaque_closed : ∀ V `{GoView V} (P : V → Prop) `{!ViewClosed P} id (v : V) rs,
    P v → find_opaque id v = Ok rs → Forall (Forall P) rs.

Section Closed.
Context {V : Type} `{GoView V} (P : V → Prop) `{!ViewClosed P}.

Lemma children_closed v : P v → Forall P (children v).
Proof.
  intros Hv. unfold children. destruct (view v) eqn:E; try constructor.
  - clear E. induction s as [|a s IH]; simpl; [constructor|]. constructor; [apply closed_int|done].
  - by eapply closed_slice.
  - by eapply closed_map.
Qed.

Lemma every_closed fuel step l : Forall P l → Forall P (every fuel step l).
Proof.
  revert l. induction fuel as [|fuel IH]; intros [|x l] Hl; simpl; try constructor.
  - by apply Forall_cons in Hl as [? _].
  - apply IH. by apply Forall_drop.
Qed.

Lemma eval_array_one_closed p0 p1 p2 l xs :
  Forall P l → eval_array_one p0 p1 p2 l = Ok (Some xs) → Forall P xs.
Proof.
  intros Hl. unfold eval_array_one. intros He.
  repeat match type of He with context [if ?b then _ else _] => destruct b; try done end;
    simplify_eq; try apply every_closed; by apply Forall_take, Forall_drop.
Qed.

Lemma evalArray_closed p0 p1 p2 input xs :
  Forall P input → evalArray p0 p1 p2 input = Ok xs → Forall P xs.
Proof.
  revert xs. induction input as [|v input IH]; intros xs Hi He; simpl in He; [by simplify_eq|].
  apply Forall_cons in Hi as [Hv Hi]. destruct (view v) eqn:Ev; try done; [by apply IH|].
  destruct (eval_array_one p0 p1 p2 l) as [[sel|]|] eqn:E1; simplify_eq/=; [|constructor].
  destruct (evalArray p0 p1 p2 input) as [ys|]; simplify_eq/=. apply Forall_app. split.
  - eapply eval_array_one_closed; [|done]. by eapply closed_slice.
  - by apply IH.
Qed.

Lemma evalField_closed f input xs : Forall P input → evalField f input = Ok xs → Forall P xs.
Proof.
  intros Hi. unfold evalField. destruct input as [|v0 input0]; [by intros; simplify_eq|].
  revert Hi. generalize (v0 :: input0) as input. intros input Hi.
  assert (Forall P (omap (λ v, match view v with SMap m => aget f m | _ => None end) input)) as Hall.
  { apply Forall_forall. intros x (v & Hin & Hx)%list_elem_of_omap.
    rewrite Forall_forall in Hi. specialize (Hi v Hin). rename Hi into Hv.
    destruct (view v) eqn:Ev; try done. rename Hx into Ex.
    pose proof (closed_map v m Ev Hv) as Hm. rewrite Forall_forall in Hm. apply Hm.
    apply list_elem_of_fmap. exists (f, x). split; [done|]. by apply aget_elem. }
  destruct (omap _ input); [done|]. by intros; simplify_eq.
Qed.

Lemma evalRecursive_closed fuel input : Forall P input → Forall P (evalRecursive fuel input).
Proof.
  revert input. induction fuel as [|fuel IH]; intros input Hi; simpl; [constructor|].
  apply Forall_flat_map. eapply Forall_impl; [exact Hi|]. intros v Hv. simpl.
  destruct (is_nil v); [constructor|]. pose proof (children_closed v Hv) as Hc.
  destruct (children v); constructor; [by apply closed_indirect|by apply IH].
Qed.

Lemma Forall_const {A} (x : V) (l : list A) : P x → Forall P (map (λ _, x) l).
Proof. intros Hx. induction l; simpl; by constructor. Qed.

Lemma walk_closed n input xs : Forall P input → walk n input = Ok xs → Forall P xs.
Proof.
  revert input xs. induction n as [ns IH|bs IH|n Hn Hu] using node_ind_full; intros input xs Hi Hw.
  - simpl in Hw. revert input Hi Hw. induction IH as [|n ns Hn _ IHns]; intros input Hi Hw.
    { by simplify_eq. }
    destruct (walk n input) as [cur|] eqn:E; [|done]. simpl in Hw. eapply IHns; [|exact Hw]. by eapply Hn.
  - simpl in Hw. revert xs Hw. induction IH as [|b bs Hb _ IHbs]; intros xs Hw; [by simplify_eq|].
    match type of Hw with res_bind ?m _ = _ => destruct m as [x1|] eqn:E1; [|done] end. simpl in Hw.
    match type of Hw with res_bind ?m _ = _ => destruct m as [x2|] eqn:E2; [|done] end. simplify_eq/=.
    apply Forall_app. split; [|by apply IHbs].
    clear E2 IHbs. revert input Hi E1. induction Hb as [|n b Hn _ IHb]; intros input Hi E1.
    { by simplify_eq. }
    destruct (walk n input) as [cur|] eqn:E; [|done]. simpl in E1. eapply IHb; [|exact E1]. by eapply Hn.
  - destruct n; simplify_eq/=; try done.
    + constructor; [apply closed_str|constructor].
    + by eapply evalField_closed.
    + by eapply evalArray_closed.
    + apply Forall_const, closed_int.
    + apply Forall_const, closed_float.
    + apply Forall_const, closed_bool.
    + apply Forall_flat_map. eapply Forall_impl; [exact Hi|]. intros v Hv. simpl.
      destruct (is_nil v); [constructor|by apply children_closed].
    + by apply evalRecursive_closed.
    + by destruct (Hu branches).
    + by destruct (Hn nodes).
Qed.

Lemma FindResults_closed `{JSONPathLaws} j v rs :
  P v → FindResults j v = Ok rs → Forall (Forall P) rs.
Proof.
  intros Hv. destruct j as [root|root id]; simpl; [|by apply opaque_closed].
  revert rs. induction root as [|n root IH]; intros rs Hr; simpl in Hr; [by simplify_eq|].
  destruct (walk n [v]) as [x|] eqn:Ex; [|done]. simpl in Hr.
  destruct (map_res _ root) as [ys|]; simplify_eq/=. constructor; [|by apply IH].
  eapply walk_closed; [|done]. by constructor.
Qed.
End Closed.
