(* ===== verification/Heap.v ===== *)
(** * The store of mutable maps

    A workload being bound is a tree of Go maps that several holders point
    into: the application keeps its root, every [MetaContainer] keeps the map
    of one container.  Here a map is a cell of a [heap] and a reference to it
    is its address, so that an assignment through one holder is seen by all
    the others.  Slices are values: the operator never writes to the backing
    array of a slice that is reachable from a resource. *)

From S2P Require Import Prelude.
From S2P Require Import GoLib.
From S2P Require Import GoValue.

Abbreviation loc := nat.

Unset Elimination Schemes.
Inductive gval : Type :=
| VNil
| VBool (b : bool)
| VInt (z : Z)
| VFloat (repr : string)
| VStr (s : string)
| VSlice (t : slice_ty) (l : list gval)
| VMap (a : loc).
Set Elimination Schemes.

Abbreviation cell := (list (string * gval)).
Abbreviation heap := (list cell).

(** The map at an address; an address is always valid, so the default is
    never used by the code. *)
Definition cell_at (h : heap) (a : loc) : cell := default [] (h !! a).

Fixpoint gval_size (v : gval) : nat :=
  match v with
  | VSlice _ l => S (fold_right (λ x n, gval_size x + n) 0 l)
  | _ => 1
  end.
Definition heap_size (h : heap) : nat :=
  fold_right (λ c n, S (fold_right (λ kv n, gval_size kv.2 + n) 0 c) + n) 0 h.

Definition heap_view (h : heap) : GoView gval := {|
  view v := match v with
    | VNil => SNil
    | VBool b => SBool b
    | VInt z => SInt z
    | VFloat r => SFloat r
    | VStr s => SStr s
    | VSlice t l => SSlice t l
    | VMap a => SMap (cell_at h a)
    end;
  of_int := VInt;
  of_bool := VBool;
  of_float := VFloat;
  of_str := VStr;
  indirect v := v;
  depth_bound l := S (fold_right (λ x n, gval_size x + n) 0 l + heap_size h)
|}.

(** The accessors on a map of the store. *)
Definition hNestedField (h : heap) (a : loc) (fields : list string) : nested gval :=
  @NestedFieldNoCopy gval (heap_view h) (VMap a) fields.
Definition hNestedString (h : heap) (a : loc) (fields : list string) : nested string :=
  @NestedString gval (heap_view h) (VMap a) fields.

(** [m[k] = v]. *)
Definition hset (a : loc) (k : string) (v : gval) (h : heap) : heap :=
  <[a := aset k v (cell_at h a)]> h.

(** [make(map[string]interface{})] with the given entries. *)
Definition halloc (c : cell) (h : heap) : loc * heap := (length h, h ++ [c]).

(** Runs an allocating function over a list, left to right. *)
Definition thread {A B} (f : A → heap → B * heap) : list A → heap → list B * heap :=
  fix go l h :=
    match l with
    | [] => ([], h)
    | x :: l' =>
        let '(y, h1) := f x h in
        let '(ys, h2) := go l' h1 in (y :: ys, h2)
    end.

(** A tree of fresh maps with the contents of a [json]. *)
Fixpoint alloc_json (j : json) (h : heap) {struct j} : gval * heap :=
  match j with
  | JNil => (VNil, h)
  | JBool b => (VBool b, h)
  | JInt z => (VInt z, h)
  | JFloat r => (VFloat r, h)
  | JStr s => (VStr s, h)
  | JArr t l => let '(vs, h') := thread alloc_json l h in (VSlice t vs, h')
  | JObj m =>
      let '(c, h') :=
        thread (λ kv h, let '(v, h1) := alloc_json kv.2 h in ((kv.1, v), h1)) m h in
      let '(a, h'') := halloc c h' in (VMap a, h'')
  end.

(** The contents of a value as a tree; the fuel bounds the nesting depth. *)
Fixpoint reify (fuel : nat) (h : heap) (v : gval) : option json :=
  match fuel with
  | 0 => None
  | S fuel' =>
      match v with
      | VNil => Some JNil
      | VBool b => Some (JBool b)
      | VInt z => Some (JInt z)
      | VFloat r => Some (JFloat r)
      | VStr s => Some (JStr s)
      | VSlice t l => JArr t <$> mapM (reify fuel' h) l
      | VMap a =>
          c ← h !! a;
          JObj <$> mapM (λ kv, pair kv.1 <$> reify fuel' h kv.2) c
      end
  end.

(** [runtime.DeepCopyJSONValue] panics on a [[]map[string]interface{}]. *)
Fixpoint deep_copyable (j : json) : bool :=
  match j with
  | JArr SliceAny l => forallb deep_copyable l
  | JArr _ _ => false
  | JObj m => forallb (λ kv, deep_copyable kv.2) m
  | _ => true
  end.

Definition DeepCopyJSONValue (j : json) : M heap gval :=
  if deep_copyable j then λ h, let '(v, h') := alloc_json j h in (Ret v, h')
  else mpanic "cannot deep copy []map[string]interface {}".

(** ** [reflect.DeepEqual] on trees: maps compare by key, slices by type and
    element, a nil slice only equals a nil slice. *)
Definition slice_ty_eqb (s t : slice_ty) : bool :=
  match s, t with
  | SliceAny, SliceAny | SliceMap, SliceMap | SliceMapNil, SliceMapNil => true
  | _, _ => false
  end.

Fixpoint DeepEqual (x y : json) {struct x} : bool :=
  match x, y with
  | JNil, JNil => true
  | JBool a, JBool b => Bool.eqb a b
  | JInt a, JInt b => (a =? b)%Z
  | JFloat a, JFloat b => String.eqb a b
  | JStr a, JStr b => String.eqb a b
  | JArr s l, JArr t l' =>
      slice_ty_eqb s t &&
      (fix eq_list (l l' : list json) : bool :=
         match l, l' with
         | [], [] => true
         | a :: l, b :: l' => DeepEqual a b && eq_list l l'
         | _, _ => false
         end) l l'
  | JObj m, JObj m' =>
      (length m =? length m') &&
      (fix eq_entries (m : list (string * json)) : bool :=
         match m with
         | [] => true
         | (k, a) :: m =>
             match aget k m' with
             | Some b => DeepEqual a b && eq_entries m
             | None => false
             end
         end) m
  | _, _ => false
  end.

(** * Lemmas *)

(** Induction on trees, with the hypothesis for every element and entry. *)
Lemma json_ind' (P : json → Prop) :
  P JNil → (∀ b, P (JBool b)) → (∀ z, P (JInt z)) → (∀ r, P (JFloat r)) →
  (∀ s, P (JStr s)) → (∀ t l, Forall P l → P (JArr t l)) →
  (∀ m, Forall (λ kv, P kv.2) m → P (JObj m)) → ∀ j, P j.
Proof.
  intros H1 H2 H3 H4 H5 H6 H7. fix go 1.
  intros [|b|z|r|s|t l|m]; [exact H1|apply H2|apply H3|apply H4|apply H5| |].
  - apply H6. induction l as [|x l IH]; constructor; [apply go|apply IH].
  - apply H7. induction m as [|[k x] m IH]; constructor; [apply go|apply IH].
Qed.

Lemma hset_length a k v h : length (hset a k v h) = length h.
Proof. apply length_insert. Qed.

Lemma cell_at_hset_eq a k v h :
  a < length h → cell_at (hset a k v h) a = aset k v (cell_at h a).
Proof. intros Ha. unfold cell_at at 1, hset. by rewrite list_lookup_insert_eq. Qed.

Lemma cell_at_hset_ne a b k v h : a ≠ b → cell_at (hset a k v h) b = cell_at h b.
Proof. intros Hab. unfold cell_at, hset. by rewrite list_lookup_insert_ne. Qed.

Lemma cell_at_app h c a : a < length h → cell_at (h ++ c) a = cell_at h a.
Proof. intros. unfold cell_at. by rewrite lookup_app_l. Qed.

Lemma cell_at_halloc h c : cell_at (h ++ [c]) (length h) = c.
Proof. unfold cell_at. by rewrite list_lookup_middle. Qed.

Lemma thread_prefix {A B} (f : A → heap → B * heap) l h ys h' :
  Forall (λ x, ∀ h y h', f x h = (y, h') → h `prefix_of` h') l →
  thread f l h = (ys, h') → h `prefix_of` h'.
Proof.
  intros HF. revert h ys h'. induction HF as [|x l Hx _ IH]; intros h ys h' E; simpl in E.
  - by simplify_eq.
  - destruct (f x h) as [y h1] eqn:E1, (thread f l h1) as [ys' h2] eqn:E2; simplify_eq.
    etrans; [by eapply Hx|by eapply IH].
Qed.

(** Nothing allocated before is changed by an allocation. *)
Lemma alloc_json_prefix j h v h' : alloc_json j h = (v, h') → h `prefix_of` h'.
Proof.
  revert h v h'. induction j as [| | | | |t l IH|m IH] using json_ind';
    intros h v h' Ha; simpl in Ha; simplify_eq; try done.
  - destruct (thread _ l h) as [vs h1] eqn:E; simplify_eq. by eapply thread_prefix.
  - destruct (thread _ m h) as [c h1] eqn:E; simplify_eq.
    transitivity h1; [|by apply prefix_app_r]. eapply thread_prefix; [|done].
    eapply Forall_impl; [done|]. intros [k x] Hx h0 y h2 Hy; simpl in *.
    destruct (alloc_json x h0) eqn:Ex; simplify_eq. by eapply Hx.
Qed.

(** Reading a value back is not affected by later allocations or by more
    fuel. *)
Lemma reify_mono n m h h' v j :
  reify n h v = Some j → n ≤ m → h `prefix_of` h' → reify m h' v = Some j.
Proof.
  revert m v j. induction n as [|n IH]; intros m v j Hr Hm Hp; [done|].
  destruct m as [|m]; [lia|]. simpl in *. destruct v as [| | | | |t l|a]; try done.
  - apply fmap_Some in Hr as (js & Hl & ->). apply fmap_Some. exists js. split; [|done].
    rewrite mapM_Some in Hl |- *. eapply Forall2_impl; [done|]. intros. eapply IH; eauto; lia.
  - apply bind_Some in Hr as (c & Hc & Hr). apply bind_Some. exists c.
    split; [by eapply prefix_lookup_Some|].
    apply fmap_Some in Hr as (js & Hl & ->). apply fmap_Some. exists js. split; [|done].
    rewrite mapM_Some in Hl |- *. eapply Forall2_impl; [done|].
    intros [k x] [k' y] (z & Hz & ?)%fmap_Some; simplify_eq/=. apply fmap_Some.
    exists z. split; [|done]. eapply IH; eauto; lia.
Qed.

(** [h'] holds what [h1] holds in the cells allocated since [h]. *)
Definition agree_since (h h1 h' : heap) : Prop :=
  ∀ a, length h ≤ a < length h1 → h' !! a = h1 !! a.

Lemma thread_reify {A B C} (f : A → heap → B * heap) (g : heap → B → option C) (c : A → C)
    l h ys h1 h' :
  Forall (λ x, ∀ h y h1, f x h = (y, h1) → h `prefix_of` h1 ∧
    ∀ h', agree_since h h1 h' → g h' y = Some (c x)) l →
  thread f l h = (ys, h1) → agree_since h h1 h' → mapM (g h') ys = Some (map c l).
Proof.
  intros HF. revert h ys. induction HF as [|x l Hx Hl IH]; intros h ys E Hag; simpl in E.
  - by simplify_eq.
  - destruct (f x h) as [y h2] eqn:E1, (thread f l h2) as [ys' h3] eqn:E2; simplify_eq.
    apply Hx in E1 as [Hp Hy].
    assert (h2 `prefix_of` h1) as Hp2.
    { eapply thread_prefix; [|done]. eapply Forall_impl; [done|].
      intros z Hz ? ? ? Hf. by destruct (Hz _ _ _ Hf). }
    pose proof (prefix_length _ _ Hp). pose proof (prefix_length _ _ Hp2).
    simpl. rewrite Hy.
    + simpl. rewrite (IH h2 ys' E2); [done|]. intros a Ha. apply Hag. lia.
    + intros a Ha. rewrite Hag by lia. destruct Hp2 as [k ->]. rewrite lookup_app_l; [done|lia].
Qed.

Lemma fold_max_elem {A} (f : A → nat) x l :
  x ∈ l → f x ≤ fold_right (λ x n, f x `max` n) 0 l.
Proof.
  induction l as [|y l IH]; [by intros ?%elem_of_nil|].
  intros [->|Hx]%elem_of_cons; simpl; [lia|]. specialize (IH Hx). lia.
Qed.

(** A tree copied into the store can be read back from its own cells. *)
Lemma alloc_json_reify j h v h1 h' n :
  alloc_json j h = (v, h1) → agree_since h h1 h' → json_depth j ≤ n →
  reify n h' v = Some j.
Proof.
  revert h v h1 h' n. induction j as [| | | | |t l IH|m IH] using json_ind';
    intros h v h1 h' [|n] Ha Hag Hn; simpl in Ha, Hn; try lia; simplify_eq; try done.
  - destruct (thread _ l h) as [vs h2] eqn:E; simplify_eq. simpl.
    erewrite (thread_reify alloc_json (reify n) id); [| |done..]; [simpl; by rewrite map_id|].
    rewrite Forall_forall in IH |- *. intros x Hx h0 y h2 Hy.
    split; [by eapply alloc_json_prefix|]. intros h3 H3. eapply IH; [done..|].
    etrans; [by apply (fold_max_elem json_depth)|apply le_S_n, Hn].
  - destruct (thread _ m h) as [c h2] eqn:E; simplify_eq. simpl.
    assert (h `prefix_of` h2) as Hp.
    { eapply thread_prefix; [|exact E]. apply Forall_true. intros [k x] h0 y h3 Hy; simpl in Hy.
      destruct (alloc_json x h0) eqn:Ex; simplify_eq. by eapply alloc_json_prefix. }
    apply prefix_length in Hp. unfold agree_since in Hag. rewrite length_app in Hag. simpl in Hag.
    rewrite Hag, list_lookup_middle by (done || lia). simpl.
    erewrite (thread_reify _ (λ h kv, pair kv.1 <$> reify n h kv.2) id); [| |exact E|].
    + simpl. by rewrite map_id.
    + rewrite Forall_forall in IH |- *. intros [k x] Hx h0 y h3 Hy; simpl in *.
      destruct (alloc_json x h0) as [v1 h4] eqn:Ex; simplify_eq.
      split; [by eapply alloc_json_prefix|]. intros h5 H5. simpl.
      rewrite (IH (k, x) Hx _ _ _ _ n Ex H5); [done|].
      etrans; [by apply (fold_max_elem (λ kv, json_depth kv.2) (k, x))|apply le_S_n, Hn].
    + intros a Ha. rewrite Hag by lia. by rewrite lookup_app_l by lia.
Qed.

(** ** Well-formed stores: no dangling reference *)
Fixpoint gval_ok (n : nat) (v : gval) : bool :=
  match v with
  | VMap a => a <? n
  | VSlice _ l => forallb (gval_ok n) l
  | _ => true
  end.
Definition cell_ok (n : nat) (c : cell) : bool := forallb (λ kv, gval_ok n kv.2) c.
Definition heap_ok (h : heap) : bool := forallb (cell_ok (length h)) h.

(** The maps a sequence of keys goes through from [a], and the one it ends in. *)
Fixpoint follow (h : heap) (a : loc) (ps : list string) : option (list loc * loc) :=
  match ps with
  | [] => Some ([], a)
  | p :: ps' =>
      match aget p (cell_at h a) with
      | Some (VMap b) => prod_map (a ::.) id <$> follow h b ps'
      | _ => None
      end
  end.

(** The keys do not lead back to the map they end in. *)
Definition acyclic_path (h : heap) (a : loc) (ps : list string) : bool :=
  match follow h a ps with
  | Some (vis, d) => bool_decide (d ∉ vis)
  | None => true
  end.

Lemma gval_ind' (P : gval → Prop) :
  P VNil → (∀ b, P (VBool b)) → (∀ z, P (VInt z)) → (∀ r, P (VFloat r)) →
  (∀ s, P (VStr s)) → (∀ t l, Forall P l → P (VSlice t l)) →
  (∀ a, P (VMap a)) → ∀ v, P v.
Proof.
  intros H1 H2 H3 H4 H5 H6 H7. fix go 1.
  intros [|b|z|r|s|t l|a]; [exact H1|apply H2|apply H3|apply H4|apply H5| |apply H7].
  apply H6. induction l as [|x l IH]; constructor; [apply go|apply IH].
Qed.

Lemma gval_ok_mono n m v : gval_ok n v = true → n ≤ m → gval_ok m v = true.
Proof.
  intros Hv Hm. induction v as [| | | | |t l IH|a] using gval_ind'; simpl in *; try done.
  - rewrite forallb_forall in Hv |- *. intros x Hx.
    rewrite Forall_forall in IH. apply IH; [by apply list_elem_of_In|auto].
  - apply Nat.ltb_lt in Hv. apply Nat.ltb_lt. lia.
Qed.

Lemma cell_ok_mono n m c : cell_ok n c = true → n ≤ m → cell_ok m c = true.
Proof.
  unfold cell_ok. rewrite !forallb_forall. intros Hc Hm kv Hkv.
  eapply gval_ok_mono; eauto.
Qed.

Lemma heap_ok_lookup h a c : heap_ok h = true → h !! a = Some c → cell_ok (length h) c = true.
Proof.
  unfold heap_ok. rewrite forallb_forall. intros Hh Ha. apply Hh, list_elem_of_In.
  by eapply list_elem_of_lookup_2.
Qed.

Lemma heap_ok_cell_at h a : heap_ok h = true → cell_ok (length h) (cell_at h a) = true.
Proof.
  intros Hh. unfold cell_at. destruct (h !! a) eqn:Ha; [|done]. by eapply heap_ok_lookup.
Qed.

Lemma cell_ok_aget n c k v : cell_ok n c = true → aget k c = Some v → gval_ok n v = true.
Proof.
  unfold cell_ok. rewrite forallb_forall. intros Hc Hk.
  apply (Hc (k, v)), list_elem_of_In. by apply aget_elem.
Qed.

Lemma cell_ok_aset n c k v :
  cell_ok n c = true → gval_ok n v = true → cell_ok n (aset k v c) = true.
Proof.
  unfold cell_ok. intros Hc Hv. induction c as [|[k' v'] c IH]; simpl in *; [by rewrite Hv|].
  apply andb_true_iff in Hc as [H1 H2]. str_cases; simpl; rewrite ?H1, ?H2, ?Hv; auto.
Qed.

Lemma heap_ok_hset h a k v :
  heap_ok h = true → gval_ok (length h) v = true → heap_ok (hset a k v h) = true.
Proof.
  intros Hh Hv. unfold heap_ok. rewrite hset_length, forallb_forall.
  intros c Hc%list_elem_of_In. apply list_elem_of_lookup in Hc as [i Hi].
  unfold hset in Hi. destruct (decide (a = i)) as [->|].
  - destruct (decide (i < length h)) as [Hl|Hl].
    + rewrite list_lookup_insert_eq in Hi by done. simplify_eq.
      apply cell_ok_aset; [|done]. by apply heap_ok_cell_at.
    + rewrite list_insert_ge in Hi by lia. by eapply heap_ok_lookup.
  - rewrite list_lookup_insert_ne in Hi by done. by eapply heap_ok_lookup.
Qed.

Lemma heap_ok_app h cs :
  heap_ok h = true → forallb (cell_ok (length (h ++ cs))) cs = true → heap_ok (h ++ cs) = true.
Proof.
  intros Hh Hc. unfold heap_ok. rewrite forallb_app, Hc, andb_true_r.
  apply forallb_forall. intros c Hin. unfold heap_ok in Hh. rewrite forallb_forall in Hh.
  eapply cell_ok_mono; [by apply Hh|]. rewrite length_app. lia.
Qed.

Lemma heap_ok_halloc h c :
  heap_ok h = true → cell_ok (length h) c = true → heap_ok (h ++ [c]) = true.
Proof.
  intros Hh Hc. apply heap_ok_app; [done|]. simpl. rewrite andb_true_r.
  eapply cell_ok_mono; [done|]. rewrite length_app. lia.
Qed.

Lemma thread_ok {A B} (f : A → heap → B * heap) (ok : nat → B → Prop) l h ys h' :
  (∀ n m y, ok n y → n ≤ m → ok m y) →
  Forall (λ x, ∀ h y h', f x h = (y, h') → heap_ok h = true →
    heap_ok h' = true ∧ length h ≤ length h' ∧ ok (length h') y) l →
  thread f l h = (ys, h') → heap_ok h = true →
  heap_ok h' = true ∧ length h ≤ length h' ∧ Forall (ok (length h')) ys.
Proof.
  intros Hm HF. revert h ys h'. induction HF as [|x l Hx _ IH]; intros h ys h' E Hh; simpl in E.
  - by simplify_eq.
  - destruct (f x h) as [y h1] eqn:E1, (thread f l h1) as [ys' h2] eqn:E2; simplify_eq.
    apply Hx in E1 as (? & ? & ?); [|done]. apply IH in E2 as (? & ? & ?); [|done].
    split; [done|]. split; [lia|]. constructor; eauto.
Qed.

(** A fresh tree leaves the store well formed. *)
Lemma alloc_json_ok j h v h' :
  alloc_json j h = (v, h') → heap_ok h = true →
  heap_ok h' = true ∧ length h ≤ length h' ∧ gval_ok (length h') v = true.
Proof.
  revert h v h'. induction j as [| | | | |t l IH|m IH] using json_ind';
    intros h v h' Ha Hh; simpl in Ha; simplify_eq; try done.
  - destruct (thread _ l h) as [vs h1] eqn:E; simplify_eq.
    eapply (thread_ok _ (λ n v, gval_ok n v = true)) in E as (? & ? & HF); [|..|done].
    + split; [done|]. split; [done|]. simpl. apply forallb_forall. intros x Hx%list_elem_of_In.
      rewrite Forall_forall in HF. auto.
    + intros. by eapply gval_ok_mono.
    + eapply Forall_impl; [done|]. eauto.
  - destruct (thread _ m h) as [c h1] eqn:E; simplify_eq.
    eapply (thread_ok _ (λ n (kv : string * gval), gval_ok n kv.2 = true)) in E as (? & ? & HF); [|..|done].
    + split; [|rewrite length_app; simpl; split; [lia|apply Nat.ltb_lt; lia]].
      apply heap_ok_halloc; [done|]. apply forallb_forall. intros x Hx%list_elem_of_In.
      rewrite Forall_forall in HF. auto.
    + intros. by eapply gval_ok_mono.
    + eapply Forall_impl; [done|]. intros [k x] Hx h0 y h2 Hy ?; simpl in *.
      destruct (alloc_json x h0) eqn:Ex; simplify_eq. by eapply Hx.
Qed.

(** The entries of a fresh map. *)
Lemma alloc_json_entry m h a h' k s :
  alloc_json (JObj m) h = (VMap a, h') → aget k m = Some (JStr s) →
  aget k (cell_at h' a) = Some (VStr s).
Proof.
  simpl. destruct (thread _ m h) as [c h1] eqn:E. intros ? Hk; simplify_eq.
  rewrite cell_at_halloc. revert h c E. induction m as [|[k' x] m IH]; intros h c E; [done|].
  simpl in E, Hk. destruct (alloc_json x h) as [v h2] eqn:Ex.
  destruct (thread _ m h2) as [ys h3] eqn:Et. simplify_eq. simpl. str_cases; subst.
  - simplify_eq. by injection Ex as <- <-.
  - by eapply IH.
Qed.

Lemma follow_nested h a ps vis d qs :
  follow h a ps = Some (vis, d) → hNestedField h a (ps ++ qs) = hNestedField h d qs.
Proof.
  revert a vis. induction ps as [|p ps IH]; intros a vis Hf; simpl in Hf; [by simplify_eq|].
  unfold hNestedField in *. simpl. destruct (aget p (cell_at h a)) as [[]|]; try done.
  apply fmap_Some in Hf as ([vis' d'] & Hf & ?). simplify_eq/=. by eapply IH.
Qed.

Lemma nested_follow h a ps d :
  hNestedField h a ps = Found (VMap d) → ∃ vis, follow h a ps = Some (vis, d).
Proof.
  revert a. induction ps as [|p ps IH]; intros a Hf; unfold hNestedField in *; simpl in *.
  { simplify_eq. eauto. }
  destruct (aget p (cell_at h a)) as [v|]; [|done].
  destruct v as [| | | | | |b]; try (destruct ps; done).
  destruct (IH b Hf) as [vis ->]. by eexists.
Qed.

Lemma follow_ok h a ps vis d :
  heap_ok h = true → a < length h → follow h a ps = Some (vis, d) → d < length h.
Proof.
  intros Hh. revert a vis. induction ps as [|p ps IH]; intros a vis Ha Hf; simpl in Hf; [by simplify_eq|].
  destruct (aget p (cell_at h a)) as [[]|] eqn:E; try done.
  apply fmap_Some in Hf as ([vis' d'] & Hf & ?). simplify_eq/=. eapply IH; [|done].
  apply Nat.ltb_lt. change (gval_ok (length h) (VMap a0) = true).
  eapply cell_ok_aget; [|done]. by apply heap_ok_cell_at.
Qed.

(** Writing to the last map does not move the keys that lead to it. *)
Lemma follow_hset h a ps vis d b k v :
  follow h a ps = Some (vis, d) → b ∉ vis → follow (hset b k v h) a ps = Some (vis, d).
Proof.
  revert a vis. induction ps as [|p ps IH]; intros a vis Hf Hb; simpl in *; [done|].
  destruct (aget p (cell_at h a)) as [[]|] eqn:E; try done.
  apply fmap_Some in Hf as ([vis' d'] & Hf & ?). simplify_eq/=.
  rewrite cell_at_hset_ne by set_solver. rewrite E, (IH _ vis'); [done..|set_solver].
Qed.

Lemma follow_app h h' a ps vis d :
  heap_ok h = true → a < length h → follow h a ps = Some (vis, d) →
  follow (h ++ h') a ps = Some (vis, d).
Proof.
  intros Hh. revert a vis. induction ps as [|p ps IH]; intros a vis Ha Hf; simpl in *; [done|].
  rewrite cell_at_app by done. destruct (aget p (cell_at h a)) as [[]|] eqn:E; try done.
  apply fmap_Some in Hf as ([vis' d'] & Hf & ?). simplify_eq/=. rewrite (IH _ vis'); [done| |done].
  apply Nat.ltb_lt. change (gval_ok (length h) (VMap a0) = true).
  eapply cell_ok_aget; [|done]. by apply heap_ok_cell_at.
Qed.

(** Adding an entry under a new key does not move anything either. *)
Lemma follow_hset_fresh h a ps vis d b k v :
  follow h a ps = Some (vis, d) → aget k (cell_at h b) = None →
  follow (hset b k v h) a ps = Some (vis, d).
Proof.
  intros Hf Hk. revert a vis Hf. induction ps as [|p ps IH]; intros a vis Hf; simpl in *; [done|].
  assert (aget p (cell_at (hset b k v h) a) = aget p (cell_at h a) ∨ aget p (cell_at h a) = None) as [->|E].
  { destruct (decide (a = b)) as [->|]; [|left; by rewrite cell_at_hset_ne].
    destruct (decide (p = k)) as [->|]; [by right|]. left.
    destruct (decide (b < length h)); [by rewrite cell_at_hset_eq, aget_aset_ne|].
    unfold cell_at, hset. by rewrite list_insert_ge by lia. }
  - destruct (aget p (cell_at h a)) as [[]|]; try done.
    apply fmap_Some in Hf as ([vis' d'] & Hf & ?). simplify_eq/=. by rewrite (IH _ vis').
  - by rewrite E in Hf.
Qed.

(** ** Reachability, and why the fuel of [reify] is enough *)

(** Following the entries of maps and the elements of slices from a value
    leads to the map at [a]. *)
Inductive reaches (h : heap) : gval → loc → Prop :=
| reaches_here a : reaches h (VMap a) a
| reaches_slice t l x a : x ∈ l → reaches h x a → reaches h (VSlice t l) a
| reaches_map b c kv a :
    h !! b = Some c → kv ∈ c → reaches h kv.2 a → reaches h (VMap b) a.

(** Its executable form; out of fuel it answers yes. *)
Fixpoint touches (fuel : nat) (h : heap) (v : gval) (d : loc) : bool :=
  match fuel with
  | 0 => true
  | S fuel' =>
      match v with
      | VSlice _ l => existsb (λ x, touches fuel' h x d) l
      | VMap a => (a =? d) || existsb (λ kv, touches fuel' h kv.2 d) (cell_at h a)
      | _ => false
      end
  end.

Lemma touches_reaches n h v d : touches n h v d = false → ¬ reaches h v d.
Proof.
  intros Ht Hr. revert n Ht. induction Hr as [a|t l x a Hx _ IH|b c kv a Hb Hkv _ IH];
    intros [|n]; simpl; try done.
  - by rewrite Nat.eqb_refl.
  - intros Ht. apply (IH n). by apply (existsb_false _ _ _ Ht).
  - intros [_ Ht]%orb_false_iff. apply (IH n). unfold cell_at in Ht. rewrite Hb in Ht.
    exact (existsb_false _ _ _ Ht Hkv).
Qed.

(** Replacing a map a value does not reach leaves its contents. *)
Lemma reify_insert n h v d c : ¬ reaches h v d → reify n (<[d := c]> h) v = reify n h v.
Proof.
  revert v. induction n as [|n IH]; intros v Hr; [done|].
  destruct v as [| | | | |t l|a]; simpl; try done.
  - f_equal. apply mapM_ext_elem. intros x Hx. apply IH. contradict Hr. by eapply reaches_slice.
  - assert (a ≠ d) as Hne by (intros ->; apply Hr; constructor).
    rewrite list_lookup_insert_ne by done. destruct (h !! a) as [c'|] eqn:Ha; [|done]. simpl.
    f_equal. apply mapM_ext_elem. intros kv Hkv. f_equal. apply IH. contradict Hr.
    by eapply reaches_map.
Qed.

Lemma reify_det n m h v j j' : reify n h v = Some j → reify m h v = Some j' → j = j'.
Proof.
  intros Hn Hm.
  pose proof (reify_mono n (n `max` m) h h v j Hn ltac:(lia) ltac:(done)) as H1.
  pose proof (reify_mono m (n `max` m) h h v j' Hm ltac:(lia) ltac:(done)) as H2.
  congruence.
Qed.

(** A value contains the contents of what it reaches. *)
Lemma reaches_depth n h v j a :
  reify n h v = Some j → reaches h v a →
  ∃ m j', reify m h (VMap a) = Some j' ∧ json_depth j' ≤ json_depth j.
Proof.
  intros Hr Hv. revert n j Hr.
  induction Hv as [a|t l x a Hx _ IH|b c kv a Hb Hkv _ IH]; intros [|n] j Hr; try done.
  - eauto.
  - simpl in Hr. apply fmap_Some in Hr as (js & Hl & ->).
    apply list_elem_of_lookup in Hx as [i Hi]. apply mapM_Some in Hl.
    destruct (Forall2_lookup_l _ _ _ _ _ Hl Hi) as (jx & Hjx & Hx).
    destruct (IH _ _ Hx) as (m & j' & ? & ?). exists m, j'. split; [done|]. simpl.
    pose proof (fold_max_elem json_depth jx js (list_elem_of_lookup_2 _ _ _ Hjx)). lia.
  - simpl in Hr. rewrite Hb in Hr. simpl in Hr. apply fmap_Some in Hr as (js & Hl & ->).
    apply list_elem_of_lookup in Hkv as [i Hi]. apply mapM_Some in Hl.
    destruct (Forall2_lookup_l _ _ _ _ _ Hl Hi) as (jx & Hjx & (y & Hx & ->)%fmap_Some).
    destruct (IH _ _ Hx) as (m & j' & ? & ?). exists m, j'. split; [done|]. simpl.
    pose proof (fold_max_elem (λ kv, json_depth kv.2) _ js (list_elem_of_lookup_2 _ _ _ Hjx)).
    simpl in *. lia.
Qed.

Definition cell_size (c : cell) : nat := fold_right (λ kv n, gval_size kv.2 + n) 0 c.

Lemma heap_size_clear h a c : h !! a = Some c → heap_size (<[a := []]> h) + cell_size c = heap_size h.
Proof.
  revert a. induction h as [|c' h IH]; intros [|a] Ha; simplify_eq/=.
  - unfold cell_size. lia.
  - specialize (IH a Ha). lia.
Qed.

Lemma fold_max_le {A} (f : A → nat) b l :
  (∀ x, x ∈ l → f x ≤ b) → fold_right (λ x n, f x `max` n) 0 l ≤ b.
Proof.
  induction l as [|x l IH]; simpl; intros Hf; [lia|].
  pose proof (Hf x ltac:(set_solver)). specialize (IH ltac:(set_solver)). lia.
Qed.

Lemma fold_sum_elem {A} (f : A → nat) x l : x ∈ l → f x ≤ fold_right (λ x n, f x + n) 0 l.
Proof.
  induction l as [|y l IH]; [by intros ?%elem_of_nil|].
  intros [->|Hx]%elem_of_cons; simpl; [lia|]. specialize (IH Hx). lia.
Qed.

(** The depth of what can be read is bounded by the size of the store: a map
    occurs at most once on a path, or the contents would be infinite. *)
Lemma reify_depth n h v j : reify n h v = Some j → json_depth j ≤ gval_size v + heap_size h.
Proof.
  revert h v j. induction n as [|n IH]; intros h v j Hr; [done|].
  pose proof Hr as Hfull.
  destruct v as [| | | | |t l|a]; try (simplify_eq/=; lia); simpl in Hr.
  - apply fmap_Some in Hr as (js & Hl & ->). apply mapM_Some in Hl. simpl. apply le_n_S.
    apply fold_max_le. intros jx Hjx. apply list_elem_of_lookup in Hjx as [i Hi].
    destruct (Forall2_lookup_r _ _ _ _ _ Hl Hi) as (x & Hx & Hrx). apply IH in Hrx.
    pose proof (fold_sum_elem gval_size x l (list_elem_of_lookup_2 _ _ _ Hx)). lia.
  - destruct (h !! a) as [c|] eqn:Ha; [|done]. simpl in Hr.
    apply fmap_Some in Hr as (js & Hl & ->). apply mapM_Some in Hl. simpl. apply le_n_S.
    apply fold_max_le. intros jx Hjx. apply list_elem_of_lookup in Hjx as [i Hi].
    destruct (Forall2_lookup_r _ _ _ _ _ Hl Hi) as (kv & Hkv & (y & Hy & ->)%fmap_Some). simpl.
    assert (¬ reaches h kv.2 a) as Hnr.
    { intros Hre. destruct (reaches_depth _ _ _ _ _ Hy Hre) as (m & j' & Hj' & Hd).
      rewrite (reify_det _ _ _ _ _ _ Hj' Hfull) in Hd. simpl in Hd.
      pose proof (fold_max_elem (λ kv, json_depth kv.2) _ js (list_elem_of_lookup_2 _ _ _ Hi)).
      simpl in *. lia. }
    rewrite <- (reify_insert n h kv.2 a []) in Hy by done. apply IH in Hy.
    pose proof (heap_size_clear _ _ _ Ha).
    pose proof (fold_sum_elem (λ kv, gval_size kv.2) kv c (list_elem_of_lookup_2 _ _ _ Hkv)).
    unfold cell_size in *. simpl in *. lia.
Qed.

Lemma reify_least n h v j : reify n h v = Some j → reify (json_depth j) h v = Some j.
Proof.
  revert v j. induction n as [|n IH]; intros v j Hr; [done|].
  simpl in Hr. destruct v as [| | | | |t l|a]; simplify_eq/=; try done.
  - apply fmap_Some in Hr as (js & Hl & ->). simpl. apply fmap_Some. exists js. split; [|done].
    rewrite mapM_Some in Hl |- *. apply Forall2_same_length_lookup.
    split; [by eapply Forall2_length|]. intros i x jx Hx Hjx.
    pose proof (Forall2_lookup_lr _ _ _ _ _ _ Hl Hx Hjx) as Hrx. apply IH in Hrx.
    eapply reify_mono; [exact Hrx| |done].
    by apply fold_max_elem, list_elem_of_lookup_2 with i.
  - destruct (h !! a) as [c|] eqn:Ha; [|done]. simpl in Hr.
    apply fmap_Some in Hr as (js & Hl & ->). simpl. rewrite Ha. simpl. apply fmap_Some.
    exists js. split; [|done]. rewrite mapM_Some in Hl |- *. apply Forall2_same_length_lookup.
    split; [by eapply Forall2_length|]. intros i x jx Hx Hjx.
    pose proof (Forall2_lookup_lr _ _ _ _ _ _ Hl Hx Hjx) as (y & Hrx & ->)%fmap_Some. apply IH in Hrx.
    apply fmap_Some. exists y. split; [|done]. eapply reify_mono; [exact Hrx| |done].
    by apply (fold_max_elem (λ kv, json_depth kv.2) (x.1, y) js), list_elem_of_lookup_2 with i.
Qed.

(** A value that can be read with some fuel can be read with the size of the
    store as fuel. *)
Lemma reify_enough n h v j : reify n h v = Some j → reify (gval_size v + heap_size h) h v = Some j.
Proof.
  intros Hr. eapply reify_mono; [by eapply reify_least|by eapply reify_depth|done].
Qed.
