(* ===== verification/Converter.v ===== *)
(** * Typed resources inside unstructured objects ([pkg/converter])

    [NestedResources] of [pkg/converter/unstructured.go], and the typed
    [corev1] values the projection writes, with their unstructured form.
    Deciding whether an arbitrary map converts to a [corev1] type is the
    third-party [runtime.DefaultUnstructuredConverter]; it is the parameter
    [Converter] and depends only on the contents of the map. *)

From S2P Require Import Prelude.
From S2P Require Import GoLib.
From S2P Require Import GoValue.
From S2P Require Import Heap.

(** The resource types [NestedResources] is called with. *)
Inductive rkind : Type := KEnvVar | KEnvFromSource | KVolumeMount | KVolume.

(** [DefaultUnstructuredConverter.FromUnstructured(item, &corev1.T{})]: [None]
    is a nil error. *)
Class Converter := from_unstructured : rkind → json → option goerr.

Definition FromUnstructured `{Converter} (k : rkind) (h : heap) (a : loc) : option goerr :=
  match reify (S (heap_size h)) h (VMap a) with
  | Some j => from_unstructured k j
  | None => Some (ENew "cyclic object")
  end.

(** The [Name] and [Value] fields after a successful conversion: the entry's
    string, or the zero value. *)
Definition field_string (h : heap) (a : loc) (k : string) : string :=
  match aget k (cell_at h a) with Some (VStr s) => s | _ => "" end.

(** The loop of [NestedResources] over a slice. *)
Fixpoint convert_items `{Converter} (k : rkind) (h : heap) (l : list gval) : nested (list loc) :=
  match l with
  | [] => Found []
  | VMap a :: l' =>
      match FromUnstructured k h a with
      | Some e => NErr e
      | None => nested_bind (convert_items k h l') (λ as_, Found (a :: as_))
      end
  | _ :: _ => NErr (ENew "not a map")
  end.

Definition NestedResources `{Converter} (k : rkind) (h : heap) (a : loc) (path : list string) :
    nested (list loc) :=
  nested_bind (hNestedField h a path) (λ val,
    match val with
    | VSlice _ l => convert_items k h l
    | _ => NErr (ENew "not a slice")
    end).

(** ** The values the operator writes, as [ToUnstructured] renders them:
    fields in declaration order, empty [omitempty] fields left out. *)
Definition omitempty (k v : string) : list (string * json) :=
  if String.eqb v "" then [] else [(k, JStr v)].

(** [corev1.EnvVar] with a literal value or a [SecretKeyRef] (name, key). *)
Record EnvVar := {
  ev_name : string;
  ev_value : string;
  ev_secretKeyRef : option (string * string)
}.
Definition EnvVar_json (e : EnvVar) : json :=
  JObj ([("name", JStr (ev_name e))] ++ omitempty "value" (ev_value e) ++
    match ev_secretKeyRef e with
    | None => []
    | Some (name, key) =>
        [("valueFrom", JObj [("secretKeyRef", JObj (omitempty "name" name ++ [("key", JStr key)]))])]
    end).

(** [corev1.EnvFromSource] with a [SecretRef]. *)
Record EnvFromSource := { efs_secretRef : string }.
Definition EnvFromSource_json (e : EnvFromSource) : json :=
  JObj [("secretRef", JObj (omitempty "name" (efs_secretRef e)))].

(** [corev1.VolumeMount]. *)
Record VolumeMount := { vm_name : string; vm_mountPath : string }.
Definition VolumeMount_json (m : VolumeMount) : json :=
  JObj [("name", JStr (vm_name m)); ("mountPath", JStr (vm_mountPath m))].

(** [corev1.Volume] with a secret source. *)
Record Volume := { vol_name : string; vol_secretName : string }.
Definition Volume_json (v : Volume) : json :=
  JObj [("name", JStr (vol_name v)); ("secret", JObj (omitempty "secretName" (vol_secretName v)))].

(** [ToUnstructured] of such a value: a fresh map. *)
Definition to_unstructured (j : json) : M heap loc := λ h,
  match alloc_json j h with
  | (VMap a, h') => (Ret a, h')
  | (_, h') => (Panic "ToUnstructured of a non-struct", h')
  end.

(** * Lemmas *)

Lemma convert_items_Found `{Converter} k h l as_ :
  convert_items k h l = Found as_ →
  l = VMap <$> as_ ∧ Forall (λ a, FromUnstructured k h a = None) as_.
Proof.
  revert as_. induction l as [|v l IH]; intros as_ Hc; simpl in Hc; [by simplify_eq|].
  destruct v; try done. destruct (FromUnstructured k h a) eqn:Ha; [done|].
  destruct (convert_items k h l) as [bs| |]; simplify_eq/=.
  destruct (IH bs) as [-> ?]; [done|]. by split; [|constructor].
Qed.

Lemma convert_items_ok `{Converter} k h as_ :
  Forall (λ a, FromUnstructured k h a = None) as_ →
  convert_items k h (VMap <$> as_) = Found as_.
Proof. induction 1 as [|a as_ Ha _ IH]; [done|]. csimpl. by rewrite Ha, IH. Qed.

(** The maps found are the elements of the slice at the path. *)
Lemma NestedResources_Found `{Converter} k h a path as_ :
  NestedResources k h a path = Found as_ ↔
  (∃ t, hNestedField h a path = Found (VSlice t (VMap <$> as_))) ∧
  Forall (λ a, FromUnstructured k h a = None) as_.
Proof.
  unfold NestedResources. split.
  - destruct (hNestedField h a path) as [[]| |]; try done. simpl.
    intros [-> ?]%convert_items_Found. eauto.
  - intros [[t ->] Hf]. simpl. by apply convert_items_ok.
Qed.

(** [ToUnstructured] gives a fresh map; its contents can be read back in any
    store that keeps the cells it allocated. *)
Lemma to_unstructured_spec m h :
  ∃ a h', to_unstructured (JObj m) h = (Ret a, h') ∧ h `prefix_of` h' ∧
    length h ≤ a < length h' ∧ (heap_ok h = true → heap_ok h' = true) ∧
    (∀ n h2, agree_since h h' h2 → json_depth (JObj m) ≤ n → reify n h2 (VMap a) = Some (JObj m)) ∧
    (∀ k s, aget k m = Some (JStr s) → aget k (cell_at h' a) = Some (VStr s)).
Proof.
  unfold to_unstructured. destruct (alloc_json (JObj m) h) as [v h'] eqn:E.
  pose proof E as Hr. pose proof (alloc_json_prefix _ _ _ _ E) as Hp.
  simpl in E. destruct (thread _ m h) as [c h1] eqn:Et. simplify_eq.
  exists (length h1), (h1 ++ [c]). split_and!; [done|done| | | | |].
  - apply prefix_length. eapply thread_prefix; [|exact Et]. apply Forall_true.
    intros [k x] h0 y h2 Hy; simpl in Hy.
    destruct (alloc_json x h0) eqn:Ex; simplify_eq. by eapply alloc_json_prefix.
  - rewrite length_app. simpl. lia.
  - intros Hh. by eapply alloc_json_ok in Hr as [? _].
  - intros n h2 ? ?. by eapply alloc_json_reify.
  - intros k s Hk. by eapply alloc_json_entry.
Qed.

(** More cells do not change what can already be read. *)
Lemma NestedFieldNoCopy_prefix h h' v path :
  heap_ok h = true → gval_ok (length h) v = true → h `prefix_of` h' →
  @NestedFieldNoCopy gval (heap_view h') v path = @NestedFieldNoCopy gval (heap_view h) v path.
Proof.
  intros Hh Hv [k ->]. revert v Hv. induction path as [|p path IH]; intros v Hv; [done|].
  destruct v as [| | | | | |a]; try done. simpl in Hv |- *. apply Nat.ltb_lt in Hv.
  rewrite cell_at_app by done. destruct (aget p (cell_at h a)) as [w|] eqn:Hw; [|done].
  apply IH. eapply cell_ok_aget; [|done]. by apply heap_ok_cell_at.
Qed.

Lemma hNestedField_prefix h h' a path :
  heap_ok h = true → a < length h → h `prefix_of` h' →
  hNestedField h' a path = hNestedField h a path.
Proof. intros ???. apply NestedFieldNoCopy_prefix; [done| |done]. by apply Nat.ltb_lt. Qed.

Lemma heap_size_prefix h h' : h `prefix_of` h' → heap_size h ≤ heap_size h'.
Proof. intros [k ->]. induction h as [|c h IH]; simpl; [lia|]. lia. Qed.

Lemma FromUnstructured_prefix `{Converter} k h h' a :
  FromUnstructured k h a = None → h `prefix_of` h' → FromUnstructured k h' a = None.
Proof.
  unfold FromUnstructured. intros Hf Hp.
  destruct (reify (S (heap_size h)) h (VMap a)) as [j|] eqn:Hr; [|done].
  erewrite reify_mono; [exact Hf|exact Hr| |done].
  apply le_n_S. by apply heap_size_prefix.
Qed.

Lemma NestedResources_prefix `{Converter} k h h' a path l :
  heap_ok h = true → a < length h → h `prefix_of` h' →
  NestedResources k h a path = Found l → NestedResources k h' a path = Found l.
Proof.
  intros Hh Ha Hp [[t Hf] HF]%NestedResources_Found. apply NestedResources_Found.
  split; [exists t; by rewrite hNestedField_prefix with (h := h)|].
  eapply Forall_impl; [exact HF|]. intros b Hb. exact (FromUnstructured_prefix _ _ _ _ Hb Hp).
Qed.

Lemma NestedResources_NotFound `{Converter} k h a path :
  NestedResources k h a path = NotFound ↔ hNestedField h a path = NotFound.
Proof.
  unfold NestedResources. destruct (hNestedField h a path) as [v| |]; [|done..].
  split; [|done]. destruct v; try done. simpl. intros Hc. exfalso.
  revert Hc. induction l as [|v l IH]; [done|]. simpl. destruct v; try done.
  destruct (FromUnstructured k h a0); [done|].
  by destruct (convert_items k h l).
Qed.
