(* ===== verification/Workload.v ===== *)
(** * Workload resource mapping ([pkg/reconcile/pipeline/mapping.go])

    Where in a workload the containers, their environment and mounts, and the
    pod volumes are ([WorkloadMapping]), and the operations that add and
    remove binding data there ([MetaContainer], [MetaPodSpec]).  The
    operations mutate maps of the store through references. *)

From S2P Require Import Prelude.
From S2P Require Import GoLib.
From S2P Require Import GoValue.
From S2P Require Import JsonPath.
From S2P Require Import Heap.
From S2P Require Import Converter.

(** ** The mapping resource ([apis/spec/v1beta1]) *)
Record ClusterWorkloadResourceMappingContainer := {
  cmc_path : string;
  cmc_name : string;
  cmc_env : string;
  cmc_volumeMounts : string
}.

Record ClusterWorkloadResourceMappingTemplate := {
  cmt_version : string;
  cmt_annotations : string;
  cmt_containers : list ClusterWorkloadResourceMappingContainer;
  cmt_volumes : string
}.

(** [v1beta1.DefaultTemplate]. *)
Definition DefaultTemplate : ClusterWorkloadResourceMappingTemplate := {|
  cmt_version := "*";
  cmt_annotations := ".spec.template.spec.annotations";
  cmt_volumes := ".spec.template.spec.volumes";
  cmt_containers :=
    [ {| cmc_path := ".spec.template.spec.containers[*]"; cmc_name := ".name";
         cmc_env := ".env"; cmc_volumeMounts := ".volumeMounts" |};
      {| cmc_path := ".spec.template.spec.initContainers[*]"; cmc_name := ".name";
         cmc_env := ".env"; cmc_volumeMounts := ".volumeMounts" |} ]
|}.

(** ** The parsed mapping *)
Record WorkloadContainer := {
  wc_path : JSONPath;
  wc_name : list string;
  wc_env : list string;
  wc_envFrom : list string;
  wc_volumeMounts : list string
}.

Record WorkloadMapping := {
  wm_containers : list WorkloadContainer;
  wm_volume : list string
}.

(** [verifyJsonPath]: only fields and lists of them are allowed, and the path
    is the sequence of the field names. *)
Fixpoint verifyJsonPath (n : node) : result (list string) :=
  match n with
  | NodeField f => Ok [f]
  | NodeList nodes =>
      (fix loop (ns : list node) : result (list string) :=
         match ns with
         | [] => Ok []
         | n' :: ns' =>
             let? nested := verifyJsonPath n' in
             let? paths := loop ns' in Ok (nested ++ paths)
         end) nodes
  | _ => Err (ENew "Node type not allowed in restricted JSONPath contexts")
  end.

Section Parse.
Context `{JSONPathLib}.

Definition isValidRestrictedJsonPath (path : string) : result (list string) :=
  let? parser := jsonpath_Parse ("{" +:+ path +:+ "}") in
  verifyJsonPath (NodeList (Root parser)).

Definition constructRestrictedPath (value : string) (defaultValue : list string) :
    result (list string) :=
  if String.eqb value "" then Ok defaultValue else isValidRestrictedJsonPath value.

Definition from_container (c : ClusterWorkloadResourceMappingContainer) :
    result WorkloadContainer :=
  let? name := constructRestrictedPath (cmc_name c) ["name"] in
  let? env := constructRestrictedPath (cmc_env c) ["env"] in
  let? volumeMounts := constructRestrictedPath (cmc_volumeMounts c) ["volumeMounts"] in
  match jsonpath_Parse ("{" +:+ cmc_path c +:+ "}") with
  | Err e => Err (EErrorf "Error in parsing JSONPath expression %v: %v"
                   [AStr ("{" +:+ cmc_path c +:+ "}"); AErr e])
  | Ok path =>
      Ok {| wc_path := path; wc_name := name; wc_env := env;
            wc_envFrom := ["envFrom"]; wc_volumeMounts := volumeMounts |}
  end.

Definition FromWorkloadResourceMappingTemplate (mapping : ClusterWorkloadResourceMappingTemplate) :
    result WorkloadMapping :=
  let? containers := map_res from_container (cmt_containers mapping) in
  let? volume := constructRestrictedPath (cmt_volumes mapping)
                   ["spec"; "template"; "spec"; "volumes"] in
  Ok {| wm_containers := containers; wm_volume := volume |}.
End Parse.

(** ** Containers and pods

    [Data] is a reference into the store. *)
Record MetaContainer := {
  mc_Name : string;
  mc_Env : list string;
  mc_EnvFrom : list string;
  mc_VolumeMount : list string;
  mc_Data : loc
}.

Record MetaPodSpec := {
  mp_Containers : list MetaContainer;
  mp_Volume : list string;
  mp_Data : loc
}.

Definition bindingRootEnvVar : string := "SERVICE_BINDING_ROOT".
Definition bindingRoot : string := "/bindings".

(** The path-creating loop of [setSlice]: follows the keys, making the maps
    that are missing, and gives the last map; [seen] are the keys followed so
    far. *)
Fixpoint make_path (current : loc) (seen ps : list string) (h : heap) : result loc * heap :=
  match ps with
  | [] => (Ok current, h)
  | p :: ps' =>
      match aget p (cell_at h current) with
      | None =>
          let '(y, h1) := halloc [] h in
          make_path y (seen ++ [p]) ps' (hset current p (VMap y) h1)
      | Some (VMap y) => make_path y (seen ++ [p]) ps' h
      | Some _ => (Err (EErrorf "Value already exists at path %v" (AStr <$> seen)), h)
      end
  end.

(** The map that receives the slice. *)
Definition find_dest (obj : loc) (path : list string) (h : heap) : result loc * heap :=
  if 1 <? length path then
    let init := take (length path - 1) path in
    match hNestedField h obj init with
    | NErr e => (Err e, h)
    | NotFound => make_path obj [] init h
    | Found (VMap x) => (Ok x, h)
    | Found _ => (Err (EErrorf "Value already exists at path %v" (AStr <$> init)), h)
    end
  else (Ok obj, h).

(** [t] says whether [resources] is a nil slice. *)
Definition setSlice (obj : loc) (t : slice_ty) (resources : list loc) (path : list string) :
    M heap (result unit) := λ h,
  match find_dest obj path h with
  | (Err e, h') => (Ret (Err e), h')
  | (Ok dest, h') =>
      match last path with
      | None => (Panic "index out of range [-1]", h')
      | Some key => (Ret (Ok tt), hset dest key (VSlice t (VMap <$> resources)) h')
      end
  end.

Section Ops.
Context `{Converter}.

(** [addRaw]; [data], and what [NestedResources] gives, are built by [append]
    from a nil slice. *)
Definition addRaw (obj : loc) (k : rkind) (data : list loc) (path : list string) :
    M heap (result unit) :=
  h ← mget;
  match NestedResources k h obj path with
  | NErr e => mret (Err e)
  | NotFound => setSlice obj (built (length data)) data path
  | Found nestedData => setSlice obj (built (length (nestedData ++ data))) (nestedData ++ data) path
  end.

(** The remove loops of [RemoveEnvVars], [RemoveEnvFromVars],
    [RemoveVolumeMount] and [RemoveVolume] differ only in the resource type
    and in the test on an element.  What is left of a slice that had elements
    is not nil, even when it is empty. *)
Definition remove_resource (obj : loc) (k : rkind) (path : list string)
    (p : heap → loc → bool) : M heap (result unit) :=
  h ← mget;
  match NestedResources k h obj path with
  | NErr e => mret (Err e)
  | NotFound => mret (Ok tt)
  | Found l =>
      match remove_first (p h) l with
      | Some s => setSlice obj SliceMap s path
      | None => mret (Ok tt)
      end
  end.

(** [NestedString(item, fields...)] found, without error and equal to [name]. *)
Definition string_at_is (fields : list string) (name : string) (h : heap) (a : loc) : bool :=
  match hNestedString h a fields with Found s => String.eqb s name | _ => false end.

Definition RemoveEnvVars (c : MetaContainer) (name : string) : M heap (result unit) :=
  remove_resource (mc_Data c) KEnvVar (mc_Env c) (string_at_is ["name"] name).

Definition RemoveEnvFromVars (c : MetaContainer) (secretName : string) : M heap (result unit) :=
  remove_resource (mc_Data c) KEnvFromSource (mc_EnvFrom c)
    (string_at_is ["secretRef"; "name"] secretName).

(** A converted mount whose [Name] is [name]. *)
Definition mount_is (name : string) (h : heap) (a : loc) : bool :=
  match FromUnstructured KVolumeMount h a with
  | None => String.eqb (field_string h a "name") name
  | Some _ => false
  end.

Definition RemoveVolumeMount (c : MetaContainer) (name : string) : M heap (result unit) :=
  remove_resource (mc_Data c) KVolumeMount (mc_VolumeMount c) (mount_is name).

Definition RemoveVolume (template : MetaPodSpec) (name : string) : M heap (result unit) :=
  remove_resource (mp_Data template) KVolume (mp_Volume template) (string_at_is ["name"] name).

(** [for i := range vars { data = append(data, ToUnstructured(&vars[i])) }]. *)
Fixpoint to_unstructured_all (js : list json) : M heap (list loc) :=
  match js with
  | [] => mret []
  | j :: js' => a ← to_unstructured j; as_ ← to_unstructured_all js'; mret (a :: as_)
  end.

Definition AddEnvVars (c : MetaContainer) (vars : list EnvVar) : M heap (result unit) :=
  _ ← for_all vars (λ v, _ ← RemoveEnvVars c (ev_name v); mret tt);
  data ← to_unstructured_all (EnvVar_json <$> vars);
  addRaw (mc_Data c) KEnvVar data (mc_Env c).

Definition AddEnvFromVar (c : MetaContainer) (envVar : EnvFromSource) : M heap (result unit) :=
  match mc_EnvFrom c with
  | [] => mret (Err (ENew "No envFrom field"))
  | _ =>
      _ ← RemoveEnvFromVars c (efs_secretRef envVar);
      data ← to_unstructured (EnvFromSource_json envVar);
      addRaw (mc_Data c) KEnvFromSource [data] (mc_EnvFrom c)
  end.

(** [AddVolumeMount]; the conversions inside the loop repeat the ones
    [NestedResources] has already done on the same maps, so their error return
    is not taken. *)
Definition AddVolumeMount (c : MetaContainer) (mount : VolumeMount) : M heap (result unit) :=
  u ← to_unstructured (VolumeMount_json mount);
  h ← mget;
  match NestedResources KVolumeMount h (mc_Data c) (mc_VolumeMount c) with
  | NErr e => mret (Err e)
  | NotFound => setSlice (mc_Data c) SliceMap [u] (mc_VolumeMount c)
  | Found volumes =>
      setSlice (mc_Data c) SliceMap
        (replace_or_append (λ vol, String.eqb (field_string h vol "name") (vm_name mount)) u volumes)
        (mc_VolumeMount c)
  end.

(** [vol["name"] == volume.Name]: equal when the entry is that string. *)
Definition name_entry_is (name : string) (h : heap) (a : loc) : bool :=
  match aget "name" (cell_at h a) with Some (VStr s) => String.eqb s name | _ => false end.

Definition AddVolume (template : MetaPodSpec) (volume : Volume) : M heap (result unit) :=
  u ← to_unstructured (Volume_json volume);
  h ← mget;
  match NestedResources KVolume h (mp_Data template) (mp_Volume template) with
  | NErr e => mret (Err e)
  | NotFound => setSlice (mp_Data template) SliceMap [u] (mp_Volume template)
  | Found volumes =>
      setSlice (mp_Data template) SliceMap
        (replace_or_append (name_entry_is (vol_name volume) h) u volumes)
        (mp_Volume template)
  end.

(** The first [SERVICE_BINDING_ROOT] variable among the converted ones. *)
Fixpoint find_root (h : heap) (envs : list loc) : option string :=
  match envs with
  | [] => None
  | e :: envs' =>
      match FromUnstructured KEnvVar h e with
      | Some _ => find_root h envs'
      | None =>
          if String.eqb (field_string h e "name") bindingRootEnvVar
          then Some (field_string h e "value")
          else find_root h envs'
      end
  end.

Definition MountPath (c : MetaContainer) (bindingName : string) : M heap (result string) :=
  h ← mget;
  let append_root (envs : list loc) : M heap (result string) :=
    u ← to_unstructured (EnvVar_json
          {| ev_name := bindingRootEnvVar; ev_value := bindingRoot; ev_secretKeyRef := None |});
    let! _ := setSlice (mc_Data c) SliceMap (envs ++ [u]) (mc_Env c) in
    mret (Ok (path_Join bindingRoot bindingName)) in
  match NestedResources KEnvVar h (mc_Data c) (mc_Env c) with
  | NErr e => mret (Err e)
  | NotFound => append_root []
  | Found envs =>
      match find_root h envs with
      | Some value => mret (Ok (path_Join value bindingName))
      | None => append_root envs
      end
  end.
End Ops.

(** * Lemmas on [setSlice] *)

(** The keys lead to the map [make_path] gives, the store stays well formed
    and every map that existed keeps its entries under the old keys. *)
Lemma make_path_spec a seen ps h d h' :
  heap_ok h = true → a < length h → make_path a seen ps h = (Ok d, h') →
  heap_ok h' = true ∧ length h ≤ length h' ∧ d < length h' ∧
  (∃ vis, follow h' a ps = Some (vis, d) ∧ (follow h a ps = None → (d ∉ vis) ∧ length h ≤ d)) ∧
  (∀ b qs vis e, b < length h → follow h b qs = Some (vis, e) → follow h' b qs = Some (vis, e)).
Proof.
  revert a seen h. induction ps as [|p ps IH]; intros a seen h Hh Ha Hm; simpl in Hm.
  { simplify_eq. split_and!; [done..| |done]. exists []. split; [done|]. by intros ?. }
  destruct (aget p (cell_at h a)) as [v|] eqn:Hp.
  - destruct v as [| | | | | |b]; try done.
    assert (b < length h) as Hb.
    { apply Nat.ltb_lt. change (gval_ok (length h) (VMap b) = true).
      eapply cell_ok_aget; [|done]. by apply heap_ok_cell_at. }
    destruct (IH b _ h Hh Hb Hm) as (? & ? & ? & (vis & Hf & Hnew) & Hold).
    split_and!; [done..| |done].
    exists (a :: vis). assert (follow h' a [p] = Some ([a], b)) as Ha'.
    { apply Hold; [done|]. simpl. by rewrite Hp. }
    simpl in Ha'. destruct (aget p (cell_at h' a)) as [[]|] eqn:Hp'; simplify_eq/=.
    rewrite Hp', Hf, Hp. split; [done|]. intros Hnone.
    destruct (follow h b ps) as [[??]|]; [done|]. destruct (Hnew eq_refl).
    split; [|done]. apply not_elem_of_cons. split; [lia|done].
  - set (h1 := hset a p (VMap (length h)) (h ++ [[]])) in *.
    assert (cell_at (h ++ [[]]) a = cell_at h a) as Hc by by apply cell_at_app.
    assert (heap_ok h1 = true) as Hh1.
    { apply heap_ok_hset; [by apply heap_ok_halloc|]. simpl. rewrite length_app.
      apply Nat.ltb_lt. simpl. lia. }
    assert (length h1 = S (length h)) as Hl1
      by (unfold h1; rewrite hset_length, length_app; simpl; lia).
    destruct (IH (length h) _ h1 Hh1 ltac:(lia) Hm) as (? & ? & ? & (vis & Hf & Hnew) & Hold).
    assert (∀ b qs vis e, b < length h → follow h b qs = Some (vis, e) → follow h' b qs = Some (vis, e)) as Hk.
    { intros b qs vis' e Hb Hq. apply Hold; [lia|]. unfold h1.
      apply follow_hset_fresh; [by apply follow_app|by rewrite Hc]. }
    split_and!; [done|lia|done| |done]. exists (a :: vis).
    assert (follow h1 a [p] = Some ([a], length h)) as Hp1.
    { simpl. unfold h1. rewrite cell_at_hset_eq by (rewrite length_app; lia).
      by rewrite aget_aset_eq. }
    apply Hold in Hp1; [|lia]. simpl in Hp1 |- *.
    destruct (aget p (cell_at h' a)) as [[]|] eqn:Hp'; simplify_eq/=. rewrite Hf.
    split; [done|]. intros _. destruct ps as [|q ps].
    { simpl in Hf. simplify_eq. split; [|lia]. set_solver by lia. }
    assert (follow h1 (length h) (q :: ps) = None) as Hnone.
    { simpl. unfold h1. rewrite cell_at_hset_ne by lia. by rewrite cell_at_halloc. }
    destruct (Hnew Hnone) as [? ?]. split; [|lia]. apply not_elem_of_cons. split; [lia|done].
Qed.

Definition path_init (path : list string) : list string := take (length path - 1) path.

Lemma path_init_last path key : last path = Some key → path = path_init path ++ [key].
Proof.
  intros [l ->]%last_Some. unfold path_init. rewrite length_app. simpl.
  by rewrite Nat.add_sub, take_app_length.
Qed.

Lemma find_dest_spec obj path h d h' :
  heap_ok h = true → obj < length h → acyclic_path h obj (path_init path) = true →
  find_dest obj path h = (Ok d, h') →
  heap_ok h' = true ∧ length h ≤ length h' ∧ d < length h' ∧
  (∃ vis, follow h' obj (path_init path) = Some (vis, d) ∧ d ∉ vis) ∧
  (∀ b qs vis e, b < length h → follow h b qs = Some (vis, e) → follow h' b qs = Some (vis, e)).
Proof.
  intros Hh Ho Hac Hd. unfold find_dest in Hd. fold (path_init path) in Hd.
  destruct (1 <? length path) eqn:Hlen.
  - destruct (hNestedField h obj (path_init path)) as [[| | | | | |x]| |e] eqn:Hn; try done; simplify_eq.
    + destruct (nested_follow _ _ _ _ Hn) as [vis Hf]. split_and!; [done..| | |done].
      * by eapply follow_ok.
      * exists vis. split; [done|]. unfold acyclic_path in Hac. rewrite Hf in Hac.
        by apply bool_decide_eq_true in Hac.
    + destruct (make_path_spec _ _ _ _ _ _ Hh Ho Hd) as (? & ? & ? & (vis & Hf & Hnew) & ?).
      split_and!; [done..| |done]. exists vis. split; [done|]. apply Hnew.
      destruct (follow h obj (path_init path)) as [[v e]|] eqn:Hfo; [|done].
      apply (follow_nested _ _ _ _ _ []) in Hfo. rewrite app_nil_r in Hfo.
      change (hNestedField h e []) with (Found (VMap e)) in Hfo. congruence.
  - assert (path_init path = []) as ->.
    { unfold path_init. apply Nat.ltb_ge in Hlen. by replace (length path - 1) with 0 by lia. }
    simplify_eq. split_and!; [done..| |done]. exists []. split; [done|set_solver].
Qed.

(** What [setSlice] does when it succeeds: the slice is found at the path, the
    store stays well formed, only one entry of one map changes, and nothing
    that could be reached is lost. *)
Lemma setSlice_spec obj t rs path h h' :
  heap_ok h = true → obj < length h → acyclic_path h obj (path_init path) = true →
  forallb (λ a, a <? length h) rs = true →
  setSlice obj t rs path h = (Ret (Ok tt), h') →
  heap_ok h' = true ∧ length h ≤ length h' ∧
  hNestedField h' obj path = Found (VSlice t (VMap <$> rs)).
Proof.
  intros Hh Ho Hac Hrs Hs. unfold setSlice in Hs.
  destruct (find_dest obj path h) as [[d|e] h1] eqn:Hd; [|done].
  destruct (find_dest_spec _ _ _ _ _ Hh Ho Hac Hd) as (Hh1 & Hl & Hdl & (vis & Hf & Hvis) & _).
  destruct (last path) as [key|] eqn:Hlast; [|done]. simplify_eq.
  split; [|split].
  - apply heap_ok_hset; [done|]. simpl. apply forallb_forall.
    intros v (a & <- & Ha)%in_map_iff. rewrite forallb_forall in Hrs.
    apply Hrs in Ha. simpl. apply Nat.ltb_lt in Ha. apply Nat.ltb_lt. lia.
  - by rewrite hset_length.
  - rewrite (path_init_last _ _ Hlast) at 1.
    erewrite follow_nested; [|by apply follow_hset].
    unfold hNestedField. simpl. by rewrite cell_at_hset_eq, aget_aset_eq.
Qed.

(** A one-key path is written in the map itself, and nothing else changes. *)
Lemma setSlice_flat obj t rs key h :
  setSlice obj t rs [key] h =
  (Ret (Ok tt), hset obj key (VSlice t (VMap <$> rs)) h).
Proof. done. Qed.

(** The list at the path is there already: [setSlice] replaces it in place. *)
Lemma setSlice_found obj t rs path h v :
  heap_ok h = true → obj < length h → path ≠ [] → hNestedField h obj path = Found v →
  ∃ d key vis, last path = Some key ∧ follow h obj (path_init path) = Some (vis, d) ∧
    d < length h ∧
    setSlice obj t rs path h = (Ret (Ok tt), hset d key (VSlice t (VMap <$> rs)) h).
Proof.
  intros Hh Ho Hne Hf.
  assert (∃ key, last path = Some key) as [key Hlast].
  { destruct (last path) eqn:E; [eauto|]. by apply last_None in E. }
  pose proof (path_init_last _ _ Hlast) as Hpath.
  assert (∃ d, hNestedField h obj (path_init path) = Found (VMap d)) as [d Hd].
  { rewrite Hpath in Hf. revert Hf. generalize (path_init path) as ps. clear.
    unfold hNestedField. intros ps. generalize (VMap obj) as w.
    induction ps as [|p ps IH]; intros w; simpl; [destruct w; try done; eauto|].
    destruct w as [| | | | | |a]; try done. destruct (aget p (cell_at h a)); [apply IH|done]. }
  destruct (nested_follow _ _ _ _ Hd) as [vis Hvis].
  exists d, key, vis. split; [done|]. split; [done|]. split; [by eapply follow_ok|].
  unfold setSlice, find_dest. fold (path_init path). rewrite Hd, Hlast.
  destruct (1 <? length path) eqn:Hlen; [done|].
  assert (path_init path = []) as Hi.
  { unfold path_init. apply Nat.ltb_ge in Hlen. by replace (length path - 1) with 0 by lia. }
  rewrite Hi in Hvis. simpl in Hvis. by simplify_eq.
Qed.
