(* ===== verification/WorkloadSpec.v ===== *)
(** * What the workload operations guarantee

    Theorems about [Workload]: each operation succeeds on a workload whose
    lists are in place, writes exactly the list the binding specification
    asks for, and leaves the store well formed. *)

From S2P Require Import Prelude.
From S2P Require Import GoLib.
From S2P Require Import GoValue.
From S2P Require Import JsonPath.
From S2P Require Import Heap.
From S2P Require Import Converter.
From S2P Require Import Workload.

(** The maps in the list at a path. *)
Definition list_at (h : heap) (a : loc) (path : list string) : option (list loc) :=
  match hNestedField h a path with
  | Found (VSlice SliceMap l) => mapM (λ v, match v with VMap b => Some b | _ => None end) l
  | _ => None
  end.

Lemma list_at_maps h a path l :
  hNestedField h a path = Found (VSlice SliceMap (VMap <$> l)) → list_at h a path = Some l.
Proof.
  intros Hf. unfold list_at. rewrite Hf. by apply mapM_fmap_Some.
Qed.

(** The elements found are maps of the store. *)
Lemma resources_valid `{Converter} k h a path l :
  heap_ok h = true → a < length h → NestedResources k h a path = Found l →
  Forall (λ b, b < length h) l.
Proof.
  intros Hh Ha [[t Hf] _]%NestedResources_Found.
  assert (gval_ok (length h) (VSlice t (VMap <$> l)) = true) as Hok.
  { clear -Hh Ha Hf. unfold hNestedField in Hf.
    assert (gval_ok (length h) (VMap a) = true) as Hv by by apply Nat.ltb_lt.
    revert Hv Hf. generalize (VMap a) as v. induction path as [|p path IH]; intros v Hv Hf; simpl in Hf.
    { by simplify_eq. }
    destruct v as [| | | | | |b]; try done. simpl in Hf.
    destruct (aget p (cell_at h b)) as [w|] eqn:Hw; [|done]. eapply IH; [|done].
    eapply cell_ok_aget; [|done]. by apply heap_ok_cell_at. }
  simpl in Hok. apply Forall_forall. intros b Hb. rewrite forallb_forall in Hok.
  apply Nat.ltb_lt, (Hok (VMap b)), list_elem_of_In, list_elem_of_fmap. eauto.
Qed.

Lemma resources_path `{Converter} k h a l : NestedResources k h a [] ≠ Found l.
Proof. by intros [[t Hf] _]%NestedResources_Found. Qed.

Lemma replace_or_append_ext {A} (p q : A → bool) u l :
  Forall (λ x, p x = q x) l → replace_or_append p u l = replace_or_append q u l.
Proof.
  intros HF. unfold replace_or_append.
  assert (map (λ x, if p x then u else x) l = map (λ x, if q x then u else x) l ∧
          existsb p l = existsb q l) as [-> ->]; [|done].
  induction HF as [|x l Hx _ [IH1 IH2]]; [done|]. simpl. by rewrite Hx, IH1, IH2.
Qed.

Lemma replace_or_append_valid {A} (P : A → Prop) (p : A → bool) u l :
  P u → Forall P l → Forall P (replace_or_append p u l).
Proof.
  intros Hu Hl. unfold replace_or_append.
  assert (Forall P (map (λ x, if p x then u else x) l)) as Hm.
  { induction Hl as [|x l Hx _ IH]; simpl; constructor; [by destruct (p x)|done]. }
  destruct (existsb p l); [done|]. apply Forall_app; auto.
Qed.

Lemma remove_first_ext {A} (p q : A → bool) l :
  Forall (λ x, p x = q x) l → remove_first p l = remove_first q l.
Proof. induction 1 as [|x l Hx _ IH]; [done|]. simpl. by rewrite Hx, IH. Qed.

Lemma valid_below_forallb n (l : list loc) : Forall (λ b, b < n) l → forallb (λ b, b <? n) l = true.
Proof. intros HF. apply forallb_forall. intros x Hx%list_elem_of_In. rewrite Forall_forall in HF. by apply Nat.ltb_lt, HF. Qed.

Lemma filter_ext_elem {A} (f g : A → bool) (l : list A) :
  (∀ x, x ∈ l → f x = g x) → filter (λ x, f x = true) l = filter (λ x, g x = true) l.
Proof.
  induction l as [|x l IH]; intros Hfg; [done|]. rewrite !filter_cons, Hfg, IH by set_solver. done.
Qed.

Section Spec.
Context `{Converter}.

(** Where an operation works: a well-formed store, a valid container map and a
    path that does not run in a circle. *)
Definition place_ok (h : heap) (a : loc) (path : list string) : bool :=
  heap_ok h && (a <? length h) && acyclic_path h a (path_init path).

Lemma place_ok_spec h a path :
  place_ok h a path = true ↔
  heap_ok h = true ∧ a < length h ∧ acyclic_path h a (path_init path) = true.
Proof. unfold place_ok. rewrite !andb_true_iff, Nat.ltb_lt. tauto. Qed.

Lemma follow_app_inv h k a ps vis d :
  heap_ok h = true → a < length h → follow (h ++ k) a ps = Some (vis, d) →
  follow h a ps = Some (vis, d).
Proof.
  intros Hh. revert a vis. induction ps as [|p ps IH]; intros a vis Ha Hf; simpl in *; [done|].
  rewrite cell_at_app in Hf by done. destruct (aget p (cell_at h a)) as [[]|] eqn:E; try done.
  apply fmap_Some in Hf as ([vis' d'] & Hf & ?). simplify_eq/=. rewrite (IH a0 vis'); [done| |done].
  apply Nat.ltb_lt. change (gval_ok (length h) (VMap a0) = true).
  eapply cell_ok_aget; [|done]. by apply heap_ok_cell_at.
Qed.

Lemma acyclic_path_prefix h h' a ps :
  heap_ok h = true → a < length h → h `prefix_of` h' →
  acyclic_path h a ps = true → acyclic_path h' a ps = true.
Proof.
  intros Hh Ha [k ->]. unfold acyclic_path.
  destruct (follow (h ++ k) a ps) as [[vis d]|] eqn:E; [|done].
  by rewrite (follow_app_inv h k a ps vis d).
Qed.

(** [a] is not one of the cells allocated between [lo] and [hi]. *)
Definition outside (lo hi a : nat) : Prop := a < lo ∨ hi ≤ a.

(** Creating a path from a map of the old store touches none of the cells
    allocated in between. *)
Lemma make_path_frame lo hi a seen ps h d h' :
  hi ≤ length h → outside lo hi a →
  (∀ b k x, outside lo hi b → aget k (cell_at h b) = Some (VMap x) → outside lo hi x) →
  make_path a seen ps h = (Ok d, h') →
  outside lo hi d ∧ ∀ b, lo ≤ b < hi → h' !! b = h !! b.
Proof.
  revert a seen h. induction ps as [|p ps IH]; intros a seen h Hhi Ha Hcl Hm; simpl in Hm; [by simplify_eq|].
  destruct (aget p (cell_at h a)) as [v|] eqn:Hp.
  { destruct v as [| | | | | |b]; try done. exact (IH b _ h Hhi (Hcl _ _ _ Ha Hp) Hcl Hm). }
  destruct (IH (length h) (seen ++ [p]) (hset a p (VMap (length h)) (h ++ [[]]))) as [Hd Hf];
    [rewrite hset_length, length_app; simpl; lia|right; lia| |exact Hm|].
  - intros b k x Hb. destruct (decide (b = length h)) as [->|Hne].
    { destruct (decide (a = length h)) as [->|].
      - unfold cell_at, hset. intros Hx. rewrite list_lookup_insert_eq in Hx
          by (rewrite length_app; simpl; lia). simpl in Hx.
        rewrite aget_aset in Hx. unfold cell_at in Hx.
        rewrite list_lookup_middle in Hx by done. simpl in Hx. str_cases; simplify_eq. right; lia.
      - rewrite cell_at_hset_ne, cell_at_halloc by done. done. }
    destruct (decide (a = b)) as [->|].
    + destruct (decide (b < length h)) as [Hl|Hl].
      * rewrite cell_at_hset_eq by (rewrite length_app; lia). rewrite aget_aset, cell_at_app by done.
        destruct (String.eqb_spec k p); intros; simplify_eq; [right; lia|by eapply Hcl].
      * unfold cell_at, hset. rewrite list_insert_ge by (rewrite length_app; simpl; lia).
        rewrite lookup_ge_None_2 by (rewrite length_app; simpl; lia). done.
    + rewrite cell_at_hset_ne by done. unfold cell_at.
      destruct (decide (b < length h)); [rewrite lookup_app_l by done; intros; by eapply Hcl|].
      rewrite lookup_ge_None_2 by (rewrite length_app; simpl; lia). done.
  - split; [done|]. intros b Hb. rewrite Hf by done. unfold hset.
    rewrite list_lookup_insert_ne by (destruct Ha; lia). rewrite lookup_app_l by lia. done.
Qed.

(** Writing a list after some allocations: the list is at the path, the store
    is well formed, and the new cells are as they were allocated. *)
Lemma write_list h h1 a path rs h' :
  place_ok h a path = true → h `prefix_of` h1 → heap_ok h1 = true →
  Forall (λ b, b < length h1) rs →
  setSlice a SliceMap rs path h1 = (Ret (Ok tt), h') →
  heap_ok h' = true ∧ list_at h' a path = Some rs ∧ agree_since h h1 h'.
Proof.
  intros (Hh & Ha & Hac)%place_ok_spec Hp Hh1 Hrs Hs.
  pose proof (prefix_length _ _ Hp) as Hlen.
  pose proof (acyclic_path_prefix h h1 a _ Hh Ha Hp Hac) as Hac1.
  destruct (setSlice_spec a _ rs path h1 h' Hh1 ltac:(lia) Hac1 (valid_below_forallb _ _ Hrs) Hs)
    as (? & _ & Hres).
  split; [done|]. split; [by apply list_at_maps|].
  unfold setSlice in Hs. destruct (find_dest a path h1) as [[d|e] h2] eqn:Hd; [|done].
  destruct (last path) as [key|] eqn:Hlast; [|done]. simplify_eq.
  assert (outside (length h) (length h1) d ∧ agree_since h h1 h2) as [Ho Hag].
  { unfold find_dest in Hd. fold (path_init path) in Hd.
    assert (∀ x vis, follow h1 a (path_init path) = Some (vis, x) → outside (length h) (length h1) x) as Hin.
    { intros x vis Hx. left. destruct Hp as [k ->]. by eapply follow_ok, follow_app_inv. }
    destruct (1 <? length path); [|simplify_eq; split; [left; lia|done]].
    destruct (hNestedField h1 a (path_init path)) as [[| | | | | |x]| |e] eqn:Hn; try done; simplify_eq.
    - destruct (nested_follow _ _ _ _ Hn) as [vis Hf]. split; [by eapply Hin|done].
    - eapply make_path_frame in Hd; [exact Hd|lia|left; lia|].
      intros b k x [Hb|Hb] Hx.
      + left. destruct Hp as [k' ->]. rewrite cell_at_app in Hx by done.
        apply Nat.ltb_lt. change (gval_ok (length h) (VMap x) = true).
        eapply cell_ok_aget; [|done]. by apply heap_ok_cell_at.
      + unfold cell_at in Hx. by rewrite lookup_ge_None_2 in Hx. }
  intros b Hb. unfold hset. rewrite list_lookup_insert_ne by (destruct Ho; lia). by apply Hag.
Qed.

(** A list that is at the path already can always be replaced. *)
Lemma write_list_ok k h h1 a path vols rs :
  place_ok h a path = true → NestedResources k h a path = Found vols →
  h `prefix_of` h1 → heap_ok h1 = true →
  ∃ h', setSlice a SliceMap rs path h1 = (Ret (Ok tt), h').
Proof.
  intros (Hh & Ha & _)%place_ok_spec Hr Hp Hh1.
  assert (path ≠ []) as Hne by (intros ->; by eapply resources_path).
  pose proof Hr as [[t Hf] _]%NestedResources_Found.
  pose proof (prefix_length _ _ Hp).
  rewrite <- (hNestedField_prefix h h1) in Hf by done.
  destruct (setSlice_found a SliceMap rs path h1 _ Hh1 ltac:(lia) Hne Hf) as (? & ? & ? & _ & _ & _ & ->).
  eauto.
Qed.

(** The list an operation starts from: nothing there is the empty list. *)
Definition existing (k : rkind) (h : heap) (a : loc) (path : list string) : list loc :=
  match NestedResources k h a path with Found l => l | _ => [] end.

(** Nothing at the path, or a list of resources of the type. *)
Definition readable (k : rkind) (h : heap) (a : loc) (path : list string) : bool :=
  match NestedResources k h a path with NErr _ => false | _ => true end.

(** The shape [AddVolumeMount] and [AddVolume] share. *)
Definition upsert (k : rkind) (a : loc) (path : list string) (m : list (string * json))
    (p : heap → loc → bool) : M heap (result unit) :=
  u ← to_unstructured (JObj m);
  h ← mget;
  match NestedResources k h a path with
  | NErr e => mret (Err e)
  | NotFound => setSlice a SliceMap [u] path
  | Found l => setSlice a SliceMap (replace_or_append (p h) u l) path
  end.

(** The test on an element looks at its own entries only. *)
Definition cell_test (p : heap → loc → bool) : Prop :=
  ∀ h h' b, cell_at h b = cell_at h' b → p h b = p h' b.

Lemma upsert_spec k a path m p h h' :
  cell_test p → place_ok h a path = true → readable k h a path = true →
  upsert k a path m p h = (Ret (Ok tt), h') →
  heap_ok h' = true ∧
  ∃ u, length h ≤ u ∧ list_at h' a path = Some (replace_or_append (p h) u (existing k h a path)) ∧
    ∀ n, json_depth (JObj m) ≤ n → reify n h' (VMap u) = Some (JObj m).
Proof.
  intros Hp Hpl Hread Hrun. pose proof Hpl as (Hh & Ha & _)%place_ok_spec. unfold upsert in Hrun.
  destruct (to_unstructured_spec m h) as (u & h1 & Hu & Hpre & Hul & Hok & Hre & _).
  rewrite (mbind_ret _ _ _ _ _ Hu) in Hrun. unfold mget in Hrun.
  rewrite (mbind_ret _ _ _ h1 h1) in Hrun by done.
  pose proof (prefix_length _ _ Hpre) as Hlen. unfold existing. unfold readable in Hread.
  assert (∀ rs, Forall (λ b, b < length h1) rs → setSlice a SliceMap rs path h1 = (Ret (Ok tt), h') →
    heap_ok h' = true ∧ list_at h' a path = Some rs ∧
    ∀ n, json_depth (JObj m) ≤ n → reify n h' (VMap u) = Some (JObj m)) as Hset.
  { intros rs Hrs Hs.
    destruct (write_list h h1 a path rs h' Hpl Hpre (Hok Hh) Hrs Hs) as (? & ? & ?). auto. }
  destruct (NestedResources k h a path) as [l| |e] eqn:Hr.
  - rewrite (NestedResources_prefix _ h h1 _ _ _ Hh Ha Hpre Hr) in Hrun.
    pose proof (resources_valid _ _ _ _ _ Hh Ha Hr) as Hv.
    assert (replace_or_append (p h1) u l = replace_or_append (p h) u l) as Hext.
    { apply replace_or_append_ext. eapply Forall_impl; [exact Hv|]. intros b Hb. apply Hp.
      destruct Hpre as [k' ->]. by rewrite cell_at_app. }
    rewrite Hext in Hrun. destruct (Hset (replace_or_append (p h) u l)) as (? & ? & ?); [|done|].
    { apply replace_or_append_valid; [lia|]. eapply Forall_impl; [exact Hv|]. simpl; lia. }
    split; [done|]. exists u. split_and!; [lia|done|done].
  - apply NestedResources_NotFound in Hr. rewrite <- (hNestedField_prefix h h1) in Hr by done.
    apply (NestedResources_NotFound k) in Hr. rewrite Hr in Hrun.
    destruct (Hset [u]) as (? & ? & ?); [constructor; [lia|done]|done|].
    split; [done|]. exists u. split_and!; [lia|done|done].
  - done.
Qed.

(** ** Total correctness when the map that holds the list is there *)

Definition has_parent (h : heap) (a : loc) (path : list string) : bool :=
  match path, hNestedField h a (path_init path) with
  | _ :: _, Found (VMap _) => true
  | _, _ => false
  end.

Lemma has_parent_dest h a path :
  heap_ok h = true → a < length h → has_parent h a path = true →
  ∃ d key vis, last path = Some key ∧ hNestedField h a (path_init path) = Found (VMap d) ∧
    follow h a (path_init path) = Some (vis, d) ∧ d < length h.
Proof.
  intros Hh Ha Hp. unfold has_parent in Hp. destruct path as [|s path]; [done|].
  destruct (hNestedField h a (path_init (s :: path))) as [[| | | | | |d]| |] eqn:Hd; try done.
  destruct (nested_follow _ _ _ _ Hd) as [vis Hf].
  destruct (last (s :: path)) as [key|] eqn:Hl; [|by apply last_None in Hl].
  exists d, key, vis. split_and!; [done..|]. by eapply follow_ok.
Qed.

Lemma setSlice_parent h h1 a path rs d key :
  heap_ok h = true → a < length h → h `prefix_of` h1 →
  hNestedField h a (path_init path) = Found (VMap d) → last path = Some key →
  setSlice a SliceMap rs path h1 = (Ret (Ok tt), hset d key (VSlice SliceMap (VMap <$> rs)) h1).
Proof.
  intros Hh Ha Hp Hd Hl. unfold setSlice, find_dest. fold (path_init path).
  rewrite (hNestedField_prefix h h1), Hd, Hl by done.
  destruct (1 <? length path) eqn:Hlen; [done|].
  assert (path_init path = []) as Hi.
  { unfold path_init. apply Nat.ltb_ge in Hlen. by replace (length path - 1) with 0 by lia. }
  rewrite Hi in Hd. unfold hNestedField in Hd. simpl in Hd. by simplify_eq.
Qed.

(** [upsert] as one allocation followed by one assignment. *)
Lemma upsert_run k a path m p h :
  cell_test p → place_ok h a path = true → has_parent h a path = true →
  readable k h a path = true →
  ∃ u h1 d key, last path = Some key ∧ hNestedField h a (path_init path) = Found (VMap d) ∧
    d < length h ∧ to_unstructured (JObj m) h = (Ret u, h1) ∧ length h ≤ u < length h1 ∧
    upsert k a path m p h =
    (Ret (Ok tt),
     hset d key (VSlice SliceMap (VMap <$> replace_or_append (p h) u (existing k h a path))) h1).
Proof.
  intros Hp (Hh & Ha & _)%place_ok_spec Hpar Hread.
  destruct (has_parent_dest h a path Hh Ha Hpar) as (d & key & vis & Hl & Hd & _ & Hdl).
  destruct (to_unstructured_spec m h) as (u & h1 & Hu & Hpre & Hul & _).
  exists u, h1, d, key. split_and!; [done..|lia|lia|]. unfold upsert.
  rewrite (mbind_ret _ _ _ _ _ Hu), (mbind_ret _ _ _ h1 h1) by done.
  unfold existing. unfold readable in Hread.
  destruct (NestedResources k h a path) as [l| |e] eqn:Hr; [| |done].
  - rewrite (NestedResources_prefix _ h h1 _ _ _ Hh Ha Hpre Hr).
    rewrite (setSlice_parent h h1 a path _ d key) by done.
    assert (replace_or_append (p h1) u l = replace_or_append (p h) u l) as ->; [|done].
    apply replace_or_append_ext.
    eapply Forall_impl; [exact (resources_valid _ _ _ _ _ Hh Ha Hr)|].
    intros b Hb. apply Hp. destruct Hpre as [k' ->]. by rewrite cell_at_app.
  - apply NestedResources_NotFound in Hr. rewrite <- (hNestedField_prefix h h1) in Hr by done.
    apply (NestedResources_NotFound k) in Hr. rewrite Hr.
    by rewrite (setSlice_parent h h1 a path _ d key).
Qed.

(** Removing: exactly the first element that matches goes; without one
    nothing is written. *)
Lemma remove_resource_run k a path p h l :
  place_ok h a path = true → NestedResources k h a path = Found l →
  match remove_first (p h) l with
  | None => remove_resource a k path p h = (Ret (Ok tt), h)
  | Some l' => ∃ h', remove_resource a k path p h = (Ret (Ok tt), h') ∧
      heap_ok h' = true ∧ length h' = length h ∧ list_at h' a path = Some l'
  end.
Proof.
  intros Hpl Hr. pose proof Hpl as (Hh & Ha & _)%place_ok_spec.
  unfold remove_resource. rewrite (mbind_ret _ _ _ h h) by done. rewrite Hr.
  destruct (remove_first (p h) l) as [l'|] eqn:Hrem; [|done].
  destruct (write_list_ok k h h a path l l' Hpl Hr) as [h' Hs]; [done..|].
  exists h'. split; [done|].
  destruct (write_list h h a path l' h' Hpl) as (? & ? & _); [done..| |done|].
  { apply remove_first_Some in Hrem as (l1 & x & l2 & -> & -> & _).
    pose proof (resources_valid _ _ _ _ _ Hh Ha Hr) as Hv.
    apply Forall_app in Hv as [? [_ ?]%Forall_cons]. by apply Forall_app. }
  split_and!; [done| |done].
  assert (path ≠ []) as Hne by (intros ->; by eapply resources_path).
  pose proof Hr as [[t Hf] _]%NestedResources_Found.
  destruct (setSlice_found a SliceMap l' path h _ Hh Ha Hne Hf) as (? & ? & ? & _ & _ & _ & E).
  rewrite E in Hs. simplify_eq. apply hset_length.
Qed.

(** The elements do not reach the map that holds the list. *)
Definition apart (h : heap) (a : loc) (path : list string) (l : list loc) : bool :=
  match hNestedField h a (path_init path) with
  | Found (VMap d) => forallb (λ b, negb (touches (S (heap_size h)) h (VMap b) d)) l
  | _ => false
  end.

Lemma hNestedField_last h a path key d vis :
  last path = Some key → follow h a (path_init path) = Some (vis, d) →
  hNestedField h a path =
  match aget key (cell_at h d) with Some v => Found v | None => NotFound end.
Proof.
  intros Hl Hf. rewrite (path_init_last _ _ Hl) at 1. rewrite (follow_nested _ _ _ _ _ _ Hf).
  unfold hNestedField. simpl. by destruct (aget key (cell_at h d)).
Qed.

(** Assigning a list in a larger store keeps the place and puts the list
    there. *)
Lemma assign_list h h1 a path rs d key :
  place_ok h a path = true → h `prefix_of` h1 → heap_ok h1 = true →
  hNestedField h a (path_init path) = Found (VMap d) → last path = Some key →
  Forall (λ b, b < length h1) rs →
  let h' := hset d key (VSlice SliceMap (VMap <$> rs)) h1 in
  place_ok h' a path = true ∧ has_parent h' a path = true ∧
  hNestedField h' a path = Found (VSlice SliceMap (VMap <$> rs)).
Proof.
  intros (Hh & Ha & Hac)%place_ok_spec Hpre Hh1 Hd Hl Hrs h'.
  pose proof (prefix_length _ _ Hpre) as Hlen.
  destruct (nested_follow _ _ _ _ Hd) as [vis Hf].
  pose proof (follow_ok _ _ _ _ _ Hh Ha Hf) as Hdl.
  unfold acyclic_path in Hac. rewrite Hf in Hac. apply bool_decide_eq_true in Hac as Hvis.
  assert (follow h1 a (path_init path) = Some (vis, d)) as Hf1.
  { destruct Hpre as [x ->]. by apply follow_app. }
  assert (follow h' a (path_init path) = Some (vis, d)) as Hf' by by apply follow_hset.
  split_and!.
  - apply place_ok_spec. split_and!.
    + apply heap_ok_hset; [done|]. simpl. apply forallb_forall.
      intros v (b & <- & Hb)%in_map_iff. apply Nat.ltb_lt.
      apply list_elem_of_In in Hb. revert b Hb. by apply Forall_forall.
    + unfold h'. rewrite hset_length. lia.
    + unfold acyclic_path. rewrite Hf'. by apply bool_decide_eq_true.
  - unfold has_parent. destruct path; [done|].
    rewrite <- (app_nil_r (path_init _)), (follow_nested _ _ _ _ _ _ Hf'). done.
  - rewrite (hNestedField_last _ _ _ _ _ _ Hl Hf'). unfold h'.
    by rewrite cell_at_hset_eq, aget_aset_eq by lia.
Qed.

(** A resource that does not reach the map written to stays convertible. *)
Lemma convert_after k h h1 d key v b :
  FromUnstructured k h b = None → ¬ reaches h (VMap b) d →
  d < length h → h `prefix_of` h1 → FromUnstructured k (hset d key v h1) b = None.
Proof.
  intros Hc Ht Hd Hp. unfold FromUnstructured in *.
  destruct (reify (S (heap_size h)) h (VMap b)) as [j|] eqn:Hr; [|done].
  rewrite <- (reify_insert _ _ _ d (aset key v (cell_at h d)) Ht) in Hr.
  assert (reify (S (heap_size (hset d key v h1))) (hset d key v h1) (VMap b) = Some j) as ->; [|done].
  apply (reify_enough (S (heap_size h)) _ (VMap b)). eapply reify_mono; [exact Hr|done|].
  destruct Hp as [x ->]. unfold hset. rewrite cell_at_app by done.
  rewrite insert_app_l by done. by apply prefix_app_r.
Qed.

Lemma apart_elem h a path l d b :
  hNestedField h a (path_init path) = Found (VMap d) → apart h a path l = true → b ∈ l →
  b ≠ d ∧ ¬ reaches h (VMap b) d.
Proof.
  intros Hd Hap Hb. unfold apart in Hap. rewrite Hd in Hap. rewrite forallb_forall in Hap.
  apply list_elem_of_In, Hap, negb_true_iff in Hb. split; [|by eapply touches_reaches].
  simpl in Hb. by apply orb_false_iff in Hb as [?%Nat.eqb_neq _].
Qed.

Lemma existing_valid k h a path :
  heap_ok h = true → a < length h →
  Forall (λ b, b < length h ∧ FromUnstructured k h b = None) (existing k h a path).
Proof.
  intros Hh Ha. unfold existing. destruct (NestedResources k h a path) eqn:Hr; try constructor.
  pose proof (resources_valid _ _ _ _ _ Hh Ha Hr). apply NestedResources_Found in Hr as [_ ?].
  by apply Forall_and.
Qed.

(** After [upsert]: every element that was there is still a convertible
    resource with the entries it had, and so is the new one. *)
Lemma upsert_elements k a path m p h :
  cell_test p → place_ok h a path = true → has_parent h a path = true →
  readable k h a path = true → apart h a path (existing k h a path) = true →
  from_unstructured k (JObj m) = None →
  ∃ u h', upsert k a path m p h = (Ret (Ok tt), h') ∧ length h ≤ u ∧
    place_ok h' a path = true ∧ has_parent h' a path = true ∧
    NestedResources k h' a path = Found (replace_or_append (p h) u (existing k h a path)) ∧
    (∀ b, b ∈ existing k h a path → cell_at h' b = cell_at h b) ∧
    (∀ key s, aget key m = Some (JStr s) → aget key (cell_at h' u) = Some (VStr s)).
Proof.
  intros Hp Hpl Hpar Hread Hap Hconv. pose proof Hpl as (Hh & Ha & _)%place_ok_spec.
  destruct (upsert_run k a path m p h Hp Hpl Hpar Hread)
    as (u & h1 & d & key & Hl & Hd & Hdl & Hu & Hul & E).
  destruct (to_unstructured_spec m h) as (? & ? & Hu' & Hpre & _ & Hok & Hre & Hent).
  rewrite Hu in Hu'. injection Hu' as <- <-.
  set (l := existing k h a path) in *. set (rs := replace_or_append (p h) u l) in *.
  pose proof (existing_valid k h a path Hh Ha) as Hv. fold l in Hv.
  pose proof (prefix_length _ _ Hpre) as Hlen. destruct (nested_follow _ _ _ _ Hd) as [vis Hf].
  destruct (assign_list h h1 a path rs d key) as (Hpl' & Hpar' & Hget); [done|done|by apply Hok|done..| |].
  { apply replace_or_append_valid; [lia|]. eapply Forall_impl; [exact Hv|]. simpl. lia. }
  exists u, (hset d key (VSlice SliceMap (VMap <$> rs)) h1). split_and!; [done|lia|done|done| | |].
  - apply NestedResources_Found. split; [eauto|]. apply replace_or_append_valid.
    + unfold FromUnstructured. erewrite (reify_enough _ _ (VMap u)); [exact Hconv|].
      apply Hre; [|done]. intros b Hb. unfold hset. by rewrite list_lookup_insert_ne by lia.
    + apply Forall_forall. intros b Hb. rewrite Forall_forall in Hv.
      eapply convert_after; [by apply Hv| |done..]. by eapply apart_elem.
  - intros b Hb. rewrite cell_at_hset_ne by (symmetry; by eapply apart_elem).
    destruct Hpre as [x ->]. apply cell_at_app. rewrite Forall_forall in Hv. by apply Hv.
  - intros q s Hq. rewrite cell_at_hset_ne by lia. by apply Hent.
Qed.

(** Everything an operation on the list at a path relies on: the map that
    holds the list exists, the list (if any) has resources of the type, and
    the resources do not contain the map that holds them. *)
Definition list_place (k : rkind) (h : heap) (a : loc) (path : list string) : bool :=
  place_ok h a path && has_parent h a path && readable k h a path &&
  apart h a path (existing k h a path).

Lemma list_place_spec k h a path :
  list_place k h a path = true ↔
  place_ok h a path = true ∧ has_parent h a path = true ∧ readable k h a path = true ∧
  apart h a path (existing k h a path) = true.
Proof. unfold list_place. rewrite !andb_true_iff. tauto. Qed.

Lemma name_entry_cell name : cell_test (name_entry_is name).
Proof. intros h h' b E. unfold name_entry_is. by rewrite E. Qed.

Lemma field_string_cell name : cell_test (λ h b, String.eqb (field_string h b "name") name).
Proof. intros h h' b E. unfold field_string. by rewrite E. Qed.

Lemma string_at_name name h b : string_at_is ["name"] name h b = name_entry_is name h b.
Proof.
  unfold string_at_is, name_entry_is, hNestedString, NestedString, hNestedField. simpl.
  destruct (aget "name" (cell_at h b)) as [[]|]; done.
Qed.

Lemma AddVolume_upsert t v :
  AddVolume t v = upsert KVolume (mp_Data t) (mp_Volume t)
    [("name", JStr (vol_name v)); ("secret", JObj (omitempty "secretName" (vol_secretName v)))]
    (name_entry_is (vol_name v)).
Proof. done. Qed.

Lemma AddVolumeMount_upsert c m :
  AddVolumeMount c m = upsert KVolumeMount (mc_Data c) (mc_VolumeMount c)
    [("name", JStr (vm_name m)); ("mountPath", JStr (vm_mountPath m))]
    (λ h b, String.eqb (field_string h b "name") (vm_name m)).
Proof. done. Qed.

(** Removing what [upsert] added leaves the list as it was. *)
Lemma upsert_remove k a path m p q h :
  cell_test p → list_place k h a path = true → from_unstructured k (JObj m) = None →
  existsb (p h) (existing k h a path) = false →
  (∀ h' b, NestedResources k h' a path = Found (replace_or_append (p h) b (existing k h a path)) →
     (∀ x, x ∈ existing k h a path → cell_at h' x = cell_at h x) →
     (∀ key s, aget key m = Some (JStr s) → aget key (cell_at h' b) = Some (VStr s)) →
     q h' b = true ∧ ∀ x, x ∈ existing k h a path → q h' x = p h x) →
  ∃ h1 h2, upsert k a path m p h = (Ret (Ok tt), h1) ∧
    remove_resource a k path q h1 = (Ret (Ok tt), h2) ∧ heap_ok h2 = true ∧
    list_at h2 a path = Some (existing k h a path).
Proof.
  intros Hp (Hpl & Hpar & Hread & Hap)%list_place_spec Hconv Hnone Hq.
  destruct (upsert_elements k a path m p h Hp Hpl Hpar Hread Hap Hconv)
    as (u & h1 & Hrun & _ & Hpl1 & _ & Hres & Hold & Hnew).
  destruct (Hq h1 u Hres Hold Hnew) as [Hqu Hqold].
  exists h1. pose proof (remove_resource_run k a path q h1 _ Hpl1 Hres) as Hrem.
  assert (replace_or_append (p h) u (existing k h a path) =
          replace_or_append (q h1) u (existing k h a path)) as Heq.
  { apply replace_or_append_ext, Forall_forall. intros x Hx. by rewrite Hqold. }
  rewrite Heq, remove_first_replace_or_append in Hrem; [|done|].
  - destruct Hrem as (h2 & ? & ? & ? & ?). eauto.
  - apply not_true_iff_false. intros (x & Hx & Ht)%existsb_exists.
    apply list_elem_of_In in Hx. rewrite Hqold in Ht by done.
    by rewrite (existsb_false _ _ _ Hnone Hx) in Ht.
Qed.

(** unbinding a volume undoes binding it.  On a pod without a volume of
    that name, [AddVolume] succeeds, [RemoveVolume] with the name succeeds
    after it, and the pod has the volumes it started with. *)
Lemma AddVolume_RemoveVolume (t : MetaPodSpec) (v : Volume) (h : heap) :
  list_place KVolume h (mp_Data t) (mp_Volume t) = true →
  from_unstructured KVolume (Volume_json v) = None →
  existsb (name_entry_is (vol_name v) h) (existing KVolume h (mp_Data t) (mp_Volume t)) = false →
  ∃ h1 h2, AddVolume t v h = (Ret (Ok tt), h1) ∧ RemoveVolume t (vol_name v) h1 = (Ret (Ok tt), h2) ∧
    heap_ok h2 = true ∧
    list_at h2 (mp_Data t) (mp_Volume t) = Some (existing KVolume h (mp_Data t) (mp_Volume t)).
Proof.
  intros Hpl Hconv Hnone. rewrite AddVolume_upsert.
  apply upsert_remove; [apply name_entry_cell|done..|].
  intros h' b _ Hold Hnew. split.
  - rewrite string_at_name. unfold name_entry_is.
    rewrite (Hnew "name" (vol_name v)) by done. apply String.eqb_refl.
  - intros x Hx. rewrite string_at_name. by apply name_entry_cell, Hold.
Qed.

(** the same for a volume mount of a container: [RemoveVolumeMount] undoes
    [AddVolumeMount]. *)
Lemma AddVolumeMount_RemoveVolumeMount (c : MetaContainer) (m : VolumeMount) (h : heap) :
  list_place KVolumeMount h (mc_Data c) (mc_VolumeMount c) = true →
  from_unstructured KVolumeMount (VolumeMount_json m) = None →
  existsb (λ b, String.eqb (field_string h b "name") (vm_name m))
    (existing KVolumeMount h (mc_Data c) (mc_VolumeMount c)) = false →
  ∃ h1 h2, AddVolumeMount c m h = (Ret (Ok tt), h1) ∧
    RemoveVolumeMount c (vm_name m) h1 = (Ret (Ok tt), h2) ∧ heap_ok h2 = true ∧
    list_at h2 (mc_Data c) (mc_VolumeMount c) =
    Some (existing KVolumeMount h (mc_Data c) (mc_VolumeMount c)).
Proof.
  intros Hpl Hconv Hnone. rewrite AddVolumeMount_upsert.
  apply upsert_remove; [apply field_string_cell|done..|].
  intros h' b [_ Hall]%NestedResources_Found Hold Hnew. rewrite Forall_forall in Hall.
  split.
  - unfold mount_is. rewrite Hall by apply replace_or_append_elem. unfold field_string.
    rewrite (Hnew "name" (vm_name m)) by done. apply String.eqb_refl.
  - intros x Hx. unfold mount_is. rewrite Hall.
    { by apply (field_string_cell (vm_name m)), Hold. }
    apply replace_or_append_others; [|by left].
    exact (existsb_false _ _ _ Hnone Hx).
Qed.

(** [AddVolumeMount] on a container whose mounts can be read: it succeeds;
    every mount of that name is replaced by the new one, which is appended when
    there is none; the other mounts are kept in order; the new mount reads back
    as the one given; and no duplicate of the name appears. *)
Lemma AddVolumeMount_correct (c : MetaContainer) (m : VolumeMount) (h : heap) :
  let l := existing KVolumeMount h (mc_Data c) (mc_VolumeMount c) in
  let named h b := String.eqb (field_string h b "name") (vm_name m) in
  list_place KVolumeMount h (mc_Data c) (mc_VolumeMount c) = true →
  from_unstructured KVolumeMount (VolumeMount_json m) = None →
  ∃ u h', AddVolumeMount c m h = (Ret (Ok tt), h') ∧
    NestedResources KVolumeMount h' (mc_Data c) (mc_VolumeMount c) =
      Found (replace_or_append (named h) u l) ∧
    (∀ b, b ∈ l → cell_at h' b = cell_at h b) ∧
    aget "name" (cell_at h' u) = Some (VStr (vm_name m)) ∧
    aget "mountPath" (cell_at h' u) = Some (VStr (vm_mountPath m)) ∧
    (length (filter (λ b, named h b = true) l) ≤ 1 →
     filter (λ b, named h' b = true) (replace_or_append (named h) u l) = [u]).
Proof.
  intros l named (Hpl & Hpar & Hread & Hap)%list_place_spec Hconv. rewrite AddVolumeMount_upsert.
  destruct (upsert_elements _ _ _ _ _ _ (field_string_cell (vm_name m)) Hpl Hpar Hread Hap Hconv)
    as (u & h' & Hrun & _ & _ & _ & Hres & Hold & Hnew). fold l in Hres, Hold.
  assert (named h' u = true) as Hu.
  { unfold named, field_string. rewrite (Hnew "name" (vm_name m)) by done. apply String.eqb_refl. }
  exists u, h'. split_and!; [done..|by apply Hnew|by apply Hnew|]. intros Hl.
  assert (replace_or_append (named h) u l = replace_or_append (named h') u l) as ->.
  { apply replace_or_append_ext, Forall_forall. intros b Hb.
    by apply (field_string_cell (vm_name m)), eq_sym, Hold. }
  apply replace_or_append_unique; [done|].
  rewrite (filter_ext_elem (named h') (named h)); [done|].
  intros b Hb. by apply (field_string_cell (vm_name m)), Hold.
Qed.

(** [RemoveEnvVars] on a readable environment removes exactly the first
    variable of the name; without one the store is untouched. *)
Lemma RemoveEnvVars_correct (c : MetaContainer) (name : string) (h : heap) (l : list loc) :
  place_ok h (mc_Data c) (mc_Env c) = true →
  NestedResources KEnvVar h (mc_Data c) (mc_Env c) = Found l →
  ∃ h', RemoveEnvVars c name h = (Ret (Ok tt), h') ∧ heap_ok h' = true ∧
    ((Forall (λ b, name_entry_is name h b = false) l ∧ h' = h) ∨
     (∃ l1 x l2, l = l1 ++ x :: l2 ∧ name_entry_is name h x = true ∧
        Forall (λ b, name_entry_is name h b = false) l1 ∧
        list_at h' (mc_Data c) (mc_Env c) = Some (l1 ++ l2))).
Proof.
  intros Hpl Hr. pose proof Hpl as (Hh & _)%place_ok_spec.
  pose proof (remove_resource_run _ _ _ (string_at_is ["name"] name) h l Hpl Hr) as Hrun.
  unfold RemoveEnvVars.
  destruct (remove_first (string_at_is ["name"] name h) l) as [l'|] eqn:E.
  - destruct Hrun as (h' & -> & ? & _ & Hl'). exists h'. split_and!; [done..|]. right.
    apply remove_first_Some in E as (l1 & x & l2 & ? & -> & Hx & Hl1).
    exists l1, x, l2. rewrite <- string_at_name. split_and!; [done..| |done].
    eapply Forall_impl; [exact Hl1|]. intros b. simpl. by rewrite string_at_name.
  - rewrite Hrun. exists h. split_and!; [done..|]. left. split; [|done].
    apply remove_first_None in E. eapply Forall_impl; [exact E|]. intros b. simpl.
    by rewrite string_at_name.
Qed.

(** After a removal the rest of the list is still there and readable. *)
Lemma remove_resource_keep k a path p h :
  list_place k h a path = true →
  ∃ h', remove_resource a k path p h = (Ret (Ok tt), h') ∧ heap_ok h' = true ∧
    place_ok h' a path = true ∧ has_parent h' a path = true ∧ readable k h' a path = true ∧
    existing k h' a path = default (existing k h a path) (remove_first (p h) (existing k h a path)).
Proof.
  intros (Hpl & Hpar & Hread & Hap)%list_place_spec. pose proof Hpl as (Hh & Ha & _)%place_ok_spec.
  unfold remove_resource. rewrite (mbind_ret _ _ _ h h) by done.
  pose proof (existing_valid k h a path Hh Ha) as Hv. unfold existing, readable in *.
  destruct (NestedResources k h a path) as [l| |e] eqn:Hr; [| |done].
  2:{ exists h. split_and!; rewrite ?Hr; done. }
  destruct (remove_first (p h) l) as [l'|] eqn:Hrem; [|exists h; split_and!; rewrite ?Hr; done].
  destruct (has_parent_dest h a path Hh Ha Hpar) as (d & key & vis & Hl & Hd & _ & Hdl).
  rewrite (setSlice_parent h h a path _ d key) by done.
  assert (∀ b, b ∈ l' → b ∈ l) as Hsub.
  { apply remove_first_Some in Hrem as (l1 & x & l2 & -> & -> & _). set_solver. }
  rewrite Forall_forall in Hv.
  destruct (assign_list h h a path l' d key) as (Hpl' & Hpar' & Hget); [done..| |].
  { apply Forall_forall. intros b Hb. by apply Hv, Hsub. }
  assert (NestedResources k (hset d key (VSlice SliceMap (VMap <$> l')) h) a path = Found l') as Hnew.
  { apply NestedResources_Found. split; [eauto|]. apply Forall_forall. intros b Hb.
    apply (convert_after k h h); [by apply Hv, Hsub| |done..]. by eapply apart_elem; [..|apply Hsub]. }
  eexists. split_and!; [done| |done|done| |]; rewrite ?Hnew; [|done..].
  by apply place_ok_spec in Hpl' as (? & _).
Qed.

Lemma addRaw_run k a path m h :
  place_ok h a path = true → has_parent h a path = true → readable k h a path = true →
  ∃ u h', (data ← to_unstructured (JObj m); addRaw a k [data] path) h = (Ret (Ok tt), h') ∧
    heap_ok h' = true ∧ list_at h' a path = Some (existing k h a path ++ [u]) ∧
    ∀ n, json_depth (JObj m) ≤ n → reify n h' (VMap u) = Some (JObj m).
Proof.
  intros Hpl Hpar Hread. pose proof Hpl as (Hh & Ha & _)%place_ok_spec.
  destruct (has_parent_dest h a path Hh Ha Hpar) as (d & key & vis & Hl & Hd & _ & Hdl).
  destruct (to_unstructured_spec m h) as (u & h1 & Hu & Hpre & Hul & Hok & Hre & _).
  pose proof (prefix_length _ _ Hpre) as Hlen.
  pose proof (existing_valid k h a path Hh Ha) as Hv.
  set (h' := hset d key (VSlice SliceMap (VMap <$> (existing k h a path ++ [u]))) h1).
  exists u, h'. rewrite (mbind_ret _ _ _ _ _ Hu).
  assert (addRaw a k [u] path h1 = (Ret (Ok tt), h')) as Hadd.
  { unfold addRaw. rewrite (mbind_ret _ _ _ h1 h1) by done. unfold h', existing in *.
    unfold readable in Hread. destruct (NestedResources k h a path) as [l| |] eqn:Hr; [| |done].
    - rewrite (NestedResources_prefix _ h h1 _ _ _ Hh Ha Hpre Hr), built_app. by apply (setSlice_parent h).
    - apply NestedResources_NotFound in Hr. rewrite <- (hNestedField_prefix h h1) in Hr by done.
      apply (NestedResources_NotFound k) in Hr. rewrite Hr. by apply (setSlice_parent h). }
  destruct (assign_list h h1 a path (existing k h a path ++ [u]) d key) as (Hpl' & _ & Hget);
    [done|done|by apply Hok|done..| |].
  { apply Forall_app. split; [|constructor; [lia|done]]. eapply Forall_impl; [exact Hv|].
    simpl. lia. }
  split_and!; [done| |by apply list_at_maps|].
  - by apply place_ok_spec in Hpl' as (? & _).
  - intros n Hn. apply Hre; [|done]. intros b Hb. unfold h', hset.
    by rewrite list_lookup_insert_ne by lia.
Qed.

(** [AddEnvFromVar] succeeds on a container whose [envFrom] can be read:
    the first reference to that secret is dropped, the new reference is put at
    the end and reads back as given, and the other references stay. *)
Lemma AddEnvFromVar_correct (c : MetaContainer) (e : EnvFromSource) (h : heap) :
  let l := existing KEnvFromSource h (mc_Data c) (mc_EnvFrom c) in
  list_place KEnvFromSource h (mc_Data c) (mc_EnvFrom c) = true →
  ∃ u h', AddEnvFromVar c e h = (Ret (Ok tt), h') ∧ heap_ok h' = true ∧
    list_at h' (mc_Data c) (mc_EnvFrom c) =
      Some (default l (remove_first (string_at_is ["secretRef"; "name"] (efs_secretRef e) h) l) ++ [u]) ∧
    ∀ n, 3 ≤ n → reify n h' (VMap u) = Some (EnvFromSource_json e).
Proof.
  intros l Hpl. pose proof Hpl as (_ & Hpar & _)%list_place_spec.
  destruct (remove_resource_keep KEnvFromSource (mc_Data c) (mc_EnvFrom c)
    (string_at_is ["secretRef"; "name"] (efs_secretRef e)) h Hpl)
    as (h1 & Hrem & _ & Hpl1 & Hpar1 & Hread1 & Hex).
  destruct (addRaw_run KEnvFromSource (mc_Data c) (mc_EnvFrom c)
    [("secretRef", JObj (omitempty "name" (efs_secretRef e)))] h1 Hpl1 Hpar1 Hread1)
    as (u & h' & Hadd & ? & Hlist & Hre).
  exists u, h'. unfold AddEnvFromVar.
  destruct (mc_EnvFrom c) as [|s path] eqn:Hp; [done|]. unfold RemoveEnvFromVars. rewrite Hp.
  rewrite (mbind_ret _ _ _ _ _ Hrem). split_and!; [exact Hadd|done|by rewrite Hlist, Hex|].
  intros n Hn. apply Hre. unfold omitempty. by destruct (String.eqb _ ""); simpl; lia.
Qed.

Lemma find_root_ext h h' l :
  Forall (λ b, FromUnstructured KEnvVar h b = None ∧ FromUnstructured KEnvVar h' b = None ∧
    cell_at h' b = cell_at h b) l → find_root h' l = find_root h l.
Proof.
  induction 1 as [|b l (H1 & H2 & H3) _ IH]; [done|]. simpl. unfold field_string.
  by rewrite H1, H2, H3, IH.
Qed.

Lemma find_root_app h l l' :
  find_root h (l ++ l') = match find_root h l with Some v => Some v | None => find_root h l' end.
Proof.
  induction l as [|b l IH]; [done|]. simpl. destruct (FromUnstructured KEnvVar h b); [done|].
  by destruct (String.eqb _ _).
Qed.

Definition root_var : EnvVar :=
  {| ev_name := bindingRootEnvVar; ev_value := bindingRoot; ev_secretKeyRef := None |}.

Lemma MountPath_append c n h :
  place_ok h (mc_Data c) (mc_Env c) = true → has_parent h (mc_Data c) (mc_Env c) = true →
  readable KEnvVar h (mc_Data c) (mc_Env c) = true →
  find_root h (existing KEnvVar h (mc_Data c) (mc_Env c)) = None →
  MountPath c n h =
  (let! _ := upsert KEnvVar (mc_Data c) (mc_Env c)
     [("name", JStr bindingRootEnvVar); ("value", JStr bindingRoot)] (λ _ _, false) in
   mret (Ok (path_Join bindingRoot n))) h.
Proof.
  intros Hpl Hpar Hread Hroot. pose proof Hpl as (Hh & Ha & _)%place_ok_spec.
  destruct (upsert_run KEnvVar (mc_Data c) (mc_Env c)
     [("name", JStr bindingRootEnvVar); ("value", JStr bindingRoot)] (λ _ _, false) h)
    as (u & h1 & d & key & Hl & Hd & Hdl & Hu & Hul & Hrun); [done..|].
  unfold rbind at 1. rewrite (mbind_ret _ _ _ _ _ Hrun).
  destruct (to_unstructured_spec [("name", JStr bindingRootEnvVar); ("value", JStr bindingRoot)] h)
    as (u' & h1' & Hu' & Hpre & _). rewrite Hu in Hu'. injection Hu' as <- <-.
  assert (∀ l, replace_or_append (λ _ : loc, false) u l = l ++ [u]) as Hro.
  { intros l. unfold replace_or_append. rewrite map_id.
    destruct (existsb _ l) eqn:E; [|done]. by apply existsb_exists in E as (? & ? & ?). }
  unfold MountPath. rewrite (mbind_ret _ _ _ h h) by done. unfold existing, readable in *.
  destruct (NestedResources KEnvVar h (mc_Data c) (mc_Env c)) as [l| |] eqn:Hr; [| |done];
    rewrite ?Hroot; cbv beta zeta; change (EnvVar_json _) with
      (JObj [("name", JStr bindingRootEnvVar); ("value", JStr bindingRoot)]);
    rewrite (mbind_ret _ _ _ _ _ Hu), Hro; unfold rbind;
    by rewrite (mbind_ret _ _ _ _ _ (setSlice_parent h h1 _ _ _ d key Hh Ha Hpre Hd Hl)).
Qed.

(** C20: the mount directory.  A container that sets [SERVICE_BINDING_ROOT]
    keeps its store and mounts below the value of the first such variable; any
    other container gets the variable with [/bindings], the mount path is below
    it, and from then on every binding is mounted below the same root. *)
Theorem MountPath_correct (c : MetaContainer) (n : string) (h : heap) :
  list_place KEnvVar h (mc_Data c) (mc_Env c) = true →
  from_unstructured KEnvVar (EnvVar_json root_var) = None →
  match find_root h (existing KEnvVar h (mc_Data c) (mc_Env c)) with
  | Some root => MountPath c n h = (Ret (Ok (path_Join root n)), h)
  | None =>
      ∃ u h', MountPath c n h = (Ret (Ok (path_Join bindingRoot n)), h') ∧
        NestedResources KEnvVar h' (mc_Data c) (mc_Env c) =
          Found (existing KEnvVar h (mc_Data c) (mc_Env c) ++ [u]) ∧
        ∀ n', MountPath c n' h' = (Ret (Ok (path_Join bindingRoot n')), h')
  end.
Proof.
  intros (Hpl & Hpar & Hread & Hap)%list_place_spec Hconv.
  pose proof Hpl as (Hh & Ha & _)%place_ok_spec.
  destruct (find_root h (existing KEnvVar h (mc_Data c) (mc_Env c))) as [root|] eqn:Hroot.
  { unfold MountPath. rewrite (mbind_ret _ _ _ h h) by done. unfold existing in Hroot.
    destruct (NestedResources KEnvVar h _ _) as [l| |]; simpl in Hroot; try done.
    by rewrite Hroot. }
  assert (cell_test (λ _ _, false)) as Hnever by done.
  destruct (upsert_elements KEnvVar (mc_Data c) (mc_Env c)
    [("name", JStr bindingRootEnvVar); ("value", JStr bindingRoot)] (λ _ _, false) h
    Hnever Hpl Hpar Hread Hap Hconv) as (u & h' & Hrun & _ & _ & _ & Hres & Hold & Hnew).
  rewrite MountPath_append by done. unfold rbind. rewrite (mbind_ret _ _ _ _ _ Hrun).
  assert (replace_or_append (λ _ : loc, false) u (existing KEnvVar h (mc_Data c) (mc_Env c)) =
    existing KEnvVar h (mc_Data c) (mc_Env c) ++ [u]) as Hro.
  { unfold replace_or_append. rewrite map_id. destruct (existsb _ _) eqn:E; [|done].
    by apply existsb_exists in E as (? & ? & ?). }
  rewrite Hro in Hres. exists u, h'. split_and!; [done|done|]. intros n'.
  unfold MountPath. rewrite (mbind_ret _ _ _ h' h') by done. rewrite Hres.
  apply NestedResources_Found in Hres as [_ Hall%Forall_app]. destruct Hall as [Hall Hu].
  pose proof (existing_valid KEnvVar h _ (mc_Env c) Hh Ha) as Hv.
  rewrite find_root_app, (find_root_ext h h'), Hroot.
  - simpl. apply Forall_cons in Hu as [Hu _]. rewrite Hu. unfold field_string.
    by rewrite (Hnew "name" bindingRootEnvVar), (Hnew "value" bindingRoot).
  - apply Forall_forall. rewrite Forall_forall in Hall, Hv. intros b Hb.
    split_and!; [by apply Hv|by apply Hall|by apply Hold].
Qed.
End Spec.

(** C32: a path [verifyJsonPath] accepts selects exactly what following its
    field names from map to map selects, so reading it with the JSONPath
    evaluator and writing it with [setSlice] agree on the place. *)
Theorem verifyJsonPath_sound {V} `{GoView V} (n : node) (fields : list string) (v w : V) :
  verifyJsonPath n = Ok fields →
  walk n [v] = Ok [w] ↔ NestedFieldNoCopy v fields = Found w.
Proof.
  intros Hn. assert (∀ cur : list V, walk n cur = walk (NodeList (map NodeField fields)) cur) as E.
  2:{ rewrite E. split; [apply walk_fields_inv|apply walk_fields]. }
  revert fields Hn. induction n as [ns IH|n Hn] using node_ind'.
  - intros fields. revert fields. induction IH as [|n ns Hn _ IHns]; intros fields Hv cur; simpl in Hv.
    { by simplify_eq. }
    destruct (verifyJsonPath n) as [f1|e] eqn:E1; [|done]. simpl in Hv.
    change (res_bind (verifyJsonPath (NodeList ns)) (λ paths, Ok (f1 ++ paths)) = Ok fields) in Hv.
    destruct (verifyJsonPath (NodeList ns)) as [f2|e]; [|done].
    cbn [res_bind] in Hv. injection Hv as <-. specialize (Hn f1 eq_refl cur). rewrite map_app.
    change (walk (NodeList ([n] ++ ns)) cur = walk (NodeList (map NodeField f1 ++ map NodeField f2)) cur).
    rewrite !walk_list_app, <- Hn. cbn [walk]. destruct (walk n cur) as [cur'|]; [|done].
    apply (IHns f2 eq_refl cur').
  - intros fields Hv cur. destruct n; simplify_eq/=; try done; [|by destruct (Hn nodes)].
    by destruct (evalField value cur).
Qed.

(** ** A deployment to run the operations on *)

(** A converter that accepts the maps whose [name] is a string, if present. *)
Definition demo_converter : Converter := λ _ j,
  match j with
  | JObj m => match aget "name" m with
              | None | Some (JStr _) => None
              | Some _ => Some (ENew "cannot restore string from a non-string")
              end
  | _ => Some (ENew "not a map")
  end.

Definition demo_deployment : json :=
  JObj [("kind", JStr "Deployment");
        ("spec", JObj [("template", JObj [("spec", JObj
          [("containers", JArr SliceAny [JObj
              [("name", JStr "app");
               ("env", JArr SliceAny [JObj [("name", JStr "LANG"); ("value", JStr "C")];
                                      JObj [("name", JStr "MODE"); ("value", JStr "prod")]]);
               ("volumeMounts", JArr SliceAny
                  [JObj [("name", JStr "data"); ("mountPath", JStr "/data")]])]]);
           ("volumes", JArr SliceAny [JObj [("name", JStr "data")]])])])])].

Definition demo_heap : heap := (alloc_json demo_deployment []).2.

(** The container and the root of [demo_deployment] in [demo_heap]. *)
Definition demo_container : MetaContainer :=
  {| mc_Name := "app"; mc_Env := ["env"]; mc_EnvFrom := ["envFrom"];
     mc_VolumeMount := ["volumeMounts"]; mc_Data := 3 |}.
Definition demo_pod : MetaPodSpec :=
  {| mp_Containers := [demo_container]; mp_Volume := ["spec"; "template"; "spec"; "volumes"];
     mp_Data := 8 |}.

Lemma demo_layout :
  reify 20 demo_heap (VMap (mp_Data demo_pod)) = Some demo_deployment ∧
  getNestedString (V := json) (default JNil (reify 20 demo_heap (VMap (mc_Data demo_container)))) ["name"] = "app".
Proof. by vm_compute. Qed.

Lemma AddVolume_RemoveVolume_witness :
  ∃ h1 h2, @AddVolume demo_converter demo_pod {| vol_name := "db"; vol_secretName := "s" |} demo_heap
      = (Ret (Ok tt), h1) ∧
    @RemoveVolume demo_converter demo_pod "db" h1 = (Ret (Ok tt), h2) ∧ heap_ok h2 = true ∧
    list_at h2 8 ["spec"; "template"; "spec"; "volumes"] = Some [4].
Proof.
  exact (@AddVolume_RemoveVolume demo_converter demo_pod {| vol_name := "db"; vol_secretName := "s" |}
    demo_heap ltac:(by vm_compute) ltac:(by vm_compute) ltac:(by vm_compute)).
Defined.

Lemma AddVolumeMount_RemoveVolumeMount_witness :
  ∃ h1 h2, @AddVolumeMount demo_converter demo_container {| vm_name := "db"; vm_mountPath := "/b/db" |}
      demo_heap = (Ret (Ok tt), h1) ∧
    @RemoveVolumeMount demo_converter demo_container "db" h1 = (Ret (Ok tt), h2) ∧ heap_ok h2 = true ∧
    list_at h2 3 ["volumeMounts"] = Some [2].
Proof.
  exact (@AddVolumeMount_RemoveVolumeMount demo_converter demo_container
    {| vm_name := "db"; vm_mountPath := "/b/db" |} demo_heap
    ltac:(by vm_compute) ltac:(by vm_compute) ltac:(by vm_compute)).
Defined.

Lemma AddVolumeMount_correct_witness :
  ∃ u h', @AddVolumeMount demo_converter demo_container {| vm_name := "data"; vm_mountPath := "/b/db" |}
      demo_heap = (Ret (Ok tt), h') ∧
    @NestedResources demo_converter KVolumeMount h' 3 ["volumeMounts"] = Found [u] ∧
    aget "mountPath" (cell_at h' u) = Some (VStr "/b/db").
Proof.
  destruct (@AddVolumeMount_correct demo_converter demo_container
    {| vm_name := "data"; vm_mountPath := "/b/db" |} demo_heap ltac:(by vm_compute) ltac:(by vm_compute))
    as (u & h' & Hrun & Hres & _ & _ & Hm & _).
  exists u, h'. split; [exact Hrun|]. split; [exact Hres|exact Hm].
Defined.

Lemma RemoveEnvVars_correct_witness :
  ∃ h', @RemoveEnvVars demo_converter demo_container "MODE" demo_heap = (Ret (Ok tt), h') ∧
    heap_ok h' = true.
Proof.
  destruct (@RemoveEnvVars_correct demo_converter demo_container "MODE" demo_heap [0; 1]
    ltac:(by vm_compute) ltac:(by vm_compute)) as (h' & Hrun & Hok & _).
  exists h'. split; [exact Hrun|exact Hok].
Defined.

Lemma AddEnvFromVar_correct_witness :
  ∃ u h', @AddEnvFromVar demo_converter demo_container {| efs_secretRef := "s" |} demo_heap
      = (Ret (Ok tt), h') ∧ list_at h' 3 ["envFrom"] = Some [u] ∧
    reify 3 h' (VMap u) = Some (EnvFromSource_json {| efs_secretRef := "s" |}).
Proof.
  destruct (@AddEnvFromVar_correct demo_converter demo_container {| efs_secretRef := "s" |} demo_heap
    ltac:(by vm_compute)) as (u & h' & Hrun & _ & Hl & Hre).
  exists u, h'. split; [exact Hrun|]. split; [exact Hl|]. apply Hre. lia.
Defined.

Lemma MountPath_correct_witness :
  ∃ h', @MountPath demo_converter demo_container "db" demo_heap = (Ret (Ok "/bindings/db"), h') ∧
    ∀ n', @MountPath demo_converter demo_container n' h' = (Ret (Ok (path_Join bindingRoot n')), h').
Proof.
  destruct (@MountPath_correct demo_converter demo_container "db" demo_heap
    ltac:(by vm_compute) ltac:(by vm_compute)) as (u & h' & Hrun & _ & Hn).
  exists h'. split; [exact Hrun|exact Hn].
Defined.

Lemma verifyJsonPath_sound_witness :
  walk (NodeList [NodeField "kind"]) [demo_deployment] = Ok [JStr "Deployment"].
Proof.
  apply (verifyJsonPath_sound (NodeList [NodeField "kind"]) ["kind"] demo_deployment (JStr "Deployment"));
    reflexivity.
Defined.
