(* ===== verification/Kube.v ===== *)
(** * The Kubernetes API server, as its clients see it

    The operator talks to the API server through [dynamic.Interface], the
    typed client set and the resource mapper.  None of that is the operator's
    code: it is the interface [KubeAPI], whose state [W] is whatever is behind
    it.  *)

From S2P Require Import Prelude.
From S2P Require Import GoLib.
From S2P Require Import GoValue.

(** The calls the operator makes. *)
Class KubeAPI (W : Type) := {
  (** [client.Resource(gvr).Namespace(ns).Get(ctx, name, ...)] *)
  kube_get : GroupVersionResource → string → string → M W (result json);
  (** [client.Resource(gvr).Namespace(ns).List] with a label selector; the
      items in the order the server gives them. *)
  kube_list : GroupVersionResource → string → gmap string string → M W (result (list json));
  (** [Create] and [Update]; the object returned is the one stored. *)
  kube_create : GroupVersionResource → string → json → M W (result json);
  kube_update : GroupVersionResource → string → json → M W (result json);
  (** Creating a [SubjectAccessReview] for a user with groups, a verb, a
      namespace, a resource and a name: [Status.Allowed]. *)
  kube_subjectAccessReview :
    string → list string → string → string → GroupVersionResource → string → M W (result bool);
  (** [RESTMapper.RESTMapping] and [KindFor]. *)
  kube_resourceForKind : GroupVersionKind → M W (result GroupVersionResource);
  kube_kindForResource : GroupVersionResource → M W (result GroupVersionKind)
}.

(** The typed calls on the binding resource itself: [r.Get], [Update] and
    [UpdateStatus] of a [B]. *)
Class BindingAPI (W B : Type) := {
  binding_get : string → string → M W (result B);
  binding_update : B → M W (result unit);
  binding_updateStatus : B → M W (result unit)
}.

(** [time.Now]. *)
Class Clock (W : Type) := time_Now : M W Z.

Definition configMapGVR : GroupVersionResource :=
  {| gvr_group := ""; gvr_version := "v1"; gvr_resource := "configmaps" |}.
Definition secretGVR : GroupVersionResource :=
  {| gvr_group := ""; gvr_version := "v1"; gvr_resource := "secrets" |}.
