(* ===== verification/Binding.v ===== *)
(** * Binding definitions ([pkg/binding])

    An annotation [service.binding/<name>: <value>] of a service, or of its
    CRD, says where in the service a piece of binding data is.  [newModel]
    parses the value, [Build] chooses one of six kinds of definition, and
    [Apply] evaluates a definition on a service, reading a secret or a config
    map through the readers it was given. *)

From S2P Require Import Prelude.
From S2P Require Import GoLib.
From S2P Require Import GoValue.
From S2P Require Import JsonPath.
From S2P Require Import Kube.

(** ** Constants ([definition.go], [annotationmapper.go]) *)
Definition configMapObjectType : string := "ConfigMap".
Definition secretObjectType : string := "Secret".
Definition stringObjectType : string := "string".
Definition emptyObjectType : string := "".
Definition mapElementType : string := "map".
Definition sliceOfMapsElementType : string := "sliceOfMaps".
Definition sliceOfStringsElementType : string := "sliceOfStrings".
Definition stringElementType : string := "string".

Definition pathModelKey : string := "path".
Definition optionalKey : string := "optional".
Definition objectTypeModelKey : string := "objectType".
Definition sourceKeyModelKey : string := "sourceKey".
Definition sourceValueModelKey : string := "sourceValue".
Definition elementTypeModelKey : string := "elementType".
Definition AnnotationPrefix : string := "service.binding".
Definition ProvisionedServiceAnnotationKey : string := "servicebinding.io/provisioned-service".
Definition TypeKey : string := AnnotationPrefix +:+ "/type".

(** ** The parsed annotation value ([model.go]) *)
Record model := {
  m_path : string;
  m_elementType : string;
  m_objectType : string;
  m_sourceKey : string;
  m_sourceValue : string;
  m_value : string;
  m_optional : bool
}.

Definition isStringElementType (m : model) : bool := String.eqb (m_elementType m) stringElementType.
Definition isStringObjectType (m : model) : bool := String.eqb (m_objectType m) stringObjectType.
Definition isMapElementType (m : model) : bool := String.eqb (m_elementType m) mapElementType.
Definition isSliceOfMapsElementType (m : model) : bool :=
  String.eqb (m_elementType m) sliceOfMapsElementType.
Definition isSliceOfStringsElementType (m : model) : bool :=
  String.eqb (m_elementType m) sliceOfStringsElementType.
Definition hasDataField (m : model) : bool :=
  String.eqb (m_objectType m) secretObjectType || String.eqb (m_objectType m) configMapObjectType.

Definition keys : list string :=
  [pathModelKey; optionalKey; objectTypeModelKey; elementTypeModelKey; sourceKeyModelKey;
   sourceValueModelKey].

(** The two nested loops that fill [raw]. *)
Definition raw_entry (raw : list (string * string)) (kv : string) : list (string * string) :=
  fold_left (λ raw k,
    let prefix := k +:+ "=" in
    if HasPrefix kv prefix then aset k (drop_str (String.length prefix) kv) raw else raw) keys raw.

Definition raw_entries (annotationValue : string) : list (string * string) :=
  fold_left raw_entry (Split annotationValue ",") [].

Definition newModel (annotationValue : string) : result model :=
  let raw := raw_entries annotationValue in
  match aget pathModelKey raw with
  | None =>
      match raw with
      | [] => Ok {| m_path := ""; m_elementType := ""; m_objectType := ""; m_sourceKey := "";
                    m_sourceValue := ""; m_value := annotationValue; m_optional := false |}
      | _ => Err (EErrorf "path not found: %q" [AStr annotationValue])
      end
  | Some path =>
      let n := Count path "{" in
      if (n =? 0) || negb (n =? Count path "}")
      then Err (EErrorf "path has invalid syntax: %q" [AStr path])
      else
        let objType :=
          match aget objectTypeModelKey raw with
          | None => stringObjectType
          | Some rawObjectType =>
              if String.eqb rawObjectType emptyObjectType then stringObjectType else rawObjectType
          end in
        let optional :=
          match aget optionalKey raw with
          | Some optionalString => String.eqb optionalString "true"
          | None => false
          end in
        let sourceKey := default "" (aget sourceKeyModelKey raw) in
        let sourceValue :=
          match aget sourceValueModelKey raw with
          | Some v => v
          | None => default "" (aget sourceKeyModelKey raw)
          end in
        let hasData :=
          String.eqb objType secretObjectType || String.eqb objType configMapObjectType in
        let eltType :=
          match aget elementTypeModelKey raw with
          | Some rawEltType => rawEltType
          | None => if hasData then mapElementType else stringElementType
          end in
        if String.eqb eltType sliceOfMapsElementType &&
           (String.eqb sourceValue "" || String.eqb sourceKey "")
        then Err (ENew "sliceOfMaps elementType requires sourceKey and sourceValue to be present")
        else Ok {| m_path := path; m_elementType := eltType; m_objectType := objType;
                   m_sourceKey := sourceKey; m_sourceValue := sourceValue; m_value := "";
                   m_optional := optional |}
  end.

(** ** Annotation names *)
Definition IsServiceBindingAnnotation (annotationKey : string) : result bool :=
  if String.eqb annotationKey ProvisionedServiceAnnotationKey then Ok false
  else if String.eqb annotationKey AnnotationPrefix then Ok true
  else if HasPrefix annotationKey AnnotationPrefix then
    if HasPrefix annotationKey (AnnotationPrefix +:+ "/") then Ok true
    else Err (EErrorf "can't process annotation with name %q" [AStr annotationKey])
  else Ok false.

(** ** Definitions *)

(** The embedded [definition] struct. *)
Record definition := { d_path : string; d_optional : bool }.

(** The six types that implement [Definition].  A definition keeps a
    reference [R] to its readers ([secretConfigMapReader] behind a pointer);
    [Build] makes definitions whose reference is not nil, nil is [None]. *)
Section Definitions.
Context {W R : Type}.

(** [UnstructuredResourceReader]. *)
Definition UnstructuredResourceReader : Type := string → string → M W (result json).

Record secretConfigMapReader := {
  configMapReader : UnstructuredResourceReader;
  secretReader : UnstructuredResourceReader
}.

Inductive BindingDefinition : Type :=
| stringDefinition (outputName value : string) (d : definition)
| stringFromDataFieldDefinition (reader : option R)
    (objectType outputName : string) (d : definition) (sourceKey : string)
| mapFromDataFieldDefinition (reader : option R)
    (objectType outputName sourceValue : string) (d : definition)
| stringOfMapDefinition (outputName : string) (d : definition)
| sliceOfMapsFromPathDefinition (outputName : string) (d : definition)
    (sourceKey sourceValue : string)
| sliceOfStringsFromPathDefinition (outputName : string) (d : definition) (sourceValue : string).

Definition base_of (b : BindingDefinition) : definition :=
  match b with
  | stringDefinition _ _ d | stringFromDataFieldDefinition _ _ _ d _
  | mapFromDataFieldDefinition _ _ _ _ d | stringOfMapDefinition _ d
  | sliceOfMapsFromPathDefinition _ d _ _ | sliceOfStringsFromPathDefinition _ d _ => d
  end.

Definition GetPath (b : BindingDefinition) : string := d_path (base_of b).

(** [Value]: nil, a [map[string]interface{}] or a [map[string]string]. *)
Inductive value : Type :=
| NilValue
| AnyMap (m : list (string * json))
| StringMap (m : list (string * string)).

(** [v.Get() == nil]. *)
Definition is_nil (v : value) : bool := match v with NilValue => true | _ => false end.

(** *** [NonExistingOptional] of the six kinds of definition *)
Definition stringDefinition_NonExistingOptional (d : definition) (v : value) : bool :=
  if d_optional d && is_nil v then true else false.
Definition stringFromDataFieldDefinition_NonExistingOptional (d : definition) (v : value) : bool :=
  if d_optional d && is_nil v then true else false.
Definition mapFromDataFieldDefinition_NonExistingOptional (d : definition) (v : value) : bool :=
  if d_optional d && is_nil v then true else false.
Definition stringOfMapDefinition_NonExistingOptional (d : definition) (v : value) : bool :=
  if d_optional d && is_nil v then true else false.
Definition sliceOfMapsFromPathDefinition_NonExistingOptional (d : definition) (v : value) : bool :=
  if d_optional d && is_nil v then true else false.
Definition sliceOfStringsFromPathDefinition_NonExistingOptional (d : definition) (v : value) : bool :=
  if d_optional d && is_nil v then true else false.

(** The method call. *)
Definition NonExistingOptional (b : BindingDefinition) (v : value) : bool :=
  match b with
  | stringDefinition _ _ d => stringDefinition_NonExistingOptional d v
  | stringFromDataFieldDefinition _ _ _ d _ => stringFromDataFieldDefinition_NonExistingOptional d v
  | mapFromDataFieldDefinition _ _ _ _ d => mapFromDataFieldDefinition_NonExistingOptional d v
  | stringOfMapDefinition _ d => stringOfMapDefinition_NonExistingOptional d v
  | sliceOfMapsFromPathDefinition _ d _ _ => sliceOfMapsFromPathDefinition_NonExistingOptional d v
  | sliceOfStringsFromPathDefinition _ d _ => sliceOfStringsFromPathDefinition_NonExistingOptional d v
  end.

Lemma NonExistingOptional_base b v : NonExistingOptional b v = d_optional (base_of b) && is_nil v.
Proof.
  by destruct b as [? ? d|? ? ? d ?|? ? ? ? d|? d|? d ? ?|? d ?], v; simpl; unfold
    stringDefinition_NonExistingOptional, stringFromDataFieldDefinition_NonExistingOptional,
    mapFromDataFieldDefinition_NonExistingOptional, stringOfMapDefinition_NonExistingOptional,
    sliceOfMapsFromPathDefinition_NonExistingOptional, sliceOfStringsFromPathDefinition_NonExistingOptional;
    destruct (d_optional d).
Qed.

(** ** Building a definition from an annotation *)
Record annotationBackedDefinitionBuilder := {
  adb_reader : R;
  adb_name : string;
  adb_value : string
}.

Definition NewDefinitionBuilder (annotationName annotationValue : string) (readers : R) :
    annotationBackedDefinitionBuilder :=
  {| adb_name := annotationName; adb_value := annotationValue; adb_reader := readers |}.

Definition outputName (b : annotationBackedDefinitionBuilder) : string :=
  match SplitN2 (adb_name b) "/" with
  | [_; p1] => p1
  | _ => ""
  end.

(** [Build]; [Ok None] is [(nil, nil)]. *)
Definition Build (b : annotationBackedDefinitionBuilder) : result (option BindingDefinition) :=
  match IsServiceBindingAnnotation (adb_name b) with
  | Err e => Err e
  | Ok false => Ok None
  | Ok true =>
      let outputName := outputName b in
      match newModel (adb_value b) with
      | Err e => Err (EErrorf
          "could not create binding model for annotation key %s and value %s: %w"
          [AStr (adb_name b); AStr (adb_value b); AErr e])
      | Ok md =>
          let d := {| d_path := m_path md; d_optional := m_optional md |} in
          if (isStringElementType md && isStringObjectType md) ||
             negb (String.eqb (m_value md) "")
          then Ok (Some (stringDefinition outputName (m_value md) d))
          else if isStringElementType md && hasDataField md
          then Ok (Some (stringFromDataFieldDefinition (Some (adb_reader b)) (m_objectType md)
                           outputName d (m_sourceKey md)))
          else if isMapElementType md && hasDataField md
          then Ok (Some (mapFromDataFieldDefinition (Some (adb_reader b)) (m_objectType md)
                           outputName (m_sourceValue md) d))
          else if isMapElementType md && isStringObjectType md
          then Ok (Some (stringOfMapDefinition outputName d))
          else if isSliceOfMapsElementType md
          then Ok (Some (sliceOfMapsFromPathDefinition outputName d (m_sourceKey md)
                           (m_sourceValue md)))
          else if isSliceOfStringsElementType md
          then Ok (Some (sliceOfStringsFromPathDefinition outputName d (m_sourceValue md)))
          else Err (EErrorf "Annotation %s: %s not implemented!" [AStr (adb_name b); AStr (adb_value b)])
      end
  end.

(** ** Evaluating definitions *)
Context `{JSONPathLib}.

(** [getValuesByJSONPath]; a template without nodes has no [result[0]]. *)
Definition getValuesByJSONPath (obj : json) (path : string) : M W (result (list rvalue)) :=
  match jsonpath_Parse path with
  | Err e => mret (Err e)
  | Ok j =>
      match FindResults j (ValueOf obj) with
      | Err e => mret (Err e)
      | Ok [] => mpanic "index out of range [0] with length 0"
      | Ok [result0] => mret (Ok result0)
      | Ok results =>
          mret (let? texts := map_res (λ r, PrintResults (rv_val <$> r)) results in
                Ok [ValueOf (JStr (Join texts ""))])
      end
  end.

(** The common start of every [Apply]: an unresolved path of an optional
    definition is the nil value. *)
Definition with_path_values (d : definition) (u : json)
    (k : list rvalue → M W (result value)) : M W (result value) :=
  r ← getValuesByJSONPath u (d_path d);
  match r with
  | Err e => if d_optional d then mret (Ok NilValue) else mret (Err e)
  | Ok val => k val
  end.

Definition one_value_error (d : definition) (val : list rvalue) : goerr :=
  EErrorf "only one value should be returned for %v but we got %v"
    [AStr (d_path d); AVal (JArr SliceAny (rv_val <$> val))].

(** Reads the secret or the config map; the pointer stays nil for any other
    object type, and its first use panics. *)
Definition read_other (r : secretConfigMapReader) (objectType : string) (u : json)
    (resourceName : string) : M W (result json) :=
  if String.eqb objectType secretObjectType then secretReader r (GetNamespace u) resourceName
  else if String.eqb objectType configMapObjectType
  then configMapReader r (GetNamespace u) resourceName
  else mpanic "invalid memory address or nil pointer dereference".

Definition kubeClient_required : goerr := ENew "kubeClient required for this functionality".

Definition decode_data (objectType v : string) : result string :=
  if String.eqb objectType secretObjectType then
    match DecodeString v with
    | Some n => Ok n
    | None => Err (ENew "illegal base64 data")
    end
  else Ok v.

(** The loop of [mapFromDataFieldDefinition.Apply] over the data entries. *)
Fixpoint map_data (objectType outputName sourceValue : string) (val : list (string * string))
    (outputVal : list (string * string)) : result (list (string * string)) :=
  match val with
  | [] => Ok outputVal
  | (k, v) :: val' =>
      if negb (String.eqb sourceValue "") && negb (String.eqb k sourceValue)
      then map_data objectType outputName sourceValue val' outputVal
      else
        let? n := decode_data objectType v in
        let key := if negb (String.eqb sourceValue "") && negb (String.eqb outputName "")
                   then outputName else k in
        map_data objectType outputName sourceValue val' (aset key n outputVal)
  end.

(** [collectSourceValuesWithKey]: a missing key or value is nil. *)
Fixpoint collectSourceValuesWithKey (i : json) (sourceValue sourceKey : string) :
    list (string * json) :=
  match i with
  | JObj v =>
      [(fmt_v (default JNil (aget sourceKey v)), default JNil (aget sourceValue v))]
  | JArr SliceAny v =>
      fold_left (λ res item,
        fold_left (λ res kv, aset kv.1 kv.2 res)
          (collectSourceValuesWithKey item sourceValue sourceKey) res) v []
  | _ => []
  end.

Fixpoint collectSourceValues (i : json) (sourceValue : string) : list json :=
  match i with
  | JObj v => if String.eqb sourceValue "" then [] else [default JNil (aget sourceValue v)]
  | JArr SliceAny v => flat_map (λ item, collectSourceValues item sourceValue) v
  | JStr s => if String.eqb sourceValue "" then [JStr s] else []
  | _ => []
  end.

(** *** [Apply] of the six kinds of definition; [deref] follows the reference
    to the readers. *)
Definition stringDefinition_Apply (outputName v0 : string) (d : definition) (u : json) :
    M W (result value) :=
  if String.eqb outputName "" then
    mret (Err (ENew "cannot use generic service.binding annotation for string elements, need to specify binding key like service.binding/foo"))
  else if negb (String.eqb v0 "") then mret (Ok (AnyMap [(outputName, JStr v0)]))
  else with_path_values d u (λ val,
    match val with
    | [v] => mret (Ok (AnyMap [(outputName, rv_val v)]))
    | _ => mret (Err (one_value_error d val))
    end).

Definition stringFromDataFieldDefinition_Apply (deref : R → secretConfigMapReader) (reader : option R)
    (objectType : string) (d : definition) (sourceKey : string) (u : json) : M W (result value) :=
  match reader with
  | None => mret (Err kubeClient_required)
  | Some r =>
      with_path_values d u (λ res,
        match res with
        | [v] =>
            let! otherObj := read_other (deref r) objectType u (reflect_String v) in
            match NestedString otherObj ["data"; sourceKey] with
            | NErr e => mret (Err e)
            | NotFound => mret (Err (ENew "not found"))
            | Found val =>
                mret (let? val := decode_data objectType val in Ok (AnyMap [("", JStr val)]))
            end
        | _ => mret (Err (one_value_error d res))
        end)
  end.

Definition mapFromDataFieldDefinition_Apply (deref : R → secretConfigMapReader) (reader : option R)
    (objectType outputName sourceValue : string) (d : definition) (u : json) : M W (result value) :=
  match reader with
  | None => mret (Err kubeClient_required)
  | Some r =>
      with_path_values d u (λ res,
        match res with
        | [v] =>
            let! otherObj := read_other (deref r) objectType u (fmt_v (rv_val v)) in
            match NestedStringMap otherObj ["data"] with
            | NErr e => mret (Err e)
            | NotFound => mret (Err (ENew "not found"))
            | Found val =>
                mret (let? out := map_data objectType outputName sourceValue val [] in
                      Ok (StringMap out))
            end
        | _ => mret (Err (one_value_error d res))
        end)
  end.

Definition stringOfMapDefinition_Apply (outputName : string) (d : definition) (u : json) :
    M W (result value) :=
  with_path_values d u (λ val,
    match val with
    | [v] =>
        match rv_val v with
        | JObj valMap =>
            if negb (String.eqb outputName "") then mret (Ok (AnyMap [(outputName, JObj valMap)]))
            else mret (Ok (AnyMap valMap))
        | other => mret (Err (EErrorf "returned value for %v should be map, but we got %v"
                               [AStr (d_path d); AVal other]))
        end
    | _ => mret (Err (one_value_error d val))
    end).

Definition sliceOfMapsFromPathDefinition_Apply (outputName : string) (d : definition)
    (sourceKey sourceValue : string) (u : json) : M W (result value) :=
  with_path_values d u (λ val,
    let res := fold_left (λ res vv,
      fold_left (λ res kv, aset kv.1 kv.2 res)
        (collectSourceValuesWithKey (rv_val vv) sourceValue sourceKey) res) val [] in
    if String.eqb outputName "" then mret (Ok (AnyMap res))
    else mret (Ok (AnyMap [(outputName, JObj res)]))).

Definition sliceOfStringsFromPathDefinition_Apply (outputName : string) (d : definition)
    (sourceValue : string) (u : json) : M W (result value) :=
  with_path_values d u (λ val,
    let res := flat_map (λ e, collectSourceValues (rv_val e) sourceValue) val in
    mret (Ok (AnyMap [(outputName, JArr SliceAny res)]))).

(** The method call. *)
Definition Apply (deref : R → secretConfigMapReader) (b : BindingDefinition) (u : json) :
    M W (result value) :=
  match b with
  | stringDefinition outputName value d => stringDefinition_Apply outputName value d u
  | stringFromDataFieldDefinition r objectType _ d sourceKey =>
      stringFromDataFieldDefinition_Apply deref r objectType d sourceKey u
  | mapFromDataFieldDefinition r objectType outputName sourceValue d =>
      mapFromDataFieldDefinition_Apply deref r objectType outputName sourceValue d u
  | stringOfMapDefinition outputName d => stringOfMapDefinition_Apply outputName d u
  | sliceOfMapsFromPathDefinition outputName d sourceKey sourceValue =>
      sliceOfMapsFromPathDefinition_Apply outputName d sourceKey sourceValue u
  | sliceOfStringsFromPathDefinition outputName d sourceValue =>
      sliceOfStringsFromPathDefinition_Apply outputName d sourceValue u
  end.
End Definitions.

Ltac unfold_Apply :=
  unfold Apply, stringDefinition_Apply, stringFromDataFieldDefinition_Apply,
    mapFromDataFieldDefinition_Apply, stringOfMapDefinition_Apply, sliceOfMapsFromPathDefinition_Apply,
    sliceOfStringsFromPathDefinition_Apply.

Arguments BindingDefinition : clear implicits.
Arguments secretConfigMapReader : clear implicits.
Arguments annotationBackedDefinitionBuilder : clear implicits.
Arguments UnstructuredResourceReader : clear implicits.

(** ** The annotation handler ([spec.go]) *)
Record SpecHandler := { sh_obj : json; sh_annotationKey : string; sh_annotationValue : string }.

Section Handler.
Context {W : Type} `{KubeAPI W} `{JSONPathLib}.

Definition configMapsReader : UnstructuredResourceReader W := λ namespace name,
  kube_get configMapGVR namespace name.
Definition secretsReader : UnstructuredResourceReader W := λ namespace name,
  kube_get secretGVR namespace name.

Definition NewSpecHandler (annotationKey annotationValue : string) (obj : json) : SpecHandler :=
  {| sh_obj := obj; sh_annotationKey := annotationKey; sh_annotationValue := annotationValue |}.

(** [Handle]; the result's [Data].  An annotation that is not a binding
    annotation leaves a nil definition, and calling it panics. *)
Definition Handle (s : SpecHandler) : M W (result (list (string * json))) :=
  let builder := NewDefinitionBuilder (sh_annotationKey s) (sh_annotationValue s)
                   {| configMapReader := configMapsReader; secretReader := secretsReader |} in
  match Build builder with
  | Err e => mret (Err e)
  | Ok None => mpanic "invalid memory address or nil pointer dereference"
  | Ok (Some d) =>
      let! val := Apply id d (sh_obj s) in
      mret (Ok (match val with
                | StringMap t => fold_left (λ out kv, aset kv.1 (JStr kv.2) out) t []
                | AnyMap t => fold_left (λ out kv, aset kv.1 kv.2 out) t []
                | NilValue => []
                end))
  end.
End Handler.

(** ** Error types of the package ([bindinginfo.go], [spec.go])

    Named string types with a text each; the text is a format and its
    argument. *)
Inductive annotation_error : Type :=
| ErrInvalidAnnotationPrefix (e : string)
| ErrInvalidAnnotationName
| ErrEmptyAnnotationName (e : string)
| errHandlerNotFound (e : string).

Definition ErrInvalidAnnotationPrefix_Error (e : string) : goerr :=
  EErrorf "invalid annotation prefix: %s" [AStr e].
Definition ErrEmptyAnnotationName_Error (e : string) : goerr :=
  EErrorf "empty annotation name: %s" [AStr e].
Definition errHandlerNotFound_Error (e : string) : goerr :=
  EErrorf "could not find handler for annotation value %q" [AStr e].

Definition IsErrInvalidAnnotationPrefix (err : annotation_error) : bool :=
  match err with ErrInvalidAnnotationPrefix _ => true | _ => false end.
Definition IsErrEmptyAnnotationName (err : annotation_error) : bool :=
  match err with ErrEmptyAnnotationName _ => true | _ => false end.
Definition IsErrHandlerNotFound (err : annotation_error) : bool :=
  match err with errHandlerNotFound _ => true | _ => false end.
