(* ===== verification/Apis.v ===== *)
(** * The service binding resources ([apis/])

    Object metadata, status conditions, finalizers and requester annotation
    ([apis/common.go], [apis/conditions.go]), the two versions of the
    [ServiceBinding] resource ([apis/binding/v1alpha1], [apis/spec/v1beta1]) and
    the interface [ServiceBindingKind] through which the shared part of the
    reconciler sees both. *)

From S2P Require Import Prelude.
From S2P Require Import GoLib.
From S2P Require Import GoValue.
From S2P Require Import Kube.

(** ** Metadata *)

(** [metav1.ObjectMeta]; a zero deletion timestamp is [None]. *)
Record ObjectMeta := {
  om_name : string;
  om_namespace : string;
  om_uid : string;
  om_generation : Z;
  om_annotations : list (string * string);
  om_finalizers : list string;
  om_deletionTimestamp : option Z
}.

Definition with_annotations (a : list (string * string)) (m : ObjectMeta) : ObjectMeta :=
  {| om_name := om_name m; om_namespace := om_namespace m; om_uid := om_uid m;
     om_generation := om_generation m; om_annotations := a; om_finalizers := om_finalizers m;
     om_deletionTimestamp := om_deletionTimestamp m |}.
Definition with_finalizers (f : list string) (m : ObjectMeta) : ObjectMeta :=
  {| om_name := om_name m; om_namespace := om_namespace m; om_uid := om_uid m;
     om_generation := om_generation m; om_annotations := om_annotations m; om_finalizers := f;
     om_deletionTimestamp := om_deletionTimestamp m |}.

(** [metav1.OwnerReference]. *)
Record OwnerReference := {
  or_name : string; or_uid : string; or_kind : string; or_apiVersion : string; or_controller : bool
}.

Definition finalizerName : string := "finalizer.servicebinding.openshift.io".
Definition requesterAnnotationKey : string := "servicebinding.io/requester".
Definition MappingAnnotationKey : string := "servicebinding.io/mapping".

(** [MaybeAddFinalizer] and [MaybeRemoveFinalizer]: the new metadata and
    whether it changed. *)
Definition MaybeAddFinalizer (obj : ObjectMeta) : bool * ObjectMeta :=
  if existsb (λ f, String.eqb f finalizerName) (om_finalizers obj) then (false, obj)
  else (true, with_finalizers (om_finalizers obj ++ [finalizerName]) obj).

Definition MaybeRemoveFinalizer (obj : ObjectMeta) : bool * ObjectMeta :=
  match remove_first (λ f, String.eqb f finalizerName) (om_finalizers obj) with
  | Some fs => (true, with_finalizers fs obj)
  | None => (false, obj)
  end.

(** ** Conditions ([apis/conditions.go])

    The message of a condition is the text of an error; the error itself
    stands for its text. *)
Inductive ConditionStatus : Type := ConditionUnset | ConditionTrue | ConditionFalse | ConditionUnknown.
#[export] Instance ConditionStatus_eq_dec : EqDecision ConditionStatus.
Proof. solve_decision. Defined.

Record Condition := {
  c_type : string;
  c_status : ConditionStatus;
  c_reason : string;
  c_message : option goerr;
  c_lastTransitionTime : option Z;
  c_observedGeneration : Z
}.

Definition BindingReady : string := "Ready".
Definition CollectionReady : string := "CollectionReady".
Definition InjectionReady : string := "InjectionReady".
Definition EmptyApplicationReason : string := "EmptyApplication".
Definition ApplicationNotFoundReason : string := "ApplicationNotFound".
Definition NoBindingDataReason : string := "NoBindingData".
Definition DataCollectedReason : string := "DataCollected".
Definition RequiredBindingNotFound : string := "RequiredBindingNotFound".

Definition ServiceNotFoundReason : string := "ServiceNotFound".
Definition BindingInjectedReason : string := "BindingInjected".

(** [conditionsBuilder] and its methods; an unset status is the empty text. *)
Record conditionsBuilder := {
  cb_cndType : string;
  cb_status : ConditionStatus;
  cb_reason : string;
  cb_message : option goerr
}.

Module ConditionsBuilder.
Definition Conditions : conditionsBuilder :=
  {| cb_cndType := ""; cb_status := ConditionUnset; cb_reason := ""; cb_message := None |}.

Definition Build (b : conditionsBuilder) : Condition :=
  {| c_type := cb_cndType b; c_status := cb_status b; c_reason := cb_reason b; c_message := cb_message b;
     c_lastTransitionTime := None; c_observedGeneration := 0 |}.

Definition with_type (cndType : string) (status : ConditionStatus) (b : conditionsBuilder) : conditionsBuilder :=
  {| cb_cndType := cndType; cb_status := status; cb_reason := cb_reason b; cb_message := cb_message b |}.
Definition is_NotCollectionReady := with_type CollectionReady ConditionFalse.
Definition is_CollectionReady := with_type CollectionReady ConditionTrue.
Definition is_NotInjectionReady := with_type InjectionReady ConditionFalse.
Definition is_InjectionReady := with_type InjectionReady ConditionTrue.
Definition is_NotBindingReady := with_type BindingReady ConditionFalse.
Definition is_BindingReady := with_type BindingReady ConditionTrue.

Definition Reason (r : string) (b : conditionsBuilder) : conditionsBuilder :=
  {| cb_cndType := cb_cndType b; cb_status := cb_status b; cb_reason := r; cb_message := cb_message b |}.
Definition BindingInjected (b : conditionsBuilder) : conditionsBuilder := Reason BindingInjectedReason b.
Definition DataCollected (b : conditionsBuilder) : conditionsBuilder := Reason DataCollectedReason b.
Definition ServiceNotFound (b : conditionsBuilder) : conditionsBuilder := Reason ServiceNotFoundReason b.
Definition ApplicationNotFound (b : conditionsBuilder) : conditionsBuilder := Reason ApplicationNotFoundReason b.
Definition Msg (msg : option goerr) (b : conditionsBuilder) : conditionsBuilder :=
  {| cb_cndType := cb_cndType b; cb_status := cb_status b; cb_reason := cb_reason b; cb_message := msg |}.
End ConditionsBuilder.

(** The chains of calls the operator makes. *)
Definition condition (ready : conditionsBuilder → conditionsBuilder) (reason : string) (msg : option goerr) : Condition :=
  ConditionsBuilder.Build (ConditionsBuilder.Msg msg (ConditionsBuilder.Reason reason (ready ConditionsBuilder.Conditions))).

Definition cond_CollectionReady := condition ConditionsBuilder.is_CollectionReady.
Definition cond_NotCollectionReady := condition ConditionsBuilder.is_NotCollectionReady.
Definition cond_InjectionReady := condition ConditionsBuilder.is_InjectionReady.
Definition cond_NotInjectionReady := condition ConditionsBuilder.is_NotInjectionReady.
Definition cond_BindingReady := condition ConditionsBuilder.is_BindingReady.
Definition cond_NotBindingReady := condition ConditionsBuilder.is_NotBindingReady.

(** [meta.SetStatusCondition]; [now] is the clock. *)
Fixpoint SetStatusCondition (now : Z) (conditions : list Condition) (new : Condition) :
    list Condition :=
  let stamp := match c_lastTransitionTime new with Some t => Some t | None => Some now end in
  match conditions with
  | [] => [{| c_type := c_type new; c_status := c_status new; c_reason := c_reason new;
              c_message := c_message new; c_lastTransitionTime := stamp;
              c_observedGeneration := c_observedGeneration new |}]
  | c :: cs =>
      if String.eqb (c_type c) (c_type new) then
        {| c_type := c_type c;
           c_status := c_status new;
           c_reason := c_reason new;
           c_message := c_message new;
           c_lastTransitionTime :=
             if decide (c_status c = c_status new) then c_lastTransitionTime c else stamp;
           c_observedGeneration := c_observedGeneration new |} :: cs
      else c :: SetStatusCondition now cs new
  end.

(** [meta.IsStatusConditionTrue]. *)
Definition IsStatusConditionTrue (conditions : list Condition) (type : string) : bool :=
  match find (λ c, String.eqb (c_type c) type) conditions with
  | Some c => bool_decide (c_status c = ConditionTrue)
  | None => false
  end.

(** ** Who asked for the binding *)

(** [authv1.UserInfo], the fields used. *)
Record UserInfo := { ui_username : string; ui_groups : list string }.

(** [encoding/json] on the types the operator stores in annotations. *)
Class UserInfoJSON := {
  marshal_UserInfo : UserInfo → string;
  unmarshal_UserInfo : string → result UserInfo
}.

Section Requester.
Context `{UserInfoJSON}.

(** [SetRequester] on the annotations of an object. *)
Definition SetRequester (annotations : list (string * string)) (userInfo : UserInfo) :
    list (string * string) :=
  aset requesterAnnotationKey (marshal_UserInfo userInfo) annotations.

Definition Requester (objMeta : ObjectMeta) : option UserInfo :=
  match aget requesterAnnotationKey (om_annotations objMeta) with
  | Some req => match unmarshal_UserInfo req with Ok u => Some u | Err _ => None end
  | None => None
  end.
End Requester.

(** ** References to resources *)

(** [metav1.LabelSelector] and its requirements; a nil map or slice is [None]. *)
Record LabelSelectorRequirement := {
  lsr_key : string;
  lsr_operator : string;
  lsr_values : option (list string)
}.
Record LabelSelector := {
  ls_matchLabels : option (gmap string string);
  ls_matchExpressions : option (list LabelSelectorRequirement)
}.
#[export] Instance LabelSelectorRequirement_eq_dec : EqDecision LabelSelectorRequirement.
Proof. solve_decision. Defined.
#[export] Instance LabelSelector_eq_dec : EqDecision LabelSelector.
Proof. solve_decision. Defined.

(** [kubernetes.Referable]. *)
Class Referable (R : Type) := {
  ref_gvr : R → result GroupVersionResource;
  ref_gvk : R → result GroupVersionKind
}.

Section Lookup.
Context {W : Type} `{KubeAPI W}.

Definition ResourceForKind (gvk : GroupVersionKind) : M W (result GroupVersionResource) :=
  kube_resourceForKind gvk.
Definition KindForResource (gvr : GroupVersionResource) : M W (result GroupVersionKind) :=
  kube_kindForResource gvr.

Definition ResourceForReferable {R} `{Referable R} (obj : R) : M W (result GroupVersionResource) :=
  match ref_gvr obj with
  | Ok gvr => mret (Ok gvr)
  | Err _ =>
      match ref_gvk obj with
      | Ok gvk => ResourceForKind gvk
      | Err e => mret (Err e)
      end
  end.
End Lookup.

(** [TypeMeta.GroupVersionKind]. *)
Definition FromAPIVersionAndKind (apiVersion kind : string) : GroupVersionKind :=
  match ParseGroupVersion apiVersion with
  | Ok (g, v) => {| gvk_group := g; gvk_version := v; gvk_kind := kind |}
  | Err _ => {| gvk_group := ""; gvk_version := ""; gvk_kind := kind |}
  end.

(** ** [apis/binding/v1alpha1/servicebinding_types.go]

    A slice of a spec that is nil is [None]: [reflect.DeepEqual] tells it from
    an empty one. *)
Module v1alpha1.

Definition GroupVersionResource : GroupVersionResource :=
  {| gvr_group := "binding.operators.coreos.com"; gvr_version := "v1alpha1";
     gvr_resource := "servicebindings" |}.

Definition templates : list (string * string) :=
  [("none", "{{ .name }}");
   ("uppercase", "{{ .service.kind | upper }}_{{ .name | upper }}");
   ("lowercase", "{{ .name | lower }}")].

Record Mapping := { map_name : string; map_value : string }.

Record Ref := {
  r_group : string; r_version : string; r_kind : string; r_resource : string; r_name : string
}.

Record NamespacedRef := { nr_ref : Ref; nr_namespace : option string }.
Record Service := { sv_ref : NamespacedRef; sv_id : option string }.

Record BindingPath := { bp_containersPath : string; bp_secretPath : string }.
Record Application := {
  ap_ref : Ref;
  ap_labelSelector : option LabelSelector;
  ap_bindingPath : option BindingPath
}.

Record ServiceBindingSpec := {
  sp_name : string;
  sp_namingStrategy : string;
  sp_mappings : option (list Mapping);
  sp_services : option (list Service);
  sp_application : Application;
  sp_detectBindingResources : bool;
  sp_bindAsFiles : bool
}.

Record ServiceBindingStatus := { ss_conditions : list Condition; ss_secret : string }.

Record ServiceBinding := {
  sb_kind : string;
  sb_apiVersion : string;
  sb_objectMeta : ObjectMeta;
  sb_spec : ServiceBindingSpec;
  sb_status : ServiceBindingStatus
}.

#[global] Instance Mapping_eq_dec : EqDecision Mapping.
Proof. solve_decision. Defined.
#[global] Instance Ref_eq_dec : EqDecision Ref.
Proof. solve_decision. Defined.
#[global] Instance NamespacedRef_eq_dec : EqDecision NamespacedRef.
Proof. solve_decision. Defined.
#[global] Instance Service_eq_dec : EqDecision Service.
Proof. solve_decision. Defined.
#[global] Instance BindingPath_eq_dec : EqDecision BindingPath.
Proof. solve_decision. Defined.
#[global] Instance Application_eq_dec : EqDecision Application.
Proof. solve_decision. Defined.
#[global] Instance ServiceBindingSpec_eq_dec : EqDecision ServiceBindingSpec.
Proof. solve_decision. Defined.

Definition NamingTemplate (spec : ServiceBindingSpec) : string :=
  if negb (String.eqb (sp_namingStrategy spec) "") then
    match aget (sp_namingStrategy spec) templates with
    | Some v => v
    | None => sp_namingStrategy spec
    end
  else if sp_bindAsFiles spec then default "" (aget "none" templates)
  else default "" (aget "uppercase" templates).

Definition AsOwnerReference (sbr : ServiceBinding) : OwnerReference :=
  {| or_name := om_name (sb_objectMeta sbr); or_uid := om_uid (sb_objectMeta sbr);
     or_kind := sb_kind sbr; or_apiVersion := sb_apiVersion sbr; or_controller := true |}.

Definition Ref_GroupVersionResource (ref : Ref) : result GoValue.GroupVersionResource :=
  if String.eqb (r_resource ref) "" then Err (ENew "Resource undefined")
  else Ok {| gvr_group := r_group ref; gvr_version := r_version ref; gvr_resource := r_resource ref |}.

Definition Ref_GroupVersionKind (ref : Ref) : result GroupVersionKind :=
  if String.eqb (r_kind ref) "" then Err (ENew "Kind undefined")
  else Ok {| gvk_group := r_group ref; gvk_version := r_version ref; gvk_kind := r_kind ref |}.

#[global] Instance Ref_Referable : Referable Ref :=
  {| ref_gvr := Ref_GroupVersionResource; ref_gvk := Ref_GroupVersionKind |}.

Definition with_meta (m : ObjectMeta) (sb : ServiceBinding) : ServiceBinding :=
  {| sb_kind := sb_kind sb; sb_apiVersion := sb_apiVersion sb; sb_objectMeta := m;
     sb_spec := sb_spec sb; sb_status := sb_status sb |}.
Definition with_status (s : ServiceBindingStatus) (sb : ServiceBinding) : ServiceBinding :=
  {| sb_kind := sb_kind sb; sb_apiVersion := sb_apiVersion sb; sb_objectMeta := sb_objectMeta sb;
     sb_spec := sb_spec sb; sb_status := s |}.
End v1alpha1.

(** ** [apis/spec/v1beta1/servicebinding_types.go] *)
Module v1beta1.

Definition GroupVersionResource : GroupVersionResource :=
  {| gvr_group := "servicebinding.io"; gvr_version := "v1beta1"; gvr_resource := "servicebindings" |}.
Definition WorkloadResourceMappingGroupVersionResource : GoValue.GroupVersionResource :=
  {| gvr_group := "servicebinding.io"; gvr_version := "v1beta1";
     gvr_resource := "clusterworkloadresourcemappings" |}.

Record ServiceBindingWorkloadReference := {
  wl_apiVersion : string;
  wl_kind : string;
  wl_name : string;
  wl_selector : option LabelSelector;
  wl_containers : option (list string)
}.

Record ServiceBindingServiceReference := {
  sr_apiVersion : string; sr_kind : string; sr_name : string
}.

Record EnvMapping := { em_name : string; em_key : string }.

Record ServiceBindingSpec := {
  sp_name : string;
  sp_type : string;
  sp_provider : string;
  sp_workload : ServiceBindingWorkloadReference;
  sp_service : ServiceBindingServiceReference;
  sp_env : option (list EnvMapping)
}.

(** A nil [Binding] is [None]; otherwise the name of the secret. *)
Record ServiceBindingStatus := {
  ss_observedGeneration : Z;
  ss_conditions : list Condition;
  ss_binding : option string
}.

Record ServiceBinding := {
  sb_kind : string;
  sb_apiVersion : string;
  sb_objectMeta : ObjectMeta;
  sb_spec : ServiceBindingSpec;
  sb_status : ServiceBindingStatus
}.

#[global] Instance ServiceBindingWorkloadReference_eq_dec :
  EqDecision ServiceBindingWorkloadReference.
Proof. solve_decision. Defined.
#[global] Instance ServiceBindingServiceReference_eq_dec :
  EqDecision ServiceBindingServiceReference.
Proof. solve_decision. Defined.
#[global] Instance EnvMapping_eq_dec : EqDecision EnvMapping.
Proof. solve_decision. Defined.
#[global] Instance ServiceBindingSpec_eq_dec : EqDecision ServiceBindingSpec.
Proof. solve_decision. Defined.

Definition AsOwnerReference (sb : ServiceBinding) : OwnerReference :=
  {| or_name := om_name (sb_objectMeta sb); or_uid := om_uid (sb_objectMeta sb);
     or_kind := sb_kind sb; or_apiVersion := sb_apiVersion sb; or_controller := true |}.

#[global] Instance ServiceReference_Referable : Referable ServiceBindingServiceReference :=
  {| ref_gvr _ := Err (ENew "Resource undefined");
     ref_gvk ref := Ok (FromAPIVersionAndKind (sr_apiVersion ref) (sr_kind ref)) |}.

#[global] Instance WorkloadReference_Referable : Referable ServiceBindingWorkloadReference :=
  {| ref_gvr _ := Err (ENew "Resource undefined");
     ref_gvk ref := Ok (FromAPIVersionAndKind (wl_apiVersion ref) (wl_kind ref)) |}.

Definition with_meta (m : ObjectMeta) (sb : ServiceBinding) : ServiceBinding :=
  {| sb_kind := sb_kind sb; sb_apiVersion := sb_apiVersion sb; sb_objectMeta := m;
     sb_spec := sb_spec sb; sb_status := sb_status sb |}.
Definition with_status (s : ServiceBindingStatus) (sb : ServiceBinding) : ServiceBinding :=
  {| sb_kind := sb_kind sb; sb_apiVersion := sb_apiVersion sb; sb_objectMeta := sb_objectMeta sb;
     sb_spec := sb_spec sb; sb_status := s |}.
End v1beta1.

(** ** What the reconciler needs of a binding resource

    [apis.Object] together with the closures the two context providers build:
    the operations through which the shared code reads and writes the binding
    it reconciles.  The laws say that the fields are independent. *)
Class ServiceBindingKind (B : Type) := {
  sbk_meta : B → ObjectMeta;
  sbk_set_meta : ObjectMeta → B → B;
  statusSecretName : B → string;
  setStatusSecretName : string → B → B;
  statusConditions : B → list Condition;
  setStatusConditions : list Condition → B → B;
  ownerReference : B → OwnerReference;
  groupVersionResource : GroupVersionResource
}.

Class ServiceBindingLaws (B : Type) `{ServiceBindingKind B} := {
  secretName_set n (b : B) : statusSecretName (setStatusSecretName n b) = n;
  conditions_set cs (b : B) : statusConditions (setStatusConditions cs b) = cs;
  conditions_secretName n (b : B) : statusConditions (setStatusSecretName n b) = statusConditions b;
  secretName_conditions cs (b : B) : statusSecretName (setStatusConditions cs b) = statusSecretName b;
  meta_set m (b : B) : sbk_meta (sbk_set_meta m b) = m;
  meta_get (b : B) : sbk_set_meta (sbk_meta b) b = b;
  meta_secretName n (b : B) : sbk_meta (setStatusSecretName n b) = sbk_meta b;
  meta_conditions cs (b : B) : sbk_meta (setStatusConditions cs b) = sbk_meta b;
  secretName_meta m (b : B) : statusSecretName (sbk_set_meta m b) = statusSecretName b;
  conditions_meta m (b : B) : statusConditions (sbk_set_meta m b) = statusConditions b;
  owner_meta (b : B) : or_name (ownerReference b) = om_name (sbk_meta b) ∧
    or_uid (ownerReference b) = om_uid (sbk_meta b) ∧ or_controller (ownerReference b) = true
}.

(** The closures of [Provider] ([context/impl.go]). *)
#[export] Instance v1alpha1_kind : ServiceBindingKind v1alpha1.ServiceBinding := {|
  sbk_meta := v1alpha1.sb_objectMeta;
  sbk_set_meta := v1alpha1.with_meta;
  statusSecretName sb := v1alpha1.ss_secret (v1alpha1.sb_status sb);
  setStatusSecretName n sb := v1alpha1.with_status
    {| v1alpha1.ss_conditions := v1alpha1.ss_conditions (v1alpha1.sb_status sb);
       v1alpha1.ss_secret := n |} sb;
  statusConditions sb := v1alpha1.ss_conditions (v1alpha1.sb_status sb);
  setStatusConditions cs sb := v1alpha1.with_status
    {| v1alpha1.ss_conditions := cs;
       v1alpha1.ss_secret := v1alpha1.ss_secret (v1alpha1.sb_status sb) |} sb;
  ownerReference := v1alpha1.AsOwnerReference;
  groupVersionResource := v1alpha1.GroupVersionResource
|}.

(** The closures of [SpecProvider] ([context/spec_binding_impl.go]). *)
#[export] Instance v1beta1_kind : ServiceBindingKind v1beta1.ServiceBinding := {|
  sbk_meta := v1beta1.sb_objectMeta;
  sbk_set_meta := v1beta1.with_meta;
  statusSecretName sb := default "" (v1beta1.ss_binding (v1beta1.sb_status sb));
  setStatusSecretName n sb := v1beta1.with_status
    {| v1beta1.ss_observedGeneration := v1beta1.ss_observedGeneration (v1beta1.sb_status sb);
       v1beta1.ss_conditions := v1beta1.ss_conditions (v1beta1.sb_status sb);
       v1beta1.ss_binding := Some n |} sb;
  statusConditions sb := v1beta1.ss_conditions (v1beta1.sb_status sb);
  setStatusConditions cs sb := v1beta1.with_status
    {| v1beta1.ss_observedGeneration := v1beta1.ss_observedGeneration (v1beta1.sb_status sb);
       v1beta1.ss_conditions := cs;
       v1beta1.ss_binding := v1beta1.ss_binding (v1beta1.sb_status sb) |} sb;
  ownerReference := v1beta1.AsOwnerReference;
  groupVersionResource := v1beta1.GroupVersionResource
|}.

#[export] Instance v1alpha1_laws : ServiceBindingLaws v1alpha1.ServiceBinding.
Proof. split; try done. by intros []. Qed.
#[export] Instance v1beta1_laws : ServiceBindingLaws v1beta1.ServiceBinding.
Proof. split; try done. by intros []. Qed.

(** [CanUpdateBinding] for a kind whose specs are [S]. *)
Definition CanUpdateBinding {S} `{EqDecision S} (conditions : list Condition) (spec oldSpec : S) :
    result unit :=
  if IsStatusConditionTrue conditions BindingReady && negb (bool_decide (spec = oldSpec))
  then Err (ENew "cannot update Service Binding if 'Ready' condition is True. If you want to rebind to another service/application, remove this binding and create a new one.")
  else Ok tt.
