(* ===== verification/Service.v ===== *)
(** * Services and their CRDs ([pkg/reconcile/pipeline/context/service],
    [pkg/binding/registry], [pkg/util])

    A service is the resource the binding takes its data from.  Its CRD is
    looked up once and cached; a CRD that is not bindable by itself gets the
    annotations the registry knows for its kind. *)

From S2P Require Import Prelude.
From S2P Require Import GoLib.
From S2P Require Import GoValue.
From S2P Require Import JsonPath.
From S2P Require Import Kube.
From S2P Require Import Binding.

(** ** Maps ([pkg/util/util.go]) and setters of unstructured objects *)

(** [MergeMaps(dest, src)]: nil maps are empty lists. *)
Definition MergeMaps {A} (dest src : list (string * A)) : list (string * A) :=
  match dest, src with
  | [], _ => src
  | _, [] => dest
  | _, _ => fold_left (λ d kv, aset kv.1 kv.2 d) src dest
  end.

(** [setNestedFieldNoCopy] on a tree: [None] when a level is not a map. *)
Fixpoint setNestedField (obj : json) (fields : list string) (v : json) : option json :=
  match fields with
  | [] => Some v
  | f :: fields' =>
      match obj with
      | JObj m =>
          match aget f m with
          | Some x =>
              match fields', x with
              | _ :: _, JObj _ | [], _ => (λ y, JObj (aset f y m)) <$> setNestedField x fields' v
              | _, _ => None
              end
          | None => (λ y, JObj (aset f y m)) <$> setNestedField (JObj []) fields' v
          end
      | _ => None
      end
  end.

(** [Unstructured.SetAnnotations] with a non-nil map; its error is dropped. *)
Definition SetAnnotations (obj : json) (annotations : list (string * string)) : json :=
  default obj (setNestedField obj ["metadata"; "annotations"]
    (JObj ((λ kv, (kv.1, JStr kv.2)) <$> annotations))).

(** The UIDs of [GetOwnerReferences]. *)
Definition owner_uids (obj : json) : list string :=
  match NestedFieldNoCopy obj ["metadata"; "ownerReferences"] with
  | Found (JArr SliceAny l) =>
      default [] (mapM (λ o, match o with JObj _ => Some (getNestedString o ["uid"]) | _ => None end) l)
  | _ => []
  end.

(** ** The annotation registry ([pkg/binding/registry/registry.go]) *)
#[export] Instance GroupVersionKind_eq_dec : EqDecision GroupVersionKind.
Proof. solve_decision. Defined.

Definition gvk (g v k : string) : GroupVersionKind :=
  {| gvk_group := g; gvk_version := v; gvk_kind := k |}.

Definition percona_mysql : list (string * string) :=
  [("service.binding/type", "mysql"); ("service.binding/provider", "percona");
   ("service.binding/database", "mysql");
   ("service.binding", "path={.spec.secretsName},objectType=Secret");
   ("service.binding/host", "path={.status.host}"); ("service.binding/port", "3306");
   ("service.binding/username", "root");
   ("service.binding/password", "path={.spec.secretsName},objectType=Secret,sourceKey=root")].

Definition percona_mongodb : list (string * string) :=
  [("service.binding/type", "mongodb"); ("service.binding/provider", "percona");
   ("service.binding", "path={.spec.secrets.users},objectType=Secret");
   ("service.binding/username",
      "path={.spec.secrets.users},objectType=Secret,sourceKey=MONGODB_USER_ADMIN_USER");
   ("service.binding/password",
      "path={.spec.secrets.users},objectType=Secret,sourceKey=MONGODB_USER_ADMIN_PASSWORD");
   ("service.binding/host", "path={.status.host}")].

(** [New]: the annotations of the kinds known beforehand. *)
Definition ServiceAnnotations : list (GroupVersionKind * list (string * string)) :=
  [(gvk "redis.redis.opstreelabs.in" "v1beta1" "Redis",
     [("service.binding/type", "redis"); ("service.binding/host", "path={.metadata.name}");
      ("service.binding/password",
        "path={.spec.kubernetesConfig.redisSecret.name},objectType=Secret,sourceKey=password,optional=true")]);
   (gvk "postgres-operator.crunchydata.com" "v1beta1" "PostgresCluster",
     [("service.binding/type", "postgresql"); ("service.binding/provider", "crunchydata");
      ("service.binding", "path={.metadata.name}-pguser-{.metadata.name},objectType=Secret");
      ("service.binding/database",
        "path={.metadata.name}-pguser-{.metadata.name},objectType=Secret,sourceKey=dbname");
      ("service.binding/username",
        "path={.metadata.name}-pguser-{.metadata.name},objectType=Secret,sourceKey=user");
      ("service.binding/cert", "path={.metadata.name}-cluster-cert,objectType=Secret")]);
   (gvk "pxc.percona.com" "v1-8-0" "PerconaXtraDBCluster", percona_mysql);
   (gvk "pxc.percona.com" "v1-9-0" "PerconaXtraDBCluster", percona_mysql);
   (gvk "pxc.percona.com" "v1-10-0" "PerconaXtraDBCluster", percona_mysql);
   (gvk "psmdb.percona.com" "v1-9-0" "PerconaServerMongoDB", percona_mongodb);
   (gvk "psmdb.percona.com" "v1-10-0" "PerconaServerMongoDB", percona_mongodb);
   (gvk "psmdb.percona.com" "v1" "PerconaServerMongoDB", percona_mongodb);
   (gvk "postgresql.k8s.enterprisedb.io" "v1" "Cluster",
     [("service.binding/type", "postgresql"); ("service.binding/host", "path={.status.writeService}");
      ("service.binding/provider", "enterprisedb");
      ("service.binding", "path={.metadata.name}-{.spec.bootstrap.initdb.owner},objectType=Secret");
      ("service.binding/database", "path={.spec.bootstrap.initdb.database}")]);
   (gvk "rabbitmq.com" "v1beta1" "RabbitmqCluster",
     [("servicebinding.io/provisioned-service", "true")])].

(** [Register] in a registry: the entry of the kind, which stays where it is. *)
Fixpoint registry_Register (serviceGVK : GroupVersionKind) (annotations : list (string * string))
    (annotationMap : list (GroupVersionKind * list (string * string))) :
    list (GroupVersionKind * list (string * string)) :=
  match annotationMap with
  | [] => [(serviceGVK, annotations)]
  | e :: es => if bool_decide (e.1 = serviceGVK) then (serviceGVK, annotations) :: es
               else e :: registry_Register serviceGVK annotations es
  end.

Definition registry_GetAnnotations (serviceGVK : GroupVersionKind) : option (list (string * string)) :=
  snd <$> find (λ e, bool_decide (e.1 = serviceGVK)) ServiceAnnotations.

(** ** CRDs *)
Record customResourceDefinition := {
  crd_resource : json;
  crd_serviceGVR : GroupVersionResource;
  crd_ns : string
}.

Section CRD.
Context `{JSONPathLib}.

Definition bindable_path : string :=
  "{..schema.openAPIV3Schema.properties.status.properties.binding.properties.name.type}".

(** The copy of [getValuesByJSONPath] in this package. *)
Definition service_getValuesByJSONPath {S} (obj : json) (path : string) : M S (result (list rvalue)) :=
  match jsonpath_Parse path with
  | Err e => mret (Err e)
  | Ok j =>
      match FindResults j (ValueOf obj) with
      | Err e => mret (Err e)
      | Ok [] => mpanic "index out of range [0] with length 0"
      | Ok [result0] => mret (Ok result0)
      | Ok results =>
          mret (let? texts := map_res (λ r, PrintResults (rv_val <$> r)) results in
                Ok [ValueOf (JStr (Join texts ""))])
      end
  end.

(** [IsBindable]; the first value found must be a string, or the type
    assertion panics. *)
Definition crd_IsBindable {S} (c : customResourceDefinition) : M S (result bool) :=
  r ← service_getValuesByJSONPath (crd_resource c) bindable_path;
  let from_annotations : M S (result bool) :=
    mret (Ok (existsb (λ kv, match IsServiceBindingAnnotation kv.1 with Ok true => true | _ => false end)
                (GetAnnotations (crd_resource c)))) in
  match r with
  | Ok (v :: _) =>
      match rv_val v with
      | JStr s => if String.eqb s "string" then mret (Ok true) else from_annotations
      | _ => mpanic "interface conversion: interface {} is not string"
      end
  | _ => from_annotations
  end.

Definition crd_kind (c : customResourceDefinition) : string :=
  match NestedString (crd_resource c) ["spec"; "names"; "kind"] with Found val => val | _ => "" end.

(** [customResourceDefinition.Resource]: the CRD afterwards; its resource is
    what the call returns. *)
Definition crd_Resource {S} (c : customResourceDefinition) : M S customResourceDefinition :=
  b ← crd_IsBindable c;
  match b with
  | Ok true => mret c
  | _ =>
      let k := {| gvk_group := gvr_group (crd_serviceGVR c); gvk_version := gvr_version (crd_serviceGVR c);
                  gvk_kind := crd_kind c |} in
      match registry_GetAnnotations k with
      | Some annotations =>
          mret {| crd_resource := SetAnnotations (crd_resource c)
                    (MergeMaps (GetAnnotations (crd_resource c)) annotations);
                  crd_serviceGVR := crd_serviceGVR c; crd_ns := crd_ns c |}
      | None => mret c
      end
  end.
End CRD.

(** ** Services *)

(** Where a service gets its CRD from: the API server ([builder.Build]'s
    default reader), or an object at hand (the CRD controller). *)
Inductive CrdReader : Type :=
| ClientCrdReader
| FixedCrdReader (crd : json).

Record service := {
  s_namespace : string;
  s_resource : json;
  s_groupVersionResource : GroupVersionResource;
  s_crdReader : CrdReader;
  s_crd : option customResourceDefinition;
  s_crdLookup : bool;
  s_lookForOwnedResources : bool;
  s_bindingDefinitions : list (BindingDefinition unit);
  s_id : option string
}.

Definition with_crd (crd : option customResourceDefinition) (lookup : bool) (s : service) : service :=
  {| s_namespace := s_namespace s; s_resource := s_resource s;
     s_groupVersionResource := s_groupVersionResource s; s_crdReader := s_crdReader s;
     s_crd := crd; s_crdLookup := lookup; s_lookForOwnedResources := s_lookForOwnedResources s;
     s_bindingDefinitions := s_bindingDefinitions s; s_id := s_id s |}.

(** [buildOption]s: [Id] and [CrdReaderOption]. *)
Definition buildOption : Type := service → service.
Definition service_Id (v : string) : buildOption := λ s,
  {| s_namespace := s_namespace s; s_resource := s_resource s;
     s_groupVersionResource := s_groupVersionResource s; s_crdReader := s_crdReader s;
     s_crd := s_crd s; s_crdLookup := s_crdLookup s;
     s_lookForOwnedResources := s_lookForOwnedResources s;
     s_bindingDefinitions := s_bindingDefinitions s; s_id := Some v |}.
Definition CrdReaderOption (reader : CrdReader) : buildOption := λ s,
  {| s_namespace := s_namespace s; s_resource := s_resource s;
     s_groupVersionResource := s_groupVersionResource s; s_crdReader := reader;
     s_crd := s_crd s; s_crdLookup := s_crdLookup s;
     s_lookForOwnedResources := s_lookForOwnedResources s;
     s_bindingDefinitions := s_bindingDefinitions s; s_id := s_id s |}.

(** [builder]; its client and type lookup are the API server. *)
Record service_builder := { b_crdReader : option CrdReader; b_lookForOwnedResources : bool }.
Definition NewBuilder : service_builder := {| b_crdReader := None; b_lookForOwnedResources := false |}.
Definition WithCrdReader (reader : CrdReader) (b : service_builder) : service_builder :=
  {| b_crdReader := Some reader; b_lookForOwnedResources := b_lookForOwnedResources b |}.
Definition LookOwnedResources (val : bool) (b : service_builder) : service_builder :=
  {| b_crdReader := b_crdReader b; b_lookForOwnedResources := val |}.

(** [AddBindingDef]. *)
Definition AddBindingDef (def : BindingDefinition unit) (s : service) : service :=
  {| s_namespace := s_namespace s; s_resource := s_resource s;
     s_groupVersionResource := s_groupVersionResource s; s_crdReader := s_crdReader s;
     s_crd := s_crd s; s_crdLookup := s_crdLookup s;
     s_lookForOwnedResources := s_lookForOwnedResources s;
     s_bindingDefinitions := s_bindingDefinitions s ++ [def]; s_id := s_id s |}.

Definition crdGVRs : list GroupVersionResource :=
  [{| gvr_group := "apiextensions.k8s.io"; gvr_version := "v1"; gvr_resource := "customresourcedefinitions" |};
   {| gvr_group := "apiextensions.k8s.io"; gvr_version := "v1beta1"; gvr_resource := "customresourcedefinitions" |}].

Definition bindableResourceGVRs : list GroupVersionResource :=
  [{| gvr_group := ""; gvr_version := "v1"; gvr_resource := "configmaps" |};
   {| gvr_group := ""; gvr_version := "v1"; gvr_resource := "secrets" |};
   {| gvr_group := ""; gvr_version := "v1"; gvr_resource := "services" |};
   {| gvr_group := "route.openshift.io"; gvr_version := "v1"; gvr_resource := "routes" |}].

Section Service.
Context {W : Type} `{KubeAPI W} `{JSONPathLib}.

(** [builder.Build]: an option may set the reader, else the builder's is used,
    else the default one. *)
Definition builder_Build (b : service_builder) (content : json) (options : list buildOption) :
    M W (result service) :=
  let! gvr := kube_resourceForKind (object_gvk content) in
  mret (Ok (fold_left (λ s o, o s) options
    {| s_namespace := GetNamespace content; s_resource := content;
       s_groupVersionResource := gvr; s_crdReader := default ClientCrdReader (b_crdReader b); s_crd := None;
       s_crdLookup := false; s_lookForOwnedResources := b_lookForOwnedResources b;
       s_bindingDefinitions := []; s_id := None |})).

(** The default CRD reader: the first version of the CRD API that answers, or
    the last error. *)
Fixpoint read_crd (crds : list GroupVersionResource) (name : string) (err : goerr) : M W (result json) :=
  match crds with
  | [] => mret (Err err)
  | crd :: crds' =>
      r ← kube_get crd "" name;
      match r with
      | Ok u => mret (Ok u)
      | Err e => read_crd crds' name e
      end
  end.

Definition run_CrdReader (reader : CrdReader) (gvr : GroupVersionResource) : M W (result json) :=
  match reader with
  | ClientCrdReader => read_crd crdGVRs (GroupResource_String gvr) (ENew "")
  | FixedCrdReader crd => mret (Ok crd)
  end.

(** [CustomResourceDefinition]: the service afterwards; its [s_crd] is what
    the call returns. *)
Definition CustomResourceDefinition (s : service) : M W (result service) :=
  match s_crd s with
  | Some _ => mret (Ok s)
  | None =>
      if s_crdLookup s then mret (Ok s)
      else
        r ← run_CrdReader (s_crdReader s) (s_groupVersionResource s);
        match r with
        | Ok u => mret (Ok (with_crd (Some {| crd_resource := u; crd_ns := s_namespace s;
                     crd_serviceGVR := s_groupVersionResource s |}) (s_crdLookup s) s))
        | Err e => if IsNotFound e then mret (Ok (with_crd None true s)) else mret (Err e)
        end
  end.

(** [service.IsBindable]: a service without CRD dereferences nil. *)
Definition service_IsBindable (s : service) : M W (result (bool * service)) :=
  let! s' := CustomResourceDefinition s in
  match s_crd s' with
  | None => mpanic "invalid memory address or nil pointer dereference"
  | Some c => let! b := crd_IsBindable c in mret (Ok (b, s'))
  end.

(** [OwnedResources]: one entry per owner reference to the service. *)
Fixpoint list_owned (ns uid : string) (gvrs : list GroupVersionResource) (acc : list json) :
    M W (result (list json)) :=
  match gvrs with
  | [] => mret (Ok acc)
  | gvr :: gvrs' =>
      r ← kube_list gvr ns ∅;
      match r with
      | Err e => if IsNotFound e then list_owned ns uid gvrs' acc else mret (Err e)
      | Ok items =>
          list_owned ns uid gvrs'
            (acc ++ flat_map (λ item,
               flat_map (λ owner, if String.eqb owner uid then [item] else []) (owner_uids item)) items)
      end
  end.

Definition service_OwnedResources (s : service) : M W (result (list json)) :=
  if negb (s_lookForOwnedResources s) then mret (Ok [])
  else list_owned (s_namespace s) (GetUID (s_resource s)) bindableResourceGVRs [].
End Service.
