(* ===== verification/Application.v ===== *)
(** * Applications ([pkg/reconcile/pipeline/context/application.go])

    An application is a workload resource as it is in the cluster and, once
    it has been asked for, a deep copy of it that the handlers mutate. *)

From S2P Require Import Prelude.
From S2P Require Import GoLib.
From S2P Require Import GoValue.
From S2P Require Import JsonPath.
From S2P Require Import Heap.
From S2P Require Import Kube.
From S2P Require Import Apis.
From S2P Require Import Workload.

Record application := {
  a_gvr : GroupVersionResource;
  a_persistedResource : json;
  a_resource : option loc;
  a_bindingPath : option v1alpha1.BindingPath;
  a_bindableContainerNames : list string;
  a_resourceMapping : WorkloadMapping
}.

Definition with_resource (r : option loc) (a : application) : application :=
  {| a_gvr := a_gvr a; a_persistedResource := a_persistedResource a; a_resource := r;
     a_bindingPath := a_bindingPath a; a_bindableContainerNames := a_bindableContainerNames a;
     a_resourceMapping := a_resourceMapping a |}.

(** [SetMapping]. *)
Definition SetMapping (mapping : WorkloadMapping) (a : application) : application :=
  {| a_gvr := a_gvr a; a_persistedResource := a_persistedResource a; a_resource := a_resource a;
     a_bindingPath := a_bindingPath a; a_bindableContainerNames := a_bindableContainerNames a;
     a_resourceMapping := mapping |}.

Definition SecretPath (a : application) : string :=
  match a_bindingPath a with Some p => v1alpha1.bp_secretPath p | None => "" end.

(** The operations below run on the store and the application they are
    methods of. *)
Definition on_heap {A} (m : M heap A) : M (heap * application) A :=
  zoom fst (λ h s, (h, s.2)) m.

(** [Resource]: the root of the copy, made on the first call. *)
Definition Resource : M (heap * application) loc :=
  a ← mgets snd;
  match a_resource a with
  | Some r => mret r
  | None =>
      v ← on_heap (DeepCopyJSONValue (a_persistedResource a));
      match v with
      | VMap r => _ ← mmodify (λ s, (s.1, with_resource (Some r) s.2)); mret r
      | _ => mpanic "the object of an Unstructured is not a map"
      end
  end.

(** The copy as a tree. *)
Definition resource_json (h : heap) (r : loc) : option json := reify (S (heap_size h)) h (VMap r).

(** [IsUpdated]: a resource that was never asked for is a nil pointer, which
    is not equal to the persisted one. *)
Definition IsUpdated (h : heap) (a : application) : bool :=
  match a_resource a with
  | None => true
  | Some r =>
      match resource_json h r with
      | Some j => negb (DeepEqual (a_persistedResource a) j)
      | None => true
      end
  end.

(** [intoMetaContainer]: a name that is missing, or not a string, is empty. *)
Definition intoMetaContainer (h : heap) (container : WorkloadContainer) (data : loc) : MetaContainer :=
  {| mc_Name := match hNestedString h data (wc_name container) with Found name => name | _ => "" end;
     mc_Env := wc_env container;
     mc_VolumeMount := wc_volumeMounts container;
     mc_EnvFrom := wc_envFrom container;
     mc_Data := data |}.

Definition convert_error : goerr := ENew "Unable to convert data to suitable format".

Section Bindable.
Context `{JSONPathLib}.

(** The maps one selected value stands for. *)
Definition container_maps (data : gval) : result (list loc) :=
  match data with
  | VSlice SliceAny l =>
      map_res (λ c, match c with VMap b => Ok b | _ => Err convert_error end) l
  | VMap b => Ok [b]
  | _ => Err convert_error
  end.

Definition selected (h : heap) (names : list string) (container : WorkloadContainer) (b : loc) :
    list MetaContainer :=
  let mc := intoMetaContainer h container b in
  if (length names =? 0) || bool_decide (mc_Name mc ∈ names) then [mc] else [].

(** The containers of one container path; a path that selects nothing is
    skipped, and a template without nodes has no [pathData[0]]. *)
Definition path_containers (h : heap) (r : loc) (names : list string) (container : WorkloadContainer) :
    outcome (result (list MetaContainer)) :=
  match @FindResults gval (heap_view h) _ (wc_path container) (VMap r) with
  | Err _ => Ret (Ok [])
  | Ok [] => Panic "index out of range [0] with length 0"
  | Ok (pathData :: _) =>
      Ret (let? maps := map_res container_maps pathData in
           Ok (flat_map (selected h names container) (concat maps)))
  end.

Fixpoint all_containers (h : heap) (r : loc) (names : list string) (cs : list WorkloadContainer) :
    outcome (result (list MetaContainer)) :=
  match cs with
  | [] => Ret (Ok [])
  | c :: cs' =>
      match path_containers h r names c with
      | Panic e => Panic e
      | Ret (Err e) => Ret (Err e)
      | Ret (Ok l) =>
          match all_containers h r names cs' with
          | Ret (Ok l') => Ret (Ok (l ++ l'))
          | other => other
          end
      end
  end.

(** [BindablePods]. *)
Definition BindablePods : M (heap * application) (result MetaPodSpec) :=
  r ← Resource;
  s ← mget;
  let '(h, a) := s in
  match all_containers h r (a_bindableContainerNames a) (wm_containers (a_resourceMapping a)) with
  | Panic e => mpanic e
  | Ret (Err e) => mret (Err e)
  | Ret (Ok []) => mret (Err (ENew "no containers found in application resource"))
  | Ret (Ok containers) =>
      mret (Ok {| mp_Containers := containers; mp_Volume := wm_volume (a_resourceMapping a);
                  mp_Data := r |})
  end.
End Bindable.
