(* ===== verification/Sha256.v ===== *)
(** * SHA-256 ([crypto/sha256]) and [encoding/hex]

    The digest behind the name of the binding secret, computed on bytes and
    32-bit words kept in [N]. *)

From S2P Require Import Prelude.
From S2P Require Import GoLib.
From Stdlib Require Import NArith Ascii.

Definition w32 (x : N) : N := N.land x 4294967295.
Definition add32 (x y : N) : N := w32 (x + y).
Definition rotr (k x : N) : N := N.lor (N.shiftr x k) (w32 (N.shiftl x (32 - k))).
Definition not32 (x : N) : N := N.lxor x 4294967295.

Definition Ch (x y z : N) : N := N.lxor (N.land x y) (N.land (not32 x) z).
Definition Maj (x y z : N) : N := N.lxor (N.lxor (N.land x y) (N.land x z)) (N.land y z).
Definition Sigma0 (x : N) : N := N.lxor (N.lxor (rotr 2 x) (rotr 13 x)) (rotr 22 x).
Definition Sigma1 (x : N) : N := N.lxor (N.lxor (rotr 6 x) (rotr 11 x)) (rotr 25 x).
Definition sigma0 (x : N) : N := N.lxor (N.lxor (rotr 7 x) (rotr 18 x)) (N.shiftr x 3).
Definition sigma1 (x : N) : N := N.lxor (N.lxor (rotr 17 x) (rotr 19 x)) (N.shiftr x 10).

Definition K : list N := [
  1116352408; 1899447441; 3049323471; 3921009573; 961987163; 1508970993; 2453635748; 2870763221;
  3624381080; 310598401; 607225278; 1426881987; 1925078388; 2162078206; 2614888103; 3248222580;
  3835390401; 4022224774; 264347078; 604807628; 770255983; 1249150122; 1555081692; 1996064986;
  2554220882; 2821834349; 2952996808; 3210313671; 3336571891; 3584528711; 113926993; 338241895;
  666307205; 773529912; 1294757372; 1396182291; 1695183700; 1986661051; 2177026350; 2456956037;
  2730485921; 2820302411; 3259730800; 3345764771; 3516065817; 3600352804; 4094571909; 275423344;
  430227734; 506948616; 659060556; 883997877; 958139571; 1322822218; 1537002063; 1747873779;
  1955562222; 2024104815; 2227730452; 2361852424; 2428436474; 2756734187; 3204031479; 3329325298]%N.

Definition H0 : list N :=
  [1779033703; 3144134277; 1013904242; 2773480762; 1359893119; 2600822924; 528734635; 1541459225]%N.

(** ** Padding *)
Fixpoint bytes_of_string (s : string) : list N :=
  match s with
  | EmptyString => []
  | String a s' => N_of_ascii a :: bytes_of_string s'
  end.

(** The length in bits as eight bytes, most significant first. *)
Definition length_bytes (n : N) : list N :=
  map (λ i, N.land (N.shiftr n (8 * i)) 255) [7; 6; 5; 4; 3; 2; 1; 0]%N.

Definition pad (msg : list N) : list N :=
  let l := length msg in
  let zeros := (55 + 64 * S (l / 64) - l) mod 64 in
  msg ++ [128%N] ++ replicate zeros 0%N ++ length_bytes (8 * N.of_nat l).

Fixpoint words (bs : list N) : list N :=
  match bs with
  | a :: b :: c :: d :: bs' =>
      (N.shiftl a 24 + N.shiftl b 16 + N.shiftl c 8 + d)%N :: words bs'
  | _ => []
  end.

(** ** The compression function *)

(** The message schedule, most recent word first. *)
Fixpoint extend (n : nat) (ws : list N) : list N :=
  match n with
  | 0 => ws
  | S n' =>
      let w i := nth i ws 0%N in
      extend n' (add32 (add32 (sigma1 (w 1)) (w 6)) (add32 (sigma0 (w 14)) (w 15)) :: ws)
  end.

Definition schedule (block : list N) : list N := rev (extend 48 (rev block)).

Definition round (s : list N) (kw : N * N) : list N :=
  match s with
  | [a; b; c; d; e; f; g; h] =>
      let t1 := add32 (add32 (add32 h (Sigma1 e)) (add32 (Ch e f g) kw.1)) kw.2 in
      let t2 := add32 (Sigma0 a) (Maj a b c) in
      [add32 t1 t2; a; b; c; add32 d t1; e; f; g]
  | _ => s
  end.

Definition compress (hash block : list N) : list N :=
  zip_with add32 hash (fold_left round (zip K (schedule block)) hash).

Fixpoint blocks (fuel : nat) (ws : list N) (hash : list N) : list N :=
  match fuel, ws with
  | S fuel', _ :: _ => blocks fuel' (drop 16 ws) (compress hash (take 16 ws))
  | _, _ => hash
  end.

(** [sha256.Sum256]: eight words. *)
Definition digest (msg : string) : list N :=
  let ws := words (pad (bytes_of_string msg)) in
  blocks (length ws) ws H0.

(** ** Hexadecimal *)
Definition hex_digit (n : N) : ascii :=
  default "0"%char (String.get (N.to_nat n) "0123456789abcdef").

(** The eight digits of a word. *)
Definition hex_word (w : N) : string :=
  fold_right (λ i s, String (hex_digit (N.land (N.shiftr w (4 * i)) 15)) s) EmptyString
    [7; 6; 5; 4; 3; 2; 1; 0]%N.

(** [hex.EncodeToString(hash.Sum(nil))]. *)
Definition sha256_hex (msg : string) : string := String.concat "" (map hex_word (digest msg)).

(** * Known answers and sizes *)

Lemma digest_abc :
  sha256_hex "abc" = "ba7816bf8f01cfea414140de5dae2223b00361a396177a9cb410ff61f20015ad".
Proof. vm_compute. reflexivity. Qed.

Lemma digest_empty :
  sha256_hex "" = "e3b0c44298fc1c149afbf4c8996fb92427ae41e4649b934ca495991b7852b855".
Proof. vm_compute. reflexivity. Qed.

(** Two blocks. *)
Lemma digest_two_blocks :
  sha256_hex "abcdbcdecdefdefgefghfghighijhijkijkljklmklmnlmnomnopnopq" =
  "248d6a61d20638b8e5c026930c3e6039a33ce45964ff2167f6ecedd419db06c1".
Proof. vm_compute. reflexivity. Qed.

Lemma round_length s kw : length (round s kw) = length s.
Proof. by do 9 (destruct s as [|? s]; [done|]). Qed.

Lemma rounds_length kws s : length (fold_left round kws s) = length s.
Proof.
  revert s. induction kws as [|kw kws IH]; intros s; [done|]. simpl. by rewrite IH, round_length.
Qed.

Lemma blocks_length fuel ws hash : length (blocks fuel ws hash) = length hash.
Proof.
  revert ws hash. induction fuel as [|fuel IH]; intros [|w ws] hash; try done.
  simpl. rewrite IH. unfold compress. rewrite length_zip_with, rounds_length. lia.
Qed.

Lemma hex_concat_length ws : String.length (String.concat "" (map hex_word ws)) = 8 * length ws.
Proof.
  induction ws as [|w ws IH]; [done|]. destruct ws as [|w' ws]; [done|].
  change (String.length (hex_word w +:+ "" +:+ String.concat "" (map hex_word (w' :: ws))) =
          8 * S (length (w' :: ws))).
  rewrite !string_length_app, IH. simpl. lia.
Qed.

(** A digest is 64 hexadecimal digits. *)
Lemma sha256_hex_length msg : String.length (sha256_hex msg) = 64.
Proof. unfold sha256_hex, digest. by rewrite hex_concat_length, blocks_length. Qed.
