(* ===== verification/Context.v ===== *)
(** * The pipeline context ([pkg/reconcile/pipeline/context/impl.go],
    [flow_ctrl.go], [api.go], [secretbackedbindings.go])

    The state the handlers share while one binding is processed, and the
    operations on it that both kinds of binding have in common.  Pointers into
    the context are indices: a service, an application, a binding item. *)

From S2P Require Import Prelude.
From S2P Require Import GoLib.
From S2P Require Import GoValue.
From S2P Require Import JsonPath.
From S2P Require Import Heap.
From S2P Require Import Kube.
From S2P Require Import Apis.
From S2P Require Import Binding.
From S2P Require Import Service.
From S2P Require Import Workload.
From S2P Require Import Application.
From S2P Require Import Sha256.

(** ** Data *)

(** [BindingItem]; the items live in a store, and a [*BindingItem] is an
    index into it.  [Source] is the index of a service. *)
Record BindingItem := { bi_Name : string; bi_Value : json; bi_Source : option nat }.

(** [EnvBinding]. *)
Record EnvBinding := { eb_Var : string; eb_Name : string }.

(** [SecretBackedBindings]; a nil [items] is [None]. *)
Record SecretBackedBindings := {
  sbb_Service : nat;
  sbb_Secret : json;
  sbb_items : option (list nat)
}.

Record flowCtrl := {
  f_retry : bool;
  f_stop : bool;
  f_err : option goerr;
  f_delay : Z
}.

(** [impl]; nil slices are empty lists, which is all the code ever asks. *)
Record impl (B : Type) := {
  i_services : list service;
  i_applications : list application;
  i_items : list BindingItem;
  i_bindingItems : list nat;
  i_bindings : list SecretBackedBindings;
  i_conditions : list (string * Condition);
  i_flow : flowCtrl;
  i_binding : B;
  i_resourceMapping : option WorkloadMapping;
  i_limiterCalls : nat
}.
Arguments i_services {B}.
Arguments i_applications {B}.
Arguments i_items {B}.
Arguments i_bindingItems {B}.
Arguments i_bindings {B}.
Arguments i_conditions {B}.
Arguments i_flow {B}.
Arguments i_binding {B}.
Arguments i_resourceMapping {B}.
Arguments i_limiterCalls {B}.

(** Everything a handler can reach. *)
Record st (W B : Type) := { st_world : W; st_heap : heap; st_ctx : impl B }.
Arguments st_world {W B}.
Arguments st_heap {W B}.
Arguments st_ctx {W B}.

Section Setters.
Context {W B : Type}.

Definition set_services (v : list service) (i : impl B) : impl B :=
  {| i_services := v; i_applications := i_applications i; i_items := i_items i;
     i_bindingItems := i_bindingItems i; i_bindings := i_bindings i; i_conditions := i_conditions i;
     i_flow := i_flow i; i_binding := i_binding i; i_resourceMapping := i_resourceMapping i;
     i_limiterCalls := i_limiterCalls i |}.
Definition set_applications (v : list application) (i : impl B) : impl B :=
  {| i_services := i_services i; i_applications := v; i_items := i_items i;
     i_bindingItems := i_bindingItems i; i_bindings := i_bindings i; i_conditions := i_conditions i;
     i_flow := i_flow i; i_binding := i_binding i; i_resourceMapping := i_resourceMapping i;
     i_limiterCalls := i_limiterCalls i |}.
Definition set_items (v : list BindingItem) (i : impl B) : impl B :=
  {| i_services := i_services i; i_applications := i_applications i; i_items := v;
     i_bindingItems := i_bindingItems i; i_bindings := i_bindings i; i_conditions := i_conditions i;
     i_flow := i_flow i; i_binding := i_binding i; i_resourceMapping := i_resourceMapping i;
     i_limiterCalls := i_limiterCalls i |}.
Definition set_bindingItems (v : list nat) (i : impl B) : impl B :=
  {| i_services := i_services i; i_applications := i_applications i; i_items := i_items i;
     i_bindingItems := v; i_bindings := i_bindings i; i_conditions := i_conditions i;
     i_flow := i_flow i; i_binding := i_binding i; i_resourceMapping := i_resourceMapping i;
     i_limiterCalls := i_limiterCalls i |}.
Definition set_bindings (v : list SecretBackedBindings) (i : impl B) : impl B :=
  {| i_services := i_services i; i_applications := i_applications i; i_items := i_items i;
     i_bindingItems := i_bindingItems i; i_bindings := v; i_conditions := i_conditions i;
     i_flow := i_flow i; i_binding := i_binding i; i_resourceMapping := i_resourceMapping i;
     i_limiterCalls := i_limiterCalls i |}.
Definition set_conditions (v : list (string * Condition)) (i : impl B) : impl B :=
  {| i_services := i_services i; i_applications := i_applications i; i_items := i_items i;
     i_bindingItems := i_bindingItems i; i_bindings := i_bindings i; i_conditions := v;
     i_flow := i_flow i; i_binding := i_binding i; i_resourceMapping := i_resourceMapping i;
     i_limiterCalls := i_limiterCalls i |}.
Definition set_flow (v : flowCtrl) (i : impl B) : impl B :=
  {| i_services := i_services i; i_applications := i_applications i; i_items := i_items i;
     i_bindingItems := i_bindingItems i; i_bindings := i_bindings i; i_conditions := i_conditions i;
     i_flow := v; i_binding := i_binding i; i_resourceMapping := i_resourceMapping i;
     i_limiterCalls := i_limiterCalls i |}.
Definition set_binding (v : B) (i : impl B) : impl B :=
  {| i_services := i_services i; i_applications := i_applications i; i_items := i_items i;
     i_bindingItems := i_bindingItems i; i_bindings := i_bindings i; i_conditions := i_conditions i;
     i_flow := i_flow i; i_binding := v; i_resourceMapping := i_resourceMapping i;
     i_limiterCalls := i_limiterCalls i |}.
Definition set_limiterCalls (v : nat) (i : impl B) : impl B :=
  {| i_services := i_services i; i_applications := i_applications i; i_items := i_items i;
     i_bindingItems := i_bindingItems i; i_bindings := i_bindings i; i_conditions := i_conditions i;
     i_flow := i_flow i; i_binding := i_binding i; i_resourceMapping := i_resourceMapping i;
     i_limiterCalls := v |}.

(** Running an operation on a part of the state. *)
Definition on_world {A} (m : M W A) : M (st W B) A :=
  zoom st_world (λ w s, {| st_world := w; st_heap := st_heap s; st_ctx := st_ctx s |}) m.
Definition on_store {A} (m : M heap A) : M (st W B) A :=
  zoom st_heap (λ h s, {| st_world := st_world s; st_heap := h; st_ctx := st_ctx s |}) m.
Definition ctx_modify (f : impl B → impl B) : M (st W B) unit :=
  mmodify (λ s, {| st_world := st_world s; st_heap := st_heap s; st_ctx := f (st_ctx s) |}).
Definition ctx_gets {A} (f : impl B → A) : M (st W B) A := mgets (λ s, f (st_ctx s)).

(** A method of the [n]-th application. *)
Definition on_app {A} (n : nat) (m : M (heap * application) A) : M (st W B) A := λ s,
  match i_applications (st_ctx s) !! n with
  | None => (Panic "index out of range", s)
  | Some a =>
      let '(r, (h, a')) := m (st_heap s, a) in
      (r, {| st_world := st_world s; st_heap := h;
             st_ctx := set_applications (<[n := a']> (i_applications (st_ctx s))) (st_ctx s) |})
  end.

(** A method of the [n]-th service. *)
Definition on_service {A} (n : nat) (m : service → M W (A * service)) : M (st W B) A :=
  ss ← ctx_gets i_services;
  match ss !! n with
  | None => mpanic "index out of range"
  | Some s =>
      r ← on_world (m s);
      _ ← ctx_modify (λ i, set_services (<[n := r.2]> (i_services i)) i);
      mret r.1
  end.
End Setters.

(** ** Flow control ([flow_ctrl.go]) *)
Definition FlowStatus {B} (i : impl B) : flowCtrl := i_flow i.

Definition RetryProcessing_flow (reason : option goerr) (f : flowCtrl) : flowCtrl :=
  {| f_retry := true; f_stop := true; f_err := reason; f_delay := 0 |}.
Definition RetryProcessingWithDelay_flow (reason : option goerr) (delay : Z) (f : flowCtrl) : flowCtrl :=
  {| f_retry := true; f_stop := match reason with Some _ => true | None => false end;
     f_err := reason; f_delay := delay |}.
Definition Error_flow (err : option goerr) (f : flowCtrl) : flowCtrl :=
  {| f_retry := f_retry f; f_stop := f_stop f; f_err := err; f_delay := f_delay f |}.
Definition StopProcessing_flow (f : flowCtrl) : flowCtrl :=
  {| f_retry := f_retry f; f_stop := true; f_err := f_err f; f_delay := f_delay f |}.

(** ** The rate limiter of label selection

    [NewMaxOfRateLimiter] of an exponential limiter (5 ms doubled per call, at
    most 2 minutes) and a bucket; [n] is the number of earlier calls.  The
    delay of the bucket depends on the clock and is a parameter. *)
Class BucketRateLimiter := bucket_delay : nat → Z.
Definition millisecond : Z := 1000000.
Definition exponential_delay (n : nat) : Z :=
  Z.min (5 * millisecond * 2 ^ Z.of_nat n) (120000 * millisecond).
Definition limiter_When `{BucketRateLimiter} (n : nat) : Z :=
  Z.max (exponential_delay n) (bucket_delay n).

(** Decoding a [ClusterWorkloadResourceMapping] from JSON text or from an
    object: its versions. *)
Class MappingDecoder := {
  unmarshal_Mapping : string → result (list ClusterWorkloadResourceMappingTemplate);
  mapping_FromUnstructured : json → result (list ClusterWorkloadResourceMappingTemplate)
}.

(** ** Operations common to both kinds ([impl.go]) *)
Section Impl.
Context {W B : Type} `{KubeAPI W} `{BindingAPI W B} `{Clock W} `{ServiceBindingKind B}.
Context `{UserInfoJSON} `{JSONPathLib} `{BucketRateLimiter} `{MappingDecoder}.

Abbreviation ctxM := (M (st W B)).

Definition RetryProcessing (reason : option goerr) : ctxM unit :=
  ctx_modify (λ i, set_flow (RetryProcessing_flow reason (i_flow i)) i).
Definition Error (err : goerr) : ctxM unit :=
  ctx_modify (λ i, set_flow (Error_flow (Some err) (i_flow i)) i).
Definition StopProcessing : ctxM unit :=
  ctx_modify (λ i, set_flow (StopProcessing_flow (i_flow i)) i).
Definition DelayReprocessing (err : option goerr) : ctxM unit :=
  ctx_modify (λ i,
    set_limiterCalls (S (i_limiterCalls i))
      (set_flow (RetryProcessingWithDelay_flow err (limiter_When (i_limiterCalls i)) (i_flow i)) i)).
Definition SetCondition (c : Condition) : ctxM unit :=
  ctx_modify (λ i, set_conditions (aset (c_type c) c (i_conditions i)) i).

Definition bindingMeta (i : impl B) : ObjectMeta := sbk_meta (i_binding i).

Definition IsRemoved (i : impl B) : bool :=
  match om_deletionTimestamp (bindingMeta i) with Some _ => true | None => false end.
Definition UnbindRequested (i : impl B) : bool :=
  match aget MappingAnnotationKey (om_annotations (bindingMeta i)) with
  | Some _ => true
  | None => IsRemoved i
  end.

(** [CleanAnnotations], the same code for both kinds. *)
Definition CleanAnnotations : ctxM bool :=
  i ← ctx_gets id;
  match aget MappingAnnotationKey (om_annotations (bindingMeta i)) with
  | Some _ =>
      _ ← ctx_modify (λ i, set_binding (sbk_set_meta (with_annotations
            (adel MappingAnnotationKey (om_annotations (bindingMeta i))) (bindingMeta i)) (i_binding i)) i);
      mret true
  | None => mret false
  end.

(** [canPerform]: without a requester everything is allowed. *)
Definition canPerform (gvr : GroupVersionResource) (name namespace verb : string) : ctxM bool :=
  i ← ctx_gets id;
  match Requester (bindingMeta i) with
  | None => mret true
  | Some userInfo =>
      r ← on_world (kube_subjectAccessReview (ui_username userInfo) (ui_groups userInfo) verb
                      namespace gvr name);
      match r with
      | Err _ => mret false
      | Ok allowed => mret allowed
      end
  end.

(** [ReadConfigMap] and [ReadSecret]. *)
Definition ReadConfigMap (namespace name : string) : ctxM (result json) :=
  ok ← canPerform configMapGVR name namespace "get";
  if (ok : bool) then on_world (kube_get configMapGVR namespace name)
  else mret (Err (EErrorf "cannot read configmap %s in namespace %s" [AStr name; AStr namespace])).
Definition ReadSecret (namespace name : string) : ctxM (result json) :=
  ok ← canPerform secretGVR name namespace "get";
  if (ok : bool) then on_world (kube_get secretGVR namespace name)
  else mret (Err (EErrorf "cannot read secret %s in namespace %s" [AStr name; AStr namespace])).

(** *** Binding items *)

(** A new [*BindingItem]. *)
Definition new_item (item : BindingItem) : ctxM nat :=
  n ← ctx_gets (λ i, length (i_items i));
  _ ← ctx_modify (λ i, set_items (i_items i ++ [item]) i);
  mret n.

Definition AddBindingItem (item : BindingItem) : ctxM unit :=
  n ← new_item item;
  ctx_modify (λ i, set_bindingItems (i_bindingItems i ++ [n]) i).

Definition AddBindings (bindings : SecretBackedBindings) : ctxM unit :=
  ctx_modify (λ i, set_bindings (i_bindings i ++ [bindings]) i).

Definition set_sbb_items (n : nat) (items : option (list nat)) : ctxM unit :=
  ctx_modify (λ i, set_bindings (alter (λ b, {| sbb_Service := sbb_Service b;
    sbb_Secret := sbb_Secret b; sbb_items := items |}) n (i_bindings i)) i).

(** The decoding loop of [SecretBackedBindings.Items]: [items] keeps what was
    decoded before an error. *)
Fixpoint decode_items (n : nat) (b : SecretBackedBindings) (data : list (string * string))
    (acc : option (list nat)) : ctxM (result (list nat)) :=
  match data with
  | [] => mret (Ok (default [] acc))
  | (k, v) :: data' =>
      match DecodeString v with
      | None => mret (Err (ENew "illegal base64 data"))
      | Some val =>
          id ← new_item {| bi_Name := k; bi_Value := JStr val; bi_Source := Some (sbb_Service b) |};
          let acc' := Some (default [] acc ++ [id]) in
          _ ← set_sbb_items n acc';
          decode_items n b data' acc'
      end
  end.

Definition Items (n : nat) : ctxM (result (list nat)) :=
  bs ← ctx_gets i_bindings;
  match bs !! n with
  | None => mpanic "index out of range"
  | Some b =>
      match sbb_items b with
      | Some items => mret (Ok items)
      | None =>
          match NestedStringMap (sbb_Secret b) ["data"] with
          | NErr e => mret (Err e)
          | NotFound => _ ← set_sbb_items n (Some []); mret (Ok [])
          | Found data => decode_items n b data None
          end
      end
  end.

(** [SecretBackedBindings.Source]: name and namespace of the secret, nil once
    an item has been renamed away from the keys of the secret. *)
Definition Source (items : list BindingItem) (b : SecretBackedBindings) : option (string * string) :=
  let ref := (GetName (sbb_Secret b), GetNamespace (sbb_Secret b)) in
  match sbb_items b with
  | None => Some ref
  | Some ids =>
      match NestedStringMap (sbb_Secret b) ["data"] with
      | Found val =>
          if forallb (λ id, match items !! id with
                            | Some item => match aget (bi_Name item) val with Some _ => true | None => false end
                            | None => true
                            end) ids
          then Some ref else None
      | _ => None
      end
  end.

(** [BindingItems]: the items of every readable secret, then the collected
    ones. *)
Fixpoint secret_items (ns : list nat) : ctxM (list (list nat)) :=
  match ns with
  | [] => mret []
  | n :: ns' =>
      r ← Items n;
      rest ← secret_items ns';
      mret (match r with Ok items => items :: rest | Err _ => rest end)
  end.

Definition BindingItems : ctxM (list nat) :=
  n ← ctx_gets (λ i, length (i_bindings i));
  all ← secret_items (seq 0 n);
  own ← ctx_gets i_bindingItems;
  mret (concat all ++ own).

(** [BindingItems.AsMap]. *)
Definition AsMap (items : list BindingItem) : list (string * string) :=
  fold_left (λ m it, aset (bi_Name it) (fmt_v (bi_Value it)) m) items [].

Definition deref_items (store : list BindingItem) (ids : list nat) : list BindingItem :=
  omap (λ id, store !! id) ids.

Definition bindingItemMap : ctxM (list (string * string)) :=
  n ← ctx_gets (λ i, length (i_bindings i));
  all ← secret_items (seq 0 n);
  i ← ctx_gets id;
  mret (fold_left (λ data ids, MergeMaps data (AsMap (deref_items (i_items i) ids)))
          (all ++ [i_bindingItems i]) []).

(** *** The binding secret *)

Definition hash_input (data : list (string * string)) : string :=
  Join (map (λ k, k +:+ default "" (aget k data)) (sort_strings data.*1)) "".

Definition hashed_name (name : string) (data : list (string * string)) : string :=
  name +:+ "-" +:+ String.substring 0 8 (sha256_hex (hash_input data)).

(** [bindingSecretName]: the name, and whether the secret exists already. *)
Definition bindingSecretName : ctxM (string * bool) :=
  i ← ctx_gets id;
  if UnbindRequested i then mret (statusSecretName (i_binding i), true)
  else
    let direct :=
      match i_bindingItems i, i_bindings i with
      | [], [b] =>
          match Source (i_items i) b with
          | Some (name, ns) => if String.eqb ns (om_namespace (bindingMeta i)) then Some name else None
          | None => None
          end
      | _, _ => None
      end in
    match direct with
    | Some name => mret (name, true)
    | None =>
        data ← bindingItemMap;
        mret (hashed_name (om_name (bindingMeta i)) data, false)
    end.

Definition BindingSecretName : ctxM string := fst <$> bindingSecretName.

(** [persistBinding]. *)
Fixpoint set_status_conditions (cs : list Condition) : ctxM unit :=
  match cs with
  | [] => mret tt
  | c :: cs' =>
      now ← on_world time_Now;
      _ ← ctx_modify (λ i, set_binding (setStatusConditions
            (SetStatusCondition now (statusConditions (i_binding i)) c) (i_binding i)) i);
      set_status_conditions cs'
  end.

Definition persistBinding : ctxM (result unit) :=
  i ← ctx_gets id;
  if String.eqb (om_uid (bindingMeta i)) "" then mret (Ok tt)
  else
    _ ← set_status_conditions (i_conditions i).*2;
    b ← ctx_gets i_binding;
    let! _ := on_world (binding_updateStatus b) in
    on_world (binding_update b).

(** The secret as [ToUnstructuredAsGVK] renders it. *)
Definition owner_json (o : OwnerReference) : json :=
  JObj [("apiVersion", JStr (or_apiVersion o)); ("kind", JStr (or_kind o)); ("name", JStr (or_name o));
        ("uid", JStr (or_uid o)); ("controller", JBool (or_controller o))].
Definition secret_json (namespace name : string) (owner : option OwnerReference)
    (data : list (string * string)) : json :=
  JObj [("metadata", JObj ([("name", JStr name); ("namespace", JStr namespace);
           ("creationTimestamp", JNil)] ++
           match owner with Some o => [("ownerReferences", JArr SliceAny [owner_json o])] | None => [] end));
        ("stringData", JObj ((λ kv, (kv.1, JStr kv.2)) <$> data));
        ("apiVersion", JStr "v1"); ("kind", JStr "Secret")].

(** [persistSecret]; the name is returned with an error as well. *)
Definition persistSecret : ctxM (string * result unit) :=
  ne ← bindingSecretName;
  let '(name, secretExist) := ne in
  if (secretExist : bool) then mret (name, Ok tt)
  else
    data ← bindingItemMap;
    match data with
    | [] => mret ("", Ok tt)
    | _ =>
        i ← ctx_gets id;
        let ns := om_namespace (bindingMeta i) in
        let owner := if String.eqb (om_uid (bindingMeta i)) "" then None
                     else Some (ownerReference (i_binding i)) in
        let u := secret_json ns name owner data in
        r ← on_world (kube_get secretGVR ns name);
        match r with
        | Err e =>
            if IsNotFound e then
              c ← on_world (kube_create secretGVR ns u);
              mret (name, match c with Ok _ => Ok tt | Err e => Err e end)
            else mret (name, Err e)
        | Ok _ =>
            c ← on_world (kube_update secretGVR ns u);
            mret (name, match c with Ok _ => Ok tt | Err e => Err e end)
        end
    end.

Definition PersistSecret : ctxM (result unit) :=
  nr ← persistSecret;
  let '(secretName, r) := nr in
  match r with
  | Err err =>
      _ ← SetCondition (cond_NotBindingReady "ErrorPersistingSecret" (Some err));
      _ ← persistBinding;
      mret (Err err)
  | Ok _ =>
      _ ← (if negb (String.eqb secretName "")
           then ctx_modify (λ i, set_binding (setStatusSecretName secretName (i_binding i)) i)
           else mret tt);
      mret (Ok tt)
  end.

(** *** Closing the context *)

(** [ToUnstructured] of a map: slices of maps become slices of interfaces, and
    a nil slice becomes nil. *)
Fixpoint normalize (j : json) : json :=
  match j with
  | JArr SliceMapNil [] => JNil
  | JArr _ l => JArr SliceAny (map normalize l)
  | JObj m => JObj (map (λ kv, (kv.1, normalize kv.2)) m)
  | _ => j
  end.

(** The update loop of [Close]. *)
Fixpoint update_applications (ns : list nat) : ctxM (result unit) :=
  match ns with
  | [] => mret (Ok tt)
  | n :: ns' =>
      apps ← ctx_gets i_applications;
      h ← mgets st_heap;
      match apps !! n with
      | None => mpanic "index out of range"
      | Some app =>
          if IsUpdated h app then
            root ← on_app n Resource;
            h ← mgets st_heap;
            i ← ctx_gets id;
            match resource_json h root with
            | None => mret (Err (ENew "cyclic object"))
            | Some j =>
                r ← on_world (kube_update (a_gvr app) (om_namespace (bindingMeta i)) (normalize j));
                match r with
                | Ok _ => update_applications ns'
                | Err err =>
                    _ ← SetCondition (cond_NotBindingReady "ApplicationUpdateError" (Some err));
                    _ ← persistBinding;
                    mret (Err err)
                end
            end
          else update_applications ns'
      end
  end.

Definition Close : ctxM (result unit) :=
  i ← ctx_gets id;
  match f_err (i_flow i) with
  | Some err =>
      _ ← SetCondition (cond_NotBindingReady "ProcessingError" (Some err));
      persistBinding
  | None =>
      let! _ := update_applications (seq 0 (length (i_applications i))) in
      _ ← SetCondition (cond_BindingReady "ApplicationsBound" None);
      persistBinding
  end.

(** *** The mapping of a workload type *)

(** The loop over the versions: an exact match ends it; the last [*] before
    that is kept. *)
Fixpoint pick_template (version : string) (vs : list ClusterWorkloadResourceMappingTemplate)
    (wildcard : ClusterWorkloadResourceMappingTemplate) :
    option ClusterWorkloadResourceMappingTemplate * ClusterWorkloadResourceMappingTemplate :=
  match vs with
  | [] => (None, wildcard)
  | t :: vs' =>
      if String.eqb (cmt_version t) version then (Some t, wildcard)
      else if String.eqb (cmt_version t) "*" then pick_template version vs' t
      else pick_template version vs' wildcard
  end.

Definition set_containers (cs : list ClusterWorkloadResourceMappingContainer)
    (t : ClusterWorkloadResourceMappingTemplate) : ClusterWorkloadResourceMappingTemplate :=
  {| cmt_version := cmt_version t; cmt_annotations := cmt_annotations t; cmt_containers := cs;
     cmt_volumes := cmt_volumes t |}.

(** What happens once the versions of the mapping are known; [fallback] is the
    default template when no mapping resource exists. *)
Definition resolve_template (version containerPath : string)
    (fallback : option ClusterWorkloadResourceMappingTemplate)
    (versions : list ClusterWorkloadResourceMappingTemplate) : ClusterWorkloadResourceMappingTemplate :=
  let '(exact, wildcard) := pick_template version versions DefaultTemplate in
  let t := match exact with
           | Some t => t
           | None => default wildcard fallback
           end in
  let t := match cmt_containers t with
           | [] => set_containers (cmt_containers DefaultTemplate) t
           | _ => t
           end in
  if String.eqb containerPath "" then t
  else
    let path := "." +:+ containerPath +:+ "[*]" in
    if existsb (λ c, negb (String.eqb path (cmc_path c))) (cmt_containers t)
    then set_containers (cmt_containers t ++ [{| cmc_path := path; cmc_name := ""; cmc_env := "";
                                                cmc_volumeMounts := "" |}]) t
    else t.

Definition WorkloadResourceTemplate (gvr : GroupVersionResource) (containerPath : string) :
    ctxM (result WorkloadMapping) :=
  i ← ctx_gets id;
  match i_resourceMapping i with
  | Some m => mret (Ok m)
  | None =>
      let mappingGVR := v1beta1.WorkloadResourceMappingGroupVersionResource in
      ok ← canPerform mappingGVR (GroupResource_String gvr) "" "get";
      if negb ok then
        mret (Err (EErrorf "Unable to retrieve ClusterWorkloadResourceMapping for type %q"
                     [AStr (GroupResource_String gvr)]))
      else
        let finish fallback versions :=
          mret (FromWorkloadResourceMappingTemplate
                  (resolve_template (gvr_version gvr) containerPath fallback versions)) in
        match aget MappingAnnotationKey (om_annotations (bindingMeta i)) with
        | Some mappingData =>
            match unmarshal_Mapping mappingData with
            | Err e => mret (Err e)
            | Ok versions => finish None versions
            end
        | None =>
            r ← on_world (kube_get mappingGVR "" (GroupResource_String gvr));
            match r with
            | Ok mappingObj =>
                match mapping_FromUnstructured mappingObj with
                | Err e => mret (Err e)
                | Ok versions => finish None versions
                end
            | Err e => if IsNotFound e then finish (Some DefaultTemplate) [] else mret (Err e)
            end
        end
  end.
End Impl.
