(* ===== verification/Kinds.v ===== *)
(** * The two kinds of binding ([context/impl.go]: [bindingImpl],
    [context/spec_binding_impl.go]: [specImpl])

    [PipelineContext] is the part of the Go interface [pipeline.Context] that
    differs between the kinds; the handlers are written against it.  The
    instances are the two implementations. *)

From S2P Require Import Prelude.
From S2P Require Import GoLib.
From S2P Require Import GoValue.
From S2P Require Import JsonPath.
From S2P Require Import Heap.
From S2P Require Import Kube.
From S2P Require Import Apis.
From S2P Require Import Binding.
From S2P Require Import Service.
From S2P Require Import Workload.
From S2P Require Import Application.
From S2P Require Import Context.

(** The services and applications returned are indices into the context. *)
Class PipelineContext (W B : Type) := {
  BindingName : B → string;
  EnvBindings : B → list EnvBinding;
  BindAsFiles : B → bool;
  NamingTemplate : B → string;
  Mappings : B → list (string * string);
  HasLabelSelector : B → bool;
  Services : M (st W B) (result (list nat));
  Applications : M (st W B) (result (list nat))
}.

Section Common.
Context {W B : Type} `{KubeAPI W} `{BindingAPI W B} `{Clock W} `{ServiceBindingKind B}.
Context `{UserInfoJSON} `{JSONPathLib} `{BucketRateLimiter} `{MappingDecoder}.

Definition add_service (s : service) : M (st W B) unit :=
  ctx_modify (λ i, set_services (i_services i ++ [s]) i).
Definition add_application (a : application) : M (st W B) unit :=
  ctx_modify (λ i, set_applications (i_applications i ++ [a]) i).
Definition all_services : M (st W B) (result (list nat)) :=
  n ← ctx_gets (λ i, length (i_services i)); mret (Ok (seq 0 n)).
Definition all_applications : M (st W B) (result (list nat)) :=
  n ← ctx_gets (λ i, length (i_applications i)); mret (Ok (seq 0 n)).

(** Reading one service: permission, resource, builder. *)
Definition read_service (gvr : GroupVersionResource) (name namespace : string) (owned : bool)
    (id : option string) : M (st W B) (result unit) :=
  ok ← canPerform gvr name namespace "get";
  if negb ok then
    mret (Err (EErrorf "cannot read service %s in namespace %s" [AStr name; AStr namespace]))
  else
    let! u := on_world (kube_get gvr namespace name) in
    let! s := on_world (builder_Build (LookOwnedResources owned NewBuilder) u
                          (match id with Some v => [service_Id v] | None => [] end)) in
    _ ← add_service s; mret (Ok tt).

(** The application part of both [Applications]: by name, then by label. *)
Definition named_application (gvr : GroupVersionResource) (name namespace : string)
    (mk : json → application) : M (st W B) (result unit) :=
  if String.eqb name "" then mret (Ok tt)
  else
    get ← canPerform gvr name namespace "get";
    if negb get then
      mret (Err (EErrorf "cannot read application %s in namespace %s" [AStr name; AStr namespace]))
    else
      update ← canPerform gvr name namespace "update";
      if negb update then
        mret (Err (EErrorf "cannot update application resource %s in namespace %s"
                     [AStr name; AStr namespace]))
      else
        r ← on_world (kube_get gvr namespace name);
        match r with
        | Err e => mret (Err (EEmptyApplications (Some e)))
        | Ok u => _ ← add_application (mk u); mret (Ok tt)
        end.

Fixpoint listed_applications (gvr : GroupVersionResource) (namespace : string)
    (mk : json → application) (items : list json) : M (st W B) (result unit) :=
  match items with
  | [] => mret (Ok tt)
  | item :: items' =>
      ok ← canPerform gvr (GetName item) namespace "update";
      if negb ok then
        mret (Err (EErrorf "cannot update application resource %s in namespace %s"
                     [AStr (GetName item); AStr namespace]))
      else
        _ ← add_application (mk item);
        listed_applications gvr namespace mk items'
  end.

Definition selected_applications (gvr : GroupVersionResource) (namespace : string)
    (selector : option LabelSelector) (mk : json → application) : M (st W B) (result unit) :=
  match selector with
  | None => mret (Ok tt)
  | Some sel =>
      ok ← canPerform gvr "" namespace "list";
      if negb ok then
        mret (Err (EErrorf "cannot read application in namespace %s" [AStr namespace]))
      else
        let! items := on_world (kube_list gvr namespace (default ∅ (ls_matchLabels sel))) in
        match items with
        | [] => mret (Err (EEmptyApplications None))
        | _ => listed_applications gvr namespace mk items
        end
  end.
End Common.

(** ** [bindingImpl] *)
Section Coreos.
Context {W : Type} `{KubeAPI W} `{BindingAPI W v1alpha1.ServiceBinding} `{Clock W}.
Context `{UserInfoJSON} `{JSONPathLib} `{BucketRateLimiter} `{MappingDecoder}.
Abbreviation sb := v1alpha1.ServiceBinding.

Fixpoint read_services (spec : v1alpha1.ServiceBindingSpec) (ns : string)
    (refs : list v1alpha1.Service) : M (st W sb) (result unit) :=
  match refs with
  | [] => mret (Ok tt)
  | serviceRef :: refs' =>
      let ref := v1alpha1.nr_ref (v1alpha1.sv_ref serviceRef) in
      let! gvr := on_world (ResourceForReferable ref) in
      let namespace := default ns (v1alpha1.nr_namespace (v1alpha1.sv_ref serviceRef)) in
      let! _ := read_service gvr (v1alpha1.r_name ref) namespace
                  (v1alpha1.sp_detectBindingResources spec) (v1alpha1.sv_id serviceRef) in
      read_services spec ns refs'
  end.

Definition bindingImpl_Services : M (st W sb) (result (list nat)) :=
  i ← ctx_gets id;
  match i_services i with
  | [] =>
      let b := i_binding i in
      let! _ := read_services (v1alpha1.sb_spec b) (om_namespace (v1alpha1.sb_objectMeta b))
                  (default [] (v1alpha1.sp_services (v1alpha1.sb_spec b))) in
      all_services
  | _ => all_services
  end.

Definition bindingImpl_Applications : M (st W sb) (result (list nat)) :=
  i ← ctx_gets id;
  match i_applications i with
  | [] =>
      let b := i_binding i in
      let app := v1alpha1.sp_application (v1alpha1.sb_spec b) in
      let ref := v1alpha1.ap_ref app in
      let ns := om_namespace (v1alpha1.sb_objectMeta b) in
      let! gvr := on_world (ResourceForReferable ref) in
      let containerPath := match v1alpha1.ap_bindingPath app with
                           | Some p => v1alpha1.bp_containersPath p
                           | None => ""
                           end in
      let! mappingTemplate := WorkloadResourceTemplate gvr containerPath in
      let mk u := {| a_gvr := gvr; a_persistedResource := u; a_resource := None;
                     a_bindingPath := v1alpha1.ap_bindingPath app; a_bindableContainerNames := [];
                     a_resourceMapping := mappingTemplate |} in
      let! _ := named_application gvr (v1alpha1.r_name ref) ns mk in
      let! _ := selected_applications gvr ns (v1alpha1.ap_labelSelector app) mk in
      all_applications
  | _ => all_applications
  end.

Definition bindingImpl_BindAsFiles (b : sb) : bool := v1alpha1.sp_bindAsFiles (v1alpha1.sb_spec b).
Definition bindingImpl_NamingTemplate (b : sb) : string := v1alpha1.NamingTemplate (v1alpha1.sb_spec b).
Definition bindingImpl_HasLabelSelector (b : sb) : bool :=
  match v1alpha1.ap_labelSelector (v1alpha1.sp_application (v1alpha1.sb_spec b)) with
  | Some _ => true
  | None => false
  end.

#[export] Instance bindingImpl : PipelineContext W sb := {|
  BindingName b :=
    if negb (String.eqb (v1alpha1.sp_name (v1alpha1.sb_spec b)) "")
    then v1alpha1.sp_name (v1alpha1.sb_spec b) else om_name (v1alpha1.sb_objectMeta b);
  EnvBindings b := [];
  BindAsFiles := bindingImpl_BindAsFiles;
  NamingTemplate := bindingImpl_NamingTemplate;
  Mappings b := fold_left (λ result m, aset (v1alpha1.map_name m) (v1alpha1.map_value m) result)
                  (default [] (v1alpha1.sp_mappings (v1alpha1.sb_spec b))) [];
  HasLabelSelector := bindingImpl_HasLabelSelector;
  Services := bindingImpl_Services;
  Applications := bindingImpl_Applications
|}.
End Coreos.

(** ** [specImpl] *)
Section Spec.
Context {W : Type} `{KubeAPI W} `{BindingAPI W v1beta1.ServiceBinding} `{Clock W}.
Context `{UserInfoJSON} `{JSONPathLib} `{BucketRateLimiter} `{MappingDecoder}.
Abbreviation sb := v1beta1.ServiceBinding.

Definition specImpl_Services : M (st W sb) (result (list nat)) :=
  i ← ctx_gets id;
  match i_services i with
  | [] =>
      let b := i_binding i in
      let serviceRef := v1beta1.sp_service (v1beta1.sb_spec b) in
      let! gvr := on_world (ResourceForReferable serviceRef) in
      let! _ := read_service gvr (v1beta1.sr_name serviceRef)
                  (om_namespace (v1beta1.sb_objectMeta b)) false None in
      all_services
  | _ => all_services
  end.

Definition specImpl_Applications : M (st W sb) (result (list nat)) :=
  i ← ctx_gets id;
  match i_applications i with
  | [] =>
      let b := i_binding i in
      let ref := v1beta1.sp_workload (v1beta1.sb_spec b) in
      let ns := om_namespace (v1beta1.sb_objectMeta b) in
      let! gvr := on_world (ResourceForReferable ref) in
      let! mappingTemplate := WorkloadResourceTemplate gvr "" in
      let mk u := {| a_gvr := gvr; a_persistedResource := u; a_resource := None;
                     a_bindingPath := None; a_bindableContainerNames := default [] (v1beta1.wl_containers ref);
                     a_resourceMapping := mappingTemplate |} in
      let! _ := named_application gvr (v1beta1.wl_name ref) ns mk in
      let! _ := selected_applications gvr ns (v1beta1.wl_selector ref) mk in
      all_applications
  | _ => all_applications
  end.

Definition specImpl_BindAsFiles (b : sb) : bool := true.
Definition specImpl_NamingTemplate (b : sb) : string := "".
Definition specImpl_Mappings (b : sb) : list (string * string) := [].
Definition specImpl_HasLabelSelector (b : sb) : bool :=
  match v1beta1.wl_selector (v1beta1.sp_workload (v1beta1.sb_spec b)) with Some _ => true | None => false end.

#[export] Instance specImpl : PipelineContext W sb := {|
  BindingName b :=
    if negb (String.eqb (v1beta1.sp_name (v1beta1.sb_spec b)) "")
    then v1beta1.sp_name (v1beta1.sb_spec b) else om_name (v1beta1.sb_objectMeta b);
  EnvBindings b := map (λ e, {| eb_Var := v1beta1.em_name e; eb_Name := v1beta1.em_key e |})
                     (default [] (v1beta1.sp_env (v1beta1.sb_spec b)));
  BindAsFiles := specImpl_BindAsFiles;
  NamingTemplate := specImpl_NamingTemplate;
  Mappings := specImpl_Mappings;
  HasLabelSelector := specImpl_HasLabelSelector;
  Services := specImpl_Services;
  Applications := specImpl_Applications
|}.
End Spec.

(** ** New contexts ([Provider] and [SpecProvider]) *)
Definition new_impl {B} (b : B) : impl B :=
  {| i_services := []; i_applications := []; i_items := []; i_bindingItems := []; i_bindings := [];
     i_conditions := []; i_flow := {| f_retry := false; f_stop := false; f_err := None; f_delay := 0 |};
     i_binding := b; i_resourceMapping := None; i_limiterCalls := 0 |}.

Definition Provider_Get (b : v1alpha1.ServiceBinding) : impl v1alpha1.ServiceBinding := new_impl b.

(** [SpecProvider] records the observed generation and adds the [type] and
    [provider] items of the spec. *)
Definition SpecProvider_Get (b : v1beta1.ServiceBinding) : impl v1beta1.ServiceBinding :=
  let gen := om_generation (v1beta1.sb_objectMeta b) in
  let b := if (gen =? 0)%Z then b else v1beta1.with_status
    {| v1beta1.ss_observedGeneration := gen;
       v1beta1.ss_conditions := v1beta1.ss_conditions (v1beta1.sb_status b);
       v1beta1.ss_binding := v1beta1.ss_binding (v1beta1.sb_status b) |} b in
  let item name v i :=
    if String.eqb v "" then i
    else set_bindingItems (i_bindingItems i ++ [length (i_items i)])
           (set_items (i_items i ++ [{| bi_Name := name; bi_Value := JStr v; bi_Source := None |}]) i) in
  item "provider" (v1beta1.sp_provider (v1beta1.sb_spec b))
    (item "type" (v1beta1.sp_type (v1beta1.sb_spec b)) (new_impl b)).
