(* ===== verification/Collect.v ===== *)
(** * Collecting binding data ([pkg/reconcile/pipeline/handler/collect],
    [handler/mapping], [handler/naming], [pkg/naming])

    The handlers that find the services, read their binding definitions and
    secrets, and turn them into named binding items. *)

From S2P Require Import Prelude.
From S2P Require Import GoLib.
From S2P Require Import GoValue.
From S2P Require Import JsonPath.
From S2P Require Import Heap.
From S2P Require Import Kube.
From S2P Require Import Apis.
From S2P Require Import Binding.
From S2P Require Import Service.
From S2P Require Import Workload.
From S2P Require Import Application.
From S2P Require Import Context.
From S2P Require Import Kinds.

Definition DataNotMap : goerr := ENew "Returned data are not a map, skip collecting".
Definition ErrorValueNotFound : goerr := ENew "Value not found in map".

Definition ErrorReadingServicesReason : string := "ErrorReadingServices".
Definition ErrorReadingCRD : string := "ErrorReadingCRD".
Definition ErrorReadingBindingReason : string := "ErrorReadingBinding".
Definition ErrorReadingSecret : string := "ErrorReadingSecret".
Definition ValueNotFound : string := "ValueNotFound".
Definition InvalidAnnotation : string := "InvalidAnnotation".
Definition StrategyError : string := "NamingStrategyError".

(** ** Owned resources: where their binding data is *)
Record pathMapping := { pm_input : string; pm_transform : bool; pm_output : string }.

(** The one transformation: decoding the values of a secret's data. *)
Fixpoint decode_values (m : list (string * json)) (acc : list (string * json)) :
    result (list (string * json)) :=
  match m with
  | [] => Ok acc
  | (k, v) :: m' =>
      match DecodeString (fmt_v v) with
      | Some b => decode_values m' (aset k (JStr b) acc)
      | None => Err (ENew "illegal base64 data")
      end
  end.
Definition secret_transform (i : json) : result json :=
  match i with
  | JObj m => let? r := decode_values m [] in Ok (JObj r)
  | _ => Err (ENew "data is not map")
  end.

Definition bindableResources : list (GroupVersionKind * pathMapping) :=
  [(gvk "" "v1" "ConfigMap", {| pm_input := "data"; pm_transform := false; pm_output := "" |});
   (gvk "" "v1" "Secret", {| pm_input := "data"; pm_transform := true; pm_output := "" |});
   (gvk "" "v1" "Service",
      {| pm_input := "spec.clusterIP"; pm_transform := false; pm_output := "clusterIP" |});
   (gvk "route.openshift.io" "v1" "Route",
      {| pm_input := "spec.host"; pm_transform := false; pm_output := "host" |})].

Definition bindableResource (k : GroupVersionKind) : option pathMapping :=
  snd <$> find (λ e, bool_decide (e.1 = k)) bindableResources.

(** ** Template engines

    [text/template] and [html/template] are third-party to the model: whether
    a text parses, and what it produces. *)
Class Templates := {
  text_Parse : string → option goerr;
  text_Execute : string → list (string * json) → result string;
  html_Parse : string → option goerr;
  html_Execute : string → json → result string
}.

Section Collect.
Context {W B : Type} `{KubeAPI W} `{BindingAPI W B} `{Clock W} `{ServiceBindingKind B}.
Context `{UserInfoJSON} `{JSONPathLib} `{BucketRateLimiter} `{MappingDecoder}.
Context `{Templates} `{PipelineContext W B}.

Abbreviation handler := (M (st W B) unit).

Definition requestRetry (reason : string) (err : goerr) : handler :=
  _ ← RetryProcessing (Some err);
  SetCondition (cond_NotCollectionReady reason (Some err)).

(** [services, _ := ctx.Services()]. *)
Definition services_or_nil : M (st W B) (list nat) :=
  r ← Services; mret (match r with Ok l => l | Err _ => [] end).

Definition service_at (n : nat) : M (st W B) service :=
  ss ← ctx_gets i_services;
  match ss !! n with Some s => mret s | None => mpanic "index out of range" end.

(** A loop over services whose body may leave the handler. *)
Definition for_services (body : nat → M (st W B) (ctl unit)) : handler :=
  ns ← services_or_nil;
  _ ← for_each ns body; mret tt.

Definition PreFlight : handler :=
  r ← Services;
  match r with
  | Err err => requestRetry ErrorReadingServicesReason err
  | Ok _ => mret tt
  end.

(** [service.CustomResourceDefinition()]: whether there is one. *)
Definition service_crd (n : nat) : M (st W B) (result bool) :=
  on_service n (λ s,
    r ← CustomResourceDefinition s;
    mret (match r with
          | Ok s' => (Ok (match s_crd s' with Some _ => true | None => false end), s')
          | Err e => (Err e, s)
          end)).

(** [crd.Resource().GetAnnotations()] of the cached CRD. *)
Definition crd_annotations (n : nat) : M (st W B) (list (string * string)) :=
  on_service n (λ s,
    match s_crd s with
    | None => mpanic "invalid memory address or nil pointer dereference"
    | Some c =>
        c' ← crd_Resource c;
        mret (GetAnnotations (crd_resource c'), with_crd (Some c') (s_crdLookup s) s)
    end).

Definition makeBindingDefinition (key value : string) : result (option (BindingDefinition unit)) :=
  Build (NewDefinitionBuilder key value tt).

(** The readers every definition of the context points to. *)
Definition ctx_readers (_ : unit) : secretConfigMapReader (st W B) :=
  {| configMapReader := ReadConfigMap; secretReader := ReadSecret |}.

Definition add_definition (n : nat) (kv : string * string) : handler :=
  match makeBindingDefinition kv.1 kv.2 with
  | Err err =>
      _ ← SetCondition (cond_NotCollectionReady InvalidAnnotation (Some
            (EErrorf "Failed to create binding definition from %v: %v: %v" [AStr kv.1; AStr kv.2; AErr err])));
      _ ← Error err;
      StopProcessing
  | Ok (Some def) => on_service n (λ s, mret (tt, AddBindingDef def s))
  | Ok None => mret tt
  end.

Definition BindingDefinitions : handler :=
  for_services (λ n,
    c ← service_crd n;
    match c with
    | Err err => _ ← requestRetry ErrorReadingCRD err; mret (Return tt)
    | Ok present =>
        crd_anns ← (if (present : bool) then crd_annotations n else mret []);
        s ← service_at n;
        let anns := MergeMaps (MergeMaps [] crd_anns) (GetAnnotations (s_resource s)) in
        _ ← for_all anns (add_definition n);
        mret Next
    end).

(** [collectItems]; a nil value at the top has no [Interface()]. *)
Fixpoint collectItems (val : json) (prefix : string) (source : nat) (k : string) : handler :=
  match val with
  | JObj m =>
      let p := prefix +:+ k +:+ "_" in
      let p := if String.eqb p "_" then "" else p in
      (fix entries (m : list (string * json)) : handler :=
         match m with
         | [] => mret tt
         | (n, JNil) :: _ =>
             _ ← SetCondition (cond_NotCollectionReady ValueNotFound (Some
                   (EErrorf "Value for key %v_%v not found" [AStr (prefix +:+ k); AStr n])));
             _ ← Error ErrorValueNotFound;
             StopProcessing
         | (n, mapVal) :: m' => _ ← collectItems mapVal p source n; entries m'
         end) m
  | JArr _ l =>
      for_all (imap pair l) (λ iv,
        AddBindingItem {| bi_Name := prefix +:+ k +:+ "_" +:+ pretty iv.1; bi_Value := iv.2;
                          bi_Source := Some source |})
  | JNil => mpanic "reflect: call of reflect.Value.Interface on zero Value"
  | v => AddBindingItem {| bi_Name := prefix +:+ k; bi_Value := v; bi_Source := Some source |}
  end.

Definition apply_definition (n : nat) (resource : json) (bd : BindingDefinition unit) :
    M (st W B) (ctl unit) :=
  r ← Apply ctx_readers bd resource;
  match r with
  | Err err => _ ← requestRetry ErrorReadingBindingReason err; mret (Return tt)
  | Ok bindingValue =>
      if NonExistingOptional bd bindingValue then mret Next
      else
        match bindingValue with
        | NilValue => _ ← requestRetry "DataNotMap" DataNotMap; mret (Return tt)
        | AnyMap m => _ ← for_all m (λ kv, collectItems kv.2 "" n kv.1); mret Next
        | StringMap m => _ ← for_all m (λ kv, collectItems (JStr kv.2) "" n kv.1); mret Next
        end
  end.

Definition collect_BindingItems : handler :=
  for_services (λ n,
    s ← service_at n;
    for_each (s_bindingDefinitions s) (apply_definition n (s_resource s))).

Definition ProvisionedService : handler :=
  for_services (λ n,
    s ← service_at n;
    let res := s_resource s in
    match NestedString res ["status"; "binding"; "name"] with
    | NErr err => _ ← requestRetry ErrorReadingBindingReason err; mret (Return tt)
    | Found secretName =>
        if String.eqb secretName "" then mret Next
        else
          r ← ReadSecret (GetNamespace res) secretName;
          match r with
          | Err err => _ ← requestRetry ErrorReadingSecret err; mret (Return tt)
          | Ok secret =>
              _ ← AddBindings {| sbb_Service := n; sbb_Secret := secret; sbb_items := None |};
              mret Next
          end
    | NotFound =>
        c ← service_crd n;
        match c with
        | Err err => _ ← requestRetry ErrorReadingCRD err; mret (Return tt)
        | Ok false => mret Next
        | Ok true =>
            anns ← crd_annotations n;
            match aget ProvisionedServiceAnnotationKey anns with
            | Some v =>
                if String.eqb v "true" then
                  _ ← requestRetry ErrorReadingBindingReason (EErrorf
                        "CRD of service %v/%v indicates provisioned service, but no secret name provided under .status.binding.name"
                        [AStr (GetNamespace res); AStr (GetName res)]);
                  mret (Return tt)
                else mret Next
            | None => mret Next
            end
        end
    end).

Definition DirectSecretReference : handler :=
  for_services (λ n,
    s ← service_at n;
    let res := s_resource s in
    if String.eqb (GetKind res) "Secret" && String.eqb (GetAPIVersion res) "v1" &&
       String.eqb (gvk_group (object_gvk res)) "" then
      if existsb (λ kv, HasPrefix kv.1 AnnotationPrefix) (GetAnnotations res) then mret (Return tt)
      else
        r ← ReadSecret (GetNamespace res) (GetName res);
        match r with
        | Err err => _ ← requestRetry ErrorReadingSecret err; mret (Return tt)
        | Ok secret =>
            _ ← AddBindings {| sbb_Service := n; sbb_Secret := secret; sbb_items := None |};
            mret Next
        end
    else mret Next).

Definition collect_owned (n : nat) (res : json) : M (st W B) (ctl unit) :=
  match bindableResource (object_gvk res) with
  | None => mret Next
  | Some pm =>
      match NestedFieldNoCopy res (Split (pm_input pm) ".") with
      | Found val =>
          match (if pm_transform pm then secret_transform val else Ok val) with
          | Err err => _ ← requestRetry ErrorReadingServicesReason err; mret (Return tt)
          | Ok val => _ ← collectItems val "" n (pm_output pm); mret Next
          end
      | _ => _ ← requestRetry ErrorReadingServicesReason (ENew "Not found"); mret (Return tt)
      end
  end.

Definition OwnedResources : handler :=
  r ← Services;
  match r with
  | Err err => requestRetry ErrorReadingServicesReason err
  | Ok ns =>
      _ ← for_each ns (λ n,
        s ← service_at n;
        r ← on_world (service_OwnedResources s);
        match r with
        | Err err => _ ← requestRetry ErrorReadingServicesReason err; mret (Return tt)
        | Ok owned => for_each owned (collect_owned n)
        end);
      mret tt
  end.

(** ** [handler/mapping/impl.go] *)
Definition template_vars : M (st W B) (list (string * json)) :=
  items ← BindingItems;
  ns ← services_or_nil;
  i ← ctx_gets id;
  let with_ids := fold_left (λ m n,
    match i_services i !! n with
    | Some s => match s_id s with Some id => aset id (s_resource s) m | None => m end
    | None => m
    end) ns [] in
  mret (fold_left (λ m it, aset (bi_Name it) (bi_Value it) m) (deref_items (i_items i) items) with_ids).

Definition mapping_Handle : handler :=
  vars ← template_vars;
  b ← ctx_gets i_binding;
  _ ← for_each (Mappings b) (λ nv,
    let fail err : M (st W B) (ctl unit) := (_ ← StopProcessing; _ ← Error err; mret (Return tt)) in
    match text_Parse nv.2 with
    | Some err => fail err
    | None =>
        match text_Execute nv.2 vars with
        | Err err => fail err
        | Ok text =>
            _ ← AddBindingItem {| bi_Name := nv.1; bi_Value := JStr text; bi_Source := None |};
            mret Next
        end
    end);
  mret tt.

(** ** [handler/naming/impl.go] and [pkg/naming/naming.go] *)
Definition TemplateError : goerr := ENew "please check the namingStrategy template provided".

Definition templateData (res : json) : json :=
  JObj [("kind", JStr (GetKind res)); ("name", JStr (GetName res))].

(** [namingTemplate]: the text of a template that parses, and the data of the
    service. *)
Record namingTemplate := { nt_template : string; nt_data : json }.

Definition NewTemplate (templateStr : string) (data : json) : result namingTemplate :=
  match html_Parse templateStr with
  | Some err => Err err
  | None => Ok {| nt_template := templateStr; nt_data := data |}
  end.

(** [GetBindingName]: every execution error is [TemplateError]. *)
Definition GetBindingName (n : namingTemplate) (bindingName : string) : result string :=
  match html_Execute (nt_template n) (JObj [("service", nt_data n); ("name", JStr bindingName)]) with
  | Ok s => Ok s
  | Err _ => Err TemplateError
  end.

Definition naming_stop (err : goerr) : handler :=
  _ ← Error err;
  _ ← StopProcessing;
  SetCondition (cond_NotCollectionReady StrategyError (Some err)).

(** [item.Name = name] through the pointer. *)
Definition set_item_name (id : nat) (name : string) : handler :=
  ctx_modify (λ i, set_items (alter (λ it, {| bi_Name := name; bi_Value := bi_Value it;
    bi_Source := bi_Source it |}) id (i_items i)) i).

Definition name_item (template : string) (id : nat) : M (st W B) (ctl unit) :=
  i ← ctx_gets (λ i, i);
  match i_items i !! id with
  | Some {| bi_Name := name; bi_Source := Some n |} =>
      s ← service_at n;
      match NewTemplate template (templateData (s_resource s)) with
      | Err err => _ ← naming_stop err; mret (Return tt)
      | Ok t =>
          match GetBindingName t name with
          | Ok name' => _ ← set_item_name id name'; mret Next
          | Err err => _ ← set_item_name id ""; _ ← naming_stop err; mret (Return tt)
          end
      end
  | _ => mret Next
  end.

Definition naming_Handle : handler :=
  items ← BindingItems;
  b ← ctx_gets i_binding;
  _ ← for_each items (name_item (NamingTemplate b));
  mret tt.
End Collect.
