(* ===== verification/Project.v ===== *)
(** * Projecting binding data into workloads
    ([pkg/reconcile/pipeline/handler/project/impl.go])

    The handlers that check what was collected, write the binding into the
    applications, and take it out again when the binding goes away. *)

From S2P Require Import Prelude.
From S2P Require Import GoLib.
From S2P Require Import GoValue.
From S2P Require Import JsonPath.
From S2P Require Import Heap.
From S2P Require Import Converter.
From S2P Require Import Kube.
From S2P Require Import Apis.
From S2P Require Import Binding.
From S2P Require Import Service.
From S2P Require Import Workload.
From S2P Require Import Application.
From S2P Require Import Context.
From S2P Require Import Kinds.

(** [unstructured.SetNestedField(obj, text, fields...)] in the store. *)
Fixpoint hSetNestedField (m : loc) (text : string) (seen fields : list string) (h : heap) :
    result unit * heap :=
  match fields with
  | [] => (Ok tt, h)
  | [field] => (Ok tt, hset m field (VStr text) h)
  | field :: fields' =>
      match aget field (cell_at h m) with
      | Some (VMap valMap) => hSetNestedField valMap text (seen ++ [field]) fields' h
      | Some _ => (Err (EErrorf "value cannot be set because %v is not a map[string]interface{}"
                          (AStr <$> (seen ++ [field]))), h)
      | None =>
          let '(newVal, h1) := halloc [] h in
          hSetNestedField newVal text (seen ++ [field]) fields' (hset m field (VMap newVal) h1)
      end
  end.

Section Project.
Context {W B : Type} `{KubeAPI W} `{BindingAPI W B} `{Clock W} `{ServiceBindingKind B}.
Context `{UserInfoJSON} `{JSONPathLib} `{BucketRateLimiter} `{MappingDecoder} `{Converter}.
Context `{PipelineContext W B}.

Abbreviation handler := (M (st W B) unit).

Definition stop (err : goerr) : handler :=
  _ ← StopProcessing;
  _ ← Error err;
  SetCondition (cond_NotInjectionReady "Error" (Some err)).

(** [applications, _ := ctx.Applications()]. *)
Definition applications_or_nil : M (st W B) (list nat) :=
  r ← Applications; mret (match r with Ok l => l | Err _ => [] end).

Definition app_at (n : nat) : M (st W B) application :=
  apps ← ctx_gets i_applications;
  match apps !! n with Some a => mret a | None => mpanic "index out of range" end.

(** [if err := m; err != nil { stop(ctx, err); return }]. *)
Definition or_stop (m : M (st W B) (result unit)) : M (st W B) (ctl unit) :=
  r ← m;
  match r with
  | Ok _ => mret Next
  | Err err => _ ← stop err; mret (Return tt)
  end.

(** Running one step after another until one leaves the handler. *)
Definition then_ (m k : M (st W B) (ctl unit)) : M (st W B) (ctl unit) :=
  c ← m; match c with Next => k | Return r => mret (Return r) end.

Definition check_mandatory (items : list (string * string)) (bk : string) : M (st W B) (ctl unit) :=
  match aget bk items with
  | Some _ => mret Next
  | None =>
      let err := EErrorf "Mandatory binding '%v' not found" [AStr bk] in
      _ ← SetCondition (cond_NotInjectionReady RequiredBindingNotFound (Some err));
      _ ← Error err;
      _ ← StopProcessing;
      mret (Return tt)
  end.

Definition PreFlightCheck (mandatoryBindingKeys : list string) : handler :=
  p ← PersistSecret;
  match p with
  | Err _ => SetCondition (cond_NotCollectionReady "" None)
  | Ok _ =>
      _ ← SetCondition (cond_CollectionReady DataCollectedReason None);
      a ← Applications;
      match a with
      | Err err =>
          _ ← RetryProcessing (Some err);
          SetCondition (cond_NotInjectionReady ApplicationNotFoundReason (Some err))
      | Ok [] =>
          _ ← SetCondition (cond_NotInjectionReady EmptyApplicationReason None);
          StopProcessing
      | Ok _ =>
          ids ← BindingItems;
          match ids with
          | [] =>
              let err := ENew "no binding data to project" in
              _ ← RetryProcessing (Some err);
              SetCondition (cond_NotInjectionReady NoBindingDataReason (Some err))
          | _ =>
              store ← ctx_gets i_items;
              _ ← for_each mandatoryBindingKeys (check_mandatory (AsMap (deref_items store ids)));
              mret tt
          end
      end
  end.

Definition PostFlightCheck : handler :=
  _ ← SetCondition (cond_InjectionReady "ApplicationUpdated" None);
  b ← ctx_gets i_binding;
  if HasLabelSelector b then DelayReprocessing None else mret tt.

Definition InjectSecretRef : handler :=
  ns ← applications_or_nil;
  _ ← for_each ns (λ n,
    app ← app_at n;
    if String.eqb (SecretPath app) "" then mret Next
    else or_stop (
      root ← on_app n Resource;
      name ← BindingSecretName;
      on_store (λ h, let '(r, h') := hSetNestedField root name [] (Split (SecretPath app) ".") h in
                     (Ret r, h'))));
  mret tt.

(** The loop over the pods of every application; [BindablePods] failing is
    fine for an application that only takes the name of the secret. *)
Definition for_pods (body : MetaPodSpec → M (st W B) (ctl unit)) : handler :=
  ns ← applications_or_nil;
  _ ← for_each ns (λ n,
    r ← on_app n BindablePods;
    match r with
    | Err err =>
        app ← app_at n;
        if negb (String.eqb (SecretPath app) "") then mret Next
        else _ ← stop err; mret (Return tt)
    | Ok pod => body pod
    end);
  mret tt.

Definition env_vars (secretName : string) (envBindings : list EnvBinding) : list EnvVar :=
  map (λ e, {| ev_name := eb_Var e; ev_value := ""; ev_secretKeyRef := Some (secretName, eb_Name e) |})
    envBindings.

Definition BindingsAsEnv : handler :=
  b ← ctx_gets i_binding;
  let envBindings := EnvBindings b in
  if BindAsFiles b && (length envBindings =? 0) then mret tt
  else
    secretName ← BindingSecretName;
    for_pods (λ pod,
      for_each (mp_Containers pod) (λ container,
        then_ (if BindAsFiles b then mret Next
               else or_stop (on_store (AddEnvFromVar container {| efs_secretRef := secretName |})))
              (or_stop (on_store (AddEnvVars container (env_vars secretName envBindings)))))).

Definition BindingsAsFiles : handler :=
  b ← ctx_gets i_binding;
  if negb (BindAsFiles b) then mret tt
  else
    secretName ← BindingSecretName;
    let bindingName := BindingName b in
    for_pods (λ pod,
      then_ (or_stop (on_store (AddVolume pod
               {| vol_name := bindingName; vol_secretName := secretName |})))
        (for_each (mp_Containers pod) (λ container,
           r ← on_store (MountPath container bindingName);
           match r with
           | Err err => _ ← stop err; mret (Return tt)
           | Ok mountPath =>
               or_stop (on_store (AddVolumeMount container
                 {| vm_name := bindingName; vm_mountPath := mountPath |}))
           end))).

(** Taking the binding out of one container: the variables of the [env] list
    by the key they refer to, the secret reference, the mount. *)
Definition unbind_container (secretName bindingName : string) (envVars : list EnvBinding)
    (container : MetaContainer) : M (st W B) (ctl unit) :=
  then_ (for_each envVars (λ env, or_stop (on_store (RemoveEnvVars container (eb_Name env)))))
  (then_ (or_stop (on_store (RemoveEnvFromVars container secretName)))
         (or_stop (on_store (RemoveVolumeMount container bindingName)))).

(** The body of the loop of [Unbind]; when [BindablePods] fails the pod is a
    nil pointer and [RemoveVolume] dereferences it. *)
Definition unbind_app (secretName bindingName : string) (envVars : list EnvBinding) (n : nat) :
    M (st W B) (ctl unit) :=
  r ← on_app n BindablePods;
  match r with
  | Err _ => mpanic "invalid memory address or nil pointer dereference"
  | Ok pod =>
      then_ (or_stop (on_store (RemoveVolume pod bindingName)))
        (for_each (mp_Containers pod) (unbind_container secretName bindingName envVars))
  end.

Definition Unbind : handler :=
  i ← ctx_gets id;
  if negb (UnbindRequested i) then mret tt
  else
    r ← Applications;
    match r with
    | Err _ | Ok [] => StopProcessing
    | Ok ns =>
        secretName ← BindingSecretName;
        let b := i_binding i in
        if String.eqb secretName "" then StopProcessing
        else
          c ← for_each ns (unbind_app secretName (BindingName b) (EnvBindings b));
          match c with
          | Return _ => mret tt
          | Next =>
              cleaned ← CleanAnnotations;
              if (cleaned : bool) then RetryProcessing None else StopProcessing
          end
    end.
End Project.
