(* ===== verification/Pipeline.v ===== *)
(** * The pipeline and the controllers
    ([pkg/reconcile/pipeline/builder/pipeline.go], [controllers/common.go])

    [Process] runs the handlers of a flow on a fresh context until one asks to
    stop, and closes the context; [Reconcile] wraps it in the finalizer
    protocol of the binding resource. *)

From S2P Require Import Prelude.
From S2P Require Import GoLib.
From S2P Require Import GoValue.
From S2P Require Import JsonPath.
From S2P Require Import Heap.
From S2P Require Import Converter.
From S2P Require Import Kube.
From S2P Require Import Apis.
From S2P Require Import Binding.
From S2P Require Import Service.
From S2P Require Import Workload.
From S2P Require Import Application.
From S2P Require Import Context.
From S2P Require Import Kinds.
From S2P Require Import Collect.
From S2P Require Import Project.

(** What [Process] returns: retry, delay and error. *)
Record processed := { p_retry : bool; p_delay : Z; p_err : option goerr }.

(** [ctrl.Result]. *)
Record ctrlResult := { Requeue : bool; RequeueAfter : Z }.

Definition panic_error (msg : string) : goerr := EErrorf "panic occurred: %v" [AStr msg].

Section Pipeline.
Context {W B : Type} `{KubeAPI W} `{BindingAPI W B} `{Clock W} `{ServiceBindingKind B}.
Context `{UserInfoJSON} `{JSONPathLib} `{BucketRateLimiter} `{MappingDecoder}.

Abbreviation handler := (M (st W B) unit).

(** [invokeHandler]: a panic of the handler becomes a retry; what it did
    before stays done. *)
Definition invokeHandler (h : handler) : handler := λ s,
  match h s with
  | (Ret u, s') => (Ret u, s')
  | (Panic e, s') => RetryProcessing (Some (panic_error e)) s'
  end.

(** The loop of [Process]: the flow status after the last handler run. *)
Fixpoint run_handlers (hs : list handler) (status : flowCtrl) : M (st W B) flowCtrl :=
  match hs with
  | [] => mret status
  | h :: hs' =>
      _ ← invokeHandler h;
      status' ← ctx_gets FlowStatus;
      if f_stop status' then mret status' else run_handlers hs' status'
  end.

Definition zero_status : flowCtrl := {| f_retry := false; f_stop := false; f_err := None; f_delay := 0 |}.

(** [Process] on a context. *)
Definition process_ctx (hs : list handler) : M (st W B) processed :=
  status ← run_handlers hs zero_status;
  r ← Close;
  match r with
  | Err err => mret {| p_retry := true; p_delay := 0; p_err := Some err |}
  | Ok _ => mret {| p_retry := f_retry status; p_delay := f_delay status; p_err := f_err status |}
  end.

(** [Process]: a fresh context for the binding, and the deferred [recover].
    The binding is mutated in place, so it is part of the result. *)
Definition Process (get : B → impl B) (hs : list handler) (b : B) (w : W) : processed * B * W :=
  match process_ctx hs {| st_world := w; st_heap := []; st_ctx := get b |} with
  | (Ret p, s) => (p, i_binding (st_ctx s), st_world s)
  | (Panic e, s) =>
      ({| p_retry := true; p_delay := 0; p_err := Some (panic_error e) |},
       i_binding (st_ctx s), st_world s)
  end.

(** [BindingReconciler.Reconcile] for the request [namespace/name]. *)
Definition Reconcile (process : B → W → processed * B * W) (namespace name : string) :
    M W (ctrlResult * option goerr) :=
  let done := {| Requeue := false; RequeueAfter := 0 |} in
  r ← binding_get namespace name;
  match r with
  | Err err => if IsNotFound err then mret (done, None) else mret (done, Some err)
  | Ok serviceBinding =>
      let deleted := match om_deletionTimestamp (sbk_meta serviceBinding) with
                     | Some _ => true | None => false end in
      let '(added, meta) := if deleted then (false, sbk_meta serviceBinding)
                            else MaybeAddFinalizer (sbk_meta serviceBinding) in
      let serviceBinding := sbk_set_meta meta serviceBinding in
      u ← (if (added : bool) then binding_update serviceBinding else mret (Ok tt));
      match u with
      | Err err => mret (done, Some err)
      | Ok _ =>
          pb ← (λ w, let '(p, b, w') := process serviceBinding w in (Ret (p, b), w'));
          let '(p, b) := pb in
          let result := {| Requeue := p_retry p; RequeueAfter := p_delay p |} in
          let finish err := mret (if p_retry p then (result, err) else (result, None)) in
          match p_err p with
          | None =>
              if negb (p_retry p) && (match om_deletionTimestamp (sbk_meta b) with
                                      | Some _ => true | None => false end) then
                let '(removed, meta') := MaybeRemoveFinalizer (sbk_meta b) in
                if (removed : bool) then
                  v ← binding_update (sbk_set_meta meta' b);
                  match v with
                  | Err err => mret (done, Some err)
                  | Ok _ => finish None
                  end
                else finish None
              else finish None
          | Some err => finish (Some err)
          end
      end
  end.
End Pipeline.

(** ** The two flows *)
Section Flows.
Context {W B : Type} `{KubeAPI W} `{BindingAPI W B} `{Clock W} `{ServiceBindingKind B}.
Context `{UserInfoJSON} `{JSONPathLib} `{BucketRateLimiter} `{MappingDecoder} `{Converter}.
Context `{Templates} `{PipelineContext W B}.

Definition defaultFlow : list (M (st W B) unit) :=
  [Unbind; PreFlight; ProvisionedService; DirectSecretReference; BindingDefinitions;
   collect_BindingItems; OwnedResources; mapping_Handle; naming_Handle; PreFlightCheck [];
   InjectSecretRef; BindingsAsEnv; BindingsAsFiles; PostFlightCheck].

Definition specFlow : list (M (st W B) unit) :=
  [Unbind; PreFlight; ProvisionedService; DirectSecretReference; BindingDefinitions;
   collect_BindingItems; PreFlightCheck ["type"]; BindingsAsEnv; BindingsAsFiles; PostFlightCheck].
End Flows.
