(* ===== verification/Webhooks.v ===== *)
(** * Admission webhooks and the mapping webhook
    ([apis/webhooks], [apis/spec/v1beta1/*_webhook.go],
    [apis/binding/v1alpha1/servicebinding_webhook.go])

    Admission records who asked for a binding; validation protects a binding
    that is ready and checks workload resource mappings; and changing a mapping
    marks the bindings it affects, so that they are unbound with the old one. *)

From S2P Require Import Prelude.
From S2P Require Import GoLib.
From S2P Require Import GoValue.
From S2P Require Import JsonPath.
From S2P Require Import Kube.
From S2P Require Import Apis.
From S2P Require Import Binding.
From S2P Require Import Service.
From S2P Require Import Workload.

(** ** The mutating webhook ([admission.go]) *)
Inductive Operation : Type := Create | Update | Delete | Connect.

(** [admission.Request] with what decoding its object gives. *)
Record Request := {
  req_UserInfo : UserInfo;
  req_Operation : Operation;
  req_Object : result json
}.

(** [admission.Response]. *)
Inductive Response : Type :=
| Allowed
| Errored (err : goerr)
| Patched (obj : json).

Definition admission_Handle `{UserInfoJSON} (serviceAccountName : string) (req : Request) : Response :=
  if String.eqb (ui_username (req_UserInfo req)) serviceAccountName then Allowed
  else
    match req_Object req with
    | Err err => Errored err
    | Ok sb =>
        match req_Operation req with
        | Create | Update =>
            Patched (SetAnnotations sb (SetRequester (GetAnnotations sb) (req_UserInfo req)))
        | _ => Allowed
        end
    end.

(** ** Validation of bindings *)
Definition name_and_selector_error : goerr :=
  ENew "name and selector MUST NOT be defined in the application reference".

Definition checkNameAndSelector (name : string) (selector : option LabelSelector) : result unit :=
  match selector with
  | Some sel =>
      match ls_matchLabels sel with
      | Some _ => if String.eqb name "" then Ok tt else Err name_and_selector_error
      | None => Ok tt
      end
  | None => Ok tt
  end.

Definition v1alpha1_check (r : v1alpha1.ServiceBinding) : result unit :=
  let app := v1alpha1.sp_application (v1alpha1.sb_spec r) in
  checkNameAndSelector (v1alpha1.r_name (v1alpha1.ap_ref app)) (v1alpha1.ap_labelSelector app).
Definition v1beta1_check (r : v1beta1.ServiceBinding) : result unit :=
  let wl := v1beta1.sp_workload (v1beta1.sb_spec r) in
  checkNameAndSelector (v1beta1.wl_name wl) (v1beta1.wl_selector wl).

Definition v1alpha1_ValidateDelete (r : v1alpha1.ServiceBinding) : result unit := Ok tt.
Definition v1alpha1_ValidateUpdate (r oldSb : v1alpha1.ServiceBinding) : result unit :=
  let? _ := CanUpdateBinding (statusConditions r) (v1alpha1.sb_spec r) (v1alpha1.sb_spec oldSb) in
  v1alpha1_check r.
Definition v1beta1_ValidateUpdate (sb oldSb : v1beta1.ServiceBinding) : result unit :=
  let? _ := CanUpdateBinding (statusConditions sb) (v1beta1.sb_spec sb) (v1beta1.sb_spec oldSb) in
  v1beta1_check sb.

(** ** Validation of workload resource mappings *)

(** [ClusterWorkloadResourceMapping]: its name and [spec.versions]. *)
Record ClusterWorkloadResourceMapping := {
  cwrm_name : string;
  cwrm_versions : list ClusterWorkloadResourceMappingTemplate
}.

(** [field.Error], with the path of the field. *)
Inductive field_error : Type :=
| FieldRequired (path : string)
| FieldInvalid (path value detail : string)
| FieldDuplicate (path value : string).

Section Validate.
Context `{JSONPathLib}.

(** The webhook's own [verifyJsonPath]: one error per node that is neither a
    field nor a list. *)
Fixpoint webhook_verifyJsonPath (n : node) (path : string) : list field_error :=
  match n with
  | NodeField _ => []
  | NodeList nodes => flat_map (λ n', webhook_verifyJsonPath n' path) nodes
  | _ => [FieldInvalid path "" "Invalid node type"]
  end.

Definition webhook_isValidRestrictedJsonPath (fieldPath path : string) : list field_error :=
  match jsonpath_Parse ("{" +:+ path +:+ "}") with
  | Err _ => [FieldInvalid fieldPath path "Unable to parse fixed JSONPath"]
  | Ok parser =>
      match webhook_verifyJsonPath (NodeList (Root parser)) fieldPath with
      | [] => []
      | _ => [FieldInvalid fieldPath path "Invalid fixed JSONPath"]
      end
  end.

Definition validateRestrictedPath (fieldPath value : string) : list field_error :=
  if String.eqb value "" then [] else webhook_isValidRestrictedJsonPath fieldPath value.

Definition container_validate (path : string) (c : ClusterWorkloadResourceMappingContainer) :
    list field_error :=
  validateRestrictedPath (path +:+ ".name") (cmc_name c) ++
  validateRestrictedPath (path +:+ ".env") (cmc_env c) ++
  validateRestrictedPath (path +:+ ".volumeMounts") (cmc_volumeMounts c) ++
  (if String.eqb (cmc_path c) "" then [FieldRequired (path +:+ ".path")]
   else match jsonpath_Parse ("{" +:+ cmc_path c +:+ "}") with
        | Err _ => [FieldInvalid (path +:+ ".path") (cmc_path c) "Invalid JSONPath"]
        | Ok _ => []
        end).

Definition template_validate (path : string) (t : ClusterWorkloadResourceMappingTemplate) :
    list field_error :=
  concat (imap (λ i c, container_validate (path +:+ ".containers[" +:+ pretty i +:+ "]") c)
            (cmt_containers t)) ++
  validateRestrictedPath (path +:+ ".volumes") (cmt_volumes t) ++
  validateRestrictedPath (path +:+ ".annotations") (cmt_annotations t).

(** The loop of [validate]; [versions] are the versions seen. *)
Fixpoint validate_versions (i : nat) (versions : list string)
    (ts : list ClusterWorkloadResourceMappingTemplate) : list field_error :=
  match ts with
  | [] => []
  | t :: ts' =>
      let childPath := "spec.versions[" +:+ pretty i +:+ "]" in
      (if String.eqb (cmt_version t) "" then [FieldRequired (childPath +:+ ".version")]
       else if blank (cmt_version t)
       then [FieldInvalid (childPath +:+ ".version") (cmt_version t) "Whitespace-only version field forbidden"]
       else if existsb (String.eqb (cmt_version t)) versions
       then [FieldDuplicate childPath (cmt_version t)] else []) ++
      template_validate childPath t ++
      validate_versions (S i) (cmt_version t :: versions) ts'
  end.

(** [validate]: no error is a nil aggregate. *)
Definition validate (m : ClusterWorkloadResourceMapping) : list field_error :=
  validate_versions 0 [] (cwrm_versions m).

Definition AcceptsGVR (mapping : ClusterWorkloadResourceMapping) (gvr : GroupVersionResource) : bool :=
  let expectedName := gvr_resource gvr +:+ "." +:+ gvr_group gvr in
  String.eqb (cwrm_name mapping) expectedName &&
  existsb (λ v, String.eqb (cmt_version v) (gvr_version gvr) || String.eqb (cmt_version v) "*")
    (cwrm_versions mapping).
End Validate.

(** ** Marking the bindings a mapping affects ([validator.go]) *)

(** [json.Marshal] of a mapping and the typed view of a binding object. *)
Class BindingDecoder := {
  marshal_Mapping : ClusterWorkloadResourceMapping → result string;
  v1beta1_FromUnstructured : json → result v1beta1.ServiceBinding;
  v1alpha1_FromUnstructured : json → result v1alpha1.ServiceBinding
}.

Section Serialize.
Context {W : Type} `{KubeAPI W} `{BindingDecoder} `{JSONPathLib}.

(** Adds the annotation to one binding and updates it. *)
Definition mark_binding (gvr : GroupVersionResource) (namespace serialized : string) (binding : json) :
    M W (result unit) :=
  let annotations := aset MappingAnnotationKey serialized (GetAnnotations binding) in
  let! _ := kube_update gvr namespace (SetAnnotations binding annotations) in
  mret (Ok tt).

Fixpoint mark_v1beta1 (mapping : ClusterWorkloadResourceMapping) (serialized : string)
    (items : list json) : M W (result unit) :=
  match items with
  | [] => mret (Ok tt)
  | binding :: items' =>
      match v1beta1_FromUnstructured binding with
      | Err e => mret (Err e)
      | Ok sb =>
          let wl := v1beta1.sp_workload (v1beta1.sb_spec sb) in
          let! workloadGVR :=
            ResourceForKind (FromAPIVersionAndKind (v1beta1.wl_apiVersion wl) (v1beta1.wl_kind wl)) in
          if negb (AcceptsGVR mapping workloadGVR) then mark_v1beta1 mapping serialized items'
          else
            let! _ := mark_binding v1beta1.GroupVersionResource
                        (om_namespace (v1beta1.sb_objectMeta sb)) serialized binding in
            mark_v1beta1 mapping serialized items'
      end
  end.

(** A reference with neither kind nor resource leaves a nil pointer. *)
Definition v1alpha1_workloadGVR (ref : v1alpha1.Ref) : M W (result GroupVersionResource) :=
  match ref_gvk ref with
  | Ok gvk => ResourceForKind gvk
  | Err _ =>
      match ref_gvr ref with
      | Ok gvr => mret (Ok gvr)
      | Err _ => mpanic "invalid memory address or nil pointer dereference"
      end
  end.

Fixpoint mark_v1alpha1 (mapping : ClusterWorkloadResourceMapping) (serialized : string)
    (items : list json) : M W (result unit) :=
  match items with
  | [] => mret (Ok tt)
  | binding :: items' =>
      match v1alpha1_FromUnstructured binding with
      | Err e => mret (Err e)
      | Ok sb =>
          let! workloadGVR :=
            v1alpha1_workloadGVR (v1alpha1.ap_ref (v1alpha1.sp_application (v1alpha1.sb_spec sb))) in
          if negb (AcceptsGVR mapping workloadGVR) then mark_v1alpha1 mapping serialized items'
          else
            let! _ := mark_binding v1alpha1.GroupVersionResource
                        (om_namespace (v1alpha1.sb_objectMeta sb)) serialized binding in
            mark_v1alpha1 mapping serialized items'
      end
  end.

Definition Serialize (mapping : ClusterWorkloadResourceMapping) : M W (result unit) :=
  match marshal_Mapping mapping with
  | Err e => mret (Err e)
  | Ok serialized =>
      let! data := kube_list v1beta1.GroupVersionResource "" ∅ in
      let! _ := mark_v1beta1 mapping serialized data in
      let! data := kube_list v1alpha1.GroupVersionResource "" ∅ in
      mark_v1alpha1 mapping serialized data
  end.

(** [MappingValidator.ValidateCreate] and [ValidateDelete]. *)
Definition validator_ValidateCreate (mapping : ClusterWorkloadResourceMapping) : list field_error :=
  validate mapping.
Definition validator_ValidateDelete (mapping : ClusterWorkloadResourceMapping) : list field_error := [].

(** [MappingValidator.ValidateUpdate]: the errors of the new mapping, or the
    result of marking with the old one. *)
Definition validator_ValidateUpdate (oldMapping mapping : ClusterWorkloadResourceMapping) :
    M W (list field_error + result unit) :=
  match validate mapping with
  | [] => inr <$> Serialize oldMapping
  | errs => mret (inl errs)
  end.
End Serialize.
