(* ===== verification/CrdController.v ===== *)
(** * The CRD controller and OLM descriptors
    ([controllers/crd/crd_controller.go],
    [pkg/reconcile/pipeline/crddescription.go])

    The CRD controller keeps the list of bindable kinds and annotates the CRDs
    the registry knows.  [BindingAnnotations] turns the descriptors of an OLM
    CRD description into binding annotations. *)

From S2P Require Import Prelude.
From S2P Require Import GoLib.
From S2P Require Import GoValue.
From S2P Require Import JsonPath.
From S2P Require Import Kube.
From S2P Require Import Binding.
From S2P Require Import Service.

(** ** The controller *)

(** [CustomResourceDefinition] as the controller uses it; [crdo_object] is its
    unstructured form with the annotations below. *)
Record CRDObject := {
  crdo_group : string;
  crdo_kind : string;
  crdo_versions : list (string * bool);
  crdo_deleted : bool;
  crdo_annotations : list (string * string);
  crdo_object : json
}.

Definition crdo_annotate (anns : list (string * string)) (c : CRDObject) : CRDObject :=
  {| crdo_group := crdo_group c; crdo_kind := crdo_kind c; crdo_versions := crdo_versions c;
     crdo_deleted := crdo_deleted c; crdo_annotations := anns;
     crdo_object := SetAnnotations (crdo_object c) anns |}.

(** [BindableKinds]: its UID and status. *)
Record BindableKinds := { bk_uid : string; bk_status : list GroupVersionKind }.

(** The typed calls of the controller. *)
Class CRDControllerAPI (W : Type) := {
  crd_get : string → M W (result CRDObject);
  crd_update : CRDObject → M W (result unit);
  bindableKinds_get : M W (result BindableKinds);
  bindableKinds_create : BindableKinds → M W (result unit);
  bindableKinds_update : BindableKinds → M W (result unit)
}.

Section Controller.
Context {W : Type} `{KubeAPI W} `{CRDControllerAPI W} `{JSONPathLib}.

(** The state of the reconciler: the world and [bindableKinds], a set. *)
Abbreviation crdM := (M (W * list GroupVersionKind)).

Definition on_api {A} (m : M W A) : crdM A := zoom fst (λ w s, (w, s.2)) m.
Definition kinds_Delete (k : GroupVersionKind) : crdM unit :=
  mmodify (λ s, (s.1, filter (λ k', k' ≠ k) s.2)).
Definition kinds_Store (k : GroupVersionKind) : crdM unit :=
  mmodify (λ s, (s.1, if decide (k ∈ s.2) then s.2 else s.2 ++ [k])).

(** The object made up for a version of the CRD. *)
Definition fake_service (k : GroupVersionKind) : json :=
  JObj [("metadata", JObj [("name", JStr "s1")]);
        ("apiVersion", JStr (if String.eqb (gvk_group k) "" then gvk_version k
                             else gvk_group k +:+ "/" +:+ gvk_version k));
        ("kind", JStr (gvk_kind k))].

(** The loop over the versions: whether to persist, and the CRD afterwards. *)
Fixpoint crd_versions (vs : list (string * bool)) (crd : CRDObject) (toPersist : bool) :
    crdM (result bool) :=
  match vs with
  | [] => mret (Ok toPersist)
  | (name, served) :: vs' =>
      let k := {| gvk_group := crdo_group crd; gvk_version := name; gvk_kind := crdo_kind crd |} in
      if negb served then crd_versions vs' crd toPersist
      else if crdo_deleted crd then _ ← kinds_Delete k; crd_versions vs' crd true
      else
        let! s := on_api (builder_Build NewBuilder (fake_service k)
                            [CrdReaderOption (FixedCrdReader (crdo_object crd))]) in
        let! b := on_api (service_IsBindable s) in
        if (b.1 : bool) then _ ← kinds_Store k; crd_versions vs' crd true
        else
          match registry_GetAnnotations k with
          | None => crd_versions vs' crd toPersist
          | Some annotations =>
              let crd' := crdo_annotate (MergeMaps (crdo_annotations crd) annotations) crd in
              let! _ := on_api (crd_update crd') in
              crd_versions vs' crd' toPersist
          end
  end.

(** [CrdReconciler.Reconcile] without its [recover]. *)
Definition crd_reconcile (name : string) : crdM (result unit) :=
  r ← on_api (crd_get name);
  match r with
  | Err e => if IsNotFound e then mret (Ok tt) else mret (Err e)
  | Ok crd =>
      let! toPersist := crd_versions (crdo_versions crd) crd false in
      if negb toPersist then mret (Ok tt)
      else
        b ← on_api bindableKinds_get;
        let write uid : crdM (result unit) :=
          (ks ← mgets snd;
           if String.eqb uid "" then on_api (bindableKinds_create {| bk_uid := ""; bk_status := ks |})
           else on_api (bindableKinds_update {| bk_uid := uid; bk_status := ks |})) in
        match b with
        | Err e => if IsNotFound e then write "" else mret (Err e)
        | Ok bk => write (bk_uid bk)
        end
  end.

Definition crd_Reconcile (name : string) : crdM (result unit) := λ s,
  match crd_reconcile name s with
  | (Ret r, s') => (Ret r, s')
  | (Panic e, s') => (Ret (Err (EErrorf "panic occurred: %v" [AStr e])), s')
  end.
End Controller.

(** ** [crddescription.go] *)

(** A status or spec descriptor: its path and [XDescriptors]. *)
Record Descriptor := { ds_path : string; ds_x : list string }.
Record CRDDescription := { cd_status : list Descriptor; cd_spec : list Descriptor }.

Definition typeAnno : string := "urn:alm:descriptor:io.kubernetes:".

Definition getObjectType (descriptors : list string) : string :=
  match find (λ d, HasPrefix d typeAnno) descriptors with
  | Some d => TrimPrefix d typeAnno
  | None => ""
  end.

(** [loadDescriptor]: the annotations afterwards. *)
Definition loadDescriptor (anns : list (string * string)) (path descriptor root objectType : string) :
    list (string * string) :=
  if negb (HasPrefix descriptor AnnotationPrefix) then anns
  else
    let keys := Split descriptor ":" in
    let key := AnnotationPrefix +:+ "/" +:+ match keys with _ :: k :: _ => k | _ => path end in
    let p := ["path={." +:+ root +:+ "." +:+ path +:+ "}"] ++ drop 2 keys ++
             (if String.eqb objectType "" then [] else ["objectType=" +:+ objectType]) in
    aset key (Join p ",") anns.

Definition load_all (root : string) (anns : list (string * string)) (ds : list Descriptor) :
    list (string * string) :=
  fold_left (λ anns sd,
    fold_left (λ anns xd, loadDescriptor anns (ds_path sd) xd root (getObjectType (ds_x sd))) (ds_x sd) anns)
    ds anns.

Definition BindingAnnotations (d : CRDDescription) : list (string * string) :=
  load_all "spec" (load_all "status" [] (cd_status d)) (cd_spec d).
