(* ===== verification/Cluster.v ===== *)
(** * A cluster in memory

    Concrete instances of every parameter of the development: an API server
    that stores objects in a list, a template parser for dotted paths, codecs
    for the annotations.  The witnesses and the example runs of the reconciler
    evaluate in it. *)

From S2P Require Import Prelude.
From S2P Require Import GoLib.
From S2P Require Import GoValue.
From S2P Require Import JsonPath.
From S2P Require Import Heap.
From S2P Require Import Converter.
From S2P Require Import Kube.
From S2P Require Import Apis.
From S2P Require Import Workload.
From S2P Require Import Context.
From S2P Require Import Collect.

(** ** Dotted paths: [{.a.b[*].c}] *)
Definition any_param : ParamsEntry := {| p_value := 0; p_known := false; p_derived := false |}.

(** The text before a trailing [[*]]. *)
Fixpoint strip_all (s : string) : option string :=
  match s with
  | "[*]" => Some ""
  | EmptyString => None
  | String a s' => String a <$> strip_all s'
  end.

Fixpoint strip_brace (s : string) : option string :=
  match s with
  | "}" => Some ""
  | EmptyString => None
  | String a s' => String a <$> strip_brace s'
  end.

Definition component_nodes (c : string) : option (list node) :=
  if String.eqb c "" then None
  else match strip_all c with
       | Some f => Some [NodeField f; NodeArray any_param any_param any_param]
       | None => Some [NodeField c]
       end.

Definition dotted_parse (s : string) : result JSONPath :=
  let err := Err (ENew "unsupported template") in
  match s with
  | String "{" (String "." s') =>
      match strip_brace s' with
      | Some path =>
          match mapM component_nodes (Split path ".") with
          | Some nss => Ok (Template [NodeList (concat nss)])
          | None => err
          end
      | None => err
      end
  | _ => err
  end.

#[export] Instance dotted_lib : JSONPathLib := {|
  jsonpath_Parse := dotted_parse;
  find_opaque V _ _ _ := Err (ENew "unsupported template");
  print_container _ := Err (ENew "unsupported value")
|}.

#[export] Instance dotted_laws : JSONPathLaws.
Proof. done. Qed.

(** ** Codecs *)

(** A user as text: the name and the groups in base64, separated by commas. *)
#[export] Instance user_codec : UserInfoJSON := {|
  marshal_UserInfo u := Join (EncodeToString <$> ui_username u :: ui_groups u) ",";
  unmarshal_UserInfo s := match mapM DecodeString (Split s ",") with
                          | Some (u :: gs) => Ok {| ui_username := u; ui_groups := gs |}
                          | _ => Err (ENew "unexpected end of JSON input")
                          end
|}.

Lemma enc6_not_comma s : Ascii.eqb (enc6 s) ","%char = false.
Proof. destruct s as [[[[] []] []] [[[] []] []]]; by vm_compute. Qed.

Lemma encoded_no_comma s : Count (EncodeToString s) "," = 0.
Proof.
  induction s as [|x|x y|x y z s IH] using string_ind3; cbn [EncodeToString]; [done|..];
    destruct (sextets _ _ _) as [[[? ?] ?] ?]; cbn [Count];
    by rewrite ?(Ascii.eqb_sym ","), ?enc6_not_comma, ?IH.
Qed.

Lemma user_codec_law (u : UserInfo) : unmarshal_UserInfo (marshal_UserInfo u) = Ok u.
Proof.
  cbn [unmarshal_UserInfo marshal_UserInfo user_codec].
  change "," with (String ","%char EmptyString). rewrite Split_Join; [|done|].
  - assert (mapM DecodeString (EncodeToString <$> ui_username u :: ui_groups u) =
      Some (ui_username u :: ui_groups u)) as ->.
    { apply mapM_Some, Forall2_fmap_l, Forall_Forall2_diag, Forall_true. apply DecodeString_encode. }
    by destruct u.
  - apply Forall_fmap, Forall_forall. intros x _. apply encoded_no_comma.
Qed.

#[export] Instance no_bucket : BucketRateLimiter := λ _, 0%Z.

#[export] Instance no_mappings : MappingDecoder := {|
  unmarshal_Mapping _ := Ok [];
  mapping_FromUnstructured _ := Ok []
|}.

#[export] Instance any_object : Converter := λ _ _, None.

(** Templates without actions. *)
#[export] Instance literal_templates : Templates := {|
  text_Parse _ := None;
  text_Execute t _ := Ok t;
  html_Parse _ := None;
  html_Execute t d := if String.eqb t "{{ .name }}" then Ok (getNestedString d ["name"]) else Ok t
|}.

(** ** The API server

    [cl_denied] are the users and verbs that are refused, for all resources or
    for one; the operator itself is the user without a name.  The user [eve] is refused everything. *)
Record cluster (B : Type) := {
  cl_objects : list (GroupVersionResource * string * string * json);
  cl_kinds : list (GroupVersionKind * GroupVersionResource);
  cl_denied : list (string * string);
  cl_now : Z;
  cl_bindings : list B;
  cl_writes : list (string * GroupVersionResource * string * json)
}.
Arguments cl_objects {B}.
Arguments cl_kinds {B}.
Arguments cl_denied {B}.
Arguments cl_now {B}.
Arguments cl_bindings {B}.
Arguments cl_writes {B}.

#[export] Instance GroupVersionResource_eq_dec : EqDecision GroupVersionResource.
Proof. solve_decision. Defined.
#[export] Instance GVK_eq_dec : EqDecision GroupVersionKind.
Proof. solve_decision. Defined.

Section Server.
Context {B : Type} `{ServiceBindingKind B}.

Definition object_key (gvr : GroupVersionResource) (ns name : string)
    (o : GroupVersionResource * string * string * json) : bool :=
  bool_decide (o.1 = (gvr, ns, name)).

Definition cl_set_objects (os : list (GroupVersionResource * string * string * json))
    (log : list (string * GroupVersionResource * string * json)) (c : cluster B) : cluster B :=
  {| cl_objects := os; cl_kinds := cl_kinds c; cl_denied := cl_denied c; cl_now := cl_now c;
     cl_bindings := cl_bindings c; cl_writes := cl_writes c ++ log |}.
Definition cl_set_bindings (bs : list B) (c : cluster B) : cluster B :=
  {| cl_objects := cl_objects c; cl_kinds := cl_kinds c; cl_denied := cl_denied c; cl_now := cl_now c;
     cl_bindings := bs; cl_writes := cl_writes c |}.

Definition srv_get (gvr : GroupVersionResource) (ns name : string) : M (cluster B) (result json) :=
  mgets (λ c, match find (λ o, object_key gvr ns name o && String.eqb (GetName o.2) name) (cl_objects c) with
              | Some o => Ok o.2
              | None => Err (EAPI true name)
              end).

Definition srv_create (gvr : GroupVersionResource) (ns : string) (o : json) :
    M (cluster B) (result json) := λ c,
  if bool_decide (("", "create") ∈ cl_denied c) then (Ret (Err (EAPI false "forbidden")), c)
  else (Ret (Ok o), cl_set_objects (cl_objects c ++ [(gvr, ns, GetName o, o)]) [("create", gvr, ns, o)] c).

Definition srv_update (gvr : GroupVersionResource) (ns : string) (o : json) :
    M (cluster B) (result json) := λ c,
  if existsb (object_key gvr ns (GetName o)) (cl_objects c)
  then (Ret (Ok o), cl_set_objects
          (map (λ x, if object_key gvr ns (GetName o) x then (gvr, ns, GetName o, o) else x)
             (cl_objects c)) [("update", gvr, ns, o)] c)
  else (Ret (Err (EAPI true (GetName o))), c).

(** Label selectors are compared with the labels of the object. *)
Definition labels_match (sel : gmap string string) (o : json) : bool :=
  match NestedStringMap o ["metadata"; "labels"] with
  | Found ls => forallb (λ kv, match aget kv.1 ls with
                               | Some v => String.eqb v kv.2 | None => false end) (map_to_list sel)
  | _ => bool_decide (sel = ∅)
  end.

#[export] Instance server : KubeAPI (cluster B) := {|
  kube_get := srv_get;
  kube_list gvr ns sel := mgets (λ c, Ok (omap (λ o,
    if bool_decide (o.1.1 = (gvr, ns)) && labels_match sel o.2 then Some o.2 else None) (cl_objects c)));
  kube_create := srv_create;
  kube_update := srv_update;
  kube_subjectAccessReview user groups verb ns gvr name :=
    mgets (λ c, Ok (negb (String.eqb user "eve") && negb (bool_decide ((user, verb) ∈ cl_denied c)) &&
                    negb (bool_decide ((user, verb +:+ " " +:+ gvr_resource gvr) ∈ cl_denied c))));
  kube_resourceForKind k := mgets (λ c,
    match find (λ e, bool_decide (e.1 = k)) (cl_kinds c) with
    | Some e => Ok e.2
    | None => Err (EAPI true (gvk_kind k))
    end);
  kube_kindForResource r := mgets (λ c,
    match find (λ e, bool_decide (e.2 = r)) (cl_kinds c) with
    | Some e => Ok e.1
    | None => Err (EAPI true (gvr_resource r))
    end)
|}.

Definition same_binding (b b' : B) : bool :=
  String.eqb (om_namespace (sbk_meta b)) (om_namespace (sbk_meta b')) &&
  String.eqb (om_name (sbk_meta b)) (om_name (sbk_meta b')).

Definition store_binding (b : B) : M (cluster B) (result unit) := λ c,
  if existsb (same_binding b) (cl_bindings c)
  then (Ret (Ok tt), cl_set_bindings
          (map (λ x, if same_binding b x then b else x) (cl_bindings c)) c)
  else (Ret (Err (EAPI true (om_name (sbk_meta b)))), c).

#[export] Instance bindings_server : BindingAPI (cluster B) B := {|
  binding_get ns name := mgets (λ c,
    match find (λ b, String.eqb (om_namespace (sbk_meta b)) ns &&
                     String.eqb (om_name (sbk_meta b)) name) (cl_bindings c) with
    | Some b => Ok b
    | None => Err (EAPI true name)
    end);
  binding_update := store_binding;
  binding_updateStatus := store_binding
|}.

#[export] Instance server_clock : Clock (cluster B) := mgets cl_now.
End Server.

(** ** A binding to process: a database service that is a provisioned service,
    a deployment, and the spec binding between them *)
Definition deploymentGVR : GroupVersionResource :=
  {| gvr_group := "apps"; gvr_version := "v1"; gvr_resource := "deployments" |}.
Definition databaseGVR : GroupVersionResource :=
  {| gvr_group := "example.com"; gvr_version := "v1"; gvr_resource := "databases" |}.

Definition demo_workload : json :=
  JObj [("apiVersion", JStr "apps/v1"); ("kind", JStr "Deployment");
        ("metadata", JObj [("name", JStr "web"); ("namespace", JStr "ns")]);
        ("spec", JObj [("template", JObj [("spec", JObj
          [("containers", JArr SliceAny [JObj [("name", JStr "app"); ("image", JStr "img")]])])])])].

Definition demo_service : json :=
  JObj [("apiVersion", JStr "example.com/v1"); ("kind", JStr "Database");
        ("metadata", JObj [("name", JStr "db"); ("namespace", JStr "ns"); ("uid", JStr "u-db")]);
        ("status", JObj [("binding", JObj [("name", JStr "db-secret")])])].

Definition demo_secret : json :=
  JObj [("apiVersion", JStr "v1"); ("kind", JStr "Secret");
        ("metadata", JObj [("name", JStr "db-secret"); ("namespace", JStr "ns")]);
        ("data", JObj [("password", JStr (EncodeToString "hunter2"));
                       ("type", JStr (EncodeToString "postgresql"))])].

Definition demo_meta (annotations : list (string * string)) (finalizers : list string)
    (deleted : option Z) : ObjectMeta :=
  {| om_name := "binding"; om_namespace := "ns"; om_uid := "u-1"; om_generation := 1;
     om_annotations := annotations; om_finalizers := finalizers; om_deletionTimestamp := deleted |}.

Definition demo_spec (env : list v1beta1.EnvMapping) : v1beta1.ServiceBindingSpec :=
  {| v1beta1.sp_name := "db"; v1beta1.sp_type := ""; v1beta1.sp_provider := "";
     v1beta1.sp_workload := {| v1beta1.wl_apiVersion := "apps/v1"; v1beta1.wl_kind := "Deployment";
       v1beta1.wl_name := "web"; v1beta1.wl_selector := None; v1beta1.wl_containers := None |};
     v1beta1.sp_service := {| v1beta1.sr_apiVersion := "example.com/v1"; v1beta1.sr_kind := "Database";
       v1beta1.sr_name := "db" |};
     v1beta1.sp_env := Some env |}.

Definition demo_binding (meta : ObjectMeta) (env : list v1beta1.EnvMapping) (secret : option string) :
    v1beta1.ServiceBinding :=
  {| v1beta1.sb_kind := "ServiceBinding"; v1beta1.sb_apiVersion := "servicebinding.io/v1beta1";
     v1beta1.sb_objectMeta := meta; v1beta1.sb_spec := demo_spec env;
     v1beta1.sb_status := {| v1beta1.ss_observedGeneration := 0; v1beta1.ss_conditions := [];
                             v1beta1.ss_binding := secret |} |}.

Definition demo_cluster (workload : json) (bindings : list v1beta1.ServiceBinding) :
    cluster v1beta1.ServiceBinding :=
  {| cl_objects := [(deploymentGVR, "ns", "web", workload); (databaseGVR, "ns", "db", demo_service);
                    (secretGVR, "ns", "db-secret", demo_secret)];
     cl_kinds := [({| gvk_group := "apps"; gvk_version := "v1"; gvk_kind := "Deployment" |}, deploymentGVR);
                  ({| gvk_group := "example.com"; gvk_version := "v1"; gvk_kind := "Database" |}, databaseGVR)];
     cl_denied := []; cl_now := 100; cl_bindings := bindings; cl_writes := [] |}.
