(* ===== verification/BindingSpec.v ===== *)
(** * What the binding definitions guarantee

    Theorems about [Binding]: the annotation value parser, the recognition of
    annotation names, and the data each kind of definition produces. *)

From S2P Require Import Prelude.
From S2P Require Import GoLib.
From S2P Require Import GoValue.
From S2P Require Import JsonPath.
From S2P Require Import Kube.
From S2P Require Import Apis.
From S2P Require Import Binding.
From S2P Require Import Cluster.

(** ** The annotation value *)



Lemma kv_prefix k v : HasPrefix (k +:+ "=" +:+ v) (k +:+ "=") = true.
Proof. apply HasPrefix_spec. exists v. by rewrite string_app_assoc. Qed.

Lemma kv_drop k v : drop_str (String.length (k +:+ "=")) (k +:+ "=" +:+ v) = v.
Proof. by rewrite <- string_app_assoc, drop_str_app. Qed.

(** A [key=value] part sets exactly its key. *)
Lemma raw_entry_key k v raw : k ∈ keys → raw_entry raw (k +:+ "=" +:+ v) = aset k v raw.
Proof.
  intros Hk. unfold raw_entry, keys in *.
  repeat (apply elem_of_cons in Hk as [->|Hk]); [..|by apply elem_of_nil in Hk];
    cbn [fold_left]; rewrite kv_prefix, kv_drop;
    repeat match goal with
    | |- context [HasPrefix ?a ?b] => change (HasPrefix a b) with false; cbv iota
    end; done.
Qed.

(** The text of a model, every key given. *)
Definition render_bool (b : bool) : string := if b then "true" else "false".
Definition render_parts (m : model) : list (string * string) :=
  [(pathModelKey, m_path m); (objectTypeModelKey, m_objectType m);
   (elementTypeModelKey, m_elementType m); (sourceKeyModelKey, m_sourceKey m);
   (sourceValueModelKey, m_sourceValue m); (optionalKey, render_bool (m_optional m))].
Definition render (m : model) : string :=
  Join (map (λ kv, kv.1 +:+ "=" +:+ kv.2) (render_parts m)) ",".

(** What a parsed model satisfies. *)
Definition model_ok (m : model) : bool :=
  negb (Count (m_path m) "{" =? 0) && (Count (m_path m) "{" =? Count (m_path m) "}") &&
  negb (String.eqb (m_objectType m) "") && String.eqb (m_value m) "" &&
  negb (isSliceOfMapsElementType m &&
        (String.eqb (m_sourceValue m) "" || String.eqb (m_sourceKey m) "")).

Lemma raw_entries_parts parts raw :
  Forall (λ kv, kv.1 ∈ keys) parts →
  fold_left raw_entry (map (λ kv, kv.1 +:+ "=" +:+ kv.2) parts) raw =
  fold_left (λ raw kv, aset kv.1 kv.2 raw) parts raw.
Proof.
  intros HF. revert raw. induction HF as [|[k v] parts Hk _ IH]; intros raw; [done|].
  cbn [map fold_left fst snd]. by rewrite raw_entry_key, IH.
Qed.

(** C27: printing a model as an annotation value and parsing it gives the model
    back, for every well-formed model whose fields have no comma. *)
Theorem newModel_render (m : model) :
  model_ok m = true → Forall (λ kv, Count kv.2 "," = 0) (render_parts m) →
  newModel (render m) = Ok m.
Proof.
  intros Hok Hc.
  assert (raw_entries (render m) = render_parts m) as Hraw.
  { unfold raw_entries, render. change "," with (String ","%char EmptyString).
    rewrite Split_Join; [|done|].
    - rewrite raw_entries_parts; [done|]. unfold keys. repeat constructor; set_solver.
    - unfold render_parts in *. repeat (apply Forall_cons in Hc as [? Hc]); cbn [snd] in *.
      cbn [map fst snd].
      repeat (apply Forall_cons; split; [rewrite !Count_app; cbn; lia|]). constructor. }
  unfold newModel. rewrite Hraw. destruct m as [p e o k v va b]. unfold model_ok in Hok. simpl in *.
  rewrite !andb_true_iff, !negb_true_iff in Hok. destruct Hok as ((((Hp & Hq) & Ho) & Hv) & Hs).
  apply String.eqb_eq in Hv. unfold isSliceOfMapsElementType in Hs. simpl in Hs.
  unfold emptyObjectType. rewrite Hp, Hq, Ho, Hs. simpl. subst va. by destruct b.
Qed.

(** C33: what [newModel] returns is either the literal value of an annotation
    without any known key, or a well-formed model: balanced braces in the path,
    an object type, and both source fields when the element type needs them. *)
Theorem newModel_wf (v : string) (m : model) :
  newModel v = Ok m →
  (raw_entries v = [] ∧ m_value m = v ∧ m_path m = "") ∨ model_ok m = true.
Proof.
  unfold newModel. destruct (aget pathModelKey (raw_entries v)) as [p|] eqn:Hp.
  2:{ destruct (raw_entries v); [|done]. intros ?; simplify_eq. by left. }
  destruct ((Count p "{" =? 0) || negb (Count p "{" =? Count p "}")) eqn:Hb; [done|].
  destruct (String.eqb _ sliceOfMapsElementType && _) eqn:Hs; [done|]. intros ?; simplify_eq. right.
  apply orb_false_iff in Hb as [Hb1 Hb2%negb_false_iff].
  unfold model_ok, isSliceOfMapsElementType. simpl. rewrite Hb1, Hb2, Hs. simpl.
  rewrite !andb_true_r. destruct (aget objectTypeModelKey (raw_entries v)) as [o|]; [|done].
  destruct (String.eqb o emptyObjectType) eqn:Ho; [done|].
  unfold emptyObjectType in Ho. by rewrite Ho.
Qed.

(** ** Annotation names *)

(** The names [IsServiceBindingAnnotation] accepts are [service.binding]
    and [service.binding/...]; a name that only starts with [service.binding]
    is an error, any other name is ignored. *)
Lemma IsServiceBindingAnnotation_spec (k : string) :
  match IsServiceBindingAnnotation k with
  | Ok true => k = AnnotationPrefix ∨ ∃ n, k = AnnotationPrefix +:+ "/" +:+ n
  | Ok false => ∀ t, k ≠ AnnotationPrefix +:+ t
  | Err _ => ∃ a t, k = AnnotationPrefix +:+ String a t ∧ a ≠ "/"%char
  end.
Proof.
  unfold IsServiceBindingAnnotation.
  destruct (String.eqb_spec k ProvisionedServiceAnnotationKey) as [->|].
  { intros t Ht. vm_compute in Ht. done. }
  destruct (String.eqb_spec k AnnotationPrefix) as [->|Hne]; [by left|].
  destruct (HasPrefix k AnnotationPrefix) eqn:Hp.
  2:{ intros t ->. enough (HasPrefix (AnnotationPrefix +:+ t) AnnotationPrefix = true) by congruence.
      apply HasPrefix_spec. eauto. }
  destruct (HasPrefix k (AnnotationPrefix +:+ "/")) eqn:Hs.
  { right. apply HasPrefix_spec in Hs as [t ->]. exists t. by rewrite string_app_assoc. }
  apply HasPrefix_spec in Hp as [[|a t] ->]; [by rewrite string_app_nil_r in Hne|].
  exists a, t. split; [done|]. intros ->.
  enough (HasPrefix (AnnotationPrefix +:+ String "/" t) (AnnotationPrefix +:+ "/") = true) by congruence.
  apply HasPrefix_spec. exists t. by rewrite string_app_assoc.
Qed.

(** ** Evaluating definitions *)

(** Looking up a field of an object gives a value wrapped in an interface. *)
Lemma aget_fmap {A B} (f : A → B) k (m : list (string * A)) :
  aget k ((λ kv, (kv.1, f kv.2)) <$> m) = f <$> aget k m.
Proof. induction m as [|[k' v] m IH]; csimpl; [done|]. by destruct (String.eqb k k'). Qed.

Lemma reflect_nested (v : rvalue) (fields : list string) (x : json) :
  fields ≠ [] → NestedFieldNoCopy (rv_val v) fields = Found x →
  NestedFieldNoCopy v fields = Found (box x).
Proof.
  intros Hne. revert v. induction fields as [|f fields IH]; intros v Hf; [done|].
  destruct v as [b j]. simpl in Hf |- *. destruct j as [| | | | |[]|m]; simpl in Hf; try done.
  cbn [view reflect_view rv_val]. rewrite aget_fmap. destruct (aget f m) as [y|]; [|done]. simpl.
  destruct fields as [|f' fields]; [simpl in *; by simplify_eq|].
  by apply IH.
Qed.

Section Apply.
Context {W R : Type} `{KubeAPI W} `{JSONPathLib} (deref : R → secretConfigMapReader W).

(** The parser's tree of a path [{.f1.f2...}]. *)
Definition dotted (fields : list string) : JSONPath := Template [NodeList (NodeField <$> fields)].

Lemma dotted_values path fields (u x : json) (w : W) :
  jsonpath_Parse path = Ok (dotted fields) → fields ≠ [] →
  NestedFieldNoCopy u fields = Found x →
  getValuesByJSONPath u path w = (Ret (Ok [box x]), w).
Proof.
  intros Hp Hne Hx. unfold getValuesByJSONPath. rewrite Hp.
  assert (FindResults (dotted fields) (ValueOf u) = Ok [[box x]]) as ->; [|done].
  apply (reflect_nested (ValueOf u)) in Hx; [|done]. apply walk_fields in Hx.
  unfold FindResults, dotted. simpl. change (NodeField <$> fields) with (map NodeField fields).
  simpl in Hx. by rewrite Hx.
Qed.

(** Decoding the encoded entries one by one. *)
Lemma map_data_secret (entries out : list (string * string)) name :
  NoDup (out.*1 ++ entries.*1) →
  map_data secretObjectType name "" ((λ kv, (kv.1, EncodeToString kv.2)) <$> entries) out =
  Ok (out ++ entries).
Proof.
  revert out. induction entries as [|[k v] entries IH]; intros out Hnd; csimpl.
  { by rewrite app_nil_r. }
  unfold decode_data. simpl. rewrite DecodeString_encode. simpl.
  rewrite aset_keys_fresh.
  - rewrite IH; [by rewrite <- app_assoc|]. by rewrite fmap_app, <- app_assoc.
  - csimpl in Hnd. apply NoDup_app in Hnd as (_ & Hd & _). intros Hk. apply (Hd k Hk). set_solver.
Qed.

Lemma Apply_secret_map {R'} (deref' : R' → secretConfigMapReader W) (r : R') out path optional fields u secretName secret
    entries (w w' : W) :
  jsonpath_Parse path = Ok (dotted fields) → fields ≠ [] →
  NestedFieldNoCopy u fields = Found (JStr secretName) →
  secretReader (deref' r) (GetNamespace u) secretName w = (Ret (Ok secret), w') →
  NestedStringMap secret ["data"] = Found ((λ kv, (kv.1, EncodeToString kv.2)) <$> entries) →
  NoDup entries.*1 →
  Apply deref' (mapFromDataFieldDefinition (Some r) secretObjectType out ""
           {| d_path := path; d_optional := optional |}) u w = (Ret (Ok (StringMap entries)), w').
Proof.
  intros Hparse Hne Hpath Hget Hdata Hnd. unfold_Apply. unfold with_path_values. cbn [d_path].
  erewrite mbind_ret by (by eapply dotted_values).
  unfold read_other, rbind. rewrite String.eqb_refl. cbn [fmt_v rv_val box].
  erewrite mbind_ret by exact Hget. cbv beta iota. rewrite Hdata. by rewrite (map_data_secret entries []).
Qed.

(** Copying entries with distinct keys into a new map. *)
Lemma copy_entries {A B} (f : A → B) (entries : list (string * A)) (out : list (string * B)) :
  NoDup (out.*1 ++ entries.*1) →
  fold_left (λ out kv, aset kv.1 (f kv.2) out) entries out = out ++ ((λ kv, (kv.1, f kv.2)) <$> entries).
Proof.
  revert out. induction entries as [|[k v] entries IH]; intros out Hnd; csimpl; [by rewrite app_nil_r|].
  rewrite aset_keys_fresh.
  - rewrite IH; [by rewrite <- app_assoc|]. by rewrite fmap_app, <- app_assoc.
  - csimpl in Hnd. apply NoDup_app in Hnd as (_ & Hd & _). intros Hk. apply (Hd k Hk). set_solver.
Qed.

(** C26: an annotation [service.binding[/name]: path={...},objectType=Secret]
    yields every entry of the secret the path names, decoded: from the text of
    the annotation to the collected data. *)
Theorem secret_annotation_collects (name path secretName : string) (fields : list string)
    (u secret : json) (entries : list (string * string)) (w w' : W) :
  IsServiceBindingAnnotation name = Ok true →
  Count path "," = 0 → Count path "{" ≠ 0 → Count path "{" = Count path "}" →
  jsonpath_Parse path = Ok (dotted fields) → fields ≠ [] →
  NestedFieldNoCopy u fields = Found (JStr secretName) →
  kube_get secretGVR (GetNamespace u) secretName w = (Ret (Ok secret), w') →
  NestedStringMap secret ["data"] = Found ((λ kv, (kv.1, EncodeToString kv.2)) <$> entries) →
  NoDup entries.*1 →
  Handle (NewSpecHandler name ("path=" +:+ path +:+ ",objectType=Secret") u) w =
  (Ret (Ok ((λ kv, (kv.1, JStr kv.2)) <$> entries)), w').
Proof.
  intros Hname Hc Hb1 Hb2 Hparse Hne Hpath Hget Hdata Hnd.
  assert (raw_entries ("path=" +:+ path +:+ ",objectType=Secret") =
          [(pathModelKey, path); (objectTypeModelKey, "Secret")]) as Hraw.
  { unfold raw_entries.
    replace ("path=" +:+ path +:+ ",objectType=Secret")
      with ((pathModelKey +:+ "=" +:+ path) +:+ String ","%char "objectType=Secret")
      by by rewrite !string_app_assoc.
    rewrite Split_app_sep by (rewrite !Count_app; cbn; lia).
    cbn [fold_left]. rewrite raw_entry_key by (unfold keys; set_solver). done. }
  assert (newModel ("path=" +:+ path +:+ ",objectType=Secret") =
    Ok {| m_path := path; m_elementType := mapElementType; m_objectType := secretObjectType;
          m_sourceKey := ""; m_sourceValue := ""; m_value := ""; m_optional := false |}) as Hm.
  { unfold newModel. rewrite Hraw. simpl. apply Nat.eqb_neq in Hb1. apply Nat.eqb_eq in Hb2.
    by rewrite Hb1, Hb2. }
  unfold Handle, Build, NewSpecHandler, NewDefinitionBuilder.
  cbn [adb_name adb_value adb_reader sh_annotationKey sh_annotationValue sh_obj]. rewrite Hname, Hm.
  change (rbind (Apply id (mapFromDataFieldDefinition
    (Some {| configMapReader := configMapsReader; secretReader := secretsReader |}) secretObjectType
    (outputName {| adb_reader := {| configMapReader := configMapsReader; secretReader := secretsReader |};
       adb_name := name; adb_value := "path=" +:+ path +:+ ",objectType=Secret" |}) ""
    {| d_path := path; d_optional := false |}) u) (λ val, mret (Ok (match val with
      | StringMap t => fold_left (λ out kv, aset kv.1 (JStr kv.2) out) t []
      | AnyMap t => fold_left (λ out kv, aset kv.1 kv.2 out) t []
      | NilValue => []
      end))) w = (Ret (Ok ((λ kv, (kv.1, JStr kv.2)) <$> entries)), w')).
  unfold rbind. erewrite mbind_ret by (by eapply Apply_secret_map).
  cbv beta iota. by rewrite (copy_entries JStr entries []).
Qed.

(** C34: a definition whose path does not resolve: when it is optional, [Apply]
    gives the nil value and [NonExistingOptional] says so; otherwise [Apply]
    gives the error of the path. *)
Theorem Apply_unresolved (b : BindingDefinition R) (u : json) (e : goerr) (w : W) :
  getValuesByJSONPath u (GetPath b) w = (Ret (Err e), w) →
  match b with
  | stringDefinition outputName value _ => outputName ≠ "" ∧ value = ""
  | stringFromDataFieldDefinition r _ _ _ _ | mapFromDataFieldDefinition r _ _ _ _ => r ≠ None
  | _ => True
  end →
  if d_optional (base_of b)
  then Apply deref b u w = (Ret (Ok NilValue), w) ∧ NonExistingOptional b NilValue = true
  else Apply deref b u w = (Ret (Err e), w).
Proof.
  intros He Hb.
  assert (∀ k, with_path_values (base_of b) u k w =
    (if d_optional (base_of b) then (Ret (Ok NilValue), w) else (Ret (Err e), w))) as Hk.
  { intros k. unfold with_path_values. unfold GetPath in He. rewrite (mbind_ret _ _ _ _ _ He).
    by destruct (d_optional (base_of b)). }
  rewrite NonExistingOptional_base. unfold_Apply.
  destruct b as [o v d|[r|] ty o d k|[r|] ty o sv d|o d|o d k v|o d v]; simpl in *;
    try by rewrite Hk; destruct (d_optional d).
  - destruct Hb as [Ho ->]. destruct (String.eqb_spec o ""); [done|].
    simpl. rewrite Hk. by destruct (d_optional d).
  - done.
  - done.
Qed.

(** A [string] element taken from a secret reads the secret by the wrong
    name: the name found at the path is wrapped in an interface, and its
    [String] method describes the type instead of giving the text, so the
    secret asked for is always the same one, whatever the service says. *)
Lemma stringFromDataField_reads_wrong_name (r : R) (out key path : string)
    (optional : bool) (fields : list string) (u x : json) (w : W) :
  jsonpath_Parse path = Ok (dotted fields) → fields ≠ [] →
  NestedFieldNoCopy u fields = Found x →
  Apply deref (stringFromDataFieldDefinition (Some r) secretObjectType out
           {| d_path := path; d_optional := optional |} key) u w =
  (let! secret := secretReader (deref r) (GetNamespace u) "<interface {} Value>" in
   match NestedString secret ["data"; key] with
   | NErr e => mret (Err e)
   | NotFound => mret (Err (ENew "not found"))
   | Found val => mret (let? val := decode_data secretObjectType val in Ok (AnyMap [("", JStr val)]))
   end) w.
Proof.
  intros Hp Hne Hx. unfold_Apply. unfold with_path_values. cbn [d_path].
  by erewrite mbind_ret by (by eapply dotted_values).
Qed.
End Apply.

(** ** At work *)
Definition demo_model : model :=
  {| m_path := "{.status.secret}"; m_elementType := "map"; m_objectType := "Secret";
     m_sourceKey := ""; m_sourceValue := ""; m_value := ""; m_optional := true |}.

Lemma newModel_render_witness :
  newModel "path={.status.secret},objectType=Secret,elementType=map,sourceKey=,sourceValue=,optional=true"
  = Ok demo_model.
Proof.
  apply (newModel_render demo_model); [by vm_compute|].
  repeat (apply Forall_cons_2; [by vm_compute|]). apply Forall_nil_2.
Defined.

Definition plain_model : model :=
  {| m_path := "{.a}"; m_elementType := "string"; m_objectType := "string";
     m_sourceKey := ""; m_sourceValue := ""; m_value := ""; m_optional := false |}.

Lemma newModel_wf_witness :
  (raw_entries "path={.a}" = [] ∧ m_value plain_model = "path={.a}" ∧ m_path plain_model = "") ∨
  model_ok plain_model = true.
Proof. apply (newModel_wf "path={.a}" plain_model). by vm_compute. Defined.

Abbreviation demo_world := (demo_cluster demo_workload []).

Lemma secret_annotation_collects_witness :
  Handle (NewSpecHandler "service.binding" "path={.status.binding.name},objectType=Secret" demo_service)
    demo_world =
  (Ret (Ok [("password", JStr "hunter2"); ("type", JStr "postgresql")]), demo_world).
Proof.
  apply (secret_annotation_collects "service.binding" "{.status.binding.name}" "db-secret"
    ["status"; "binding"; "name"] demo_service demo_secret
    [("password", "hunter2"); ("type", "postgresql")]); try by vm_compute.
  apply (bool_decide_unpack _). by vm_compute.
Defined.

Abbreviation demo_definition path :=
  (mapFromDataFieldDefinition (R := unit) (Some tt) secretObjectType "" ""
    {| d_path := path; d_optional := true |}).
Definition demo_readers (_ : unit) : secretConfigMapReader (cluster v1beta1.ServiceBinding) :=
  {| configMapReader := configMapsReader; secretReader := secretsReader |}.

Lemma Apply_unresolved_witness :
  Apply demo_readers (demo_definition "{.status.absent}") demo_service demo_world =
    (Ret (Ok NilValue), demo_world) ∧
  NonExistingOptional (demo_definition "{.status.absent}") NilValue = true.
Proof.
  apply (Apply_unresolved demo_readers (demo_definition "{.status.absent}") demo_service
    (EErrorf "%s is not found" [AStr "absent"]) demo_world); [by vm_compute|done].
Defined.

Lemma stringFromDataField_reads_wrong_name_witness :
  Apply demo_readers (stringFromDataFieldDefinition (Some tt) secretObjectType "password"
    {| d_path := "{.status.binding.name}"; d_optional := false |} "password") demo_service demo_world =
  (Ret (Err (EAPI true "<interface {} Value>")), demo_world).
Proof.
  rewrite (stringFromDataField_reads_wrong_name demo_readers tt "password" "password"
    "{.status.binding.name}" false ["status"; "binding"; "name"] demo_service (JStr "db-secret"));
    by vm_compute.
Defined.
