(* ===== verification/Invariant.v ===== *)
(** * The invariant of the pipeline

    Every operation on workloads keeps the store of maps well formed, whatever
    the workload looks like and whether the operation succeeds, fails or panics.
    The invariant is lifted to the handlers of both flows, together with a
    promise about the binding, its workloads and every call to the API server
    ([pledge]); the classes [SafeWorld] and [SafeContext] say what the handlers
    rely on. *)

From S2P Require Import Prelude.
From S2P Require Import GoLib.
From S2P Require Import GoValue.
From S2P Require Import JsonPath.
From S2P Require Import Heap.
From S2P Require Import Converter.
From S2P Require Import Workload.
From S2P Require Import WorkloadSpec.
From S2P Require Import Kube.
From S2P Require Import Apis.
From S2P Require Import Binding.
From S2P Require Import Service.
From S2P Require Import Application.
From S2P Require Import Context.
From S2P Require Import Kinds.
From S2P Require Import Collect.
From S2P Require Import Project.
From S2P Require Import Pipeline.

(** The store is well formed and has at least [n] maps. *)
Definition heap_inv (n : nat) (h : heap) : Prop := heap_ok h = true ∧ n ≤ length h.

Lemma heap_inv_mono n m h : heap_inv m h → n ≤ m → heap_inv n h.
Proof. unfold heap_inv. intros []. split; [done|lia]. Qed.

Lemma entry_valid h a k b :
  heap_ok h = true → aget k (cell_at h a) = Some (VMap b) → b < length h.
Proof.
  intros Hh Hk. apply Nat.ltb_lt. change (gval_ok (length h) (VMap b) = true).
  eapply cell_ok_aget; [|done]. by apply heap_ok_cell_at.
Qed.

(** ** Primitive updates *)
Lemma alloc_child_inv h a p n :
  heap_inv n h → heap_inv (S (length h)) (hset a p (VMap (length h)) (h ++ [[]])).
Proof.
  intros [Hh _]. split.
  - apply heap_ok_hset; [by apply heap_ok_halloc|]. simpl. rewrite length_app. apply Nat.ltb_lt. simpl. lia.
  - rewrite hset_length, length_app. simpl. lia.
Qed.

Lemma make_path_inv n a seen ps h :
  heap_inv n h → a < length h →
  heap_inv n (make_path a seen ps h).2 ∧
  ∀ d, (make_path a seen ps h).1 = Ok d → d < length (make_path a seen ps h).2.
Proof.
  revert a seen h n. induction ps as [|p ps IH]; intros a seen h n Hh Ha; simpl.
  { split; [done|]. intros; by simplify_eq/=. }
  destruct (aget p (cell_at h a)) as [v|] eqn:Hp.
  - destruct v; try done. apply IH; [done|]. eapply entry_valid; [apply Hh|done].
  - pose proof (alloc_child_inv h a p n Hh) as Hc.
    destruct (IH (length h) (seen ++ [p]) _ (S (length h)) Hc) as [H1 H2];
      [destruct Hc; lia|]. split; [|done]. eapply heap_inv_mono; [exact H1|]. destruct Hh. lia.
Qed.

Lemma find_dest_inv n a path h :
  heap_inv n h → a < length h →
  heap_inv n (find_dest a path h).2 ∧
  ∀ d, (find_dest a path h).1 = Ok d → d < length (find_dest a path h).2.
Proof.
  intros Hh Ha. unfold find_dest. destruct (1 <? length path); [|by split; [|intros; simplify_eq/=]].
  destruct (hNestedField h a (take (length path - 1) path)) as [v| |e] eqn:Hn; [|by apply make_path_inv|done].
  destruct v; try done. split; [done|]. intros; simplify_eq/=.
  destruct (nested_follow _ _ _ _ Hn) as [vis Hf]. eapply follow_ok; [apply Hh|done..].
Qed.

Lemma setSlice_inv n a t rs path h :
  heap_inv n h → a < length h → Forall (λ b, b < length h) rs → heap_inv n (setSlice a t rs path h).2.
Proof.
  intros Hh Ha Hrs. unfold setSlice.
  assert (heap_inv (n `max` length h) h) as Hm by (destruct Hh; split; [done|lia]).
  destruct (find_dest_inv _ a path h Hm Ha) as [H1 H2].
  destruct (find_dest a path h) as [[d|e] h1]; simpl in *; [|by eapply heap_inv_mono; [exact H1|lia]].
  destruct (last path) as [key|]; simpl; [|by eapply heap_inv_mono; [exact H1|lia]].
  destruct H1 as [Hok1 Hlen]. split; [|rewrite hset_length; lia].
  apply heap_ok_hset; [done|]. simpl. apply forallb_forall.
  intros v (b & <- & Hb)%in_map_iff. apply Nat.ltb_lt.
  apply list_elem_of_In in Hb. rewrite Forall_forall in Hrs. specialize (Hrs b Hb). simpl in Hrs. lia.
Qed.

Lemma to_unstructured_inv n m h :
  heap_inv n h →
  ∃ u h1, to_unstructured (JObj m) h = (Ret u, h1) ∧ heap_inv n h1 ∧ u < length h1 ∧ length h ≤ length h1.
Proof.
  intros [Hh Hn]. destruct (to_unstructured_spec m h) as (u & h1 & Hu & Hp & Hul & Hok & _).
  exists u, h1. apply prefix_length in Hp. split_and!; [done| |lia|lia]. split; [by apply Hok|lia].
Qed.

Section Ops.
Context `{Converter}.

(** The operations, all outcomes. *)
Lemma remove_resource_inv n a k path p :
  a < n → inv (heap_inv n) (remove_resource a k path p).
Proof.
  intros Ha h Hh. unfold remove_resource. rewrite (mbind_ret _ _ _ h h) by done.
  destruct (NestedResources k h a path) as [l| |e] eqn:Hr; [|done..].
  destruct (remove_first (p h) l) as [l'|] eqn:Hrem; [|done].
  destruct Hh as [Hok Hn]. apply setSlice_inv; [done|lia|].
  apply remove_first_Some in Hrem as (l1 & x & l2 & -> & -> & _).
  assert (a < length h) as Ha' by lia.
  pose proof (resources_valid _ _ _ _ _ Hok Ha' Hr) as Hv.
  apply Forall_app in Hv as [? [_ ?]%Forall_cons]. by apply Forall_app.
Qed.

Lemma addRaw_inv n a k data path h :
  a < n → heap_inv n h → Forall (λ b, b < length h) data → heap_inv n (addRaw a k data path h).2.
Proof.
  intros Ha Hh Hd. unfold addRaw. rewrite (mbind_ret _ _ _ h h) by done.
  assert (a < length h) as Ha' by (destruct Hh; lia).
  destruct (NestedResources k h a path) as [l| |e] eqn:Hr; [|by apply setSlice_inv|done].
  apply setSlice_inv; [done..|]. apply Forall_app. split; [|done].
  destruct Hh as [Hok _]. exact (resources_valid _ _ _ _ _ Hok Ha' Hr).
Qed.

Lemma upsert_inv n k a path m p : a < n → inv (heap_inv n) (upsert k a path m p).
Proof.
  intros Ha h Hh. unfold upsert.
  destruct (to_unstructured_inv n m h Hh) as (u & h1 & Hu & Hh1 & Hul & _).
  rewrite (mbind_ret _ _ _ _ _ Hu), (mbind_ret _ _ _ h1 h1) by done.
  assert (a < length h1) as Ha' by (destruct Hh1; lia).
  destruct (NestedResources k h1 a path) as [l| |e] eqn:Hr; [|apply setSlice_inv; by auto|done].
  apply setSlice_inv; [done..|]. apply replace_or_append_valid; [done|].
  destruct Hh1 as [Hok _]. exact (resources_valid _ _ _ _ _ Hok Ha' Hr).
Qed.

Lemma to_unstructured_all_inv n ms h :
  heap_inv n h →
  ∃ us h1, to_unstructured_all (JObj <$> ms) h = (Ret us, h1) ∧ heap_inv n h1 ∧
    Forall (λ b, b < length h1) us ∧ length h ≤ length h1.
Proof.
  revert h. induction ms as [|m ms IH]; intros h Hh; csimpl; [by exists [], h|].
  destruct (to_unstructured_inv n m h Hh) as (u & h1 & Hu & Hh1 & Hul & Hl1).
  destruct (IH h1 Hh1) as (us & h2 & Hus & Hh2 & Hv & Hl2).
  exists (u :: us), h2. rewrite (mbind_ret _ _ _ _ _ Hu), (mbind_ret _ _ _ _ _ Hus).
  split_and!; [done..| |lia]. constructor; [lia|done].
Qed.

Lemma RemoveEnvVars_inv n c name : mc_Data c < n → inv (heap_inv n) (RemoveEnvVars c name).
Proof. apply remove_resource_inv. Qed.
Lemma RemoveEnvFromVars_inv n c name : mc_Data c < n → inv (heap_inv n) (RemoveEnvFromVars c name).
Proof. apply remove_resource_inv. Qed.
Lemma RemoveVolumeMount_inv n c name : mc_Data c < n → inv (heap_inv n) (RemoveVolumeMount c name).
Proof. apply remove_resource_inv. Qed.
Lemma RemoveVolume_inv n t name : mp_Data t < n → inv (heap_inv n) (RemoveVolume t name).
Proof. apply remove_resource_inv. Qed.
Lemma AddVolumeMount_inv n c m : mc_Data c < n → inv (heap_inv n) (AddVolumeMount c m).
Proof. apply upsert_inv. Qed.
Lemma AddVolume_inv n t v : mp_Data t < n → inv (heap_inv n) (AddVolume t v).
Proof. apply upsert_inv. Qed.

Lemma AddEnvVars_inv n c vars : mc_Data c < n → inv (heap_inv n) (AddEnvVars c vars).
Proof.
  intros Hc. unfold AddEnvVars. apply inv_bind.
  { apply inv_for_all. intros v _. apply inv_bind; [by apply RemoveEnvVars_inv|intros; apply inv_ret]. }
  intros _ h Hh.
  assert (∃ ms, EnvVar_json <$> vars = JObj <$> ms) as [ms ->].
  { clear. induction vars as [|v vars [ms IH]]; [by exists []|].
    eexists (_ :: ms). csimpl. by rewrite IH. }
  destruct (to_unstructured_all_inv n ms h Hh) as (us & h1 & Hus & Hh1 & Hv & _).
  rewrite (mbind_ret _ _ _ _ _ Hus). by apply addRaw_inv.
Qed.

Lemma AddEnvFromVar_inv n c e : mc_Data c < n → inv (heap_inv n) (AddEnvFromVar c e).
Proof.
  intros Hc. unfold AddEnvFromVar. destruct (mc_EnvFrom c) as [|s path] eqn:Hp; [apply inv_ret|].
  apply inv_bind; [by apply RemoveEnvFromVars_inv|]. intros _ h Hh.
  destruct (to_unstructured_inv n [("secretRef", JObj (omitempty "name" (efs_secretRef e)))] h Hh)
    as (u & h1 & Hu & Hh1 & Hul & _).
  rewrite (mbind_ret _ _ _ _ _ Hu). apply addRaw_inv; [done..|]. by constructor.
Qed.

Lemma MountPath_inv n c name : mc_Data c < n → inv (heap_inv n) (MountPath c name).
Proof.
  intros Hc h Hh. unfold MountPath. rewrite (mbind_ret _ _ _ h h) by done.
  assert (∀ envs, Forall (λ b, b < length h) envs → heap_inv n ((
    u ← to_unstructured (EnvVar_json root_var);
    let! _ := setSlice (mc_Data c) SliceMap (envs ++ [u]) (mc_Env c) in
    mret (Ok (path_Join bindingRoot name))) h).2) as Happ.
  { intros envs Henvs.
    destruct (to_unstructured_inv n [("name", JStr bindingRootEnvVar); ("value", JStr bindingRoot)] h Hh)
      as (u & h1 & Hu & Hh1 & Hul & Hl1). change (EnvVar_json root_var) with
      (JObj [("name", JStr bindingRootEnvVar); ("value", JStr bindingRoot)]).
    rewrite (mbind_ret _ _ _ _ _ Hu).
    assert (heap_inv n (setSlice (mc_Data c) SliceMap (envs ++ [u]) (mc_Env c) h1).2) as Hs.
    { apply setSlice_inv; [done|destruct Hh1; lia|]. apply Forall_app.
      split; [eapply Forall_impl; [exact Henvs|simpl; lia]|by constructor]. }
    m_unfold. by destruct (setSlice _ _ _ _ h1) as [[[[]|e]|e] h2]. }
  destruct (NestedResources KEnvVar h (mc_Data c) (mc_Env c)) as [envs| |e] eqn:Hr; [|by apply (Happ [])|done].
  destruct (find_root h envs); [done|]. apply Happ. destruct Hh as [Hok Hn].
  assert (mc_Data c < length h) as Hc' by lia. exact (resources_valid _ _ _ _ _ Hok Hc' Hr).
Qed.
End Ops.

(** ** The context *)

Lemma heap_closed h :
  heap_ok h = true → @ViewClosed gval (heap_view h) (λ v, gval_ok (length h) v = true).
Proof.
  intros Hh. split; try done.
  - intros v t l Hv Hok. destruct v; simpl in Hv; try done. injection Hv as <- <-.
    simpl in Hok. apply Forall_forall. rewrite forallb_forall in Hok. intros x Hx.
    by apply Hok, list_elem_of_In.
  - intros v m Hv Hok. destruct v as [| | | | | |a]; simpl in Hv; try done. injection Hv as <-.
    apply Forall_forall. intros x ([k y] & -> & Hy)%list_elem_of_fmap.
    pose proof (heap_ok_cell_at h a Hh) as Hc. unfold cell_ok in Hc. rewrite forallb_forall in Hc.
    by apply (Hc (k, y)), list_elem_of_In.
Qed.

(** The root of an application's copy is valid. *)
Definition app_ok (h : heap) (a : application) : Prop :=
  match a_resource a with Some r => r < length h | None => True end.

(** What processing leaves alone in the metadata of a binding: everything but
    the mark that a changed mapping left. *)
Definition other_annotations (anns : list (string * string)) : list (string * string) :=
  filter (λ kv, kv.1 ≠ MappingAnnotationKey) anns.
Definition identity (m : ObjectMeta) : ObjectMeta :=
  with_annotations (other_annotations (om_annotations m)) m.

Lemma other_annotations_adel anns :
  other_annotations (adel MappingAnnotationKey anns) = other_annotations anns.
Proof.
  unfold other_annotations. induction anns as [|[k v] anns IH]; [done|]. cbn [adel].
  destruct (String.eqb_spec MappingAnnotationKey k) as [<-|Hk].
  - rewrite filter_cons_False; [done|]. simpl. tauto.
  - by rewrite !filter_cons, IH.
Qed.

Lemma aget_other k anns :
  k ≠ MappingAnnotationKey → aget k (other_annotations anns) = aget k anns.
Proof.
  intros Hk. unfold other_annotations. induction anns as [|[x v] anns IH]; [done|].
  rewrite filter_cons. cbn [aget fst]. destruct (decide (x ≠ MappingAnnotationKey)) as [Hx|Hx]; simpl; rewrite IH; [done|].
  destruct (String.eqb_spec k x); [|done]. subst. tauto.
Qed.

Lemma identity_aget k m m' :
  identity m = identity m' → k ≠ MappingAnnotationKey →
  aget k (om_annotations m) = aget k (om_annotations m').
Proof.
  intros Hid Hk. rewrite <- (aget_other k _ Hk), <- (aget_other k (om_annotations m') Hk).
  by injection Hid as _ _ _ _ ->.
Qed.

(** The mark may be taken away, nothing is added. *)
Definition kept (m0 m : ObjectMeta) : Prop :=
  identity m = identity m0 ∧ om_annotations m `sublist_of` om_annotations m0.

Lemma kept_refl m : kept m m.
Proof. done. Qed.

Lemma kept_fields m0 m : kept m0 m →
  om_name m = om_name m0 ∧ om_namespace m = om_namespace m0 ∧ om_uid m = om_uid m0 ∧
  om_generation m = om_generation m0.
Proof. intros [Hid _]. by injection Hid. Qed.

Lemma adel_sublist {A} k (m : list (string * A)) : adel k m `sublist_of` m.
Proof.
  induction m as [|[x v] m IH]; simpl; [done|].
  destruct (String.eqb k x); [by apply sublist_cons|by apply sublist_skip].
Qed.

Lemma filter_all {A} (P : A → Prop) `{!∀ x, Decision (P x)} (l : list A) :
  (∀ x, x ∈ l → P x) → filter P l = l.
Proof.
  induction l as [|x l IH]; intros Hp; [done|].
  rewrite filter_cons_True, IH; [done| |]; set_solver.
Qed.

(** Without the mark nothing can be taken away. *)
Lemma unmarked_annotations anns0 anns :
  aget MappingAnnotationKey anns0 = None → anns `sublist_of` anns0 →
  other_annotations anns = other_annotations anns0 → anns = anns0.
Proof.
  intros Hnone%aget_None Hsub Heq.
  assert (∀ l, l `sublist_of` anns0 → other_annotations l = l) as Ho.
  { intros l Hs. apply filter_all. intros kv Hkv Hk.
    apply Hnone. rewrite <- Hk. apply list_elem_of_fmap_2. by eapply elem_of_sublist. }
  by rewrite <- (Ho _ Hsub), <- (Ho anns0).
Qed.

(** What a flow promises about its binding, its applications and the world. *)
Record pledge (W : Type) := {
  pl_meta : ObjectMeta;
  (** what may be done on behalf of the binding: verb, resource, namespace, name *)
  pl_may : string → GroupVersionResource → string → string → Prop;
  (** whether the resources that services own are looked at *)
  pl_owned : Prop;
  pl_world : W → Prop
}.
Arguments pl_meta {W}.
Arguments pl_may {W}.
Arguments pl_owned {W}.
Arguments pl_world {W}.

Definition pl_name {W} (pl : pledge W) : string := om_name (pl_meta pl).
Definition pl_namespace {W} (pl : pledge W) : string := om_namespace (pl_meta pl).
Definition pl_uid {W} (pl : pledge W) : string := om_uid (pl_meta pl).

Definition app_pledge {W} (pl : pledge W) (a : application) : Prop :=
  pl_may pl "update" (a_gvr a) (pl_namespace pl) (GetName (a_persistedResource a)).

Definition app_inv {W} (pl : pledge W) (n : nat) (s : heap * application) : Prop :=
  heap_inv n s.1 ∧ app_ok s.1 s.2 ∧ app_pledge pl s.2.

(** The invariant of the context: a well-formed store with at least [n] maps,
    in which the copy of every application lives, a binding with the promised
    identity, and applications and a world that satisfy the promise. *)
Definition st_inv {W B} `{ServiceBindingKind B} (pl : pledge W) (n : nat) (s : st W B) : Prop :=
  heap_inv n (st_heap s) ∧ Forall (app_ok (st_heap s)) (i_applications (st_ctx s)) ∧
  kept (pl_meta pl) (sbk_meta (i_binding (st_ctx s))) ∧
  Forall (app_pledge pl) (i_applications (st_ctx s)) ∧ pl_world pl (st_world s).

Definition pod_ok (n : nat) (p : MetaPodSpec) : Prop :=
  mp_Data p < n ∧ Forall (λ c, mc_Data c < n) (mp_Containers p).

Lemma app_ok_grow h h' a : length h ≤ length h' → app_ok h a → app_ok h' a.
Proof. unfold app_ok. destruct (a_resource a); [lia|done]. Qed.

Lemma Resource_run {W} (pl : pledge W) n s :
  app_inv pl n s →
  match Resource s with
  | (Ret r, s') => app_inv pl n s' ∧ length s.1 ≤ length s'.1 ∧ r < length s'.1
  | (Panic _, s') => app_inv pl n s' ∧ length s.1 ≤ length s'.1
  end.
Proof.
  destruct s as [h a]. intros (Hh & Ha & Hpl). simpl in *. unfold Resource.
  rewrite (mbind_ret _ _ _ a (h, a)) by done. unfold app_ok in Ha.
  destruct (a_resource a) as [r|] eqn:Er.
  { simpl. split_and!; [split_and!; [done|unfold app_ok; simpl; by rewrite Er|done]|done|done]. }
  assert (∀ h', heap_ok h' = true → length h ≤ length h' → app_inv pl n (h', a)) as Hother.
  { intros h2 ? ?. split_and!; [split; [done|destruct Hh; simpl in *; lia]|
      unfold app_ok; simpl; by rewrite Er|done]. }
  unfold DeepCopyJSONValue. destruct (deep_copyable (a_persistedResource a));
    [|split; [apply Hother; [apply Hh|done]|done]].
  destruct (alloc_json (a_persistedResource a) h) as [v h'] eqn:Ea.
  destruct Hh as [Hok Hn].
  destruct (alloc_json_ok _ _ _ _ Ea Hok) as (Hok' & Hlen & Hv).
  unfold on_heap, zoom, mbind, M_bind. simpl. rewrite Ea.
  destruct v; simpl; try (by split; [apply Hother|]).
  simpl in Hv. apply Nat.ltb_lt in Hv. split_and!; [split_and!; [split; [done|simpl; lia]|done|done]|done|done].
Qed.

Section Pods.
Context `{JSONPathLaws}.

Lemma container_maps_valid n v maps :
  gval_ok n v = true → container_maps v = Ok maps → Forall (λ b, b < n) maps.
Proof.
  intros Hv Hm. destruct v as [| | | | |[] l|b]; simplify_eq/=.
  - revert maps Hm. induction l as [|x l IH]; intros maps Hm; simpl in *; [by simplify_eq|].
    apply andb_true_iff in Hv as [Hx Hl]. destruct x; simplify_eq/=.
    destruct (map_res _ l) as [ms|]; simplify_eq/=. constructor; [by apply Nat.ltb_lt|by apply IH].
  - constructor; [by apply Nat.ltb_lt|constructor].
Qed.

Lemma path_containers_valid h r names c l :
  heap_ok h = true → r < length h → path_containers h r names c = Ret (Ok l) →
  Forall (λ c, mc_Data c < length h) l.
Proof.
  intros Hh Hr. unfold path_containers.
  destruct (@FindResults gval (heap_view h) _ (wc_path c) (VMap r)) as [rs|e] eqn:Ef; [|by intros; simplify_eq].
  pose proof (heap_closed h Hh) as Hcl.
  assert (gval_ok (length h) (VMap r) = true) as Hroot by by apply Nat.ltb_lt.
  pose proof (@FindResults_closed gval (heap_view h) _ Hcl _ _ _ _ _ Hroot Ef) as Hall.
  destruct rs as [|sel rs]; [done|]. apply Forall_cons in Hall as [Hsel _].
  destruct (map_res container_maps sel) as [maps|] eqn:Em; [|done]. simpl. intros; simplify_eq.
  assert (Forall (λ b, b < length h) (concat maps)) as Hmaps.
  { clear -Hsel Em. revert maps Em. induction Hsel as [|v sel Hv _ IH]; intros maps Em; simpl in Em.
    { by simplify_eq. }
    destruct (container_maps v) as [m1|] eqn:E1; [|done]. simpl in Em.
    destruct (map_res container_maps sel) as [ms|]; simplify_eq/=.
    apply Forall_app. split; [by eapply container_maps_valid|by apply IH]. }
  apply Forall_flat_map. eapply Forall_impl; [exact Hmaps|]. intros b Hb. simpl.
  unfold selected. destruct (_ || _); constructor; done.
Qed.

Lemma all_containers_valid h r names cs l :
  heap_ok h = true → r < length h → all_containers h r names cs = Ret (Ok l) →
  Forall (λ c, mc_Data c < length h) l.
Proof.
  intros Hh Hr. revert l. induction cs as [|c cs IH]; intros l Hl; simpl in Hl; [by simplify_eq|].
  destruct (path_containers h r names c) as [[l1|]|] eqn:E1; simplify_eq.
  destruct (all_containers h r names cs) as [[l2|]|]; simplify_eq.
  apply Forall_app. split; [by eapply path_containers_valid|by apply IH].
Qed.

Lemma BindablePods_run {W} (pl : pledge W) n s :
  app_inv pl n s →
  match BindablePods s with
  | (Ret r, s') => app_inv pl n s' ∧ length s.1 ≤ length s'.1 ∧
                   ∀ pod, r = Ok pod → pod_ok (length s'.1) pod
  | (Panic _, s') => app_inv pl n s' ∧ length s.1 ≤ length s'.1
  end.
Proof.
  intros Hs. pose proof (Resource_run pl n s Hs) as Hr. unfold BindablePods, mbind, M_bind.
  destruct (Resource s) as [[r|e] s1]; [|done]. destruct Hr as (Hs1 & Hlen & Hr).
  destruct s1 as [h a]. simpl in *.
  destruct (all_containers h r (a_bindableContainerNames a) (wm_containers (a_resourceMapping a)))
    as [[l|e]|e] eqn:El; [|by split_and!..].
  destruct l as [|c l]; [by split_and!|]. split_and!; [done..|].
  intros pod; intros; simplify_eq. split; [done|]. simpl.
  eapply all_containers_valid; [apply Hs1|done..].
Qed.
End Pods.

Section Context.
Context {W B : Type} `{ServiceBindingKind B} (mid : pledge W).
Implicit Types s : st W B.

Lemma st_inv_mono n m s : st_inv mid m s → n ≤ m → st_inv mid n s.
Proof. intros [Hh Ha] Hn. split; [by eapply heap_inv_mono|done]. Qed.

Lemma st_inv_here n s : st_inv mid n s → st_inv mid (length (st_heap s)) s.
Proof. intros [[Hh _] Ha]. by split. Qed.

Lemma inv_on_world {A} n (m : M W A) :
  inv (pl_world mid) m → inv (st_inv (B := B) mid n) (on_world m).
Proof.
  intros Hm s (Hh & Ha & Hid & Hpl & Hw). specialize (Hm _ Hw). unfold on_world, zoom.
  by destruct (m (st_world s)).
Qed.

Lemma inv_ctx_gets {A} n (f : impl B → A) : inv (st_inv (W := W) mid n) (ctx_gets f).
Proof. by intros s Hs. Qed.

Lemma inv_ctx_modify n (f : impl B → impl B) :
  (∀ i, i_applications (f i) = i_applications i ∧
        sbk_meta (i_binding (f i)) = sbk_meta (i_binding i)) →
  inv (st_inv (W := W) mid n) (ctx_modify f).
Proof.
  intros Hf s (Hh & Ha & Hid). destruct (Hf (st_ctx s)) as [H1 H2].
  split; [done|]. simpl. by rewrite H1, H2.
Qed.

Lemma inv_on_store {A} n (m : M heap A) :
  (∀ n', n ≤ n' → inv (heap_inv n') m) → inv (st_inv (W := W) (B := B) mid n) (on_store m).
Proof.
  intros Hm s (Hh & Ha & Hid). unfold on_store, zoom.
  assert (heap_inv (n `max` length (st_heap s)) (st_heap s)) as Hmax by (destruct Hh; split; [done|lia]).
  pose proof (Hm (n `max` length (st_heap s)) ltac:(lia) _ Hmax) as Hm'. destruct (m (st_heap s)) as [r h']. simpl in *.
  split; [eapply heap_inv_mono; [exact Hm'|lia]|]. split; [|done]. simpl.
  eapply Forall_impl; [exact Ha|]. intros a. apply app_ok_grow. destruct Hm'. lia.
Qed.

(** A method of an application that keeps its invariant. *)
Lemma on_app_run {A} n k (m : M (heap * application) A) (Q : A → nat → Prop) s :
  st_inv mid n s →
  (∀ n a h, app_inv mid n (h, a) →
     match m (h, a) with
     | (Ret r, s') => app_inv mid n s' ∧ length h ≤ length s'.1 ∧ Q r (length s'.1)
     | (Panic _, s') => app_inv mid n s' ∧ length h ≤ length s'.1
     end) →
  match on_app k m s with
  | (Ret r, s') => st_inv mid n s' ∧ Q r (length (st_heap s'))
  | (Panic _, s') => st_inv mid n s'
  end.
Proof.
  intros Hs Hm. unfold on_app. destruct (i_applications (st_ctx s) !! k) as [a|] eqn:Ek; [|done].
  destruct Hs as (Hh & Ha & Hid & Hpl & Hw).
  assert (app_inv mid n (st_heap s, a)) as Hi.
  { rewrite Forall_forall in Ha, Hpl. apply list_elem_of_lookup_2 in Ek.
    split_and!; [done|by apply Ha|by apply Hpl]. }
  specialize (Hm n a (st_heap s) Hi). destruct (m (st_heap s, a)) as [[r|e] [h' a']];
    simpl in Hm; [destruct Hm as ((Hh' & Ha' & Hpl') & Hlen & HQ); split; [|done]|
                  destruct Hm as ((Hh' & Ha' & Hpl') & Hlen)];
    (split; [done|]); (split; [|split; [done|split; [by apply Forall_insert|done]]]); simpl;
    apply Forall_insert; try done;
    (eapply Forall_impl; [exact Ha|]; intros x; by apply app_ok_grow).
Qed.

(** A method of an application and what is done with its result, at least the
    maps of which are allocated. *)
Lemma inv_on_app_bind {A C} n k (m : M (heap * application) A) (Q : A → nat → Prop)
    (f : A → M (st W B) C) :
  (∀ n a h, app_inv mid n (h, a) →
     match m (h, a) with
     | (Ret r, s') => app_inv mid n s' ∧ length h ≤ length s'.1 ∧ Q r (length s'.1)
     | (Panic _, s') => app_inv mid n s' ∧ length h ≤ length s'.1
     end) →
  (∀ r n1, n ≤ n1 → Q r n1 → inv (st_inv mid n1) (f r)) →
  inv (st_inv mid n) (on_app k m ≫= f).
Proof.
  intros Hm Hf s Hs. pose proof (on_app_run n k m Q s Hs Hm) as Hrun.
  unfold mbind, M_bind. destruct (on_app k m s) as [[r|e] s1]; [|done].
  destruct Hrun as [Hs1 HQ]. assert (n ≤ length (st_heap s1)) as Hn by (by destruct Hs1 as [[_ ?] _]).
  apply st_inv_here in Hs1. eapply st_inv_mono; [|exact Hn]. by eapply Hf.
Qed.

(** Working with the root of an application's copy, and with its pods. *)
Lemma inv_root {A} n k (f : loc → M (st W B) A) :
  (∀ r n1, n ≤ n1 → r < n1 → inv (st_inv mid n1) (f r)) →
  inv (st_inv mid n) (on_app k Resource ≫= f).
Proof.
  intros Hf. apply (inv_on_app_bind n k Resource (λ r n1, r < n1)); [|done].
  intros n' a h Hi. by apply (Resource_run mid n' (h, a)).
Qed.

Lemma inv_on_app_Resource n k : inv (st_inv (W := W) (B := B) mid n) (on_app k Resource).
Proof.
  intros s Hs. pose proof (on_app_run n k Resource (λ r n1, r < n1) s Hs) as Hrun.
  destruct (on_app k Resource s) as [[r|e] s']; apply Hrun; intros n' a h Hi;
    by apply (Resource_run mid n' (h, a)).
Qed.

Lemma inv_pods `{JSONPathLaws} {A} n k (f : result MetaPodSpec → M (st W B) A) :
  (∀ e n1, n ≤ n1 → inv (st_inv mid n1) (f (Err e))) →
  (∀ pod n1, n ≤ n1 → pod_ok n1 pod → inv (st_inv mid n1) (f (Ok pod))) →
  inv (st_inv mid n) (on_app k BindablePods ≫= f).
Proof.
  intros Herr Hok.
  apply (inv_on_app_bind n k BindablePods (λ r m, ∀ pod, r = Ok pod → pod_ok m pod)).
  - intros n' a h Hi. by apply (BindablePods_run mid n' (h, a)).
  - intros [pod|e] n1 Hn Hpod; [by apply Hok, Hpod|by apply Herr].
Qed.
End Context.

(** ** The interface to the world

    What the operations of the context rely on.  The promise about the world is
    kept by every call they make: reads of what may be read, and writes of the
    secret of the binding, of workloads that may be updated and of the binding
    itself.  An access review that says yes makes something allowed. *)

(** The secret a binding writes: its name is derived from that of the binding,
    which controls it. *)
Definition own_secret {W} (pl : pledge W) (o : json) : Prop :=
  ∃ hashed data owner, o = secret_json (pl_namespace pl) (hashed_name (pl_name pl) hashed) owner data ∧
    match owner with
    | Some r => or_name r = pl_name pl ∧ or_uid r = pl_uid pl ∧ or_controller r = true
    | None => pl_uid pl = ""
    end.

(** What is read without asking: CRDs and the secret of the binding. *)
Definition read_unasked {W} (pl : pledge W) (gvr : GroupVersionResource) (ns name : string) : Prop :=
  gvr ∈ crdGVRs ∨
  gvr = secretGVR ∧ ns = pl_namespace pl ∧ ∃ hashed, name = hashed_name (pl_name pl) hashed.

Class SafeWorld (W B : Type) `{KubeAPI W} `{BindingAPI W B} `{Clock W} `{ServiceBindingKind B}
    `{UserInfoJSON} (pl : pledge W) := {
  safe_may (s s1 : st W B) n verb gvr ns name :
    st_inv pl n s → canPerform gvr name ns verb s = (Ret true, s1) → pl_may pl verb gvr ns name;
  safe_named gvr ns name w u w' :
    kube_get gvr ns name w = (Ret (Ok u), w') → pl_may pl "update" gvr ns name →
    pl_may pl "update" gvr ns (GetName u);
  safe_get gvr ns name :
    pl_may pl "get" gvr ns name ∨ read_unasked pl gvr ns name →
    inv (pl_world pl) (kube_get gvr ns name);
  safe_list gvr ns sel :
    pl_may pl "list" gvr ns "" ∨ pl_owned pl ∧ gvr ∈ bindableResourceGVRs → inv (pl_world pl) (kube_list gvr ns sel);
  safe_review user groups verb ns gvr name :
    inv (pl_world pl) (kube_subjectAccessReview user groups verb ns gvr name);
  safe_resourceForKind k : inv (pl_world pl) (kube_resourceForKind k);
  safe_kindForResource r : inv (pl_world pl) (kube_kindForResource r);
  safe_now : inv (pl_world pl) time_Now;
  safe_create_secret o :
    own_secret pl o → inv (pl_world pl) (kube_create secretGVR (pl_namespace pl) o);
  safe_update_secret o :
    own_secret pl o → inv (pl_world pl) (kube_update secretGVR (pl_namespace pl) o);
  safe_update_app gvr name o :
    pl_may pl "update" gvr (pl_namespace pl) name →
    inv (pl_world pl) (kube_update gvr (pl_namespace pl) o);
  safe_binding_update (b : B) :
    kept (pl_meta pl) (sbk_meta b) → inv (pl_world pl) (binding_update b);
  safe_binding_updateStatus (b : B) :
    kept (pl_meta pl) (sbk_meta b) → inv (pl_world pl) (binding_updateStatus b)
}.

#[export] Hint Resolve inv_ctx_gets inv_on_app_Resource : inv.
#[export] Hint Extern 1 (inv _ (ctx_modify _)) => apply inv_ctx_modify; done : inv.

(** ** The operations of the context *)
Section Impl.
Context {W B : Type} `{KubeAPI W} `{BindingAPI W B} `{Clock W} `{ServiceBindingKind B}.
Context `{!ServiceBindingLaws B}.
Context `{UserInfoJSON} `{JSONPathLib} `{BucketRateLimiter} `{MappingDecoder}.
Context (mid : pledge W) `{!SafeWorld W B mid} (n : nat).

Abbreviation P := (st_inv (W := W) (B := B) mid n).

Lemma inv_SetCondition c : inv P (SetCondition c).
Proof. unfold SetCondition. inv_auto. Qed.
Lemma inv_RetryProcessing e : inv P (RetryProcessing e).
Proof. unfold RetryProcessing. inv_auto. Qed.
Lemma inv_Error e : inv P (Error e).
Proof. unfold Error. inv_auto. Qed.
Lemma inv_StopProcessing : inv P StopProcessing.
Proof. unfold StopProcessing. inv_auto. Qed.
Lemma inv_DelayReprocessing e : inv P (DelayReprocessing e).
Proof. unfold DelayReprocessing. inv_auto. Qed.
Lemma inv_AddBindingItem i : inv P (AddBindingItem i).
Proof. unfold AddBindingItem, new_item. inv_auto. Qed.
Lemma inv_AddBindings b : inv P (AddBindings b).
Proof. unfold AddBindings. inv_auto. Qed.

Lemma inv_CleanAnnotations : inv P CleanAnnotations.
Proof.
  unfold CleanAnnotations. apply inv_bind; [inv_auto|]. intros i. destruct (aget _ _) as [v|]; [|inv_auto].
  apply inv_bind; [|intros; inv_auto]. intros s (Hh & Ha & [Hid Hsub] & Hpl).
  split; [done|]. split; [done|]. split; [|done].
  simpl. unfold bindingMeta. rewrite meta_set. unfold kept, identity in *. simpl. split.
  - by rewrite other_annotations_adel.
  - etrans; [apply adel_sublist|done].
Qed.

Lemma inv_canPerform gvr name ns verb : inv P (canPerform gvr name ns verb).
Proof. unfold canPerform. inv_auto. apply inv_on_world, safe_review. Qed.

Hint Resolve inv_SetCondition inv_RetryProcessing inv_Error inv_StopProcessing inv_DelayReprocessing
  inv_AddBindingItem inv_AddBindings inv_CleanAnnotations inv_canPerform : inv.

(** Asking for a right, and going on when it is there. *)
Lemma inv_asking {A} gvr name ns verb (f : bool → M (st W B) A) :
  inv P (f false) → (pl_may mid verb gvr ns name → inv P (f true)) →
  inv P (canPerform gvr name ns verb ≫= f).
Proof.
  intros Hf Ht s Hs. pose proof (inv_canPerform gvr name ns verb s Hs) as Hs1.
  unfold mbind, M_bind. destruct (canPerform gvr name ns verb s) as [[[]|e] s1] eqn:E; [|by apply Hf|done].
  apply Ht; [|done]. exact (safe_may _ _ _ _ _ _ _ Hs E).
Qed.

Lemma inv_asked_get gvr ns name :
  pl_may mid "get" gvr ns name → inv P (on_world (kube_get gvr ns name)).
Proof. intros Hm. apply inv_on_world, safe_get. by left. Qed.
Hint Resolve inv_asked_get : inv.

Lemma inv_ReadConfigMap ns name : inv P (ReadConfigMap ns name).
Proof. apply inv_asking; [inv_auto|]. intros Hm. inv_auto. Qed.
Lemma inv_ReadSecret ns name : inv P (ReadSecret ns name).
Proof. apply inv_asking; [inv_auto|]. intros Hm. inv_auto. Qed.

Lemma inv_set_sbb_items k items : inv P (set_sbb_items k items).
Proof. unfold set_sbb_items. inv_auto. Qed.
Lemma inv_decode_items k b data acc : inv P (decode_items k b data acc).
Proof.
  revert acc. induction data as [|[x v] data IH]; intros acc; simpl; [apply inv_ret|].
  destruct (DecodeString v); [|apply inv_ret]. unfold new_item.
  apply inv_bind; [inv_auto|]. intros id. apply inv_bind; [apply inv_set_sbb_items|]. intros _. apply IH.
Qed.
Hint Resolve inv_set_sbb_items inv_decode_items : inv.

Lemma inv_Items k : inv P (Items k).
Proof. unfold Items. inv_auto. Qed.

Lemma inv_secret_items ks : inv P (secret_items ks).
Proof.
  induction ks as [|k ks IH]; simpl; [apply inv_ret|].
  apply inv_bind; [apply inv_Items|]. intros r. inv_auto.
Qed.
Hint Resolve inv_ReadConfigMap inv_ReadSecret inv_Items inv_secret_items : inv.

Lemma inv_BindingItems : inv P BindingItems.
Proof. unfold BindingItems. inv_auto. Qed.
Lemma inv_bindingItemMap : inv P bindingItemMap.
Proof. unfold bindingItemMap. inv_auto. Qed.
Hint Resolve inv_BindingItems inv_bindingItemMap : inv.

Lemma inv_bindingSecretName : inv P bindingSecretName.
Proof. unfold bindingSecretName. inv_auto. Qed.
Lemma inv_BindingSecretName : inv P BindingSecretName.
Proof. unfold BindingSecretName. apply inv_fmap, inv_bindingSecretName. Qed.

Lemma inv_set_status_conditions cs : inv P (set_status_conditions cs).
Proof.
  induction cs as [|c cs IH]; simpl; [apply inv_ret|]. apply inv_bind; [apply inv_on_world, safe_now|].
  intros now. apply inv_bind; [|done]. apply inv_ctx_modify. intros i. split; [done|].
  simpl. by rewrite meta_conditions.
Qed.
Hint Resolve inv_bindingSecretName inv_BindingSecretName inv_set_status_conditions : inv.

(** Reading the context, knowing what the invariant says about it. *)
Lemma inv_with_ctx {A C} (g : impl B → A) (f : A → M (st W B) C) :
  (∀ s, P s → inv P (f (g (st_ctx s)))) → inv P (ctx_gets g ≫= f).
Proof. intros Hf s Hs. exact (Hf s Hs s Hs). Qed.

Lemma inv_persistBinding : inv P persistBinding.
Proof.
  unfold persistBinding. apply inv_bind; [apply inv_ctx_gets|]. intros i.
  destruct (String.eqb _ ""); [apply inv_ret|]. apply inv_bind; [apply inv_set_status_conditions|].
  intros _. apply inv_with_ctx. intros s (_ & _ & Hid & _).
  apply inv_rbind; [by apply inv_on_world, safe_binding_updateStatus|].
  intros _. by apply inv_on_world, safe_binding_update.
Qed.
Hint Resolve inv_persistBinding : inv.

(** A secret that does not exist yet is named after the binding. *)
Lemma bindingSecretName_hashed (s s' : st W B) name :
  st_inv mid n s → bindingSecretName s = (Ret (name, false), s') →
  ∃ data, name = hashed_name (pl_name mid) data.
Proof.
  intros (_ & _ & Hid & _) Hr. unfold bindingSecretName in Hr.
  apply mbind_inv in Hr as (i & s1 & Hi & Hr). injection Hi as <- <-.
  unfold id in Hr. destruct (UnbindRequested (st_ctx s)); [done|].
  destruct (kept_fields _ _ Hid) as (Hn & _). fold (bindingMeta (st_ctx s)) in Hn.
  fold (pl_name mid) in Hn. rewrite <- Hn.
  assert (∀ s2 : st W B, (bindingItemMap ≫= λ data, mret (hashed_name (om_name (bindingMeta (st_ctx s))) data, false)) s2
    = (Ret (name, false), s') → ∃ data, name = hashed_name (om_name (bindingMeta (st_ctx s))) data) as Hh.
  { intros s2 (data & s3 & _ & Hd)%mbind_inv. injection Hd as <- _. by exists data. }
  go_cases; eauto.
Qed.

Lemma inv_persistSecret : inv P persistSecret.
Proof.
  unfold persistSecret.
  apply (inv_bind_post _ (λ ne, ne.2 = false → ∃ data, ne.1 = hashed_name (pl_name mid) data));
    [apply inv_bindingSecretName|by intros s [name []] s' Hs Hr Hf; [|eapply bindingSecretName_hashed]|].
  intros [name []] Hname; [apply inv_ret|]. destruct (Hname eq_refl) as [hashed Hn]. simpl in Hn. subst name.
  apply inv_bind; [apply inv_bindingItemMap|]. intros [|kv data]; [apply inv_ret|].
  apply inv_with_ctx. intros s (_ & _ & Hid & _). unfold id.
  destruct (kept_fields _ _ Hid) as (Hn & Hns & Hu & _). fold (bindingMeta (st_ctx s)) in Hns.
  fold (pl_namespace mid) in Hns. rewrite Hns.
  set (owner := if String.eqb _ "" then _ else _).
  assert (own_secret mid (secret_json (pl_namespace mid) (hashed_name (pl_name mid) hashed) owner (kv :: data)))
    as Hown.
  { exists hashed, (kv :: data), owner. split; [done|]. subst owner.
    unfold bindingMeta, pl_uid, pl_name in *. rewrite <- Hn, <- Hu.
    destruct (String.eqb_spec (om_uid (sbk_meta (i_binding (st_ctx s)))) ""); [done|]. apply owner_meta. }
  apply inv_bind; [apply inv_on_world, safe_get; right; right; eauto|].
  intros [u|e]; [|destruct (IsNotFound e); [|apply inv_ret]]; (apply inv_bind; [|inv_auto]).
  - by apply inv_on_world, safe_update_secret.
  - by apply inv_on_world, safe_create_secret.
Qed.
Hint Resolve inv_persistSecret : inv.

Lemma inv_PersistSecret : inv P PersistSecret.
Proof.
  unfold PersistSecret. inv_auto. apply inv_ctx_modify. intros i. split; [done|].
  simpl. by rewrite meta_secretName.
Qed.

Lemma inv_update_applications ks : inv P (update_applications ks).
Proof.
  induction ks as [|k ks IH]; simpl; [apply inv_ret|]. apply inv_with_ctx. intros s (_ & _ & _ & Hpl & _).
  apply inv_bind; [inv_auto|]. intros h. destruct (i_applications (st_ctx s) !! k) as [app|] eqn:Hk; [|inv_auto].
  destruct (IsUpdated h app); [|done]. apply inv_bind; [inv_auto|]. intros root.
  apply inv_bind; [inv_auto|]. intros h'. apply inv_with_ctx. intros s2 (_ & _ & Hid & _).
  destruct (kept_fields _ _ Hid) as (_ & Hns & _). fold (bindingMeta (st_ctx s2)) in Hns.
  fold (pl_namespace mid) in Hns. unfold id. rewrite Hns.
  destruct (resource_json h' root); [|inv_auto]. apply inv_bind; [|intros []; inv_auto].
  apply inv_on_world. eapply safe_update_app. rewrite Forall_forall in Hpl.
  apply Hpl. by eapply list_elem_of_lookup_2.
Qed.
Hint Resolve inv_PersistSecret inv_update_applications : inv.

Lemma inv_Close : inv P Close.
Proof. unfold Close. inv_auto. Qed.

Lemma inv_WorkloadResourceTemplate gvr path : inv P (WorkloadResourceTemplate gvr path).
Proof.
  unfold WorkloadResourceTemplate. apply inv_bind; [inv_auto|]. intros i.
  destruct (i_resourceMapping i); [inv_auto|]. apply inv_asking; [simpl; inv_auto|]. intros Hm. simpl. inv_auto.
Qed.

Lemma inv_on_service {A} k (m : service → M W (A * service)) :
  (∀ s, inv (pl_world mid) (m s)) → inv P (on_service k m).
Proof. intros Hm. unfold on_service. inv_auto. by apply inv_on_world. Qed.

(** *** Services, as far as they talk to the world *)
Lemma world_ResourceForReferable {R} `{Referable R} (r : R) :
  inv (pl_world mid) (ResourceForReferable r).
Proof.
  unfold ResourceForReferable, ResourceForKind. inv_auto. apply (safe_resourceForKind (B := B)).
Qed.
Lemma world_builder_Build b u options : inv (pl_world mid) (builder_Build b u options).
Proof. unfold builder_Build. inv_auto. apply (safe_resourceForKind (B := B)). Qed.
Lemma world_CustomResourceDefinition s : inv (pl_world mid) (CustomResourceDefinition s).
Proof.
  assert (∀ crds name e, Forall (λ c, c ∈ crdGVRs) crds → inv (pl_world mid) (read_crd crds name e)) as Hr.
  { intros crds name e Hc. revert e. induction Hc as [|c crds Hc _ IH]; intros e; simpl; [apply inv_ret|].
    apply inv_bind; [apply (safe_get (B := B)); right; by left|]. intros []; inv_auto. }
  unfold CustomResourceDefinition, run_CrdReader. inv_auto. apply Hr. apply Forall_forall. done.
Qed.
Lemma world_OwnedResources s : pl_owned mid → inv (pl_world mid) (service_OwnedResources s).
Proof.
  intros Hown.
  assert (∀ gvrs ns uid acc, Forall (λ g, g ∈ bindableResourceGVRs) gvrs →
    inv (pl_world mid) (list_owned ns uid gvrs acc)) as Hl.
  { intros gvrs ns uid acc Hg. revert acc. induction Hg as [|g gvrs Hg _ IH]; intros acc; simpl; [apply inv_ret|].
    apply inv_bind; [apply (safe_list (B := B)); by right|]. intros []; inv_auto. }
  unfold service_OwnedResources. inv_auto. apply Hl. apply Forall_forall. done.
Qed.
Lemma world_crd_Resource c : inv (pl_world mid) (crd_Resource c).
Proof. unfold crd_Resource, crd_IsBindable, service_getValuesByJSONPath. inv_auto. Qed.
End Impl.

#[export] Hint Resolve inv_SetCondition inv_RetryProcessing inv_Error inv_StopProcessing
  inv_DelayReprocessing inv_AddBindingItem inv_AddBindings inv_CleanAnnotations inv_canPerform
  inv_ReadConfigMap inv_ReadSecret inv_Items inv_secret_items inv_BindingItems inv_bindingItemMap
  inv_bindingSecretName inv_BindingSecretName inv_persistBinding inv_persistSecret inv_PersistSecret
  inv_Close inv_WorkloadResourceTemplate inv_asked_get : inv.

(** ** The interface between the kinds of binding and the handlers

    What the handlers rely on: reading services and applications keeps the
    invariant.  Both kinds are shown to satisfy it. *)
Class SafeContext (W B : Type) `{KubeAPI W} `{BindingAPI W B} `{Clock W} `{ServiceBindingKind B}
    `{UserInfoJSON} `{PipelineContext W B} := {
  Services_inv (pl : pledge W) `{!SafeWorld W B pl} n :
    inv (st_inv pl n) (Services (W := W) (B := B));
  Applications_inv (pl : pledge W) `{!SafeWorld W B pl} n :
    inv (st_inv pl n) (Applications (W := W) (B := B))
}.
#[export] Hint Resolve Services_inv Applications_inv : inv.

Section Kinds.
Context {W B : Type} `{KubeAPI W} `{BindingAPI W B} `{Clock W} `{ServiceBindingKind B}.
Context `{!ServiceBindingLaws B}.
Context `{UserInfoJSON} `{JSONPathLib} `{BucketRateLimiter} `{MappingDecoder}.
Context (pl : pledge W) `{!SafeWorld W B pl} (n : nat).
Abbreviation P := (st_inv (W := W) (B := B) pl n).

Lemma inv_read_service gvr name ns owned id : inv P (read_service gvr name ns owned id).
Proof.
  apply inv_asking; [apply _|simpl; inv_auto|]. intros Hm. simpl. unfold add_service. inv_auto.
  by apply inv_on_world, (world_builder_Build (B := B)).
Qed.
Lemma inv_resourceFor {R} `{Referable R} (r : R) : inv P (on_world (ResourceForReferable r)).
Proof. by apply inv_on_world, (world_ResourceForReferable (B := B)). Qed.
Lemma inv_all_services : inv P all_services.
Proof. unfold all_services. inv_auto. Qed.
Lemma inv_all_applications : inv P all_applications.
Proof. unfold all_applications. inv_auto. Qed.

(** The namespace a flow works in. *)
Lemma st_inv_namespace (s : st W B) :
  st_inv pl n s → om_namespace (sbk_meta (i_binding (st_ctx s))) = pl_namespace pl.
Proof. intros (_ & _ & Hid & _). by destruct (kept_fields _ _ Hid) as (_ & ? & _). Qed.

Context (gvr : GroupVersionResource) (mk : json → application).
Context (Hmk : ∀ u, a_resource (mk u) = None ∧ a_gvr (mk u) = gvr ∧ a_persistedResource (mk u) = u).

Lemma inv_add_application u :
  pl_may pl "update" gvr (pl_namespace pl) (GetName u) → inv P (add_application (mk u)).
Proof.
  intros Hu s (Hh & Happs & Hid & Hpl & Hw). destruct (Hmk u) as (Hr & Hg & Hp).
  split_and!; [done| |done| |done]; simpl; apply Forall_app; (split; [done|]); (constructor; [|done]).
  - unfold app_ok. by rewrite Hr.
  - unfold app_pledge. by rewrite Hg, Hp.
Qed.

Lemma inv_named_application name : inv P (named_application gvr name (pl_namespace pl) mk).
Proof.
  unfold named_application. destruct (String.eqb name ""); [apply inv_ret|].
  apply inv_asking; [apply _|simpl; inv_auto|]. intros Hget. simpl.
  apply inv_asking; [apply _|simpl; inv_auto|]. intros Hupd. simpl.
  apply (inv_bind_post _ (λ r, ∀ u, r = Ok u → pl_may pl "update" gvr (pl_namespace pl) (GetName u))).
  - by apply inv_asked_get.
  - intros s r s' _ Hr u ->. unfold on_world, zoom in Hr.
    destruct (kube_get gvr (pl_namespace pl) name (st_world s)) as [r' w'] eqn:E. simplify_eq.
    by eapply (safe_named (B := B)).
  - intros [u|e] Hr; [|inv_auto]. apply inv_bind; [apply inv_add_application; eauto|]. inv_auto.
Qed.

Lemma inv_selected_applications sel :
  inv P (selected_applications gvr (pl_namespace pl) sel mk).
Proof.
  assert (∀ items, inv P (listed_applications gvr (pl_namespace pl) mk items)) as Hl.
  { induction items as [|item items IH]; simpl; [inv_auto|].
    apply inv_asking; [apply _|simpl; inv_auto|]. intros Hu. simpl.
    apply inv_bind; [by apply inv_add_application|]. done. }
  unfold selected_applications. destruct sel as [sel|]; [|inv_auto].
  apply inv_asking; [apply _|simpl; inv_auto|]. intros Hm. simpl. inv_auto.
  apply inv_on_world, (safe_list (B := B)). by left.
Qed.
End Kinds.

#[export] Hint Resolve inv_read_service inv_resourceFor inv_all_services inv_all_applications : inv.
#[export] Hint Extern 2 (inv _ (named_application _ _ _ _)) =>
  apply inv_named_application; [apply _|done] : inv.
#[export] Hint Extern 2 (inv _ (selected_applications _ _ _ _)) =>
  apply inv_selected_applications; [apply _|done] : inv.

Section Instances.
Context {W : Type} `{KubeAPI W} `{Clock W} `{UserInfoJSON} `{JSONPathLib} `{BucketRateLimiter}.
Context `{MappingDecoder}.

#[export] Instance bindingImpl_safe `{BindingAPI W v1alpha1.ServiceBinding} :
  SafeContext W v1alpha1.ServiceBinding.
Proof.
  split; intros pl Hpl n.
  - change (inv (st_inv pl n) bindingImpl_Services). unfold bindingImpl_Services.
    assert (∀ spec ns refs, inv (st_inv pl n) (read_services spec ns refs)) as Hr.
    { intros spec ns refs. induction refs as [|r refs IH]; simpl; inv_auto. }
    inv_auto.
  - change (inv (st_inv pl n) bindingImpl_Applications). unfold bindingImpl_Applications.
    apply inv_with_ctx. intros s Hs%st_inv_namespace. unfold id.
    cbn [sbk_meta v1alpha1_kind] in Hs. rewrite Hs. inv_auto.
Qed.

#[export] Instance specImpl_safe `{BindingAPI W v1beta1.ServiceBinding} :
  SafeContext W v1beta1.ServiceBinding.
Proof.
  split; intros pl Hpl n.
  - change (inv (st_inv pl n) specImpl_Services). unfold specImpl_Services. inv_auto.
  - change (inv (st_inv pl n) specImpl_Applications). unfold specImpl_Applications.
    apply inv_with_ctx. intros s Hs%st_inv_namespace. unfold id.
    cbn [sbk_meta v1beta1_kind] in Hs. rewrite Hs. inv_auto.
Qed.
End Instances.

(** ** The handlers *)
Section Handlers.
Context {W B : Type} `{KubeAPI W} `{BindingAPI W B} `{Clock W} `{ServiceBindingKind B}.
Context `{!ServiceBindingLaws B}.
Context `{UserInfoJSON} `{JSONPathLaws} `{BucketRateLimiter} `{MappingDecoder} `{Converter}.
Context `{Templates} `{PipelineContext W B} `{!SafeContext W B}.
Context (mid : pledge W) `{!SafeWorld W B mid}.

Section Collect.
Context (n : nat).
Abbreviation P := (st_inv (W := W) (B := B) mid n).

Lemma inv_requestRetry r e : inv P (requestRetry r e).
Proof. unfold requestRetry. inv_auto. Qed.
Lemma inv_service_at k : inv P (service_at k).
Proof. unfold service_at. inv_auto. Qed.
Lemma inv_for_services body : (∀ k, inv P (body k)) → inv P (for_services body).
Proof. intros Hb. unfold for_services, services_or_nil. inv_auto. Qed.
Lemma inv_service_crd k : inv P (service_crd k).
Proof.
  apply inv_on_service. intros s. inv_auto. apply (world_CustomResourceDefinition (B := B) mid).
Qed.
Lemma inv_crd_annotations k : inv P (crd_annotations k).
Proof. apply inv_on_service. intros s. inv_auto. apply world_crd_Resource. Qed.
Lemma inv_add_definition k kv : inv P (add_definition k kv).
Proof. unfold add_definition. inv_auto. apply inv_on_service. inv_auto. Qed.
Hint Resolve inv_requestRetry inv_service_at inv_service_crd inv_crd_annotations inv_add_definition : inv.

Lemma inv_collectItems val prefix source k : inv P (collectItems val prefix source k).
Proof.
  revert prefix k. induction val as [| | | | |t l _|m IH] using json_ind'; intros prefix k; simpl; inv_auto.
  generalize (if String.eqb (prefix +:+ k +:+ "_") "_" then "" else prefix +:+ k +:+ "_") as p. intros p.
  induction IH as [|[x v] m Hv _ IHm]; [apply inv_ret|]. destruct v; inv_auto; simpl in *; auto.
Qed.

Lemma inv_Apply def u : inv P (Apply (W := st W B) ctx_readers def u).
Proof.
  unfold_Apply. unfold with_path_values, getValuesByJSONPath, read_other, ctx_readers. inv_auto.
  all: cbn [configMapReader secretReader]; eauto with inv.
Qed.
Hint Resolve inv_collectItems inv_Apply : inv.

Lemma inv_PreFlight : inv P PreFlight.
Proof. unfold PreFlight. inv_auto. Qed.
Lemma inv_BindingDefinitions : inv P BindingDefinitions.
Proof. apply inv_for_services. intros k. inv_auto. Qed.
Lemma inv_collect_BindingItems : inv P collect_BindingItems.
Proof. apply inv_for_services. intros k. unfold apply_definition. inv_auto. Qed.
Lemma inv_ProvisionedService : inv P ProvisionedService.
Proof. apply inv_for_services. intros k. inv_auto. Qed.
Lemma inv_DirectSecretReference : inv P DirectSecretReference.
Proof. apply inv_for_services. intros k. inv_auto. Qed.
Lemma inv_OwnedResources : pl_owned mid → inv P OwnedResources.
Proof.
  intros Hown. unfold OwnedResources, collect_owned. inv_auto. by apply inv_on_world, (world_OwnedResources (B := B) mid).
Qed.
Lemma inv_mapping_Handle : inv P mapping_Handle.
Proof. unfold mapping_Handle, template_vars, services_or_nil. inv_auto. Qed.
Lemma inv_naming_Handle : inv P naming_Handle.
Proof. unfold naming_Handle, name_item, naming_stop, set_item_name. inv_auto. Qed.
End Collect.

#[local] Hint Resolve inv_PreFlight inv_BindingDefinitions inv_collect_BindingItems
  inv_ProvisionedService inv_DirectSecretReference inv_OwnedResources inv_mapping_Handle
  inv_naming_Handle : inv.

Section Project.
Context (n : nat).
Abbreviation P := (st_inv (W := W) (B := B) mid n).

Lemma inv_stop e : inv P (stop e).
Proof. unfold stop. inv_auto. Qed.
Hint Resolve inv_stop : inv.
Lemma inv_or_stop m : inv P m → inv P (or_stop m).
Proof. intros Hm. unfold or_stop. inv_auto. Qed.
Lemma inv_then m k : inv P m → inv P k → inv P (then_ m k).
Proof. intros Hm Hk. unfold then_. inv_auto. Qed.
Lemma inv_app_at k : inv P (app_at (W := W) (B := B) k).
Proof. unfold app_at. inv_auto. Qed.
Lemma inv_applications_or_nil : inv P applications_or_nil.
Proof. unfold applications_or_nil. inv_auto. Qed.
Hint Resolve inv_app_at inv_applications_or_nil : inv.

Lemma inv_PreFlightCheck keys : inv P (PreFlightCheck keys).
Proof. unfold PreFlightCheck, check_mandatory. inv_auto. Qed.
Lemma inv_PostFlightCheck : inv P PostFlightCheck.
Proof. unfold PostFlightCheck. inv_auto. Qed.

Lemma inv_on_store_op {A} n1 (m : M heap A) (a : loc) :
  a < n1 → (∀ n', a < n' → inv (heap_inv n') m) →
  inv (st_inv (W := W) (B := B) mid n1) (on_store m).
Proof. intros Ha Hm. apply inv_on_store. intros n' Hn. apply Hm. lia. Qed.
End Project.

Lemma hSetNestedField_inv n root text seen fields h :
  heap_inv n h → root < length h → heap_inv n (hSetNestedField root text seen fields h).2.
Proof.
  revert root seen h n. induction fields as [|f fields IH]; intros root seen h n Hh Hroot; [done|].
  destruct fields as [|g fields].
  { destruct Hh as [Hok Hn]. split; [by apply heap_ok_hset|simpl; by rewrite hset_length]. }
  cbn [hSetNestedField]. destruct (aget f (cell_at h root)) as [v|] eqn:Hf.
  - destruct v; try done. apply IH; [done|]. eapply entry_valid; [apply Hh|done].
  - pose proof (alloc_child_inv h root f n Hh) as Hc. simpl.
    eapply heap_inv_mono; [apply IH; [exact Hc|destruct Hc; lia]|destruct Hh; lia].
Qed.

#[local] Hint Resolve inv_stop inv_app_at inv_applications_or_nil inv_PreFlightCheck
  inv_PostFlightCheck inv_or_stop inv_then : inv.

Lemma inv_InjectSecretRef n : inv (st_inv (W := W) (B := B) mid n) InjectSecretRef.
Proof.
  unfold InjectSecretRef. inv_auto. apply inv_or_stop, inv_root. intros root n1 _ Hroot.
  apply inv_bind; [eauto with inv|]. intros name. apply inv_on_store. intros n' Hn h Hh.
  pose proof (hSetNestedField_inv n' root name [] (Split (SecretPath a0) ".") h Hh) as Hs.
  destruct (hSetNestedField root name [] (Split (SecretPath a0) ".") h) as [r h'].
  apply Hs. destruct Hh. lia.
Qed.

Lemma inv_for_pods n (body : MetaPodSpec → M (st W B) (ctl unit)) :
  (∀ pod n1, n ≤ n1 → pod_ok n1 pod → inv (st_inv mid n1) (body pod)) →
  inv (st_inv mid n) (for_pods body).
Proof.
  intros Hb. unfold for_pods. apply inv_bind; [eauto with inv|]. intros ns.
  apply inv_bind; [|inv_auto]. apply inv_for_each. intros k _.
  apply inv_pods; [done|intros e n1 _; inv_auto|exact Hb].
Qed.

(** The containers of a pod, and the operations on one of them. *)
Lemma pod_container n pod c : pod_ok n pod → c ∈ mp_Containers pod → mc_Data c < n.
Proof. intros [_ Hcs] Hc. rewrite Forall_forall in Hcs. by apply Hcs. Qed.

Lemma inv_BindingsAsEnv n : inv (st_inv (W := W) (B := B) mid n) BindingsAsEnv.
Proof.
  unfold BindingsAsEnv. inv_auto. apply inv_for_pods. intros pod n1 _ Hpod. inv_auto.
  assert (mc_Data x < n1) as Hx by by eapply pod_container.
  apply inv_then; [inv_auto; apply inv_or_stop|apply inv_or_stop];
    (eapply inv_on_store_op; [exact Hx|]; intros n' Hn).
  - by apply AddEnvFromVar_inv.
  - by apply AddEnvVars_inv.
Qed.

Lemma inv_BindingsAsFiles n : inv (st_inv (W := W) (B := B) mid n) BindingsAsFiles.
Proof.
  unfold BindingsAsFiles. inv_auto. apply inv_for_pods. intros pod n1 _ Hpod. apply inv_then.
  { apply inv_or_stop. eapply inv_on_store_op; [apply Hpod|]. intros n' Hn. by apply AddVolume_inv. }
  inv_auto; assert (mc_Data x < n1) as Hx by (by eapply pod_container); try apply inv_or_stop;
    (eapply inv_on_store_op; [exact Hx|]; intros n' Hn).
  - by apply MountPath_inv.
  - by apply AddVolumeMount_inv.
Qed.

Lemma inv_unbind_container n secretName bindingName vars c :
  mc_Data c < n → inv (st_inv (W := W) (B := B) mid n) (unbind_container secretName bindingName vars c).
Proof.
  intros Hc. unfold unbind_container.
  apply inv_then; [inv_auto|apply inv_then]; apply inv_or_stop;
    (eapply inv_on_store_op; [exact Hc|]; intros n' Hn).
  - by apply RemoveEnvVars_inv.
  - by apply RemoveEnvFromVars_inv.
  - by apply RemoveVolumeMount_inv.
Qed.

Lemma inv_unbind_app n secretName bindingName vars k :
  inv (st_inv (W := W) (B := B) mid n) (unbind_app secretName bindingName vars k).
Proof.
  unfold unbind_app. apply inv_pods; [done|intros; apply inv_panic|].
  intros pod n1 _ Hpod. apply inv_then.
  - apply inv_or_stop. eapply inv_on_store_op; [apply Hpod|]. intros n' Hn. by apply RemoveVolume_inv.
  - inv_auto. apply inv_unbind_container. by eapply pod_container.
Qed.
#[local] Hint Resolve inv_unbind_app : inv.

Lemma inv_Unbind n : inv (st_inv (W := W) (B := B) mid n) Unbind.
Proof. unfold Unbind. inv_auto. Qed.
#[local] Hint Resolve inv_InjectSecretRef inv_BindingsAsEnv inv_BindingsAsFiles inv_Unbind : inv.

Lemma inv_invokeHandler n (h : M (st W B) unit) :
  inv (st_inv mid n) h → inv (st_inv mid n) (invokeHandler h).
Proof.
  intros Hh s Hs. specialize (Hh s Hs). unfold invokeHandler.
  destruct (h s) as [[u|e] s']; [done|by apply inv_RetryProcessing].
Qed.

Lemma inv_run_handlers n hs status :
  Forall (inv (st_inv (W := W) (B := B) mid n)) hs → inv (st_inv mid n) (run_handlers hs status).
Proof.
  intros Hhs. revert status. induction Hhs as [|h hs Hh _ IH]; intros status; simpl; [apply inv_ret|].
  apply inv_bind; [by apply inv_invokeHandler|]. intros _. inv_auto.
Qed.

Lemma inv_process_ctx n hs :
  Forall (inv (st_inv (W := W) (B := B) mid n)) hs → inv (st_inv mid n) (process_ctx hs).
Proof. intros Hhs. unfold process_ctx. inv_auto. by apply inv_run_handlers. Qed.

Lemma inv_flows n :
  (pl_owned mid → Forall (inv (st_inv (W := W) (B := B) mid n)) defaultFlow) ∧
  Forall (inv (st_inv (W := W) (B := B) mid n)) specFlow.
Proof. split; intros; repeat apply Forall_cons_2; try apply Forall_nil_2; eauto with inv. Qed.
End Handlers.
