(* ===== verification/Safety.v ===== *)
(** * Safety of whole flows

    What the invariant of [Invariant] says about both flows: no dangling
    references, a binding that keeps its identity, and nothing done or read that
    the requester may not do or read. *)

From S2P Require Import Prelude.
From S2P Require Import GoLib.
From S2P Require Import GoValue.
From S2P Require Import JsonPath.
From S2P Require Import Heap.
From S2P Require Import Converter.
From S2P Require Import Workload.
From S2P Require Import WorkloadSpec.
From S2P Require Import Kube.
From S2P Require Import Apis.
From S2P Require Import Binding.
From S2P Require Import Service.
From S2P Require Import Application.
From S2P Require Import Context.
From S2P Require Import Kinds.
From S2P Require Import Collect.
From S2P Require Import Project.
From S2P Require Import Pipeline.
From S2P Require Import Cluster.
From S2P Require Import Invariant.

(** ** Both flows *)
Section Flows.
Context {W : Type} `{KubeAPI W} `{BindingAPI W v1alpha1.ServiceBinding}
  `{BindingAPI W v1beta1.ServiceBinding} `{Clock W}.
Context `{UserInfoJSON} `{JSONPathLib} `{BucketRateLimiter} `{MappingDecoder} `{Converter} `{Templates}.

(** The state a flow starts in. *)
Definition fresh {B} (i : impl B) (w : W) : st W B := {| st_world := w; st_heap := []; st_ctx := i |}.

Lemma fresh_Provider (pl : pledge W) b w :
  kept (pl_meta pl) (sbk_meta b) → pl_world pl w → st_inv pl 0 (fresh (Provider_Get b) w).
Proof.
  intros Hid Hw. split; [by split; [|simpl; lia]|]. split; [by constructor|]. split; [exact Hid|].
  split; [by constructor|exact Hw].
Qed.

Lemma SpecProvider_Get_parts b :
  i_applications (SpecProvider_Get b) = [] ∧ sbk_meta (i_binding (SpecProvider_Get b)) = sbk_meta b.
Proof.
  unfold SpecProvider_Get. destruct (om_generation _ =? 0)%Z; simpl;
    repeat case_match; by split.
Qed.

Lemma fresh_SpecProvider (pl : pledge W) b w :
  kept (pl_meta pl) (sbk_meta b) → pl_world pl w → st_inv pl 0 (fresh (SpecProvider_Get b) w).
Proof.
  intros Hid Hw. destruct (SpecProvider_Get_parts b) as [Ha Hb]. split; [by split; [|simpl; lia]|].
  cbn [fresh st_ctx st_heap st_world]. rewrite Ha, Hb. split; [done|]. split; [exact Hid|]. by split.
Qed.

(** The invariant after a part of either flow, and after all of it. *)
Lemma flows_inv `{!JSONPathLaws} (pl : pledge W) (k : nat) (w : W) : pl_world pl w →
  (∀ b : v1alpha1.ServiceBinding,
     SafeWorld W v1alpha1.ServiceBinding pl → kept (pl_meta pl) (sbk_meta b) → pl_owned pl →
     st_inv pl 0 (run_handlers (take k defaultFlow) zero_status (fresh (Provider_Get b) w)).2) ∧
  (∀ b : v1beta1.ServiceBinding,
     SafeWorld W v1beta1.ServiceBinding pl → kept (pl_meta pl) (sbk_meta b) →
     st_inv pl 0 (run_handlers (take k specFlow) zero_status (fresh (SpecProvider_Get b) w)).2).
Proof.
  intros Hw. split; [intros b Hg Hid Ho|intros b Hg Hid];
    (eapply inv_run_handlers; [by apply Forall_take, inv_flows|]).
  - by apply fresh_Provider.
  - by apply fresh_SpecProvider.
Qed.

Lemma Process_inv_coreos `{!JSONPathLaws} (pl : pledge W) (w : W) (b : v1alpha1.ServiceBinding) :
  SafeWorld W v1alpha1.ServiceBinding pl → kept (pl_meta pl) (sbk_meta b) → pl_owned pl →
  pl_world pl w →
  let r := Process Provider_Get defaultFlow b w in
  kept (pl_meta pl) (sbk_meta r.1.2) ∧ pl_world pl r.2.
Proof.
  intros Hs Hid Ho Hw r; subst r; unfold Process.
  pose proof (inv_process_ctx pl 0 defaultFlow (proj1 (inv_flows pl 0) Ho) _ (fresh_Provider pl b w Hid Hw))
    as (_ & _ & Hid' & _ & Hw').
  unfold fresh in *. by destruct (process_ctx defaultFlow _) as [[]].
Qed.

Lemma Process_inv_spec `{!JSONPathLaws} (pl : pledge W) (w : W) (b : v1beta1.ServiceBinding) :
  SafeWorld W v1beta1.ServiceBinding pl → kept (pl_meta pl) (sbk_meta b) → pl_world pl w →
  let r := Process SpecProvider_Get specFlow b w in
  kept (pl_meta pl) (sbk_meta r.1.2) ∧ pl_world pl r.2.
Proof.
  intros Hs Hid Hw r; subst r; unfold Process.
  pose proof (inv_process_ctx pl 0 specFlow (proj2 (inv_flows pl 0)) _ (fresh_SpecProvider pl b w Hid Hw))
    as (_ & _ & Hid' & _ & Hw').
  unfold fresh in *. by destruct (process_ctx specFlow _) as [[]].
Qed.

(** A promise about the identity alone. *)
Definition identity_pledge (m : ObjectMeta) : pledge W :=
  {| pl_meta := m; pl_may _ _ _ _ := True; pl_owned := True; pl_world _ := True |}.

#[export] Instance identity_safe {B} `{ServiceBindingKind B} `{BindingAPI W B} m :
  SafeWorld W B (identity_pledge m).
Proof. by split. Qed.

(** No dangling references: after any number of handlers of either flow,
    whatever the services and workloads look like and whether handlers succeed,
    fail or panic, every map the store refers to exists, and so does the root of
    the copy of every application. *)
Lemma flows_no_dangling (hlaws : JSONPathLaws) (k : nat) (w : W)
    (b1 : v1alpha1.ServiceBinding) (b2 : v1beta1.ServiceBinding) :
  (let s := (run_handlers (take k defaultFlow) zero_status (fresh (Provider_Get b1) w)).2 in
   heap_ok (st_heap s) = true ∧ Forall (app_ok (st_heap s)) (i_applications (st_ctx s))) ∧
  (let s := (run_handlers (take k specFlow) zero_status (fresh (SpecProvider_Get b2) w)).2 in
   heap_ok (st_heap s) = true ∧ Forall (app_ok (st_heap s)) (i_applications (st_ctx s))).
Proof.
  split; cbv zeta.
  - destruct (proj1 (flows_inv (identity_pledge (sbk_meta b1)) k w I) b1 _ (kept_refl _) I)
      as ([? _] & ? & _). by split.
  - destruct (proj2 (flows_inv (identity_pledge (sbk_meta b2)) k w I) b2 _ (kept_refl _))
      as ([? _] & ? & _). by split.
Qed.

(** C21: processing a binding changes nothing in its metadata, but may take away
    the mark of a changed mapping: name, namespace, UID, generation, finalizers,
    deletion timestamp and all other annotations, the requester among them, are
    the same afterwards and none is added, in both flows and on every path. *)
Theorem Process_keeps_identity (hlaws : JSONPathLaws) (w : W)
    (b1 : v1alpha1.ServiceBinding) (b2 : v1beta1.ServiceBinding) :
  kept (sbk_meta b1) (sbk_meta (Process Provider_Get defaultFlow b1 w).1.2) ∧
  kept (sbk_meta b2) (sbk_meta (Process SpecProvider_Get specFlow b2 w).1.2).
Proof.
  split.
  - by destruct (Process_inv_coreos (identity_pledge (sbk_meta b1)) w b1 _ (kept_refl _) I I).
  - by destruct (Process_inv_spec (identity_pledge (sbk_meta b2)) w b2 _ (kept_refl _) I).
Qed.

(** ** Permissions *)
Section Permissions.
Context (allowed : string → list string → string → string → GroupVersionResource → string → Prop).

(** The access review only says yes to what is allowed, and reading an object
    gives one of that name. *)
Definition sound_review : Prop := ∀ user groups verb ns gvr name w w',
  kube_subjectAccessReview user groups verb ns gvr name w = (Ret (Ok true), w') →
  allowed user groups verb ns gvr name.
Definition named_get : Prop := ∀ gvr ns name w u w',
  kube_get gvr ns name w = (Ret (Ok u), w') → GetName u = name.

Definition may_update (user : UserInfo) (m : ObjectMeta) (gvr : GroupVersionResource) (u : json) : Prop :=
  allowed (ui_username user) (ui_groups user) "update" (om_namespace m) gvr (GetName u).

(** The same promise about any world. *)
Definition permission_pledge (user : UserInfo) (m : ObjectMeta) (owned : Prop) (good : W → Prop) :
    pledge W :=
  {| pl_meta := m;
     pl_may verb gvr ns name := allowed (ui_username user) (ui_groups user) verb ns gvr name;
     pl_owned := owned; pl_world := good |}.

Lemma canPerform_sound {B} `{ServiceBindingKind B} user gvr name ns verb (s s1 : st W B) :
  sound_review → Requester (bindingMeta (st_ctx s)) = Some user →
  canPerform gvr name ns verb s = (Ret true, s1) →
  allowed (ui_username user) (ui_groups user) verb ns gvr name.
Proof.
  intros Hrev Hreq Hc. unfold canPerform in Hc. apply mbind_inv in Hc as (i & s2 & Hi & Hc).
  unfold ctx_gets, mgets in Hi. simplify_eq/=. rewrite Hreq in Hc.
  apply mbind_inv in Hc as (r & s3 & Hr & Hc). unfold on_world, zoom in Hr.
  destruct (kube_subjectAccessReview (ui_username user) (ui_groups user) verb ns gvr name (st_world s2))
    as [r' w'] eqn:E. simplify_eq/=. destruct r as [[]|e]; try done. by eapply Hrev.
Qed.

Lemma permission_may {B} `{ServiceBindingKind B} user m owned good (s s1 : st W B) n verb gvr ns name :
  sound_review → Requester m = Some user → st_inv (permission_pledge user m owned good) n s →
  canPerform gvr name ns verb s = (Ret true, s1) →
  allowed (ui_username user) (ui_groups user) verb ns gvr name.
Proof.
  intros Hrev Hreq (_ & _ & Hid & _). eapply canPerform_sound; [done|].
  unfold Requester in *. unfold bindingMeta. by rewrite (identity_aget requesterAnnotationKey _ _ (proj1 Hid)).
Qed.

Lemma permission_safe {B} `{ServiceBindingKind B} `{BindingAPI W B} user m :
  sound_review → named_get → Requester m = Some user →
  SafeWorld W B (permission_pledge user m True (λ _, True)).
Proof.
  intros Hrev Hget Hreq. split; try done.
  - intros. by eapply permission_may.
  - intros gvr ns name w u w' Hu Hm. by rewrite (Hget _ _ _ _ _ _ Hu).
Qed.

(** C12: a binding never touches a workload its requester may not update: when
    a requester is recorded in the binding, then after any number of handlers of
    either flow every application of the context is one that was read from the
    cluster under a name the requester is allowed to update. *)
Theorem only_permitted_workloads (hlaws : JSONPathLaws) (k : nat) (w : W) (user : UserInfo)
    (b1 : v1alpha1.ServiceBinding) (b2 : v1beta1.ServiceBinding) :
  sound_review → named_get →
  Requester (sbk_meta b1) = Some user → Requester (sbk_meta b2) = Some user →
  Forall (λ a, may_update user (sbk_meta b1) (a_gvr a) (a_persistedResource a))
    (i_applications (st_ctx (run_handlers (take k defaultFlow) zero_status (fresh (Provider_Get b1) w)).2)) ∧
  Forall (λ a, may_update user (sbk_meta b2) (a_gvr a) (a_persistedResource a))
    (i_applications (st_ctx (run_handlers (take k specFlow) zero_status (fresh (SpecProvider_Get b2) w)).2)).
Proof.
  intros Hrev Hget Hr1 Hr2. split.
  - by destruct (proj1 (flows_inv (permission_pledge user (sbk_meta b1) True (λ _, True)) k w I) b1
      (permission_safe user _ Hrev Hget Hr1) (kept_refl _) I) as (_ & _ & _ & Hall & _).
  - by destruct (proj2 (flows_inv (permission_pledge user (sbk_meta b2) True (λ _, True)) k w I) b2
      (permission_safe user _ Hrev Hget Hr2) (kept_refl _)) as (_ & _ & _ & Hall & _).
Qed.

(** What a binding reads for its requester, the requester may read: with a
    recorded requester, [ReadSecret] and [ReadConfigMap] give an object, and a
    service is added to the context, only if the requester is allowed to get
    exactly that object; for either kind of binding. *)
Lemma reads_need_permission {B} `{ServiceBindingKind B} (user : UserInfo) (s s' : st W B)
    (gvr : GroupVersionResource) (ns name : string) (owned : bool) (id : option string) (o : json) :
  sound_review → Requester (bindingMeta (st_ctx s)) = Some user →
  let may_get gvr := allowed (ui_username user) (ui_groups user) "get" ns gvr name in
  (ReadSecret ns name s = (Ret (Ok o), s') → may_get secretGVR) ∧
  (ReadConfigMap ns name s = (Ret (Ok o), s') → may_get configMapGVR) ∧
  (read_service gvr name ns owned id s = (Ret (Ok tt), s') → may_get gvr).
Proof.
  intros Hrev Hreq. cbv zeta. split_and!; intros Hr; apply mbind_inv in Hr as ([] & s1 & Hc & Hr);
    first [exact (canPerform_sound user _ _ _ _ s s1 Hrev Hreq Hc)|done].
Qed.
End Permissions.
End Flows.

(** ** At work *)
Section Witness.
#[local] Instance alpha_in_beta : BindingAPI (cluster v1beta1.ServiceBinding) v1alpha1.ServiceBinding := {|
  binding_get _ name := mret (Err (EAPI true name));
  binding_update b := mret (Err (EAPI true (om_name (sbk_meta b))));
  binding_updateStatus b := mret (Err (EAPI true (om_name (sbk_meta b))))
|}.

Definition demo_app (meta : ObjectMeta) : v1alpha1.ServiceBinding :=
  {| v1alpha1.sb_kind := "ServiceBinding"; v1alpha1.sb_apiVersion := "binding.operators.coreos.com/v1alpha1";
     v1alpha1.sb_objectMeta := meta;
     v1alpha1.sb_spec := {| v1alpha1.sp_name := ""; v1alpha1.sp_namingStrategy := "";
       v1alpha1.sp_mappings := None; v1alpha1.sp_services := None;
       v1alpha1.sp_application := {| v1alpha1.ap_ref := {| v1alpha1.r_group := "apps";
           v1alpha1.r_version := "v1"; v1alpha1.r_kind := "Deployment"; v1alpha1.r_resource := "";
           v1alpha1.r_name := "web" |};
         v1alpha1.ap_labelSelector := None; v1alpha1.ap_bindingPath := None |};
       v1alpha1.sp_detectBindingResources := false; v1alpha1.sp_bindAsFiles := true |};
     v1alpha1.sb_status := {| v1alpha1.ss_conditions := []; v1alpha1.ss_secret := "" |} |}.
Abbreviation demo_coreos_binding := (demo_app (demo_meta [] [] None)).
Abbreviation demo_spec_binding := (demo_binding (demo_meta [] [] None) [] None).

(** The deployment is copied into the store and bound there: ten maps. *)
Lemma flows_no_dangling_witness :
  let s := (run_handlers specFlow zero_status (fresh (SpecProvider_Get demo_spec_binding)
              (demo_cluster demo_workload []))).2 in
  heap_ok (st_heap s) = true ∧ length (st_heap s) = 10 ∧
  Forall (app_ok (st_heap s)) (i_applications (st_ctx s)).
Proof.
  cbv zeta.
  destruct (flows_no_dangling dotted_laws 10 (demo_cluster demo_workload []) demo_coreos_binding demo_spec_binding)
    as [_ [H1 H2]]. split; [exact H1|]. split; [by vm_compute|exact H2].
Defined.

Lemma Process_keeps_identity_witness :
  kept (demo_meta [] [] None) (sbk_meta (Process SpecProvider_Get specFlow demo_spec_binding
    (demo_cluster demo_workload [demo_spec_binding])).1.2).
Proof.
  destruct (Process_keeps_identity dotted_laws (demo_cluster demo_workload [demo_spec_binding])
    demo_coreos_binding demo_spec_binding) as [_ H2]. exact H2.
Defined.

(** The same bindings asked for by a user. *)
Definition asked_by (user : string) : ObjectMeta := 
  demo_meta [(requesterAnnotationKey, marshal_UserInfo {| ui_username := user; ui_groups := [] |})] [] None.
Definition not_eve (user : string) (groups : list string) (verb ns : string)
    (gvr : GroupVersionResource) (name : string) : Prop := user ≠ "eve".

Lemma server_review : sound_review (W := cluster v1beta1.ServiceBinding) not_eve.
Proof.
  intros user groups verb ns gvr name w w' Hr. injection Hr as Hr _. intros ->. done.
Qed.

Lemma server_get : named_get (W := cluster v1beta1.ServiceBinding).
Proof.
  intros gvr ns name w u w' Hg. injection Hg as Hg _.
  destruct (find _ (cl_objects w)) as [o|] eqn:Hf; [|done]. injection Hg as <-.
  apply find_some in Hf as [_ [_ Hn]%andb_true_iff]. by apply String.eqb_eq.
Qed.

Abbreviation asked_state user :=
  (fresh (SpecProvider_Get (demo_binding (asked_by user) [] None)) (demo_cluster demo_workload [])).

Lemma reads_need_permission_witness :
  not_eve "alice" [] "get" "ns" secretGVR "db-secret" ∧
  (ReadSecret "ns" "db-secret" (asked_state "eve")).1 ≠ Ret (Ok demo_secret).
Proof.
  split.
  - refine (proj1 (reads_need_permission not_eve {| ui_username := "alice"; ui_groups := [] |}
      (asked_state "alice") (ReadSecret "ns" "db-secret" (asked_state "alice")).2 secretGVR "ns" "db-secret"
      false None demo_secret server_review _) _); by vm_compute.
  - by vm_compute.
Defined.

(** Nothing is bound for [eve]; for [alice] the deployment is. *)
Lemma only_permitted_workloads_witness :
  i_applications (st_ctx (run_handlers specFlow zero_status
    (fresh (SpecProvider_Get (demo_binding (asked_by "eve") [] None)) (demo_cluster demo_workload []))).2) = [] ∧
  length (i_applications (st_ctx (run_handlers specFlow zero_status
    (fresh (SpecProvider_Get (demo_binding (asked_by "alice") [] None)) (demo_cluster demo_workload []))).2)) = 1.
Proof.
  split; [|by vm_compute].
  destruct (only_permitted_workloads not_eve dotted_laws 10 (demo_cluster demo_workload [])
    {| ui_username := "eve"; ui_groups := [] |} (demo_app (asked_by "eve"))
    (demo_binding (asked_by "eve") [] None) server_review server_get) as [_ Hall]; [by vm_compute..|].
  change (take 10 specFlow) with (specFlow (W := cluster v1beta1.ServiceBinding)
    (B := v1beta1.ServiceBinding)) in Hall.
  destruct (i_applications _) as [|a l]; [done|]. by apply Forall_cons in Hall as [[] _].
Defined.
End Witness.
