(* ===== verification/ApisSpec.v ===== *)
(** * What the binding resources guarantee

    Theorems about [Apis]: the finalizer, the status conditions. *)

From S2P Require Import Prelude.
From S2P Require Import GoLib.
From S2P Require Import GoValue.
From S2P Require Import Apis.

(** ** Finalizers *)
Lemma existsb_eqb (x : string) l : existsb (λ y, String.eqb y x) l = true ↔ x ∈ l.
Proof.
  rewrite existsb_exists. split.
  - intros (y & Hy & ->%String.eqb_eq). by apply list_elem_of_In.
  - intros Hx. exists x. split; [by apply list_elem_of_In|apply String.eqb_refl].
Qed.

Lemma remove_first_snoc (p : string → bool) l x :
  existsb p l = false → p x = true → remove_first p (l ++ [x]) = Some l.
Proof.
  intros Hl Hx. apply remove_first_Some. exists l, x, []. rewrite app_nil_r.
  repeat split; [done|]. apply Forall_forall. intros y Hy. by eapply existsb_false.
Qed.

(** C35: [MaybeAddFinalizer] makes sure the finalizer is there and says whether
    it changed anything; adding it again changes nothing; and what it added
    [MaybeRemoveFinalizer] takes away again, leaving the metadata as they were. *)
Theorem finalizer_roundtrip (m : ObjectMeta) :
  let '(added, m1) := MaybeAddFinalizer m in
  finalizerName ∈ om_finalizers m1 ∧
  MaybeAddFinalizer m1 = (false, m1) ∧
  (if added then (finalizerName ∉ om_finalizers m) ∧ MaybeRemoveFinalizer m1 = (true, m) else m1 = m).
Proof.
  unfold MaybeAddFinalizer, MaybeRemoveFinalizer.
  destruct (existsb (λ f, String.eqb f finalizerName) (om_finalizers m)) eqn:He.
  { rewrite He. split_and!; [by apply existsb_eqb|done..]. }
  assert (existsb (λ f, String.eqb f finalizerName) (om_finalizers m ++ [finalizerName]) = true) as He'.
  { apply existsb_eqb. set_solver. }
  cbn [om_finalizers with_finalizers]. rewrite He', remove_first_snoc by done.
  split_and!; [set_solver|done|..].
  - intros Hin%existsb_eqb. congruence.
  - by destruct m.
Qed.

(** ** Conditions *)
Definition of_type (ty : string) (c : Condition) : bool := String.eqb (c_type c) ty.

Lemma SetStatusCondition_types now cs c :
  c_type <$> SetStatusCondition now cs c =
  (c_type <$> cs) ++ (if decide (c_type c ∈ c_type <$> cs) then [] else [c_type c]).
Proof.
  induction cs as [|d cs IH]; csimpl; [done|].
  destruct (String.eqb_spec (c_type d) (c_type c)) as [Hd|Hd]; csimpl.
  - rewrite decide_True by (rewrite Hd; set_solver). by rewrite app_nil_r.
  - rewrite IH. f_equal. f_equal. destruct (decide (c_type c ∈ c_type <$> cs)).
    + by rewrite decide_True by set_solver.
    + rewrite decide_False by (rewrite elem_of_cons; intros [|]; congruence). done.
Qed.

Lemma SetStatusCondition_others now cs c ty :
  ty ≠ c_type c → find (of_type ty) (SetStatusCondition now cs c) = find (of_type ty) cs.
Proof.
  intros Hty. unfold of_type. induction cs as [|d cs IH]; cbn [SetStatusCondition find].
  { simpl. by destruct (String.eqb_spec (c_type c) ty). }
  destruct (String.eqb_spec (c_type d) (c_type c)) as [Hd|Hd]; cbn [find c_type].
  - rewrite Hd. by destruct (String.eqb_spec (c_type c) ty).
  - by rewrite IH.
Qed.

Lemma SetStatusCondition_found now cs c :
  ∃ d, find (of_type (c_type c)) (SetStatusCondition now cs c) = Some d ∧
    c_status d = c_status c ∧ c_reason d = c_reason c ∧ c_message d = c_message c ∧
    c_observedGeneration d = c_observedGeneration c ∧
    c_lastTransitionTime d =
      match find (of_type (c_type c)) cs with
      | Some o => if decide (c_status o = c_status c) then c_lastTransitionTime o
                  else Some (default now (c_lastTransitionTime c))
      | None => Some (default now (c_lastTransitionTime c))
      end.
Proof.
  unfold of_type. induction cs as [|d cs IH]; cbn [SetStatusCondition find].
  { cbn [c_type]. rewrite String.eqb_refl. eexists. split; [done|]. by destruct (c_lastTransitionTime c). }
  destruct (String.eqb_spec (c_type d) (c_type c)) as [Hd|Hd]; cbn [find c_type].
  - rewrite Hd, String.eqb_refl. eexists. split; [done|]. cbn. split_and!; [done..|].
    destruct (decide _); [done|]. by destruct (c_lastTransitionTime c).
  - destruct (String.eqb_spec (c_type d) (c_type c)); done.
Qed.

(** C36: setting a condition: the condition of that type has the new status,
    reason, message and generation; conditions of other types are untouched and no type
    occurs twice; the transition time moves exactly when the status changes. *)
Theorem SetStatusCondition_correct (now : Z) (cs : list Condition) (c : Condition) :
  NoDup (c_type <$> cs) →
  let cs' := SetStatusCondition now cs c in
  NoDup (c_type <$> cs') ∧
  (∀ ty, ty ≠ c_type c → find (of_type ty) cs' = find (of_type ty) cs) ∧
  ∃ d, find (of_type (c_type c)) cs' = Some d ∧
    c_status d = c_status c ∧ c_reason d = c_reason c ∧ c_message d = c_message c ∧
    c_observedGeneration d = c_observedGeneration c ∧
    c_lastTransitionTime d =
      match find (of_type (c_type c)) cs with
      | Some o => if decide (c_status o = c_status c) then c_lastTransitionTime o
                  else Some (default now (c_lastTransitionTime c))
      | None => Some (default now (c_lastTransitionTime c))
      end.
Proof.
  intros Hnd. cbv zeta. split_and!.
  - rewrite SetStatusCondition_types. destruct (decide _); [by rewrite app_nil_r|].
    apply NoDup_app. split_and!; [done| |apply NoDup_singleton]. set_solver.
  - intros ty. apply SetStatusCondition_others.
  - apply SetStatusCondition_found.
Qed.

Lemma SetStatusCondition_correct_witness :
  let old := {| c_type := "Ready"; c_status := ConditionFalse; c_reason := "ProcessingError";
                c_message := None; c_lastTransitionTime := Some 5%Z; c_observedGeneration := 0 |} in
  NoDup (c_type <$> SetStatusCondition 9 [old] (cond_BindingReady "ApplicationsBound" None)) ∧
  ∃ d, find (of_type "Ready") (SetStatusCondition 9 [old] (cond_BindingReady "ApplicationsBound" None))
       = Some d ∧ c_lastTransitionTime d = Some 9%Z.
Proof.
  cbv zeta.
  destruct (SetStatusCondition_correct 9 [{| c_type := "Ready"; c_status := ConditionFalse;
    c_reason := "ProcessingError"; c_message := None; c_lastTransitionTime := Some 5%Z; c_observedGeneration := 0 |}]
    (cond_BindingReady "ApplicationsBound" None)) as (H1 & _ & d & H2 & _ & _ & _ & _ & H3);
    [apply NoDup_singleton|].
  split; [exact H1|]. exists d. split; [exact H2|exact H3].
Defined.
