(* ===== verification/ContextSpec.v ===== *)
(** * What the context guarantees

    Theorems about [Context] and [Application]: the name of the binding secret,
    the conditions a binding ends up with, which mapping template is used, and
    when a workload counts as changed. *)

From S2P Require Import Prelude.
From S2P Require Import GoLib.
From S2P Require Import GoValue.
From S2P Require Import JsonPath.
From S2P Require Import Heap.
From S2P Require Import Converter.
From S2P Require Import Kube.
From S2P Require Import Apis.
From S2P Require Import ApisSpec.
From S2P Require Import Binding.
From S2P Require Import Service.
From S2P Require Import Workload.
From S2P Require Import Application.
From S2P Require Import Sha256.
From S2P Require Import Context.
From S2P Require Import Kinds.
From S2P Require Import Collect.
From S2P Require Import Cluster.

(** ** The order of strings *)
Lemma string_le_compare a b : string_le a b ↔ String.compare a b ≠ Gt.
Proof. unfold string_le, String.leb. by destruct (String.compare a b). Qed.

Lemma ascii_compare_N a b : Ascii.compare a b = N.compare (Ascii.N_of_ascii a) (Ascii.N_of_ascii b).
Proof. done. Qed.

#[export] Instance string_le_trans : Transitive string_le.
Proof.
  intros a b c. rewrite !string_le_compare. revert b c.
  induction a as [|x a IH]; intros [|y b] [|z c]; simpl; try done.
  rewrite !ascii_compare_N.
  destruct (N.compare_spec (Ascii.N_of_ascii x) (Ascii.N_of_ascii y)),
    (N.compare_spec (Ascii.N_of_ascii y) (Ascii.N_of_ascii z)),
    (N.compare_spec (Ascii.N_of_ascii x) (Ascii.N_of_ascii z)); try done; try lia. apply IH.
Qed.
#[export] Instance string_le_total : Total string_le.
Proof. intros a b. apply String.leb_total. Qed.
#[export] Instance string_le_antisymm : AntiSymm (=) string_le.
Proof. intros a b. apply String.leb_antisym. Qed.

Lemma sort_strings_perm l l' : l ≡ₚ l' → sort_strings l = sort_strings l'.
Proof.
  intros Hp. apply (StronglySorted_unique string_le).
  - apply Sorted_StronglySorted; [apply _|]. apply Sorted_merge_sort. apply _.
  - apply Sorted_StronglySorted; [apply _|]. apply Sorted_merge_sort. apply _.
  - unfold sort_strings. by rewrite !merge_sort_Permutation.
Qed.

(** ** The name of the binding secret *)

(** C37: the name of the binding secret depends on the collected data as a map
    only: the order in which items were collected or a Go map is iterated does
    not matter. *)
Theorem hashed_name_order (name : string) (data data' : list (string * string)) :
  NoDup data.*1 → data ≡ₚ data' → hashed_name name data = hashed_name name data'.
Proof.
  intros Hnd Hp. unfold hashed_name, hash_input.
  rewrite (sort_strings_perm data.*1 data'.*1) by by rewrite Hp.
  do 5 f_equal. apply map_ext. intros k. by rewrite (aget_perm k data data').
Qed.

Lemma hashed_name_order_witness :
  hashed_name "b" [("user", "u"); ("password", "p")] = hashed_name "b" [("password", "p"); ("user", "u")].
Proof.
  apply (hashed_name_order "b" [("user", "u"); ("password", "p")]); [|constructor].
  apply (bool_decide_unpack _). by vm_compute.
Defined.

(** The name does not identify the data: key and value are hashed without
    a separator, so moving text from the value to the key keeps the name. *)
Lemma hashed_name_collision (name k t v : string) :
  hashed_name name [(k, t +:+ v)] = hashed_name name [(k +:+ t, v)].
Proof.
  unfold hashed_name, hash_input. cbn. rewrite !String.eqb_refl. cbn.
  assert (k +:+ t +:+ v = (k +:+ t) +:+ v) as ->; [|done].
  induction k as [|a k IH]; [done|]. by rewrite !string_app_cons, IH.
Qed.

(** ** The mapping template of a workload type *)
Lemma default_last_cons {A} (w x : A) l : default w (last (x :: l)) = default x (last l).
Proof. rewrite last_cons. by destruct (last l). Qed.

Lemma pick_template_spec version vs w :
  pick_template version vs w =
  (find (λ t, String.eqb (cmt_version t) version) vs,
   default w (last (filter (λ t, cmt_version t = "*")
     (match list_find (λ t, cmt_version t = version) vs with
      | Some (i, _) => take i vs
      | None => vs
      end)))).
Proof.
  revert w. induction vs as [|t vs IH]; intros w; simpl; [done|].
  destruct (String.eqb_spec (cmt_version t) version) as [Hv|Hv].
  { by rewrite decide_True. }
  rewrite decide_False by done.
  assert (∀ rest, default w (last (filter (λ t, cmt_version t = "*") (t :: rest))) =
    default (if String.eqb (cmt_version t) "*" then t else w)
      (last (filter (λ t, cmt_version t = "*") rest))) as Hlast.
  { intros rest. rewrite filter_cons. destruct (String.eqb_spec (cmt_version t) "*").
    - rewrite decide_True by done. apply default_last_cons.
    - by rewrite decide_False by done. }
  destruct (list_find (λ t, cmt_version t = version) vs) as [[i x]|] eqn:Hf; simpl;
    rewrite Hlast; destruct (String.eqb (cmt_version t) "*"); by rewrite IH.
Qed.

(** The template for an API version among those of a mapping: the first one
    for exactly that version; otherwise the last wildcard; otherwise the
    built-in default. *)
Definition chosen_template (version : string) (versions : list ClusterWorkloadResourceMappingTemplate) :
    ClusterWorkloadResourceMappingTemplate :=
  match find (λ t, String.eqb (cmt_version t) version) versions with
  | Some t => t
  | None => default DefaultTemplate (last (filter (λ t, cmt_version t = "*") versions))
  end.
Definition chosen_containers (t : ClusterWorkloadResourceMappingTemplate) :
    list ClusterWorkloadResourceMappingContainer :=
  match cmt_containers t with [] => cmt_containers DefaultTemplate | cs => cs end.

Lemma pick_template_chosen version versions :
  (let '(exact, wildcard) := pick_template version versions DefaultTemplate in default wildcard exact) =
  chosen_template version versions.
Proof.
  rewrite pick_template_spec. unfold chosen_template.
  destruct (find _ versions) as [t|] eqn:Hf; [done|].
  assert (list_find (λ t, cmt_version t = version) versions = None) as ->; [|done].
  apply list_find_None, Forall_forall. intros t Ht Hv. apply list_elem_of_In in Ht.
  eapply find_none in Hf; [|exact Ht]. simpl in Hf. rewrite Hv, String.eqb_refl in Hf. done.
Qed.

Lemma resolve_template_chosen version containerPath versions :
  let t := chosen_template version versions in
  let path := "." +:+ containerPath +:+ "[*]" in
  ∃ extra,
    resolve_template version containerPath None versions = set_containers (chosen_containers t ++ extra) t ∧
    (containerPath = "" → extra = []) ∧
    (containerPath ≠ "" → path ∈ cmc_path <$> (chosen_containers t ++ extra)) ∧
    (extra = [] ∨ cmc_path <$> extra = [path]).
Proof.
  cbv zeta. unfold resolve_template. pose proof (pick_template_chosen version versions) as Hc.
  destruct (pick_template version versions DefaultTemplate) as [exact wildcard].
  assert (match exact with Some t => t | None => default wildcard None end = chosen_template version versions) as ->
    by (rewrite <- Hc; by destruct exact).
  set (t := chosen_template version versions).
  assert (match cmt_containers t with [] => set_containers (cmt_containers DefaultTemplate) t | _ :: _ => t end =
          set_containers (chosen_containers t) t) as ->.
  { unfold chosen_containers. by destruct t as [v a [|c cs] vol]. }
  destruct (String.eqb_spec containerPath "") as [->|Hp].
  { exists []. rewrite app_nil_r. split_and!; [done|done|done|by left]. }
  cbn [set_containers cmt_containers].
  destruct (existsb _ (chosen_containers t)) eqn:He.
  - eexists. split; [reflexivity|]. split_and!; [done| |by right]. intros _. rewrite fmap_app. set_solver.
  - exists []. rewrite app_nil_r. split_and!; [done|done| |by left]. intros _.
    destruct (chosen_containers t) as [|c cs] eqn:Ec.
    { unfold chosen_containers in Ec. by destruct (cmt_containers t). }
    cbn [existsb] in He. apply orb_false_iff in He as [He%negb_false_iff _].
    apply String.eqb_eq in He. csimpl. rewrite He. by left.
Qed.

Section Template.
Context {W B : Type} `{KubeAPI W} `{BindingAPI W B} `{Clock W} `{ServiceBindingKind B}.
Context `{UserInfoJSON} `{JSONPathLib} `{BucketRateLimiter} `{MappingDecoder}.

(** The versions of the mapping in force for a type of workloads: those the
    binding was marked with when the mapping changed, otherwise those in the
    cluster, none when there is no mapping for the type. *)
Definition mapping_in_force (gvr : GroupVersionResource) (binding : impl B) (w : W)
    (versions : list ClusterWorkloadResourceMappingTemplate) : Prop :=
  match aget MappingAnnotationKey (om_annotations (bindingMeta binding)) with
  | Some mappingData => unmarshal_Mapping mappingData = Ok versions
  | None =>
      match (kube_get v1beta1.WorkloadResourceMappingGroupVersionResource "" (GroupResource_String gvr) w).1 with
      | Ret (Ok mappingObj) => mapping_FromUnstructured mappingObj = Ok versions
      | Ret (Err e) => IsNotFound e = true ∧ versions = []
      | Panic _ => False
      end
  end.

(** C39: how a workload is read is decided by the mapping in force, the one
    the binding was marked with before the one in the cluster: by its template
    for exactly the API version of the workload, otherwise by its last wildcard,
    otherwise by the default; a template without containers takes the default
    ones; and a container path of the binding is among the containers then,
    after those of the template. *)
Theorem WorkloadResourceTemplate_precedence gvr containerPath versions (s s1 : st W B) :
  i_resourceMapping (st_ctx s) = None →
  canPerform v1beta1.WorkloadResourceMappingGroupVersionResource (GroupResource_String gvr) "" "get" s =
    (Ret true, s1) →
  mapping_in_force gvr (st_ctx s) (st_world s1) versions →
  let t := chosen_template (gvr_version gvr) versions in
  let path := "." +:+ containerPath +:+ "[*]" in
  ∃ extra,
    (WorkloadResourceTemplate gvr containerPath s).1 =
      Ret (FromWorkloadResourceMappingTemplate (set_containers (chosen_containers t ++ extra) t)) ∧
    (containerPath = "" → extra = []) ∧
    (containerPath ≠ "" → path ∈ cmc_path <$> (chosen_containers t ++ extra)) ∧
    (extra = [] ∨ cmc_path <$> extra = [path]).
Proof.
  intros Hm Hc Hv. destruct (resolve_template_chosen (gvr_version gvr) containerPath versions) as (extra & Hr & Hx).
  exists extra. split; [|exact Hx]. rewrite <- Hr.
  unfold WorkloadResourceTemplate. rewrite (mbind_ret _ _ s (st_ctx s) s) by done. cbv beta. rewrite Hm.
  rewrite (mbind_ret _ _ _ _ _ Hc). cbn [negb]. unfold mapping_in_force in Hv.
  destruct (aget MappingAnnotationKey _) as [d|]; [by rewrite Hv|].
  unfold mbind, M_bind, on_world, zoom. destruct (kube_get _ _ _ (st_world s1)) as [[[o|e]|e] w']; [| |done]; simpl in Hv.
  - by rewrite Hv.
  - destruct Hv as [-> ->]. done.
Qed.
End Template.

Section TemplateWitness.
(** A decoder that knows one mapping, with a template for [v2] and a wildcard. *)
Definition template_for (version path : string) : ClusterWorkloadResourceMappingTemplate :=
  {| cmt_version := version; cmt_annotations := ""; cmt_volumes := ".spec.volumes";
     cmt_containers := [{| cmc_path := path; cmc_name := ""; cmc_env := ""; cmc_volumeMounts := "" |}] |}.
#[local] Instance two_templates : MappingDecoder := {|
  unmarshal_Mapping _ := Ok [template_for "*" ".spec.any[*]"; template_for "v2" ".spec.two[*]"];
  mapping_FromUnstructured _ := Ok []
|}.
Definition marked_state : st (cluster v1beta1.ServiceBinding) v1beta1.ServiceBinding :=
  {| st_world := demo_cluster demo_workload []; st_heap := [];
     st_ctx := SpecProvider_Get (demo_binding (demo_meta [(MappingAnnotationKey, "mapping")] [] None) [] None) |}.

Lemma WorkloadResourceTemplate_precedence_witness :
  let gvr := {| gvr_group := "example.com"; gvr_version := "v2"; gvr_resource := "jobs" |} in
  ∃ extra, (WorkloadResourceTemplate gvr "spec.more" marked_state).1 =
    Ret (FromWorkloadResourceMappingTemplate (set_containers
      (cmt_containers (template_for "v2" ".spec.two[*]") ++ extra) (template_for "v2" ".spec.two[*]"))) ∧
    ".spec.more[*]" ∈ cmc_path <$> (cmt_containers (template_for "v2" ".spec.two[*]") ++ extra).
Proof.
  cbv zeta. destruct (WorkloadResourceTemplate_precedence
    {| gvr_group := "example.com"; gvr_version := "v2"; gvr_resource := "jobs" |} "spec.more"
    [template_for "*" ".spec.any[*]"; template_for "v2" ".spec.two[*]"] marked_state marked_state)
    as (extra & Hr & _ & Hin & _); [by vm_compute..|].
  exists extra. split; [exact Hr|]. by apply Hin.
Defined.
End TemplateWitness.

(** A container path given in the binding is added once more when the
    template already has it next to another one: with the default template, the
    path of the containers of a deployment is there twice, so each container is
    bound twice. *)
Lemma container_path_added_twice :
  cmc_path <$> cmt_containers
    (resolve_template "v1" "spec.template.spec.containers" (Some DefaultTemplate) []) =
  [".spec.template.spec.containers[*]"; ".spec.template.spec.initContainers[*]";
   ".spec.template.spec.containers[*]"].
Proof. by vm_compute. Qed.

(** ** When a workload counts as changed *)

(** The maps of a tree have no key twice. *)
Fixpoint distinct_keys (j : json) : bool :=
  match j with
  | JArr _ l => forallb distinct_keys l
  | JObj m => bool_decide (NoDup m.*1) && forallb (λ kv, distinct_keys kv.2) m
  | _ => true
  end.

Lemma DeepEqual_refl (j : json) : distinct_keys j = true → DeepEqual j j = true.
Proof.
  induction j as [|b|z|r|s|t l IH|m IH] using json_ind'; intros Hj; simpl in Hj |- *; try done.
  - by destruct b.
  - by rewrite Z.eqb_refl.
  - by rewrite String.eqb_refl.
  - by rewrite String.eqb_refl.
  - apply andb_true_iff. split; [by destruct t|]. induction IH as [|x l Hx _ IHl]; [done|].
    apply andb_true_iff in Hj as [Hj1 Hj2]. rewrite Hx by done. by apply IHl.
  - rewrite Nat.eqb_refl. simpl. apply andb_true_iff in Hj as [Hnd Hj]. apply bool_decide_eq_true in Hnd.
    assert (∀ kv, kv ∈ m → aget kv.1 m = Some kv.2) as Hget.
    { intros [k v] Hkv. by apply elem_aget. }
    revert Hget. generalize m at 2 3 as all. intros all. clear Hnd.
    induction IH as [|[k v] m Hv _ IHm]; intros Hget; [done|].
    apply andb_true_iff in Hj as [Hj1 Hj2]. pose proof (Hget (k, v) ltac:(set_solver)) as Hk.
    simpl in Hk, Hj1, Hv |- *. rewrite Hk, Hv by done. apply IHm; [done|]. intros. apply Hget. set_solver.
Qed.

(** asking for the resource of an application makes a deep copy that reads
    back as the resource in the cluster and counts as unchanged; before it was
    asked for, the application counts as changed although nothing touched it. *)
Lemma IsUpdated_lifecycle (h : heap) (a : application) (m : list (string * json)) :
  a_resource a = None → a_persistedResource a = JObj m →
  deep_copyable (JObj m) = true → distinct_keys (JObj m) = true →
  IsUpdated h a = true ∧
  ∃ r h' a', Resource (h, a) = (Ret r, (h', a')) ∧ h `prefix_of` h' ∧
    resource_json h' r = Some (JObj m) ∧ IsUpdated h' a' = false ∧
    Resource (h', a') = (Ret r, (h', a')).
Proof.
  intros Hr Hp Hc Hd. split; [by unfold IsUpdated; rewrite Hr|].
  destruct (alloc_json (JObj m) h) as [v h'] eqn:Ha.
  assert (∃ r, v = VMap r) as [r ->].
  { simpl in Ha. destruct (thread _ m h). simplify_eq. eauto. }
  assert (resource_json h' r = Some (JObj m)) as Hj.
  { apply (reify_enough (json_depth (JObj m)) h' (VMap r)).
    by eapply alloc_json_reify. }
  exists r, h', (with_resource (Some r) a). split_and!.
  - unfold Resource. rewrite (mbind_ret _ _ _ a (h, a)) by done. rewrite Hr, Hp.
    unfold DeepCopyJSONValue. rewrite Hc. unfold on_heap, zoom, mbind, M_bind. cbn [fst].
    by rewrite Ha.
  - by eapply alloc_json_prefix.
  - done.
  - unfold IsUpdated. cbn [a_resource with_resource a_persistedResource]. rewrite Hj, Hp.
    by rewrite DeepEqual_refl.
  - done.
Qed.

Definition demo_mapping : WorkloadMapping := {| wm_containers := []; wm_volume := ["volumes"] |}.
Definition demo_application : application :=
  {| a_gvr := deploymentGVR; a_persistedResource := demo_workload; a_resource := None;
     a_bindingPath := None; a_bindableContainerNames := []; a_resourceMapping := demo_mapping |}.

Lemma IsUpdated_lifecycle_witness :
  IsUpdated [] demo_application = true ∧
  ∃ r h' a', Resource ([], demo_application) = (Ret r, (h', a')) ∧ IsUpdated h' a' = false.
Proof.
  destruct (IsUpdated_lifecycle [] demo_application (match demo_workload with JObj m => m | _ => [] end))
    as (H1 & r & h' & a' & H2 & _ & _ & H3 & _); [done|done|by vm_compute|by vm_compute|].
  split; [exact H1|]. exists r, h', a'. by split.
Defined.

(** ** The conditions a binding ends up with *)

(** The context keeps at most one condition per type. *)
Definition conditions_ok (cs : list (string * Condition)) : Prop :=
  Forall (λ kv, kv.1 = c_type kv.2) cs ∧ NoDup cs.*1.

Lemma conditions_ok_aset c cs : conditions_ok cs → conditions_ok (aset (c_type c) c cs).
Proof.
  intros [HF Hnd]. split; [|by apply aset_NoDup]. clear Hnd.
  induction HF as [|[k d] cs Hd HF IH]; simpl; [by repeat constructor|].
  destruct (String.eqb_spec (c_type c) k); constructor; simpl in *; congruence || done.
Qed.

Lemma conditions_ok_types cs : conditions_ok cs → c_type <$> cs.*2 = cs.*1.
Proof.
  intros [HF _]. induction HF as [|[k d] cs Hd HF IH]; csimpl; [done|]. simpl in Hd. by rewrite IH, Hd.
Qed.

(** The status of the condition of a type. *)
Definition status_of (ty : string) (cs : list Condition) : option ConditionStatus :=
  c_status <$> find (of_type ty) cs.

Lemma IsStatusConditionTrue_status cs ty :
  IsStatusConditionTrue cs ty = bool_decide (status_of ty cs = Some ConditionTrue).
Proof.
  unfold IsStatusConditionTrue, status_of, of_type. destruct (find _ cs) as [c|]; simpl.
  - apply bool_decide_ext. by destruct (c_status c).
  - done.
Qed.

Section Close.
Context {W B : Type} `{KubeAPI W} `{BindingAPI W B} `{Clock W} `{ServiceBindingKind B}.
Context `{UserInfoJSON} `{JSONPathLib} `{BucketRateLimiter} `{MappingDecoder}.

Section Laws.
Context `{!ServiceBindingLaws B}.
Implicit Types s : st W B.

Lemma inv_on_world_ctx {A} (Q : impl B → Prop) (m : M W A) : inv (λ s, Q (st_ctx s)) (on_world m).
Proof. intros s Hs. unfold on_world, zoom. destruct (m (st_world s)). exact Hs. Qed.

Lemma set_status_conditions_status cs s u s' ty :
  NoDup (c_type <$> cs) → set_status_conditions cs s = (Ret u, s') →
  status_of ty (statusConditions (i_binding (st_ctx s'))) =
  match find (of_type ty) cs with
  | Some c => Some (c_status c)
  | None => status_of ty (statusConditions (i_binding (st_ctx s)))
  end.
Proof.
  revert s. induction cs as [|c cs IH]; intros s Hnd Hs; simpl in Hs; [by injection Hs as _ <-|].
  csimpl in Hnd. apply NoDup_cons in Hnd as [Hc Hnd].
  apply mbind_inv in Hs as (now & s1 & Hnow & Hs).
  apply mbind_inv in Hs as (u1 & s2 & Hset & Hs).
  assert (i_binding (st_ctx s1) = i_binding (st_ctx s)) as Hb1.
  { unfold on_world, zoom in Hnow. destruct (time_Now (st_world s)). by simplify_eq/=. }
  unfold ctx_modify, mmodify in Hset. simplify_eq/=. rewrite (IH _ Hnd Hs). simpl.
  rewrite conditions_set, Hb1. unfold of_type at 2.
  destruct (String.eqb_spec (c_type c) ty) as [<-|Hty].
  - assert (find (of_type (c_type c)) cs = None) as ->.
    { destruct (find _ cs) as [d|] eqn:Hf; [|done]. apply find_some in Hf as [Hd Ht].
      unfold of_type in Ht. apply String.eqb_eq in Ht. destruct Hc. rewrite <- Ht.
      apply list_elem_of_fmap_2. by apply list_elem_of_In. }
    unfold status_of. destruct (SetStatusCondition_found now (statusConditions (i_binding (st_ctx s))) c)
      as (d & -> & Hd & _). simpl. by rewrite Hd.
  - destruct (find (of_type ty) cs); [done|]. unfold status_of.
    by rewrite SetStatusCondition_others.
Qed.

(** What [persistBinding] leaves in a binding that exists in the cluster. *)
Lemma persistBinding_status s r s' ty c :
  om_uid (bindingMeta (st_ctx s)) ≠ "" → conditions_ok (i_conditions (st_ctx s)) →
  aget ty (i_conditions (st_ctx s)) = Some c → persistBinding s = (Ret r, s') →
  status_of ty (statusConditions (i_binding (st_ctx s'))) = Some (c_status c).
Proof.
  intros Huid Hok Hget Hp. unfold persistBinding in Hp.
  apply mbind_inv in Hp as (i & s1 & Hi & Hp). unfold ctx_gets, mgets in Hi. simplify_eq/=.
  destruct (String.eqb_spec (om_uid (bindingMeta (st_ctx s1))) "") as [?|_]; [done|].
  apply mbind_inv in Hp as (u & s2 & Hs & Hp).
  apply mbind_inv in Hp as (b & s3 & Hb & Hp). unfold ctx_gets, mgets in Hb. simplify_eq/=.
  assert (i_binding (st_ctx s') = i_binding (st_ctx s3)) as ->.
  { assert (inv (λ s, i_binding (st_ctx s) = i_binding (st_ctx s3))
      (let! _ := on_world (binding_updateStatus (i_binding (st_ctx s3))) in
       on_world (binding_update (i_binding (st_ctx s3))))) as Hinv.
    { apply inv_rbind; [|intros _]; apply (inv_on_world_ctx (λ i, i_binding i = i_binding (st_ctx s3))). }
    specialize (Hinv s3 eq_refl). by rewrite Hp in Hinv. }
  rewrite (set_status_conditions_status _ _ _ _ ty (ltac:(by rewrite conditions_ok_types; [apply Hok|])) Hs).
  assert (find (of_type ty) (i_conditions (st_ctx s1)).*2 = Some c) as ->; [|done].
  destruct Hok as [HF _]. clear -HF Hget. unfold of_type.
  induction HF as [|[k d] cs Hd HF IH]; simpl in *; [done|]. subst k.
  destruct (String.eqb_spec ty (c_type d)) as [->|]; [|].
  - by rewrite String.eqb_refl; simplify_eq.
  - destruct (String.eqb_spec (c_type d) ty); [congruence|]. by apply IH.
Qed.

(** A binding that exists in the cluster, and one condition per type. *)
Definition closing (s : st W B) : Prop :=
  conditions_ok (i_conditions (st_ctx s)) ∧ om_uid (bindingMeta (st_ctx s)) ≠ "".

Lemma inv_closing_world {A} (m : M W A) : inv closing (on_world m).
Proof. apply (inv_on_world_ctx (λ i, conditions_ok (i_conditions i) ∧ om_uid (bindingMeta i) ≠ "")). Qed.
Lemma inv_closing_gets {A} (f : impl B → A) : inv closing (ctx_gets f).
Proof. apply inv_gets. Qed.
Lemma inv_closing_SetCondition c : inv closing (SetCondition c).
Proof. intros s [Hok Huid]. split; [by apply conditions_ok_aset|done]. Qed.
Hint Resolve inv_closing_world inv_closing_gets inv_closing_SetCondition : inv.

Lemma inv_closing_conditions cs : inv closing (set_status_conditions cs).
Proof.
  induction cs as [|c cs IH]; simpl; [apply inv_ret|]. inv_auto. intros s [Hok Huid]. split; [done|].
  unfold bindingMeta in *. simpl. by rewrite meta_conditions.
Qed.
Hint Resolve inv_closing_conditions : inv.
Lemma inv_closing_persistBinding : inv closing persistBinding.
Proof. unfold persistBinding. inv_auto. Qed.
Lemma inv_closing_app {A} n (m : M (heap * application) A) : inv closing (on_app n m).
Proof.
  intros s Hs. unfold on_app. destruct (i_applications (st_ctx s) !! n) as [a|]; [|done].
  by destruct (m (st_heap s, a)) as [r [h a']].
Qed.
Hint Resolve inv_closing_persistBinding inv_closing_app : inv.
Lemma inv_closing_update ns : inv closing (update_applications ns).
Proof. induction ns as [|n ns IH]; simpl; inv_auto. Qed.

Lemma SetCondition_persist c s r s' :
  closing s → (_ ← SetCondition c; persistBinding) s = (Ret r, s') →
  status_of (c_type c) (statusConditions (i_binding (st_ctx s'))) = Some (c_status c).
Proof.
  intros [Hok Huid] Hp. apply mbind_inv in Hp as (u & s1 & Hs & Hp).
  unfold SetCondition, ctx_modify, mmodify in Hs. simplify_eq/=.
  eapply persistBinding_status; [| | |exact Hp]; simpl; [done|by apply conditions_ok_aset|].
  apply aget_aset_eq.
Qed.

(** The condition the binding has after the applications were updated, when one
    of them could not be; an object that contains itself cannot be converted. *)
Lemma update_applications_failed ns s e s' :
  closing s → update_applications ns s = (Ret (Err e), s') →
  status_of BindingReady (statusConditions (i_binding (st_ctx s'))) = Some ConditionFalse ∨ e = ENew "cyclic object".
Proof.
  revert s. induction ns as [|n ns IH]; intros s Hs Hu; [done|]. cbn [update_applications] in Hu.
  apply mbind_inv in Hu as (apps & s0 & Ha & Hu). unfold ctx_gets, mgets in Ha. simplify_eq/=.
  apply mbind_inv in Hu as (h & s1 & Ha & Hu). unfold mgets in Ha. simplify_eq/=.
  destruct (i_applications (st_ctx s1) !! n) as [app|]; [|done].
  destruct (IsUpdated (st_heap s1) app); [|by eapply IH].
  apply mbind_inv in Hu as (root & s2 & Ha & Hu). pose proof (inv_closing_app n Resource s1 Hs) as Hs2. rewrite Ha in Hs2.
  apply mbind_inv in Hu as (h & s3 & Hb & Hu). unfold mgets in Hb. simplify_eq/=.
  apply mbind_inv in Hu as (i & s4 & Hb & Hu). unfold ctx_gets, mgets in Hb. simplify_eq/=.
  destruct (resource_json (st_heap s4) root) as [j|]; [|right; unfold mret, M_ret in Hu; by simplify_eq].
  apply mbind_inv in Hu as (r & s5 & Hb & Hu).
  assert (closing s5) as Hs5.
  { pose proof (inv_closing_world (kube_update (a_gvr app) (om_namespace (bindingMeta (st_ctx s4))) (normalize j)) s4 Hs2)
      as Hw. by rewrite Hb in Hw. }
  destruct r as [u|err]; [by eapply IH|]. left.
  apply mbind_inv in Hu as (u1 & s6 & Hc & Hu). apply mbind_inv in Hu as (r & s7 & Hp & Hu).
  unfold mret, M_ret in Hu. simplify_eq.
  eapply (SetCondition_persist (cond_NotBindingReady "ApplicationUpdateError" (Some e)) s5 r); [done|].
  unfold mbind, M_bind. by rewrite Hc.
Qed.

(** C28: closing a context reports a binding that exists in the cluster as
    [Ready] exactly when the handlers left no error and every application that
    changed could be updated: it is not [Ready] when they left one, whatever
    [Close] returns, nor when an application could not be updated. *)
Theorem Close_reports_ready s s' r :
  om_uid (bindingMeta (st_ctx s)) ≠ "" → conditions_ok (i_conditions (st_ctx s)) →
  Close s = (Ret r, s') →
  let ready := IsStatusConditionTrue (statusConditions (i_binding (st_ctx s'))) BindingReady in
  match f_err (i_flow (st_ctx s)) with
  | Some _ => ready = false
  | None =>
      match (update_applications (seq 0 (length (i_applications (st_ctx s)))) s).1 with
      | Ret (Ok _) => ready = true
      | Ret (Err e) => ready = false ∨ e = ENew "cyclic object"
      | Panic _ => False
      end
  end.
Proof.
  intros Huid Hok Hc. cbv zeta. unfold Close in Hc. apply mbind_inv in Hc as (i & s0 & Hi & Hc).
  unfold ctx_gets, mgets in Hi. simplify_eq/=. rewrite IsStatusConditionTrue_status.
  destruct (f_err (i_flow (st_ctx s0))) as [err|].
  { apply SetCondition_persist in Hc; [|by split]. simpl in Hc. by rewrite Hc. }
  pose proof (inv_closing_update (seq 0 (length (i_applications (st_ctx s0)))) s0 (conj Hok Huid)) as Hs1.
  unfold rbind, mbind, M_bind in Hc.
  destruct (update_applications _ s0) as [[[u|e]|e] s1] eqn:Eu; [| |done]; cbn [fst snd] in *.
  - apply (SetCondition_persist (cond_BindingReady "ApplicationsBound" None)) in Hc; [|done]. simpl in Hc. by rewrite Hc.
  - unfold mret, M_ret in Hc. simplify_eq.
    apply update_applications_failed in Eu as [Eu|Eu]; [|by right|by split]. left. by rewrite Eu.
Qed.
End Laws.
End Close.

(** A context of a binding without applications, after a failed handler. *)
Definition failed_state : st (cluster v1beta1.ServiceBinding) v1beta1.ServiceBinding :=
  let b := demo_binding (demo_meta [] [] None) [] None in
  {| st_world := demo_cluster demo_workload [b]; st_heap := [];
     st_ctx := set_flow {| f_retry := true; f_stop := true; f_err := Some (ENew "boom"); f_delay := 0 |}
                 (SpecProvider_Get b) |}.

Lemma Close_reports_ready_witness :
  IsStatusConditionTrue (statusConditions (i_binding (st_ctx (Close failed_state).2))) BindingReady = false.
Proof.
  apply (Close_reports_ready failed_state (Close failed_state).2 (Ok tt)); [by vm_compute| |by vm_compute].
  split; [apply Forall_nil_2|apply NoDup_nil_2].
Defined.

(** ** Secrets as bindings *)
Section Items.
Context {W B : Type}.
Implicit Types s : st W B.

(** When a value of a secret does not decode, asking for its items fails
    only the first time: what was decoded before the bad value is kept, and the
    second call returns it as if it were everything. *)
Lemma Items_partial_after_error (n : nat) (b : SecretBackedBindings) (s : st W B)
    (k1 v1 k2 bad : string) (rest : list (string * string)) :
  i_bindings (st_ctx s) !! n = Some b → sbb_items b = None →
  NestedStringMap (sbb_Secret b) ["data"] = Found ((k1, EncodeToString v1) :: (k2, bad) :: rest) →
  DecodeString bad = None →
  ∃ e s1, Items n s = (Ret (Err e), s1) ∧
    Items n s1 = (Ret (Ok [length (i_items (st_ctx s))]), s1) ∧
    i_items (st_ctx s1) = i_items (st_ctx s) ++
      [{| bi_Name := k1; bi_Value := JStr v1; bi_Source := Some (sbb_Service b) |}].
Proof.
  intros Hb Hn Hd Hbad. eexists _, _. split.
  { unfold Items. rewrite (mbind_ret _ _ _ (i_bindings (st_ctx s)) s) by done.
    rewrite Hb, Hn, Hd. cbn [decode_items]. rewrite DecodeString_encode. cbv beta iota.
    erewrite mbind_ret by done. erewrite mbind_ret by done. rewrite Hbad. done. }
  split; [|done]. unfold Items. erewrite mbind_ret by done. cbn [st_ctx i_bindings set_bindings set_items].
  rewrite list_lookup_alter, decide_True, Hb by done. done.
Qed.
End Items.

Definition broken_secret : json :=
  JObj [("data", JObj [("user", JStr (EncodeToString "admin")); ("password", JStr "%%")])].
Definition broken_state : st unit unit :=
  {| st_world := tt; st_heap := [];
     st_ctx := set_bindings [{| sbb_Service := 0; sbb_Secret := broken_secret; sbb_items := None |}]
                 (new_impl tt) |}.

Lemma Items_partial_after_error_witness :
  ∃ e s1, Items 0 broken_state = (Ret (Err e), s1) ∧ Items 0 s1 = (Ret (Ok [0]), s1).
Proof.
  destruct (Items_partial_after_error 0 {| sbb_Service := 0; sbb_Secret := broken_secret; sbb_items := None |}
    broken_state "user" "admin" "password" "%%" []) as (e & s1 & H1 & H2 & _); [by vm_compute..|].
  exists e, s1. by split.
Defined.
