(* ===== verification/Names.v ===== *)
(** * Names of secrets and volumes

    The names [Context] gives to the binding secret and [Project] to the volume,
    against what the API server accepts as a name: a DNS-1123 subdomain of at
    most 253 characters for an object, a DNS-1123 label of at most 63 for a
    volume. *)

From Stdlib Require Import NArith Ascii.
From S2P Require Import Prelude.
From S2P Require Import GoLib.
From S2P Require Import Sha256.
From S2P Require Import GoValue.
From S2P Require Import Apis.
From S2P Require Import Context.

(** ** DNS-1123

    The automaton of
    [[a-z0-9]([-a-z0-9]*[a-z0-9])?(\.[a-z0-9]([-a-z0-9]*[a-z0-9])?)*]: at the
    start of a label, after a letter or digit, or after a dash. *)
Inductive dns_state : Type := Start | Inside | Dash.

Definition in_range (lo hi c : ascii) : bool :=
  (N_of_ascii lo <=? N_of_ascii c)%N && (N_of_ascii c <=? N_of_ascii hi)%N.
Definition lower_alnum (c : ascii) : bool := in_range "a" "z" c || in_range "0" "9" c.

Definition dns_next (st : dns_state) (c : ascii) : option dns_state :=
  if lower_alnum c then Some Inside
  else match st with
       | Start => None
       | Inside => if Ascii.eqb c "-" then Some Dash else if Ascii.eqb c "." then Some Start else None
       | Dash => if Ascii.eqb c "-" then Some Dash else None
       end.

Fixpoint dns_run (st : dns_state) (s : string) : option dns_state :=
  match s with
  | EmptyString => Some st
  | String c s' => match dns_next st c with Some st' => dns_run st' s' | None => None end
  end.

(** Characters of a string. *)
Fixpoint string_forall (p : ascii → bool) (s : string) : bool :=
  match s with EmptyString => true | String c s' => p c && string_forall p s' end.

Definition dns_subdomain (s : string) : bool :=
  match dns_run Start s with Some Inside => true | _ => false end.
Definition object_name (s : string) : bool := dns_subdomain s && (String.length s <=? 253).
Definition volume_name (s : string) : bool :=
  dns_subdomain s && string_forall (λ c, negb (Ascii.eqb c "."%char)) s && (String.length s <=? 63).

Lemma dns_run_app st s t :
  dns_run st (s +:+ t) = match dns_run st s with Some st' => dns_run st' t | None => None end.
Proof.
  revert st. induction s as [|c s IH]; intros st; [done|]. simpl. by destruct (dns_next st c).
Qed.

Lemma dns_run_alnum st c s :
  string_forall lower_alnum (String c s) = true → dns_run st (String c s) = Some Inside.
Proof.
  revert st c. induction s as [|c' s IH]; intros st c [Hc Hs]%andb_true_iff; simpl; unfold dns_next at 1;
    rewrite Hc; [done|]. by apply IH.
Qed.

(** ** The digest *)
Definition hex_lower (c : ascii) : bool := in_range "a" "f" c || in_range "0" "9" c.

Lemma hex_lower_alnum c : hex_lower c = true → lower_alnum c = true.
Proof. destruct c as [[] [] [] [] [] [] [] []]; vm_compute; congruence. Qed.

Lemma hex_digit_lower n : hex_lower (hex_digit n) = true.
Proof.
  unfold hex_digit. generalize (N.to_nat n). intros i. do 16 (destruct i as [|i]; [vm_compute; reflexivity|]). vm_compute. reflexivity.
Qed.

Lemma hex_word_lower w : string_forall hex_lower (hex_word w) = true ∧ String.length (hex_word w) = 8.
Proof.
  unfold hex_word. cbn [fold_right string_forall String.length]. rewrite !hex_digit_lower. split; reflexivity.
Qed.

(** The words stay within 32 bits. *)
Lemma w32_bound x : (w32 x < 2 ^ 32)%N.
Proof. unfold w32. change 4294967295%N with (N.ones 32). rewrite N.land_ones. by apply N.mod_lt. Qed.

Lemma zip_add32_bound l k : Forall (λ x, (x < 2 ^ 32)%N) (zip_with add32 l k).
Proof.
  revert k. induction l as [|x l IH]; intros [|y k]; constructor; [apply w32_bound|apply IH].
Qed.

Lemma blocks_bound fuel ws hash :
  Forall (λ x, (x < 2 ^ 32)%N) hash → Forall (λ x, (x < 2 ^ 32)%N) (blocks fuel ws hash).
Proof.
  revert ws hash. induction fuel as [|fuel IH]; intros [|w ws] hash Hh; [exact Hh..|].
  cbn [blocks]. apply IH, zip_add32_bound.
Qed.

Lemma digest_words msg : Forall (λ x, (x < 2 ^ 32)%N) (digest msg) ∧ length (digest msg) = 8.
Proof.
  unfold digest. rewrite blocks_length. split; [|done]. apply blocks_bound.
  by repeat (apply Forall_cons_2; [vm_compute; reflexivity|]); apply Forall_nil_2.
Qed.

Lemma substring_app_l s t : String.substring 0 (String.length s) (s +:+ t) = s.
Proof. induction s as [|c s IH]; simpl; [by destruct t|]. by rewrite IH. Qed.

Lemma sha256_prefix msg : ∃ w, w ∈ digest msg ∧ String.substring 0 8 (sha256_hex msg) = hex_word w.
Proof.
  destruct (digest_words msg) as [_ Hl]. unfold sha256_hex. destruct (digest msg) as [|w [|w' ws]]; try done.
  exists w. split; [by left|].
  change (String.concat "" (map hex_word (w :: w' :: ws)))
    with (hex_word w +:+ "" +:+ String.concat "" (map hex_word (w' :: ws))).
  rewrite <- (proj2 (hex_word_lower w)) at 1. apply substring_app_l.
Qed.

Lemma hashed_name_suffix name data :
  ∃ c s, hashed_name name data = name +:+ "-" +:+ String c s ∧ String.length (String c s) = 8 ∧
    string_forall hex_lower (String c s) = true.
Proof.
  destruct (sha256_prefix (hash_input data)) as (w & _ & Hw). unfold hashed_name. rewrite Hw.
  destruct (hex_word_lower w) as [Hl Hn]. destruct (hex_word w) as [|c s] eqn:E; [done|]. by exists c, s.
Qed.

Lemma string_forall_impl p q s :
  (∀ c, p c = true → q c = true) → string_forall p s = true → string_forall q s = true.
Proof. intros Hpq. induction s as [|c s IH]; simpl; [done|]. rewrite !andb_true_iff. naive_solver. Qed.

(** C22: the name of the binding secret: the name of the binding, a dash and
    eight hexadecimal digits, hence a DNS-1123 subdomain like the name of the
    binding and nine characters longer; the API server accepts it exactly when
    the name of the binding leaves these nine characters; the digest behind it
    is made of eight 32-bit words, whatever was collected. *)
Theorem hashed_name_bounds (name : string) (data : list (string * string)) :
  dns_subdomain name = true →
  dns_subdomain (hashed_name name data) = true ∧
  String.length (hashed_name name data) = String.length name + 9 ∧
  (object_name (hashed_name name data) = true ↔ String.length name ≤ 244) ∧
  Forall (λ x, (x < 2 ^ 32)%N) (digest (hash_input data)) ∧ length (digest (hash_input data)) = 8.
Proof.
  intros Hn. destruct (hashed_name_suffix name data) as (c & s & -> & Hl & Hx).
  assert (dns_subdomain (name +:+ "-" +:+ String c s) = true) as Hd.
  { unfold dns_subdomain in *. rewrite dns_run_app. destruct (dns_run Start name) as [[]|]; try done.
    change ("-" +:+ String c s) with (String "-" (String c s)).
    change (dns_run Inside (String "-" (String c s))) with (dns_run Dash (String c s)).
    rewrite dns_run_alnum; [done|]. by eapply string_forall_impl, Hx; apply hex_lower_alnum. }
  assert (String.length (name +:+ "-" +:+ String c s) = String.length name + 9) as Hlen
    by (rewrite !string_length_app, Hl; simpl; lia).
  split; [done|]. split; [done|]. split; [|apply digest_words].
  unfold object_name. rewrite Hd, Hlen. simpl. rewrite Nat.leb_le. lia.
Qed.

Lemma hashed_name_bounds_witness :
  object_name (hashed_name "orders.prod" [("user", "u")]) = true ∧
  String.length (hashed_name "orders.prod" [("user", "u")]) = 20.
Proof.
  destruct (hashed_name_bounds "orders.prod" [("user", "u")]) as (_ & Hl & Hi & _); [by vm_compute|].
  split; [apply Hi; apply (bool_decide_unpack _); by vm_compute|exact Hl].
Defined.

(** A name of 250 characters is one of a binding, not of its secret. *)
Fixpoint repeat_char (n : nat) (c : ascii) : string :=
  match n with 0 => "" | S n' => String c (repeat_char n' c) end.
Lemma long_name_refused :
  object_name (repeat_char 250 "a") = true ∧
  object_name (hashed_name (repeat_char 250 "a") []) = false.
Proof. by vm_compute. Qed.

(** Nor is every name of a binding one of a volume. *)
Lemma dotted_name_refused : object_name "orders.prod" = true ∧ volume_name "orders.prod" = false.
Proof. by vm_compute. Qed.
