(* ===== verification/PipelineSpec.v ===== *)
(** * What the pipeline and the reconciler guarantee

    Theorems about [Pipeline], [Project] and [Collect]: how a flow stops, how
    panics are contained, the finalizer protocol; and whole runs of the
    reconciler in the cluster of [Cluster]. *)

From S2P Require Import Prelude.
From S2P Require Import GoLib.
From S2P Require Import GoValue.
From S2P Require Import JsonPath.
From S2P Require Import Heap.
From S2P Require Import Converter.
From S2P Require Import Kube.
From S2P Require Import Apis.
From S2P Require Import ApisSpec.
From S2P Require Import Binding.
From S2P Require Import Service.
From S2P Require Import Workload.
From S2P Require Import Application.
From S2P Require Import Context.
From S2P Require Import Kinds.
From S2P Require Import Collect.
From S2P Require Import Project.
From S2P Require Import Pipeline.
From S2P Require Import Cluster.

(** ** Running handlers *)
Section Run.
Context {W B : Type} `{KubeAPI W} `{BindingAPI W B} `{Clock W} `{ServiceBindingKind B}.
Context `{UserInfoJSON} `{JSONPathLib} `{BucketRateLimiter} `{MappingDecoder}.
Implicit Types (s : st W B) (hs : list (M (st W B) unit)).

(** The state after a handler, and after all of a list. *)
Definition after (h : M (st W B) unit) s : st W B := (invokeHandler h s).2.
Definition after_all hs s : st W B := fold_left (λ s h, after h s) hs s.
Definition stopped s : bool := f_stop (i_flow (st_ctx s)).

Lemma invokeHandler_returns h s : invokeHandler h s = (Ret tt, after h s).
Proof.
  unfold after, invokeHandler. destruct (h s) as [[[]|e] s']; [done|]. done.
Qed.

Lemma run_handlers_cons h hs status s :
  run_handlers (h :: hs) status s =
  if stopped (after h s) then (Ret (i_flow (st_ctx (after h s))), after h s)
  else run_handlers hs (i_flow (st_ctx (after h s))) (after h s).
Proof.
  cbn [run_handlers]. rewrite (mbind_ret _ _ _ _ _ (invokeHandler_returns h s)).
  cbv beta. erewrite mbind_ret by done. unfold stopped, FlowStatus.
  by destruct (f_stop (i_flow (st_ctx (after h s)))).
Qed.

Lemma run_handlers_prefix hs status0 s :
  ∃ k status, k ≤ length hs ∧
    run_handlers hs status0 s = (Ret status, after_all (take k hs) s) ∧
    status = (if decide (k = 0) then status0 else i_flow (st_ctx (after_all (take k hs) s))) ∧
    (k < length hs → 0 < k ∧ f_stop status = true) ∧
    (∀ j, 0 < j < k → stopped (after_all (take j hs) s) = false).
Proof.
  revert s status0. induction hs as [|h hs IH]; intros s status0.
  { exists 0, status0. split_and!; simpl; [lia|done|done|lia|lia]. }
  rewrite run_handlers_cons. destruct (stopped (after h s)) eqn:Hstop.
  - exists 1, (i_flow (st_ctx (after h s))). split_and!; simpl; [lia|done|done|intros _; split; [lia|exact Hstop]|lia].
  - destruct (IH (after h s) (i_flow (st_ctx (after h s)))) as (k & status & Hk & Hrun & Hst & Hend & Hbefore).
    exists (S k), status. split_and!; simpl; [lia|exact Hrun| | |].
    + rewrite Hst. by destruct k.
    + intros Hl. split; [lia|]. apply Hend. lia.
    + intros [|[|j]] Hj; simpl; [lia|done|]. apply (Hbefore (S j)). lia.
Qed.

(** C23: a flow runs its handlers in order, up to and including the first one
    that asks to stop, and none after it; it always ends, whatever the handlers
    do, and reports the flow status the last handler left. *)
Theorem run_handlers_stops hs s :
  hs ≠ [] →
  ∃ k, 0 < k ≤ length hs ∧
    run_handlers hs zero_status s =
      (Ret (i_flow (st_ctx (after_all (take k hs) s))), after_all (take k hs) s) ∧
    (k < length hs → stopped (after_all (take k hs) s) = true) ∧
    (∀ j, 0 < j < k → stopped (after_all (take j hs) s) = false).
Proof.
  intros Hne. destruct (run_handlers_prefix hs zero_status s) as (k & status & Hk & Hrun & Hst & Hend & Hb).
  assert (0 < k) as Hpos.
  { destruct (decide (k < length hs)); [by apply Hend|]. destruct hs; [done|]. simpl in *. lia. }
  exists k. rewrite decide_False in Hst by lia. subst status. split_and!; [lia|lia|done| |done].
  intros Hlt. by apply Hend.
Qed.

(** C31: a handler that panics ends the flow: the handlers after it do not run,
    what it had done stays done, and the binding is to be retried with the panic
    as the error. *)
Theorem panic_ends_flow hs h rest s e s' :
  (∀ j, 0 < j ≤ length hs → stopped (after_all (take j hs) s) = false) →
  h (after_all hs s) = (Panic e, s') →
  run_handlers (hs ++ h :: rest) zero_status s =
  (Ret {| f_retry := true; f_stop := true; f_err := Some (panic_error e); f_delay := 0 |},
   (RetryProcessing (Some (panic_error e)) s').2).
Proof.
  intros Hpre Hpanic. generalize zero_status as status. revert s Hpre Hpanic.
  induction hs as [|h0 hs IH]; intros s Hpre Hpanic status; cbn [app].
  - rewrite run_handlers_cons. simpl in Hpanic. unfold stopped, after, invokeHandler. by rewrite Hpanic.
  - rewrite run_handlers_cons.
    pose proof (Hpre 1 ltac:(simpl; lia)) as H1'. simpl in H1'. rewrite H1'. apply IH; [|done].
    intros j Hj. apply (Hpre (S j)). simpl. lia.
Qed.
End Run.

(** ** The finalizer protocol *)
Section Finalizer.
Context {W B : Type} `{BindingAPI W B} `{ServiceBindingKind B} `{!ServiceBindingLaws B}.
Implicit Types process : B → W → processed * B * W.

Definition being_deleted (b : B) : bool :=
  match om_deletionTimestamp (sbk_meta b) with Some _ => true | None => false end.

Lemma MaybeAddFinalizer_elem m : finalizerName ∈ om_finalizers (MaybeAddFinalizer m).2.
Proof.
  unfold MaybeAddFinalizer. destruct (existsb _ (om_finalizers m)) eqn:He; simpl.
  - by apply existsb_eqb.
  - set_solver.
Qed.

Lemma MaybeAddFinalizer_deletion m :
  om_deletionTimestamp (MaybeAddFinalizer m).2 = om_deletionTimestamp m.
Proof. unfold MaybeAddFinalizer. by destruct (existsb _ _). Qed.

(** C13: nothing is projected for a binding that could vanish without being
    unbound: the pipeline only ever sees a binding that carries the finalizer or
    is already being deleted. *)
Theorem processed_bindings_have_finalizer process process' :
  (∀ b w, finalizerName ∈ om_finalizers (sbk_meta b) ∨ being_deleted b = true →
     process b w = process' b w) →
  ∀ ns name w, Reconcile process ns name w = Reconcile process' ns name w.
Proof.
  intros Heq ns name w. unfold Reconcile, mbind, M_bind.
  destruct (binding_get ns name w) as [[[b|e]|e] w1]; [|done..].
  destruct (om_deletionTimestamp (sbk_meta b)) as [t|] eqn:Hd.
  - cbn. rewrite meta_get. rewrite Heq; [done|]. right. unfold being_deleted. by rewrite Hd.
  - pose proof (MaybeAddFinalizer_elem (sbk_meta b)) as Hf.
    destruct (MaybeAddFinalizer (sbk_meta b)) as [added meta]. simpl in Hf.
    destruct ((if added then binding_update (sbk_set_meta meta b) else mret (Ok tt)) w1)
      as [[[u|e]|e] w2]; [|done..].
    rewrite Heq; [done|]. left. by rewrite meta_set.
Qed.

(** C4: the end of a binding that is being deleted: when processing it asks
    for a retry or fails, nothing is written afterwards, so the finalizer stays;
    when processing succeeds, the one thing written is the binding without the
    finalizer. *)
Theorem Reconcile_deletion process ns name (b b' : B) (p : processed) (w w1 w2 : W) :
  binding_get ns name w = (Ret (Ok b), w1) → being_deleted b = true →
  process b w1 = (p, b', w2) → being_deleted b' = true →
  (p_retry p = true ∨ p_err p ≠ None →
     ∃ err, Reconcile process ns name w =
       (Ret ({| Requeue := p_retry p; RequeueAfter := p_delay p |}, err), w2)) ∧
  (p_retry p = false → p_err p = None → finalizerName ∈ om_finalizers (sbk_meta b') →
     ∃ fs, remove_first (λ f, String.eqb f finalizerName) (om_finalizers (sbk_meta b')) = Some fs ∧
       (Reconcile process ns name w).2 =
       (binding_update (sbk_set_meta (with_finalizers fs (sbk_meta b')) b') w2).2).
Proof.
  intros Hget Hdel Hp Hdel'. unfold being_deleted in *.
  destruct (om_deletionTimestamp (sbk_meta b)) as [t|] eqn:Hd; [|done].
  destruct (om_deletionTimestamp (sbk_meta b')) as [t'|] eqn:Hd'; [|done].
  unfold Reconcile. rewrite (mbind_ret _ _ _ _ _ Hget). cbv beta iota. rewrite Hd, meta_get.
  rewrite (mbind_ret _ _ _ (Ok tt) w1) by done. cbv beta iota.
  rewrite (mbind_ret _ _ _ (p, b') w2) by (by rewrite Hp). cbv beta iota. split.
  - intros Hfail. destruct (p_err p) as [err|]; [destruct (p_retry p); eexists; done|].
    destruct (p_retry p); [eexists; done|]. by destruct Hfail.
  - intros Hr He Hf. rewrite Hr, He, Hd'. cbn [negb andb]. unfold MaybeRemoveFinalizer.
    destruct (remove_first _ (om_finalizers (sbk_meta b'))) as [fs|] eqn:Hrem.
    + exists fs. split; [done|]. unfold mbind, M_bind.
      by destruct (binding_update _ w2) as [[[]|] w3].
    + apply remove_first_None in Hrem. rewrite Forall_forall in Hrem.
      specialize (Hrem _ Hf). by rewrite String.eqb_refl in Hrem.
Qed.
End Finalizer.

(** ** Deleting a binding whose workload has no containers *)
Section Stuck.
Context {W B : Type} `{KubeAPI W} `{BindingAPI W B} `{Clock W} `{ServiceBindingKind B} `{!ServiceBindingLaws B}.
Context `{UserInfoJSON} `{JSONPathLib} `{BucketRateLimiter} `{MappingDecoder} `{Converter}.
Context `{Templates} `{PipelineContext W B}.
Implicit Types s : st W B.

Lemma for_each_app {A R} (xs ys : list A) (body : A → M (st W B) (ctl R)) s s' :
  for_each xs body s = (Ret Next, s') → for_each (xs ++ ys) body s = for_each ys body s'.
Proof.
  revert s. induction xs as [|x xs IH]; intros s Hx; simpl in *; [by injection Hx as <-|].
  unfold mbind, M_bind in *. destruct (body x s) as [[[|v]|e] s1]; [by apply IH|done..].
Qed.

(** [Unbind] on workloads [l1 ++ n :: l2] of which those of [l1] could be
    unbound and [n] has no container that is found. *)
Lemma Unbind_panics s s1 s2 s3 s4 l1 n l2 secretName e :
  UnbindRequested (st_ctx s) = true →
  Applications s = (Ret (Ok (l1 ++ n :: l2)), s1) →
  BindingSecretName s1 = (Ret secretName, s2) → secretName ≠ "" →
  for_each l1 (unbind_app secretName (BindingName (i_binding (st_ctx s))) (EnvBindings (i_binding (st_ctx s)))) s2 =
    (Ret Next, s3) →
  on_app n BindablePods s3 = (Ret (Err e), s4) →
  Unbind s = (Panic "invalid memory address or nil pointer dereference", s4).
Proof.
  intros Hu Ha Hn Hne Hl Hp. unfold Unbind. rewrite (mbind_ret _ _ s (st_ctx s) s) by done. cbv beta.
  rewrite Hu. cbn [negb]. rewrite (mbind_ret _ _ _ _ _ Ha). cbv beta iota.
  destruct (l1 ++ n :: l2) as [|n' l'] eqn:El; [by destruct l1|]. rewrite <- El.
  rewrite (mbind_ret _ _ _ _ _ Hn). cbv beta. destruct (String.eqb_spec secretName ""); [done|].
  unfold mbind at 1, M_bind at 1. rewrite (for_each_app _ _ _ _ _ Hl). cbn [for_each].
  unfold unbind_app. unfold mbind, M_bind. by rewrite Hp.
Qed.

(** A flow whose first handler panics asks for a retry, whatever closing its
    context does. *)
Lemma Process_panic get (h : M (st W B) unit) (rest : list (M (st W B) unit)) (b : B) (w : W) e s' :
  h {| st_world := w; st_heap := []; st_ctx := get b |} = (Panic e, s') →
  ∃ err, (Process get (h :: rest) b w).1.1 = {| p_retry := true; p_delay := 0; p_err := Some err |}.
Proof.
  intros Hh. unfold Process, process_ctx, mbind, M_bind. rewrite run_handlers_cons.
  unfold stopped, after, invokeHandler. rewrite Hh. simpl.
  match goal with |- context [Close ?s] => destruct (Close s) as [[[]|] ?] end; by eexists.
Qed.

(** C40: a deleted binding is not released while it has a workload in which no
    container is found: once the workloads before it are unbound, [Unbind]
    dereferences a nil pod, the run ends with an error and a retry at once, and
    the reconciler writes nothing after the pipeline, so the finalizer stays. *)
Theorem unbinding_without_containers get (rest : list (M (st W B) unit)) ns name (b : B) (w w1 : W) s1 s2 s3 s4 l1 n l2 secretName e :
  binding_get ns name w = (Ret (Ok b), w1) → being_deleted b = true → sbk_meta (i_binding (get b)) = sbk_meta b →
  Applications {| st_world := w1; st_heap := []; st_ctx := get b |} = (Ret (Ok (l1 ++ n :: l2)), s1) →
  BindingSecretName s1 = (Ret secretName, s2) → secretName ≠ "" →
  for_each l1 (unbind_app secretName (BindingName (i_binding (get b))) (EnvBindings (i_binding (get b)))) s2 =
    (Ret Next, s3) →
  on_app n BindablePods s3 = (Ret (Err e), s4) →
  let process := Process get (Unbind :: rest) in
  ∃ err, Reconcile process ns name w =
    (Ret ({| Requeue := true; RequeueAfter := 0 |}, Some err), (process b w1).2).
Proof.
  intros Hget Hdel Hb Ha Hn Hne Hl Hp process. unfold being_deleted in Hdel.
  destruct (om_deletionTimestamp (sbk_meta b)) as [t|] eqn:Hd; [|done].
  assert (UnbindRequested (get b) = true) as Hu.
  { unfold UnbindRequested, IsRemoved, bindingMeta. rewrite Hb, Hd. by destruct (aget _ _). }
  pose proof (Unbind_panics (Build_st W B w1 [] (get b)) _ _ _ _ _ _ _ _ _ Hu Ha Hn Hne Hl Hp) as Hpanic.
  apply (Process_panic get Unbind rest) in Hpanic as [err Herr]. exists err. fold process in Herr.
  unfold Reconcile. rewrite (mbind_ret _ _ _ _ _ Hget). cbv beta iota. rewrite Hd, meta_get.
  rewrite (mbind_ret _ _ _ (Ok tt) w1) by done. cbv beta iota.
  destruct (process b w1) as [[p b'] w2] eqn:Ep. simpl in Herr. subst p.
  by rewrite (mbind_ret _ _ _ (_, b') w2) by (by rewrite Ep).
Qed.
End Stuck.

(** ** Whole runs

    The spec reconciler on the cluster of [Cluster]: one deployment, one
    provisioned service, and a binding that also asks for the environment
    variable [PW]. *)
Abbreviation world := (cluster v1beta1.ServiceBinding).

Definition spec_process : v1beta1.ServiceBinding → world → processed * v1beta1.ServiceBinding * world :=
  Process SpecProvider_Get specFlow.
Definition reconcile_spec : M world (ctrlResult * option goerr) := Reconcile spec_process "ns" "binding".

Definition demo_env : list v1beta1.EnvMapping :=
  [{| v1beta1.em_name := "PW"; v1beta1.em_key := "password" |}].
Definition new_binding : v1beta1.ServiceBinding := demo_binding (demo_meta [] [] None) demo_env None.
Definition start : world := demo_cluster demo_workload [new_binding].
Definition bound : world := (reconcile_spec start).2.

Definition env_PW : json :=
  JObj [("name", JStr "PW"); ("valueFrom", JObj [("secretKeyRef",
          JObj [("name", JStr "db-secret"); ("key", JStr "password")])])].
Definition env_root : json :=
  JObj [("name", JStr "SERVICE_BINDING_ROOT"); ("value", JStr "/bindings")].

(** The deployment with the given environment, mounts and volumes. *)
Definition workload_with (env mounts volumes : list json) : json :=
  JObj [("apiVersion", JStr "apps/v1"); ("kind", JStr "Deployment");
        ("metadata", JObj [("name", JStr "web"); ("namespace", JStr "ns")]);
        ("spec", JObj [("template", JObj [("spec", JObj
          [("containers", JArr SliceAny [JObj [("name", JStr "app"); ("image", JStr "img");
              ("env", JArr SliceAny env); ("volumeMounts", JArr SliceAny mounts)]]);
           ("volumes", JArr SliceAny volumes)])])])].
Definition demo_mount : json := JObj [("name", JStr "db"); ("mountPath", JStr "/bindings/db")].
Definition demo_volume : json :=
  JObj [("name", JStr "db"); ("secret", JObj [("secretName", JStr "db-secret")])].

Definition workload_of (c : world) : result json :=
  match srv_get deploymentGVR "ns" "web" c with (Ret r, _) => r | (Panic e, _) => Err (ENew e) end.
Definition finished : outcome (ctrlResult * option goerr) :=
  Ret ({| Requeue := false; RequeueAfter := 0 |}, None).

(** a whole run of the reconciler binds the workload: the secret of the
    service is mounted under the binding's name, the requested variable refers
    to its key, the binding gets the finalizer, refers to the secret and is
    [Ready]. *)
Lemma reconcile_binds :
  (reconcile_spec start).1 = finished ∧
  workload_of bound = Ok (workload_with [env_PW; env_root] [demo_mount] [demo_volume]) ∧
  (λ b, (om_finalizers (sbk_meta b), statusSecretName b,
         IsStatusConditionTrue (statusConditions b) BindingReady)) <$> cl_bindings bound =
  [([finalizerName], "db-secret", true)].
Proof. by vm_compute. Qed.

(** Reconciling a bound workload again is not a no-op: the workload is
    written once more, with its environment variables in another order; from
    then on its content stays the same. *)
Lemma rebinding_reorders_env :
  let again := (reconcile_spec bound).2 in
  workload_of again = Ok (workload_with [env_root; env_PW] [demo_mount] [demo_volume]) ∧
  workload_of again ≠ workload_of bound ∧
  workload_of (reconcile_spec again).2 = workload_of again.
Proof. by vm_compute. Qed.

(** The binding of a cluster marked as deleted. *)
Definition delete_binding (b : v1beta1.ServiceBinding) : v1beta1.ServiceBinding :=
  sbk_set_meta (demo_meta (om_annotations (sbk_meta b)) (om_finalizers (sbk_meta b)) (Some 50%Z)) b.
Definition deleting (c : world) : world := cl_set_bindings (delete_binding <$> cl_bindings c) c.

(** Deleting the binding takes the volume and the mount out again and
    releases the finalizer, but the variable [PW] stays behind, referring to
    the secret: it is looked up by the key it refers to instead of its name. *)
Lemma unbinding_leaves_env :
  (reconcile_spec (deleting bound)).1 = finished ∧
  workload_of (reconcile_spec (deleting bound)).2 = Ok (workload_with [env_PW; env_root] [] []) ∧
  (λ b, om_finalizers (sbk_meta b)) <$> cl_bindings (reconcile_spec (deleting bound)).2 = [[]].
Proof. by vm_compute. Qed.

(** A workload without containers, and a deleted binding to it. *)
Definition no_containers : json :=
  JObj [("apiVersion", JStr "apps/v1"); ("kind", JStr "Deployment");
        ("metadata", JObj [("name", JStr "web"); ("namespace", JStr "ns")]); ("spec", JObj [])].
Definition stuck_binding : v1beta1.ServiceBinding :=
  demo_binding (demo_meta [] [finalizerName] (Some 50%Z)) [] (Some "db-secret").
Definition stuck : world := demo_cluster no_containers [stuck_binding].

(** The binding of [stuck] is never released: however often it is reconciled,
    the run is to be retried and the finalizer stays. *)
Lemma unbinding_never_finishes (n : nat) :
  let w := Nat.iter n (λ c, (reconcile_spec c).2) stuck in
  (∃ err, (reconcile_spec w).1 = Ret ({| Requeue := true; RequeueAfter := 0 |}, Some err)) ∧
  (λ b, om_finalizers (sbk_meta b)) <$> cl_bindings w = [[finalizerName]].
Proof.
  set (w1 := (reconcile_spec stuck).2).
  assert ((reconcile_spec w1).2 = w1) as Hfix by by vm_compute.
  cbv zeta. destruct n as [|n]; [split; [eexists|]; by vm_compute|].
  assert (Nat.iter (S n) (λ c, (reconcile_spec c).2) stuck = w1) as ->.
  { induction n as [|n IH]; [done|]. rewrite Nat.iter_succ, IH. exact Hfix. }
  split; [eexists|]; by vm_compute.
Qed.

(** A cluster that refuses to create secrets, and a binding that adds a type of
    its own, so that it needs one. *)
Definition typed_binding : v1beta1.ServiceBinding :=
  let b := new_binding in
  {| v1beta1.sb_kind := v1beta1.sb_kind b; v1beta1.sb_apiVersion := v1beta1.sb_apiVersion b;
     v1beta1.sb_objectMeta := v1beta1.sb_objectMeta b; v1beta1.sb_status := v1beta1.sb_status b;
     v1beta1.sb_spec := let sp := v1beta1.sb_spec b in
       {| v1beta1.sp_name := v1beta1.sp_name sp; v1beta1.sp_type := "mysql"; v1beta1.sp_provider := "";
          v1beta1.sp_workload := v1beta1.sp_workload sp; v1beta1.sp_service := v1beta1.sp_service sp;
          v1beta1.sp_env := v1beta1.sp_env sp |} |}.
Definition full_cluster : world :=
  let c := demo_cluster demo_workload [typed_binding] in
  {| cl_objects := cl_objects c; cl_kinds := cl_kinds c; cl_denied := [("", "create")];
     cl_now := cl_now c; cl_bindings := cl_bindings c; cl_writes := [] |}.

(** When the binding secret cannot be written, the flow goes on: the
    workload is bound to a secret that does not exist, the reconciler reports
    success without a retry, and the binding is [Ready]. *)
Lemma persist_failure_reported_ready :
  let '(r, w) := reconcile_spec full_cluster in
  r = finished ∧
  (λ b, IsStatusConditionTrue (statusConditions b) BindingReady) <$> cl_bindings w = [true] ∧
  filter (λ o, o.1.1.1 = secretGVR) (cl_objects w) = [(secretGVR, "ns", "db-secret", demo_secret)] ∧
  ∃ name, workload_of w = Ok (workload_with
    [JObj [("name", JStr "PW"); ("valueFrom", JObj [("secretKeyRef",
        JObj [("name", JStr name); ("key", JStr "password")])])]; env_root] [demo_mount]
    [JObj [("name", JStr "db"); ("secret", JObj [("secretName", JStr name)])]]) ∧ name ≠ "db-secret".
Proof. vm_compute. split_and!; [done..|]. eexists. split; [done|by vm_compute]. Qed.

(** ** Witnesses of the general theorems *)
Abbreviation start_state := {| st_world := start; st_heap := []; st_ctx := SpecProvider_Get new_binding |}.

Lemma run_handlers_stops_witness :
  ∃ k, 0 < k ≤ 10 ∧
    run_handlers specFlow zero_status start_state =
      (Ret (i_flow (st_ctx (after_all (take k specFlow) start_state))), after_all (take k specFlow) start_state).
Proof.
  destruct (run_handlers_stops specFlow start_state) as (k & Hk & Hrun & _); [done|].
  exists k. split; [exact Hk|exact Hrun].
Defined.

Definition stuck_state : st world v1beta1.ServiceBinding :=
  {| st_world := stuck; st_heap := [];
     st_ctx := SpecProvider_Get stuck_binding |}.

Lemma panic_ends_flow_witness :
  (run_handlers specFlow zero_status stuck_state).1 =
  Ret {| f_retry := true; f_stop := true;
         f_err := Some (panic_error "invalid memory address or nil pointer dereference"); f_delay := 0 |}.
Proof.
  change specFlow with ([] ++ (Unbind (W := world) (B := v1beta1.ServiceBinding)) :: tail specFlow).
  rewrite (panic_ends_flow [] Unbind (tail specFlow) stuck_state
    "invalid memory address or nil pointer dereference" (Unbind stuck_state).2);
    [done|intros j Hj; exfalso; simpl in Hj; lia|by vm_compute].
Defined.

(** A pipeline that refuses bindings without finalizer. *)
Definition strict_process (b : v1beta1.ServiceBinding) (w : world) :
    processed * v1beta1.ServiceBinding * world :=
  if bool_decide (finalizerName ∈ om_finalizers (sbk_meta b)) || being_deleted b then spec_process b w
  else ({| p_retry := true; p_delay := 0; p_err := Some (ENew "refused") |}, b, w).

Lemma processed_bindings_have_finalizer_witness :
  (Reconcile strict_process "ns" "binding" start).1 = finished.
Proof.
  rewrite (processed_bindings_have_finalizer strict_process spec_process).
  - by vm_compute.
  - intros b w [Hf|Hd]; unfold strict_process.
    + by rewrite (bool_decide_eq_true_2 _ Hf).
    + by rewrite Hd, orb_true_r.
Defined.

Lemma unbinding_without_containers_witness :
  ∃ err, reconcile_spec stuck =
    (Ret ({| Requeue := true; RequeueAfter := 0 |}, Some err),
     (spec_process stuck_binding stuck).2).
Proof.
  set (s1 := (Applications stuck_state).2). set (s2 := (BindingSecretName s1).2).
  apply (unbinding_without_containers SpecProvider_Get (tail specFlow) "ns" "binding"
    stuck_binding stuck stuck s1 s2 s2 (on_app 0 BindablePods s2).2 [] 0 [] "db-secret"
    (default (ENew "") (match (on_app 0 BindablePods s2).1 with Ret (Err e) => Some e | _ => None end)));
    by vm_compute.
Defined.

Lemma Reconcile_deletion_witness :
  (∃ err, reconcile_spec stuck =
     (Ret ({| Requeue := true; RequeueAfter := 0 |}, err), (reconcile_spec stuck).2)) ∧
  ∃ fs, remove_first (λ f, String.eqb f finalizerName) [finalizerName] = Some fs ∧ fs = [].
Proof.
  split.
  - destruct (Reconcile_deletion spec_process "ns" "binding"
      stuck_binding
      (spec_process stuck_binding stuck).1.2
      (spec_process stuck_binding stuck).1.1
      stuck stuck (reconcile_spec stuck).2) as [Hretry _]; [by vm_compute..|].
    destruct Hretry as [err Herr]; [left; by vm_compute|]. exists err. exact Herr.
  - destruct (Reconcile_deletion spec_process "ns" "binding"
      (default new_binding (head (cl_bindings (deleting bound))))
      (spec_process (default new_binding (head (cl_bindings (deleting bound)))) (deleting bound)).1.2
      (spec_process (default new_binding (head (cl_bindings (deleting bound)))) (deleting bound)).1.1
      (deleting bound) (deleting bound)
      (spec_process (default new_binding (head (cl_bindings (deleting bound)))) (deleting bound)).2)
      as [_ Hdone]; [by vm_compute..|].
    destruct Hdone as (fs & Hfs & _); [by vm_compute|by vm_compute| |].
    + apply (bool_decide_unpack _). by vm_compute.
    + change (remove_first (λ f, String.eqb f finalizerName) [finalizerName] = Some fs) in Hfs.
      exists fs. split; [exact Hfs|]. by injection Hfs.
Defined.
