(* ===== verification/CollectSpec.v ===== *)
(** * What collecting guarantees

    Theorems about [Collect] and [Kinds]: permissions of the requester, and
    the data that ends up in the binding. *)

From S2P Require Import Prelude.
From S2P Require Import GoLib.
From S2P Require Import GoValue.
From S2P Require Import JsonPath.
From S2P Require Import Heap.
From S2P Require Import Converter.
From S2P Require Import Kube.
From S2P Require Import Apis.
From S2P Require Import Binding.
From S2P Require Import Service.
From S2P Require Import Workload.
From S2P Require Import Application.
From S2P Require Import Context.
From S2P Require Import Kinds.
From S2P Require Import Collect.
From S2P Require Import Cluster.
From S2P Require Import BindingSpec.

Section Collect.
Context {W B : Type} `{KubeAPI W} `{BindingAPI W B} `{Clock W} `{ServiceBindingKind B}.
Context `{UserInfoJSON} `{JSONPathLib} `{BucketRateLimiter} `{MappingDecoder}.
Context `{Templates} `{PipelineContext W B}.
Implicit Types s : st W B.

(** One service that is a secret with a [service.binding] annotation hides
    all the secrets after it: [DirectSecretReference] returns at the first such
    service, adding nothing, whatever the rest of the services is. *)
Lemma DirectSecretReference_returns_early (s s1 : st W B) (n : nat) (rest : list nat)
    (sv : service) (k : string) (v : string) :
  Services s = (Ret (Ok (n :: rest)), s1) → i_services (st_ctx s1) !! n = Some sv →
  GetKind (s_resource sv) = "Secret" → GetAPIVersion (s_resource sv) = "v1" →
  gvk_group (object_gvk (s_resource sv)) = "" →
  (k, v) ∈ GetAnnotations (s_resource sv) → HasPrefix k AnnotationPrefix = true →
  DirectSecretReference s = (Ret tt, s1).
Proof.
  intros Hs Hn Hkind Hver Hgrp Hk Hp. unfold DirectSecretReference, for_services, services_or_nil.
  erewrite mbind_ret by (erewrite mbind_ret by exact Hs; done). cbv beta iota.
  assert (service_at n s1 = (Ret sv, s1)) as Hat.
  { unfold service_at. erewrite mbind_ret by done. by rewrite Hn. }
  assert (existsb (λ kv, HasPrefix kv.1 AnnotationPrefix) (GetAnnotations (s_resource sv)) = true) as Hann.
  { apply existsb_exists. exists (k, v). split; [by apply list_elem_of_In|done]. }
  cbn [for_each]. unfold mbind at 1, M_bind at 1. unfold mbind at 1, M_bind at 1.
  rewrite (mbind_ret _ _ _ _ _ Hat). cbv beta. rewrite Hkind, Hver, Hgrp, Hann. done.
Qed.

(** A path that leads to a null makes the collecting handler panic: the
    definition succeeds with a null value, and [collectItems] asks for the
    interface of a zero [reflect.Value]. *)
Lemma null_value_panics (n : nat) (key path : string) (fields : list string) (u : json) (s : st W B) :
  jsonpath_Parse path = Ok (dotted fields) → fields ≠ [] → key ≠ "" →
  NestedFieldNoCopy u fields = Found JNil →
  ∃ e, apply_definition n u (stringDefinition key "" {| d_path := path; d_optional := false |}) s
       = (Panic e, s).
Proof.
  intros Hp Hne Hkey Hu. eexists. unfold apply_definition. unfold_Apply. unfold with_path_values.
  destruct (String.eqb_spec key ""); [done|]. cbn [negb String.eqb d_path].
  unfold mbind at 1, M_bind at 1.
  erewrite mbind_ret by (by eapply dotted_values). cbv beta iota. done.
Qed.
End Collect.

(** ** At work *)
Section Witness.
Abbreviation sb := v1beta1.ServiceBinding.

Definition secret_service (name : string) (annotations : list (string * json)) : service :=
  {| s_namespace := "ns";
     s_resource := JObj [("apiVersion", JStr "v1"); ("kind", JStr "Secret");
       ("metadata", JObj [("name", JStr name); ("namespace", JStr "ns");
                          ("annotations", JObj annotations)])];
     s_groupVersionResource := secretGVR; s_crdReader := ClientCrdReader; s_crd := None;
     s_crdLookup := false; s_lookForOwnedResources := false; s_bindingDefinitions := []; s_id := None |}.

(** Two secrets, the first one with an annotation of its own. *)
Definition two_secrets : st (cluster sb) sb :=
  {| st_world := demo_cluster demo_workload []; st_heap := [];
     st_ctx := set_services
       [secret_service "first" [("service.binding/host", JStr "h")]; secret_service "db-secret" []]
       (new_impl (demo_binding (demo_meta [] [] None) [] None)) |}.

Lemma DirectSecretReference_returns_early_witness :
  i_bindings (st_ctx (DirectSecretReference two_secrets).2) = [].
Proof.
  rewrite (DirectSecretReference_returns_early two_secrets two_secrets 0 [1]
    (secret_service "first" [("service.binding/host", JStr "h")]) "service.binding/host" "h");
    [done|by vm_compute..| |by vm_compute].
  apply (bool_decide_unpack _). by vm_compute.
Defined.

Lemma null_value_panics_witness :
  ∃ e, apply_definition 0 (JObj [("spec", JObj [("host", JNil)])])
    (stringDefinition "host" "" {| d_path := "{.spec.host}"; d_optional := false |}) two_secrets
    = (Panic e, two_secrets).
Proof.
  apply (null_value_panics 0 "host" "{.spec.host}" ["spec"; "host"]); by vm_compute.
Defined.
End Witness.
