(* ===== verification/WebhooksSpec.v ===== *)
(** * What the webhooks, the registry and the OLM descriptors guarantee

    Theorems about [Webhooks], [Service] and [CrdController]. *)

From S2P Require Import Prelude.
From S2P Require Import GoLib.
From S2P Require Import GoValue.
From S2P Require Import JsonPath.
From S2P Require Import Kube.
From S2P Require Import Apis.
From S2P Require Import Binding.
From S2P Require Import Service.
From S2P Require Import Workload.
From S2P Require Import Context.
From S2P Require Import Collect.
From S2P Require Import Webhooks.
From S2P Require Import CrdController.
From S2P Require Import Cluster.
From S2P Require Import BindingSpec.

(** ** Mappings *)
Section Mappings.
Context `{JSONPathLib}.

Lemma verify_agrees (n : node) (path : string) :
  webhook_verifyJsonPath n path = [] ↔ ∃ fs, verifyJsonPath n = Ok fs.
Proof.
  induction n as [ns IH|n Hn] using node_ind'.
  - simpl. induction IH as [|n ns Hn _ IHns]; simpl; [by split; [eauto|]|].
    rewrite app_nil, Hn, IHns. clear. split.
    + intros [[f ->] [fs Hfs]]. simpl. rewrite Hfs. simpl. eauto.
    + intros [fs Hfs]. destruct (verifyJsonPath n) as [f|e]; [|done]. split; [by exists f|]. simpl in Hfs.
      match type of Hfs with res_bind ?l _ = _ => destruct l as [fs'|e'] end; [by exists fs'|done].
  - destruct n; simpl; try (split; [done|by intros [? ?]]); [split; eauto|by destruct (Hn nodes)].
Qed.

Lemma restricted_agrees fieldPath value d :
  validateRestrictedPath fieldPath value = [] ↔ ∃ p, constructRestrictedPath value d = Ok p.
Proof.
  unfold validateRestrictedPath, constructRestrictedPath. destruct (String.eqb value ""); [by split; [eauto|]|].
  unfold webhook_isValidRestrictedJsonPath, isValidRestrictedJsonPath.
  destruct (jsonpath_Parse _) as [parser|]; [|by split; [|intros [? ?]]].
  cbn [res_bind]. rewrite <- (verify_agrees _ fieldPath).
  by destruct (webhook_verifyJsonPath (NodeList (Root parser)) fieldPath).
Qed.

Lemma container_agrees path c :
  container_validate path c = [] ↔ (∃ wc, from_container c = Ok wc) ∧ cmc_path c ≠ "".
Proof.
  unfold container_validate, from_container. rewrite !app_nil.
  rewrite (restricted_agrees _ _ ["name"]), (restricted_agrees _ _ ["env"]),
    (restricted_agrees _ _ ["volumeMounts"]).
  destruct (constructRestrictedPath (cmc_name c) _) as [p1|]; [|naive_solver].
  destruct (constructRestrictedPath (cmc_env c) _) as [p2|]; [|naive_solver].
  destruct (constructRestrictedPath (cmc_volumeMounts c) _) as [p3|]; [|naive_solver]. cbn [res_bind].
  destruct (String.eqb_spec (cmc_path c) ""); [naive_solver|].
  destruct (jsonpath_Parse _); naive_solver.
Qed.

Lemma imap_concat_nil {A B} (f : nat → A → list B) (P : A → Prop) l :
  (∀ i x, f i x = [] ↔ P x) → concat (imap f l) = [] ↔ Forall P l.
Proof.
  revert f. induction l as [|y l IH]; intros f Hf; [by split|].
  simpl. rewrite app_nil, Forall_cons, Hf, IH; [done|]. intros i x. apply Hf.
Qed.

Lemma map_res_all {E A B} (f : A → res E B) l :
  (∃ ys, map_res f l = Ok ys) ↔ Forall (λ x, ∃ y, f x = Ok y) l.
Proof.
  induction l as [|x l IH]; simpl; [by split; [|eauto]|]. rewrite Forall_cons, <- IH.
  destruct (f x) as [y|e]; simpl; [|naive_solver]. destruct (map_res f l) as [ys|e]; simpl; naive_solver.
Qed.

(** What a template needs to be used: the reconciler can parse it, every
    container has a path, and the annotations are a restricted path too. *)
Definition usable_template (t : ClusterWorkloadResourceMappingTemplate) : Prop :=
  (∃ wm, FromWorkloadResourceMappingTemplate t = Ok wm) ∧
  Forall (λ c, cmc_path c ≠ "") (cmt_containers t) ∧
  ∃ p, constructRestrictedPath (cmt_annotations t) [] = Ok p.

Lemma template_agrees path t : template_validate path t = [] ↔ usable_template t.
Proof.
  unfold template_validate, usable_template, FromWorkloadResourceMappingTemplate. rewrite !app_nil.
  rewrite (imap_concat_nil _ (λ c, (∃ wc, from_container c = Ok wc) ∧ cmc_path c ≠ ""))
    by (intros; apply container_agrees).
  rewrite Forall_and, <- map_res_all, (restricted_agrees _ (cmt_annotations t) []).
  rewrite (restricted_agrees _ (cmt_volumes t) ["spec"; "template"; "spec"; "volumes"]).
  destruct (map_res from_container (cmt_containers t)) as [cs|e]; simpl; [|naive_solver].
  destruct (constructRestrictedPath (cmt_volumes t) _) as [v|e]; simpl; naive_solver.
Qed.

Lemma version_ok i (seen : list string) v :
  (if String.eqb v "" then [FieldRequired (i +:+ ".version")]
   else if blank v then [FieldInvalid (i +:+ ".version") v "Whitespace-only version field forbidden"]
   else if existsb (String.eqb v) seen then [FieldDuplicate i v] else []) = [] ↔
  v ≠ "" ∧ blank v = false ∧ v ∉ seen.
Proof.
  destruct (String.eqb_spec v ""); [naive_solver|]. destruct (blank v); [naive_solver|].
  destruct (existsb (String.eqb v) seen) eqn:He.
  - apply existsb_exists in He as (x & Hx%list_elem_of_In & ->%String.eqb_eq). naive_solver.
  - split; [|done]. intros _. split_and!; [done..|]. intros Hin.
    eapply existsb_false in He; [|exact Hin]. by rewrite String.eqb_refl in He.
Qed.

Lemma validate_versions_ok i seen ts :
  validate_versions i seen ts = [] ↔
  Forall usable_template ts ∧ NoDup (cmt_version <$> ts) ∧
  (∀ t, t ∈ ts → (cmt_version t ∉ seen) ∧ cmt_version t ≠ "" ∧ blank (cmt_version t) = false).
Proof.
  revert i seen. induction ts as [|t ts IH]; intros i seen.
  { split; [|done]. intros _. split_and!; [constructor|constructor|]. by intros ? ?%elem_of_nil. }
  cbn [validate_versions]. rewrite !app_nil, version_ok, template_agrees, IH, Forall_cons.
  csimpl. rewrite NoDup_cons, list_elem_of_fmap. setoid_rewrite elem_of_cons. split.
  - intros ((? & ? & ?) & ? & ? & ? & Hts). split_and!; [done|done| |done|].
    + intros (t' & E & Ht'). destruct (Hts t' Ht') as (Hin & _). apply Hin. left. by symmetry.
    + intros t' [->|Ht']; [done|]. destruct (Hts t' Ht') as (Hin & ?). split; [|done]. naive_solver.
  - intros ([? ?] & [Hnin ?] & Hts). destruct (Hts t (or_introl eq_refl)) as (? & ? & ?).
    split_and!; [done..|]. intros t' Ht'. destruct (Hts t' (or_intror Ht')) as (? & ? & ?).
    split_and!; [|done..]. intros [E|?]; [|done]. apply Hnin. by exists t'.
Qed.

(** C25: a mapping is accepted exactly when every template parses into a
    workload mapping, so that processing a binding with it cannot fail there, the
    containers of every template have paths, the path of the annotations is a
    restricted path as well, which the reconciler does not need, and the versions
    are distinct and not blank. *)
Theorem validate_exact (m : ClusterWorkloadResourceMapping) :
  validate m = [] ↔
  Forall usable_template (cwrm_versions m) ∧ NoDup (cmt_version <$> cwrm_versions m) ∧
  Forall (λ t, cmt_version t ≠ "" ∧ blank (cmt_version t) = false) (cwrm_versions m).
Proof.
  unfold validate. rewrite validate_versions_ok, (Forall_forall (λ t, cmt_version t ≠ "" ∧ _)).
  pose proof (@not_elem_of_nil string). naive_solver.
Qed.

(** The two ways to name the mapping of a resource disagree on the core
    group: when a mapping accepts a core resource for marking bindings, its name
    is not the one under which the reconciler looks the mapping up. *)
Lemma AcceptsGVR_misses_core (m : ClusterWorkloadResourceMapping) (gvr : GroupVersionResource) :
  gvr_group gvr = "" → AcceptsGVR m gvr = true → cwrm_name m ≠ GroupResource_String gvr.
Proof.
  intros Hg Ha Hn. unfold AcceptsGVR in Ha. apply andb_true_iff in Ha as [Ha%String.eqb_eq _].
  unfold GroupResource_String in Hn. rewrite Hg in *. simpl in Hn. rewrite Hn in Ha.
  clear -Ha. rewrite string_app_nil_r in Ha. apply (f_equal String.length) in Ha. revert Ha.
  induction (gvr_resource gvr) as [|a s IH]; [done|].
  rewrite string_app_cons. cbn [String.length]. intros [= Ha]. auto.
Qed.
End Mappings.

(** ** Bindings *)

Lemma result_unit_cases (r : result unit) : r = Ok tt ∨ ∃ e, r = Err e.
Proof. destruct r as [[]|e]; eauto. Qed.

(** What a selector and a name may be together. *)
Definition name_or_labels (name : string) (selector : option LabelSelector) : Prop :=
  name = "" ∨ match selector with Some sel => ls_matchLabels sel = None | None => True end.

Lemma checkNameAndSelector_spec name selector :
  checkNameAndSelector name selector = Ok tt ↔ name_or_labels name selector.
Proof.
  unfold checkNameAndSelector, name_or_labels.
  destruct selector as [[[ls|] es]|]; simpl; [|naive_solver..].
  destruct (String.eqb_spec name ""); naive_solver.
Qed.

Lemma CanUpdateBinding_spec {S} `{EqDecision S} cs (spec old : S) :
  CanUpdateBinding cs spec old = Ok tt ↔ (IsStatusConditionTrue cs BindingReady = true → spec = old).
Proof.
  unfold CanUpdateBinding. destruct (IsStatusConditionTrue cs BindingReady); simpl; [|naive_solver].
  destruct (bool_decide_reflect (spec = old)); simpl; naive_solver.
Qed.

(** C30: an update of a binding is admitted exactly when a binding that is
    [Ready] keeps its spec and the workload is not given both by name and by
    labels; for both kinds of binding. *)
Theorem ValidateUpdate_spec (a a' : v1alpha1.ServiceBinding) (b b' : v1beta1.ServiceBinding) :
  (v1alpha1_ValidateUpdate a a' = Ok tt ↔
     (IsStatusConditionTrue (statusConditions a) BindingReady = true →
        v1alpha1.sb_spec a = v1alpha1.sb_spec a') ∧
     let app := v1alpha1.sp_application (v1alpha1.sb_spec a) in
     name_or_labels (v1alpha1.r_name (v1alpha1.ap_ref app)) (v1alpha1.ap_labelSelector app)) ∧
  (v1beta1_ValidateUpdate b b' = Ok tt ↔
     (IsStatusConditionTrue (statusConditions b) BindingReady = true →
        v1beta1.sb_spec b = v1beta1.sb_spec b') ∧
     let wl := v1beta1.sp_workload (v1beta1.sb_spec b) in
     name_or_labels (v1beta1.wl_name wl) (v1beta1.wl_selector wl)).
Proof.
  split; cbv zeta; rewrite <- CanUpdateBinding_spec, <- checkNameAndSelector_spec;
    [unfold v1alpha1_ValidateUpdate, v1alpha1_check|unfold v1beta1_ValidateUpdate, v1beta1_check].
  - destruct (result_unit_cases (CanUpdateBinding (statusConditions a) (v1alpha1.sb_spec a)
      (v1alpha1.sb_spec a'))) as [->|[e ->]]; simpl; naive_solver.
  - destruct (result_unit_cases (CanUpdateBinding (statusConditions b) (v1beta1.sb_spec b)
      (v1beta1.sb_spec b'))) as [->|[e ->]]; simpl; naive_solver.
Qed.

(** ** Admission *)

(** Metadata is a map, if present. *)
Definition has_metadata (obj : json) : bool :=
  match obj with
  | JObj m => match aget "metadata" m with None | Some (JObj _) => true | _ => false end
  | _ => false
  end.

Lemma string_entries_strings (anns : list (string * string)) :
  string_entries (V := json) ((λ kv, (kv.1, JStr kv.2)) <$> anns) = Found anns.
Proof. induction anns as [|[k v] anns IH]; csimpl; [done|]. by rewrite IH. Qed.

Lemma GetAnnotations_SetAnnotations obj anns :
  has_metadata obj = true → GetAnnotations (SetAnnotations obj anns) = anns.
Proof.
  intros Hm. destruct obj as [| | | | |[]|m]; try done. simpl in Hm.
  unfold SetAnnotations, GetAnnotations, NestedStringMap.
  set (entries := JObj ((λ kv, (kv.1, JStr kv.2)) <$> anns)).
  assert (∃ meta, setNestedField (JObj m) ["metadata"; "annotations"] entries =
    Some (JObj (aset "metadata" (JObj (aset "annotations" entries meta)) m))) as [meta Hset].
  { cbn [setNestedField]. destruct (aget "metadata" m) as [[]|]; try done.
    - destruct (aget "annotations" m0); eexists; done.
    - by exists []. }
  rewrite Hset. cbn [default].
  simpl. rewrite aget_aset_eq. simpl. rewrite aget_aset_eq. simpl.
  by rewrite string_entries_strings.
Qed.

(** Without usable metadata nothing is set. *)
Lemma SetAnnotations_no_metadata obj anns :
  has_metadata obj = false → SetAnnotations obj anns = obj.
Proof.
  destruct obj as [| | | | |[]|m]; try done. simpl. intros Hm. unfold SetAnnotations. simpl.
  by destruct (aget "metadata" m) as [[]|].
Qed.

Lemma patched_requester `{UserInfoJSON} (user : UserInfo) obj (m : ObjectMeta) :
  (∀ u, unmarshal_UserInfo (marshal_UserInfo u) = Ok u) → has_metadata obj = true →
  Requester (with_annotations
    (GetAnnotations (SetAnnotations obj (SetRequester (GetAnnotations obj) user))) m) = Some user.
Proof.
  intros Hcodec Hm. rewrite GetAnnotations_SetAnnotations by done. unfold SetRequester, Requester.
  cbn [om_annotations with_annotations]. by rewrite aget_aset_eq, Hcodec.
Qed.

(** C24: admission records who asked: for a create or update by anyone but the
    operator, the object is patched so that reading the requester back gives
    the user of the request, whatever the annotation said before, and no other
    annotation changes. *)
Theorem admission_records_requester `{UserInfoJSON} (serviceAccount : string) (req : Request)
    (obj : json) (m : ObjectMeta) :
  (∀ u, unmarshal_UserInfo (marshal_UserInfo u) = Ok u) →
  req_Object req = Ok obj → has_metadata obj = true →
  req_Operation req = Create ∨ req_Operation req = Update →
  ui_username (req_UserInfo req) ≠ serviceAccount →
  ∃ obj', admission_Handle serviceAccount req = Patched obj' ∧
    Requester (with_annotations (GetAnnotations obj') m) = Some (req_UserInfo req) ∧
    ∀ k, k ≠ requesterAnnotationKey → aget k (GetAnnotations obj') = aget k (GetAnnotations obj).
Proof.
  intros Hcodec Hobj Hm Hop Huser. eexists. split.
  { unfold admission_Handle. destruct (String.eqb_spec (ui_username (req_UserInfo req)) serviceAccount); [done|].
    rewrite Hobj. by destruct Hop as [-> | ->]. }
  split; [by apply patched_requester|].
  intros k Hk. rewrite GetAnnotations_SetAnnotations by done. by apply aget_aset_ne.
Qed.

(** ** Registry and descriptors *)

(** The annotations of the registry are well formed: each is the
    provisioned-service mark or builds a binding definition. *)
Lemma registry_builds :
  Forall (λ e, Forall (λ kv, kv.1 = ProvisionedServiceAnnotationKey ∨
      ∃ d, Build (NewDefinitionBuilder kv.1 kv.2 tt) = Ok (Some d)) e.2) ServiceAnnotations.
Proof.
  unfold ServiceAnnotations, percona_mysql, percona_mongodb.
  repeat (apply Forall_cons_2 || apply Forall_nil_2); cbn [fst snd];
    first [right; eexists; vm_compute; reflexivity|left; reflexivity].
Qed.

(** An OLM descriptor is [service.binding], possibly with the name of an
    entry, possibly with options after it. *)
Definition option_text (kv : string * string) : string := kv.1 +:+ "=" +:+ kv.2.
Definition descriptor_text (entry : option (string * list (string * string))) : string :=
  Join (AnnotationPrefix :: match entry with Some (key, opts) => key :: map option_text opts | None => [] end) ":".
Definition descriptor_options : list string :=
  [optionalKey; elementTypeModelKey; sourceKeyModelKey; sourceValueModelKey].

(** What such a descriptor of the field [root.path] asks for: an option given
    twice has its last value, the object type is [string] unless OLM gives
    one, the element type is that of the object type unless it is an option,
    and the source value is the source key unless it is an option. *)
Definition described (root path ty : string) (opts : list (string * string)) : model :=
  let opt k := aget k (reverse opts) in
  let objType := if String.eqb ty "" then stringObjectType else ty in
  let dataType := String.eqb objType secretObjectType || String.eqb objType configMapObjectType in
  let sourceKey := default "" (opt sourceKeyModelKey) in
  {| m_path := "{." +:+ root +:+ "." +:+ path +:+ "}"; m_objectType := objType;
     m_elementType := default (if dataType then mapElementType else stringElementType) (opt elementTypeModelKey);
     m_sourceKey := sourceKey; m_sourceValue := default sourceKey (opt sourceValueModelKey);
     m_value := ""; m_optional := String.eqb (default "" (opt optionalKey)) "true" |}.

(** Reading a map into which entries were written one after the other. *)
Lemma aget_fold_aset k (parts raw : list (string * string)) :
  aget k (fold_left (λ raw kv, aset kv.1 kv.2 raw) parts raw) =
  match aget k (reverse parts) with Some v => Some v | None => aget k raw end.
Proof.
  revert raw. induction parts as [|[k' v] parts IH] using rev_ind; intros raw; [done|].
  rewrite fold_left_app, reverse_snoc. simpl. destruct (String.eqb_spec k k') as [->|Hk].
  - by rewrite aget_aset_eq.
  - rewrite aget_aset_ne by done. apply IH.
Qed.

Lemma aget_app k (l m : list (string * string)) :
  aget k (l ++ m) = match aget k l with Some v => Some v | None => aget k m end.
Proof. induction l as [|[k' v] l IH]; simpl; [done|]. by destruct (String.eqb k k'). Qed.

(** Parsing the text of entries without commas. *)
Lemma raw_entries_text (parts : list (string * string)) k :
  parts ≠ [] → Forall (λ kv, kv.1 ∈ keys) parts → Forall (λ kv, Count kv.2 "," = 0) parts →
  aget k (raw_entries (Join (map option_text parts) ",")) = aget k (reverse parts).
Proof.
  intros Hne Hk Hc. unfold raw_entries. change "," with (String ","%char EmptyString).
  rewrite Split_Join; [|by destruct parts|].
  - unfold option_text. rewrite (raw_entries_parts parts [] Hk), aget_fold_aset. by destruct (aget k (reverse parts)).
  - rewrite Forall_forall in Hk, Hc. apply Forall_map, Forall_forall. intros [k' v] Hin.
    specialize (Hk _ Hin). specialize (Hc _ Hin). unfold option_text. rewrite !Count_app. simpl in *.
    assert (Count k' "," = 0) as ->; [|cbn; lia].
    unfold keys in Hk. repeat (apply elem_of_cons in Hk as [->|Hk]; [done|]). by apply elem_of_nil in Hk.
Qed.

(** The annotation value of a descriptor, as entries. *)
Definition descriptor_entries (root path ty : string) (opts : list (string * string)) : list (string * string) :=
  (pathModelKey, "{." +:+ root +:+ "." +:+ path +:+ "}") :: opts ++
  (if String.eqb ty "" then [] else [(objectTypeModelKey, ty)]).

Lemma loadDescriptor_text anns root path ty entry :
  match entry with Some (key, _) => Count key ":" = 0 | None => True end →
  let opts := match entry with Some (_, opts) => opts | None => [] end in
  Forall (λ kv, kv.1 ∈ descriptor_options ∧ Count kv.2 "," = 0 ∧ Count kv.2 ":" = 0) opts →
  loadDescriptor anns path (descriptor_text entry) root ty =
  aset (AnnotationPrefix +:+ "/" +:+ match entry with Some (key, _) => key | None => path end)
    (Join (map option_text (descriptor_entries root path ty opts)) ",") anns.
Proof.
  intros Hkey opts Hopts. unfold loadDescriptor.
  assert (HasPrefix (descriptor_text entry) AnnotationPrefix = true) as ->.
  { apply HasPrefix_spec. unfold descriptor_text. destruct entry as [[key os]|]; [|by exists ""].
    exists (":" +:+ Join (key :: map option_text os) ":"). reflexivity. }
  cbn [negb]. unfold descriptor_text, descriptor_entries. change ":" with (String ":"%char EmptyString).
  rewrite Split_Join; [|done|].
  - destruct entry as [[key os]|]; subst opts; cbn [drop app map]; rewrite ?map_app;
      by destruct (String.eqb ty "").
  - apply Forall_cons_2; [done|]. destruct entry as [[key os]|]; [|by apply Forall_nil_2].
    apply Forall_cons_2; [done|]. apply Forall_map. eapply Forall_impl; [exact Hopts|].
    intros [k v] (Hk & _ & Hv). simpl in *. unfold option_text. rewrite !Count_app. simpl.
    assert (Count k ":" = 0) as ->; [|cbn; lia].
    unfold descriptor_options in Hk.
    repeat (apply elem_of_cons in Hk as [->|Hk]; [done|]). by apply elem_of_nil in Hk.
Qed.

(** What the parser finds under each key. *)
Lemma descriptor_entries_get root path ty opts k :
  Forall (λ kv, kv.1 ∈ descriptor_options) opts →
  aget k (reverse (descriptor_entries root path ty opts)) =
  if String.eqb k pathModelKey then Some ("{." +:+ root +:+ "." +:+ path +:+ "}")
  else if String.eqb k objectTypeModelKey then (if String.eqb ty "" then None else Some ty)
  else aget k (reverse opts).
Proof.
  intros Hopts. unfold descriptor_entries. rewrite reverse_cons, reverse_app, !aget_app.
  assert (∀ x, x ∉ descriptor_options → aget x (reverse opts) = None) as Hnone.
  { intros x Hx. apply aget_None. rewrite fmap_reverse, elem_of_reverse. intros ([k' v] & -> & Hin)%list_elem_of_fmap.
    rewrite Forall_forall in Hopts. by apply Hx, (Hopts _ Hin). }
  assert (reverse (if String.eqb ty "" then [] else [(objectTypeModelKey, ty)]) =
          if String.eqb ty "" then [] else [(objectTypeModelKey, ty)]) as -> by by destruct (String.eqb ty "").
  destruct (String.eqb_spec k pathModelKey) as [->|Hp].
  { rewrite Hnone by (apply (bool_decide_unpack _); by vm_compute). by destruct (String.eqb ty ""). }
  cbn [aget]. rewrite (proj2 (String.eqb_neq k pathModelKey) Hp).
  destruct (String.eqb_spec k objectTypeModelKey) as [->|Ho].
  - rewrite Hnone by (apply (bool_decide_unpack _); by vm_compute). by destruct (String.eqb ty "").
  - apply String.eqb_neq in Ho.
    destruct (String.eqb ty ""); cbn [aget]; rewrite ?Ho; by destruct (aget k (reverse opts)).
Qed.

Lemma descriptor_entries_parse root path ty opts k :
  Count root "," = 0 → Count path "," = 0 → Count ty "," = 0 →
  Forall (λ kv, kv.1 ∈ descriptor_options ∧ Count kv.2 "," = 0 ∧ Count kv.2 ":" = 0) opts →
  aget k (raw_entries (Join (map option_text (descriptor_entries root path ty opts)) ",")) =
  aget k (reverse (descriptor_entries root path ty opts)).
Proof.
  intros Hr Hp Ht Hopts. unfold descriptor_entries.
  apply raw_entries_text; [done|..]; (apply Forall_cons_2; [|apply Forall_app_2]).
  - by left.
  - eapply Forall_impl; [exact Hopts|]. intros [k' v] [Hk _]. unfold descriptor_options, keys in *. set_solver.
  - destruct (String.eqb ty ""); [apply Forall_nil_2|]. apply Forall_cons_2; [|apply Forall_nil_2].
    apply (bool_decide_unpack _). by vm_compute.
  - simpl. rewrite !Count_app. cbn. lia.
  - eapply Forall_impl; [exact Hopts|]. by intros [k' v] (_ & Hv & _).
  - destruct (String.eqb ty ""); [apply Forall_nil_2|]. by apply Forall_cons_2; [|apply Forall_nil_2].
Qed.

Lemma newModel_described root path ty opts :
  Count root "," = 0 → Count path "," = 0 → Count ty "," = 0 →
  Forall (λ kv, kv.1 ∈ descriptor_options ∧ Count kv.2 "," = 0 ∧ Count kv.2 ":" = 0) opts →
  let m := described root path ty opts in
  let r := newModel (Join (map option_text (descriptor_entries root path ty opts)) ",") in
  if model_ok m then r = Ok m else ∃ e, r = Err e.
Proof.
  intros Hr Hp Ht Hopts m r. subst m r.
  assert (Forall (λ kv : string * string, kv.1 ∈ descriptor_options) opts) as Hkeys
    by (eapply Forall_impl; [exact Hopts|]; by intros ? [? _]).
  assert (∀ k, aget k (raw_entries (Join (map option_text (descriptor_entries root path ty opts)) ",")) = _) as Hraw
    by (intros k; rewrite descriptor_entries_parse, descriptor_entries_get by done; reflexivity).
  unfold newModel. rewrite !Hraw.
  change (String.eqb pathModelKey pathModelKey) with true.
  repeat match goal with
  | |- context [String.eqb ?a pathModelKey] => change (String.eqb a pathModelKey) with false
  | |- context [String.eqb objectTypeModelKey objectTypeModelKey] =>
      change (String.eqb objectTypeModelKey objectTypeModelKey) with true
  | |- context [String.eqb ?a objectTypeModelKey] => change (String.eqb a objectTypeModelKey) with false
  end.
  cbv iota. unfold model_ok, described, isSliceOfMapsElementType, emptyObjectType.
  cbn [m_path m_objectType m_elementType m_sourceKey m_sourceValue m_value].
  generalize ("{." +:+ root +:+ "." +:+ path +:+ "}"). intros p.
  destruct (Count p "{" =? 0), (Count p "{" =? Count p "}"); cbn [negb andb orb]; try by eexists.
  destruct (String.eqb ty "") eqn:Hty; rewrite ?Hty; cbn [negb andb orb];
    destruct (aget optionalKey (reverse opts)); simpl;
    match goal with |- if negb ?b then _ else _ => destruct b eqn:Hb end;
    simpl; unfold default, id in *; simpl in *; rewrite ?Hb; by try eexists.
Qed.

(** C38: an OLM descriptor that exposes a field ([service.binding] alone,
    [service.binding:key] or [service.binding:key:opt=val...]) sets one
    annotation, named after the key or, without one, after the field, and no
    other; the annotation parser reads it as exactly what the descriptor asks
    for, the options and the object type included, and refuses it when the braces
    of the path are not balanced or a slice of maps lacks a source key. *)
Theorem loadDescriptor_parses (anns : list (string * string)) (root path ty : string)
    (entry : option (string * list (string * string))) :
  Count root "," = 0 → Count path "," = 0 → Count ty "," = 0 →
  match entry with Some (key, _) => Count key ":" = 0 | None => True end →
  let opts := match entry with Some (_, opts) => opts | None => [] end in
  Forall (λ kv, kv.1 ∈ descriptor_options ∧ Count kv.2 "," = 0 ∧ Count kv.2 ":" = 0) opts →
  let anns' := loadDescriptor anns path (descriptor_text entry) root ty in
  let name := AnnotationPrefix +:+ "/" +:+ match entry with Some (key, _) => key | None => path end in
  (∀ k, k ≠ name → aget k anns' = aget k anns) ∧
  ∃ v, aget name anns' = Some v ∧
    let m := described root path ty opts in
    if model_ok m then newModel v = Ok m else ∃ e, newModel v = Err e.
Proof.
  intros Hr Hp Ht Hkey opts Hopts anns' name. subst anns' name.
  rewrite (loadDescriptor_text anns root path ty entry) by done. fold opts. split.
  - intros k Hk. by apply aget_aset_ne.
  - eexists. split; [apply aget_aset_eq|]. by apply newModel_described.
Qed.

(** ** At work *)
Section Witness.

Definition demo_mapping_resource (path : string) : ClusterWorkloadResourceMapping :=
  {| cwrm_name := "cronjobs.batch";
     cwrm_versions := [{| cmt_version := "*"; cmt_annotations := ""; cmt_volumes := ".spec.volumes";
       cmt_containers := [{| cmc_path := path; cmc_name := ".name"; cmc_env := "";
                             cmc_volumeMounts := "" |}] |}] |}.

Definition pods_mapping : ClusterWorkloadResourceMapping :=
  {| cwrm_name := "pods."; cwrm_versions := [DefaultTemplate] |}.
Lemma AcceptsGVR_misses_core_witness :
  cwrm_name pods_mapping ≠
  GroupResource_String {| gvr_group := ""; gvr_version := "v1"; gvr_resource := "pods" |}.
Proof. apply AcceptsGVR_misses_core; by vm_compute. Defined.

(** A request by [alice] for a binding that claims to come from [eve]. *)
Definition forged : json :=
  JObj [("metadata", JObj [("annotations", JObj
    [("servicebinding.io/requester", JStr (marshal_UserInfo {| ui_username := "eve"; ui_groups := [] |}))])])].
Definition alice : UserInfo := {| ui_username := "alice"; ui_groups := ["dev"] |}.

Lemma admission_records_requester_witness :
  ∃ obj', admission_Handle "operator" {| req_UserInfo := alice; req_Operation := Create;
                                          req_Object := Ok forged |} = Patched obj' ∧
    Requester (with_annotations (GetAnnotations obj') (demo_meta [] [] None)) = Some alice.
Proof.
  destruct (admission_records_requester "operator"
    {| req_UserInfo := alice; req_Operation := Create; req_Object := Ok forged |} forged
    (demo_meta [] [] None) user_codec_law) as (obj' & H1 & H2 & _); [done|done|by left|done|].
  exists obj'. by split.
Defined.

Lemma loadDescriptor_parses_witness :
  ∃ v, aget "service.binding/password"
      (loadDescriptor [] "db.secret" "service.binding:password:sourceValue=pw:optional=true" "status" "Secret") = Some v ∧
    newModel v = Ok {| m_path := "{.status.db.secret}"; m_elementType := "map"; m_objectType := "Secret";
                       m_sourceKey := ""; m_sourceValue := "pw"; m_value := ""; m_optional := true |}.
Proof.
  apply (loadDescriptor_parses [] "status" "db.secret" "Secret"
    (Some ("password", [(sourceValueModelKey, "pw"); (optionalKey, "true")]))); try by vm_compute.
  repeat (apply Forall_cons_2; [split_and!; [apply (bool_decide_unpack _)| |]; by vm_compute|]). apply Forall_nil_2.
Defined.
End Witness.
