(* ===== verification/CrdSpec.v ===== *)
(** * The list of bindable kinds

    [CrdController] refines a set of kinds: reconciling a CRD adds the kinds it
    serves when it is bindable, takes them away when it is being deleted, and
    publishes the set.  What the controller relies on of the API server is the
    class [CRDControllerLaws]. *)

From S2P Require Import Prelude.
From S2P Require Import GoLib.
From S2P Require Import GoValue.
From S2P Require Import JsonPath.
From S2P Require Import Kube.
From S2P Require Import Binding.
From S2P Require Import Service.
From S2P Require Import CrdController.
From S2P Require Import Cluster.

(** The published list changes when it is written, and only then. *)
Class CRDControllerLaws (W : Type) `{KubeAPI W} `{CRDControllerAPI W} := {
  published : W → list GroupVersionKind;
  lookup_publishes k w : published (kube_resourceForKind k w).2 = published w;
  crd_get_publishes name w : published (crd_get name w).2 = published w;
  crd_update_publishes c w : published (crd_update c w).2 = published w;
  bindableKinds_get_publishes w : published (bindableKinds_get w).2 = published w;
  create_publishes bk w : match bindableKinds_create bk w with
                          | (Ret (Ok _), w') => published w' = bk_status bk
                          | (_, w') => published w' = published w
                          end;
  update_publishes bk w : match bindableKinds_update bk w with
                          | (Ret (Ok _), w') => published w' = bk_status bk
                          | (_, w') => published w' = published w
                          end
}.

(** ** Kinds of a CRD *)
Definition crd_kind_of (crd : CRDObject) (version : string) : GroupVersionKind :=
  {| gvk_group := crdo_group crd; gvk_version := version; gvk_kind := crdo_kind crd |}.
Definition served_kinds (vs : list (string * bool)) (crd : CRDObject) : list GroupVersionKind :=
  omap (λ v : string * bool, if v.2 then Some (crd_kind_of crd v.1) else None) vs.

Lemma served_kinds_cons name served vs crd :
  served_kinds ((name, served) :: vs) crd =
  (if (served : bool) then [crd_kind_of crd name] else []) ++ served_kinds vs crd.
Proof. by destruct served. Qed.

Section Spec.
Context `{JSONPathLib}.

(** What [IsBindable] says of a CRD, in any state. *)
Definition bindable (o : json) : outcome (result bool) :=
  (crd_IsBindable {| crd_resource := o; crd_ns := "";
     crd_serviceGVR := {| gvr_group := ""; gvr_version := ""; gvr_resource := "" |} |} tt).1.

Lemma crd_IsBindable_pure {S} (c : customResourceDefinition) (s : S) :
  crd_IsBindable c s = (bindable (crd_resource c), s).
Proof.
  unfold bindable, crd_IsBindable, service_getValuesByJSONPath. simpl.
  destruct (jsonpath_Parse _) as [j|e]; [|done]. destruct (FindResults j _) as [[|r [|r' rs]]|e]; try done.
  - unfold mbind, M_bind, mret, M_ret. destruct r as [|v r]; [done|].
    destruct (rv_val v); try done. by destruct (String.eqb _ _).
  - unfold mbind, M_bind, mret, M_ret. destruct (map_res _ _) as [ts|e]; [|done].
    simpl. by destruct (Join ts "" =? "string")%string.
Qed.

(** The set after a successful reconciliation of [crd]. *)
Definition kinds_after (crd : CRDObject) (ks ks' : list GroupVersionKind) : Prop :=
  let served := served_kinds (crdo_versions crd) crd in
  if crdo_deleted crd then ∀ k, k ∈ ks' ↔ k ∈ ks ∧ k ∉ served
  else
    (∀ k, k ∈ ks → k ∈ ks') ∧ (∀ k, k ∈ ks' → k ∈ ks ∨ k ∈ served) ∧
    (bindable (crdo_object crd) = Ret (Ok true) → ∀ k, k ∈ served → k ∈ ks') ∧
    (bindable (crdo_object crd) = Ret (Ok false) →
       (∀ k, k ∈ served → registry_GetAnnotations k = None) → ks' = ks).
End Spec.

(** ** The loop over the versions *)
Section Loop.
Context {W : Type} `{KubeAPI W} `{CRDControllerAPI W} `{JSONPathLib} `{!CRDControllerLaws W}.

Definition store_kind (k : GroupVersionKind) (ks : list GroupVersionKind) : list GroupVersionKind :=
  if decide (k ∈ ks) then ks else ks ++ [k].
Lemma store_kind_elem k k' ks : k' ∈ store_kind k ks ↔ k' ∈ ks ∨ k' = k.
Proof. unfold store_kind. destruct (decide (k ∈ ks)); set_solver. Qed.

(** A served version of a CRD that is not being deleted. *)
Lemma crd_versions_served name vs crd tp w ks :
  crdo_deleted crd = false →
  crd_versions ((name, true) :: vs) crd tp (w, ks) =
  let k := crd_kind_of crd name in
  let '(r, w1) := kube_resourceForKind (object_gvk (fake_service k)) w in
  match r with
  | Panic e => (Panic e, (w1, ks))
  | Ret (Err e) => (Ret (Err e), (w1, ks))
  | Ret (Ok _) =>
      match bindable (crdo_object crd) with
      | Panic e => (Panic e, (w1, ks))
      | Ret (Err e) => (Ret (Err e), (w1, ks))
      | Ret (Ok true) => crd_versions vs crd true (w1, store_kind k ks)
      | Ret (Ok false) =>
          match registry_GetAnnotations k with
          | None => crd_versions vs crd tp (w1, ks)
          | Some anns =>
              let crd' := crdo_annotate (MergeMaps (crdo_annotations crd) anns) crd in
              let '(u, w2) := crd_update crd' w1 in
              match u with
              | Panic e => (Panic e, (w2, ks))
              | Ret (Err e) => (Ret (Err e), (w2, ks))
              | Ret (Ok _) => crd_versions vs crd' tp (w2, ks)
              end
          end
      end
  end.
Proof.
  intros Hd. cbn [crd_versions negb]. rewrite Hd. fold (crd_kind_of crd name). cbv zeta.
  unfold on_api, zoom, builder_Build, service_IsBindable, CustomResourceDefinition, run_CrdReader, rbind.
  unfold mbind, M_bind, mret, M_ret. cbn [fst snd].
  destruct (kube_resourceForKind _ w) as [[[gvr|e]|e] w1]; [|done..]. simpl.
  rewrite crd_IsBindable_pure. cbn [crd_resource].
  destruct (bindable (crdo_object crd)) as [[[]|e]|e]; try done.
  destruct (registry_GetAnnotations _) as [anns|]; [|done].
  simpl. by destruct (crd_update _ w1) as [[[[]|e]|e] w2].
Qed.

Lemma crd_versions_deleted vs crd tp w ks :
  crdo_deleted crd = true →
  ∃ ks', crd_versions vs crd tp (w, ks) = (Ret (Ok (tp || existsb snd vs)), (w, ks')) ∧
    (∀ k, k ∈ ks' ↔ k ∈ ks ∧ k ∉ served_kinds vs crd) ∧ (existsb snd vs = false → ks' = ks).
Proof.
  intros Hd. revert tp ks. induction vs as [|[name served] vs IH]; intros tp ks.
  - exists ks. rewrite orb_false_r. split; [done|]. split; [set_solver|done].
  - cbn [crd_versions]. rewrite Hd, served_kinds_cons. fold (crd_kind_of crd name).
    destruct served; cbn [negb existsb snd].
    + destruct (IH true (filter (λ k', k' ≠ crd_kind_of crd name) ks)) as (ks' & Hr & Hk & _).
      exists ks'. split; [|split; [|by destruct tp]].
      * rewrite orb_true_r. by erewrite mbind_ret.
      * intros k. rewrite Hk, list_elem_of_filter. set_solver.
    + destruct (IH tp ks) as (ks' & Hr & Hk & Hn). by exists ks'.
Qed.

(** What the loop does to the set and to the published list, for a CRD that is
    not being deleted. *)
Definition loop_post (vs : list (string * bool)) (crd : CRDObject) (tp : bool) (w : W)
    (ks : list GroupVersionKind) (r : outcome (result bool)) (s : W * list GroupVersionKind) : Prop :=
  published s.1 = published w ∧
  ∀ tp', r = Ret (Ok tp') →
    (∀ k, k ∈ ks → k ∈ s.2) ∧ (∀ k, k ∈ s.2 → k ∈ ks ∨ k ∈ served_kinds vs crd) ∧
    (tp = true → tp' = true) ∧ (tp' = false → s.2 = ks) ∧
    (bindable (crdo_object crd) = Ret (Ok true) → ∀ k, k ∈ served_kinds vs crd → k ∈ s.2 ∧ tp' = true) ∧
    (bindable (crdo_object crd) = Ret (Ok false) →
       (∀ k, k ∈ served_kinds vs crd → registry_GetAnnotations k = None) → s.2 = ks).

Lemma served_kinds_annotate vs anns crd : served_kinds vs (crdo_annotate anns crd) = served_kinds vs crd.
Proof. done. Qed.

Lemma crd_versions_run vs crd tp w ks :
  crdo_deleted crd = false →
  let '(r, s) := crd_versions vs crd tp (w, ks) in loop_post vs crd tp w ks r s.
Proof.
  revert crd tp w ks. induction vs as [|[name served] vs IH]; intros crd tp w ks Hd.
  { split; [done|]. intros tp' [= <-]. set_solver. }
  destruct served.
  2: { specialize (IH crd tp w ks Hd). cbn [crd_versions negb]. by destruct (crd_versions vs crd tp (w, ks)). }
  rewrite crd_versions_served by done. cbv zeta.
  pose proof (lookup_publishes (object_gvk (fake_service (crd_kind_of crd name))) w) as Hp1.
  destruct (kube_resourceForKind _ w) as [[[gvr|e]|e] w1]; simpl in Hp1; [|by split..].
  destruct (bindable (crdo_object crd)) as [[[]|e]|e] eqn:Hb; [| |by split..].
  - specialize (IH crd true w1 (store_kind (crd_kind_of crd name) ks) Hd).
    destruct (crd_versions vs crd true _) as [r s]. destruct IH as [Hp IH].
    split; [congruence|]. intros tp' Hr. destruct (IH tp' Hr) as (Hmono & Hback & Htp & Hsame & Hall & _).
    setoid_rewrite store_kind_elem in Hmono. setoid_rewrite store_kind_elem in Hback.
    rewrite served_kinds_cons, Htp by done. specialize (Hall Hb).
    split_and!; [set_by Hmono|set_by Hback|done|done| |congruence]. intros _ k Hk. split; [set_by Hk Hmono Hall|done].
  - destruct (registry_GetAnnotations _) as [anns|] eqn:Hreg.
    + set (crd' := crdo_annotate _ crd). pose proof (crd_update_publishes crd' w1) as Hp2.
      destruct (crd_update crd' w1) as [[[u|e]|e] w2]; simpl in Hp2; [|by split; [simpl; congruence|]..].
      specialize (IH crd' tp w2 ks Hd). destruct (crd_versions vs crd' tp _) as [r s].
      destruct IH as [Hp IH]. split; [congruence|]. intros tp' Hr.
      destruct (IH tp' Hr) as (Hmono & Hback & Htp & Hsame & _).
      rewrite served_kinds_cons. unfold crd' in Hback. rewrite served_kinds_annotate in Hback.
      split_and!; [set_by Hmono|set_by Hback|done|done|congruence|]. intros _ Hun.
      specialize (Hun (crd_kind_of crd name)). rewrite Hreg in Hun. set_by Hun.
    + specialize (IH crd tp w1 ks Hd). destruct (crd_versions vs crd tp _) as [r s].
      destruct IH as [Hp IH]. split; [congruence|]. intros tp' Hr.
      destruct (IH tp' Hr) as (Hmono & Hback & Htp & Hsame & _ & Hnone).
      rewrite served_kinds_cons. split_and!; [set_by Hmono|set_by Hback|done|done|congruence|].
      intros _ Hun. apply Hnone; [done|]. set_solver.
Qed.
End Loop.

(** ** Reconciling *)
Section Reconcile.
Context {W : Type} `{KubeAPI W} `{CRDControllerAPI W} `{JSONPathLib} `{!CRDControllerLaws W}.

Definition publishing (uid : string) : M (W * list GroupVersionKind) (result unit) :=
  ks ← mgets snd;
  if String.eqb uid "" then on_api (bindableKinds_create {| bk_uid := ""; bk_status := ks |})
  else on_api (bindableKinds_update {| bk_uid := uid; bk_status := ks |}).

Lemma publishing_run uid w ks :
  match publishing uid (w, ks) with
  | (Ret (Ok _), (w', ks')) => published w' = ks' ∧ ks' = ks
  | (_, (w', ks')) => published w' = published w ∧ ks' = ks
  end.
Proof.
  unfold publishing. erewrite mbind_ret by done. unfold on_api, zoom.
  destruct (String.eqb uid ""); simpl.
  - pose proof (create_publishes {| bk_uid := ""; bk_status := ks |} w) as Hp.
    by destruct (bindableKinds_create _ w) as [[[[]|e]|e] w'].
  - pose proof (update_publishes {| bk_uid := uid; bk_status := ks |} w) as Hp.
    by destruct (bindableKinds_update _ w) as [[[[]|e]|e] w'].
Qed.

(** The part after the loop. *)
Definition persist (toPersist : bool) : M (W * list GroupVersionKind) (result unit) :=
  if negb toPersist then mret (Ok tt)
  else
    b ← on_api bindableKinds_get;
    match b with
    | Err e => if IsNotFound e then publishing "" else mret (Err e)
    | Ok bk => publishing (bk_uid bk)
    end.

Lemma persist_run tp w ks :
  match persist tp (w, ks) with
  | (Ret (Ok _), (w', ks')) => published w' = (if tp then ks else published w) ∧ ks' = ks
  | (_, (w', ks')) => published w' = published w ∧ ks' = ks
  end.
Proof.
  destruct tp; [|done]. unfold persist. cbn [negb].
  pose proof (bindableKinds_get_publishes w) as Hg. unfold on_api, zoom, mbind, M_bind. cbn [fst snd].
  destruct (bindableKinds_get w) as [[[bk|e]|e] w1]; simpl in Hg.
  - pose proof (publishing_run (bk_uid bk) w1 ks) as Hp.
    destruct (publishing _ _) as [[[u|e']|e'] [w' ks']]; intuition congruence.
  - destruct (IsNotFound e); [|done]. pose proof (publishing_run "" w1 ks) as Hp.
    destruct (publishing _ _) as [[[u|e']|e'] [w' ks']]; intuition congruence.
  - done.
Qed.

Lemma crd_reconcile_eq name :
  crd_reconcile (W := W) name =
  (r ← on_api (crd_get name);
   match r with
   | Err e => if IsNotFound e then mret (Ok tt) else mret (Err e)
   | Ok crd => rbind (crd_versions (crdo_versions crd) crd false) persist
   end).
Proof. done. Qed.

(** The set, and whether it is published, after reconciling [crd]. *)
Definition kinds_published (crd : CRDObject) (w : W) (ks : list GroupVersionKind) (w' : W)
    (ks' : list GroupVersionKind) : Prop :=
  kinds_after crd ks ks' ∧
  (published w' = ks' ∨ published w' = published w ∧ ks' = ks) ∧
  (served_kinds (crdo_versions crd) crd ≠ [] →
   crdo_deleted crd = true ∨ bindable (crdo_object crd) = Ret (Ok true) → published w' = ks').

Lemma served_kinds_existsb vs crd : served_kinds vs crd ≠ [] ↔ existsb snd vs = true.
Proof.
  induction vs as [|[name []] vs IH]; rewrite ?served_kinds_cons; [done|done|exact IH].
Qed.

Lemma crd_loop_published crd w ks :
  match rbind (crd_versions (crdo_versions crd) crd false) persist (w, ks) with
  | (Ret (Ok _), (w', ks')) => kinds_published crd w ks w' ks'
  | (_, (w', _)) => published w' = published w
  end.
Proof.
  unfold rbind, mbind, M_bind. destruct (crdo_deleted crd) eqn:Hd.
  - destruct (crd_versions_deleted (crdo_versions crd) crd false w ks Hd) as (ks1 & -> & Hk & Hsame).
    simpl orb. pose proof (persist_run (existsb snd (crdo_versions crd)) w ks1) as Hp.
    destruct (persist _ _) as [[[u|e]|e] [w' ks']]; [|by destruct Hp..].
    destruct Hp as [Hp ->]. unfold kinds_published, kinds_after. rewrite Hd, served_kinds_existsb.
    destruct (existsb _ _); intuition congruence.
  - pose proof (crd_versions_run (crdo_versions crd) crd false w ks Hd) as Hl.
    destruct (crd_versions _ _ _ _) as [[[tp|e]|e] [w1 ks1]]; [|by destruct Hl..].
    destruct Hl as [Hw Hl]. destruct (Hl tp eq_refl) as (Hmono & Hback & _ & Hsame & Hall & Hnone).
    pose proof (persist_run tp w1 ks1) as Hp. simpl in *.
    destruct (persist _ _) as [[[u|e]|e] [w' ks']]; [|destruct Hp; congruence..].
    destruct Hp as [Hp ->]. unfold kinds_published, kinds_after. rewrite Hd.
    split_and!; [done..|by intros ? k Hk; apply Hall|done| |].
    + destruct tp; [by left|right]. rewrite Hp, Hw, Hsame; done.
    + intros Hs [?|Hb]; [done|]. destruct (served_kinds _ _) as [|k l] eqn:E; [done|].
      destruct (Hall Hb k) as [_ ->]; [by left|]. done.
Qed.

(** C10: the controller keeps the set of bindable kinds: reconciling a CRD
    never panics; when it fails the published list is what it was; when it
    succeeds, a CRD that is gone changes nothing, one that is being deleted takes
    away exactly the kinds it serves, any other adds kinds it serves and takes
    none away, all of them if it is bindable and none if it is neither bindable
    nor in the registry; and then the set is published, or nothing changed. *)
Theorem crd_Reconcile_refines (name : string) (w : W) (ks : list GroupVersionKind) :
  let '(r, (w', ks')) := crd_Reconcile name (w, ks) in
  match r with
  | Panic _ => False
  | Ret (Err _) => published w' = published w
  | Ret (Ok _) =>
      match (crd_get name w).1 with
      | Ret (Ok crd) => kinds_published crd w ks w' ks'
      | Ret (Err e) => IsNotFound e = true ∧ ks' = ks ∧ published w' = published w
      | Panic _ => False
      end
  end.
Proof.
  unfold crd_Reconcile. rewrite crd_reconcile_eq. unfold on_api, zoom, mbind at 1, M_bind at 1. cbn [fst snd].
  pose proof (crd_get_publishes name w) as Hg. destruct (crd_get name w) as [[[crd|e]|e] w1]; simpl in *.
  - pose proof (crd_loop_published crd w1 ks) as Hl. unfold kinds_published in *.
    rewrite Hg in Hl. by destruct (rbind _ _ _) as [[[u|e]|e] [w' ks']].
  - by destruct (IsNotFound e) eqn:He.
  - done.
Qed.
End Reconcile.

(** ** At work: a small API server *)
Section Witness.

Record crd_server := { cs_crds : list (string * CRDObject); cs_kinds : option BindableKinds }.

#[local] Instance crd_server_api : KubeAPI crd_server := {|
  kube_get _ _ name := mret (Err (EAPI true name));
  kube_list _ _ _ := mret (Ok []);
  kube_create _ _ _ := mret (Err (EAPI false ""));
  kube_update _ _ _ := mret (Err (EAPI false ""));
  kube_subjectAccessReview _ _ _ _ _ _ := mret (Ok false);
  kube_resourceForKind k := mret (Ok {| gvr_group := gvk_group k; gvr_version := gvk_version k;
                                        gvr_resource := "databases" |});
  kube_kindForResource _ := mret (Err (EAPI true ""))
|}.

#[local] Instance crd_server_crds : CRDControllerAPI crd_server := {|
  crd_get name := mgets (λ w, match aget name (cs_crds w) with Some c => Ok c | None => Err (EAPI true name) end);
  crd_update c := mret (Ok tt);
  bindableKinds_get := mgets (λ w, match cs_kinds w with Some k => Ok k | None => Err (EAPI true "bindable-kinds") end);
  bindableKinds_create bk := λ w, (Ret (Ok tt), {| cs_crds := cs_crds w;
    cs_kinds := Some {| bk_uid := "u-1"; bk_status := bk_status bk |} |});
  bindableKinds_update bk := λ w, (Ret (Ok tt), {| cs_crds := cs_crds w; cs_kinds := Some bk |})
|}.

#[local] Instance crd_server_laws : CRDControllerLaws crd_server.
Proof. by refine {| published w := match cs_kinds w with Some k => bk_status k | None => [] end |}. Defined.

Definition database_crd (versions : list (string * bool)) (deleted : bool) : CRDObject :=
  let anns := [("service.binding/host", "path={.status.host}")] in
  {| crdo_group := "example.com"; crdo_kind := "Database"; crdo_versions := versions;
     crdo_deleted := deleted; crdo_annotations := anns;
     crdo_object := SetAnnotations (JObj [("metadata", JObj [])]) anns |}.
Definition served_by (versions : list (string * bool)) (deleted : bool) : crd_server :=
  {| cs_crds := [("databases.example.com", database_crd versions deleted)]; cs_kinds := None |}.
Abbreviation database v := (gvk "example.com" v "Database").
Abbreviation reconcile w ks := (crd_Reconcile "databases.example.com" (w, ks)).2.

Lemma crd_Reconcile_refines_witness :
  database "v1" ∈ (reconcile (served_by [("v1", true); ("v2", false)] false) []).2 ∧
  database "v1" ∉ (reconcile (served_by [("v1", true)] true) [database "v1"]).2.
Proof.
  split.
  - pose proof (crd_Reconcile_refines "databases.example.com" (served_by [("v1", true); ("v2", false)] false) [])
      as Ht.
    destruct Ht as [[_ (_ & Hall & _)] _]. apply Hall; [by vm_compute|by left].
  - pose proof (crd_Reconcile_refines "databases.example.com" (served_by [("v1", true)] true) [database "v1"]) as Ht.
    destruct Ht as [Hk _]. intros Hin%Hk. destruct Hin as [_ Hno]. apply Hno. by left.
Defined.

(** A version that is no longer served stays in the list, and outlives its CRD. *)
Lemma unserved_kind_stays :
  (reconcile (served_by [("v1", false); ("v2", true)] false) [database "v1"]).2 = [database "v1"; database "v2"] ∧
  (reconcile (served_by [("v1", false); ("v2", true)] true) [database "v1"; database "v2"]).2 = [database "v1"].
Proof. by vm_compute. Qed.
End Witness.
