(* ===== verification/Writes.v ===== *)
(** * What the operator reads and writes

    Every API server can be instrumented to log the calls the operator makes
    ([traced]).  The invariant of [Invariant] then accounts for each of them:
    reads that the requester of the binding may do, reads of CRDs and of the
    secret of the binding, writes of that secret, of workloads the requester may
    update, and of the binding itself. *)

From S2P Require Import Prelude.
From S2P Require Import GoLib.
From S2P Require Import GoValue.
From S2P Require Import JsonPath.
From S2P Require Import Heap.
From S2P Require Import Converter.
From S2P Require Import Kube.
From S2P Require Import Apis.
From S2P Require Import Service.
From S2P Require Import Context.
From S2P Require Import Kinds.
From S2P Require Import Collect.
From S2P Require Import Pipeline.
From S2P Require Import Cluster.
From S2P Require Import Invariant.
From S2P Require Import Safety.

(** ** Logging the calls *)
Inductive access : Type :=
| AGet (gvr : GroupVersionResource) (ns name : string)
| AList (gvr : GroupVersionResource) (ns : string)
| ACreate (gvr : GroupVersionResource) (ns : string) (o : json)
| AUpdate (gvr : GroupVersionResource) (ns : string) (o : json)
| ABinding (m : ObjectMeta).

Record traced (W : Type) := { tr_world : W; tr_log : list access }.
Arguments tr_world {W}.
Arguments tr_log {W}.

Section Traced.
Context {W : Type}.

Definition logged {A} (a : access) (m : M W A) : M (traced W) A := λ t,
  let '(r, w) := m (tr_world t) in (r, {| tr_world := w; tr_log := tr_log t ++ [a] |}).
Definition unlogged {A} (m : M W A) : M (traced W) A := λ t,
  let '(r, w) := m (tr_world t) in (r, {| tr_world := w; tr_log := tr_log t |}).

#[export] Instance traced_api `{KubeAPI W} : KubeAPI (traced W) := {|
  kube_get gvr ns name := logged (AGet gvr ns name) (kube_get gvr ns name);
  kube_list gvr ns sel := logged (AList gvr ns) (kube_list gvr ns sel);
  kube_create gvr ns o := logged (ACreate gvr ns o) (kube_create gvr ns o);
  kube_update gvr ns o := logged (AUpdate gvr ns o) (kube_update gvr ns o);
  kube_subjectAccessReview user groups verb ns gvr name :=
    unlogged (kube_subjectAccessReview user groups verb ns gvr name);
  kube_resourceForKind k := unlogged (kube_resourceForKind k);
  kube_kindForResource r := unlogged (kube_kindForResource r)
|}.

#[export] Instance traced_bindings {B} `{ServiceBindingKind B} `{BindingAPI W B} :
  BindingAPI (traced W) B := {|
  binding_get ns name := unlogged (binding_get ns name);
  binding_update b := logged (ABinding (sbk_meta b)) (binding_update b);
  binding_updateStatus b := logged (ABinding (sbk_meta b)) (binding_updateStatus b)
|}.

#[export] Instance traced_clock `{Clock W} : Clock (traced W) := unlogged time_Now.

Lemma inv_logged {A} (Q : access → Prop) a (m : M W A) :
  Q a → inv (λ t, Forall Q (tr_log t)) (logged a m).
Proof.
  intros Ha t Ht. unfold logged. destruct (m (tr_world t)) as [r w]. simpl.
  apply Forall_app. by split; [|constructor].
Qed.
Lemma inv_unlogged {A} (Q : access → Prop) (m : M W A) :
  inv (λ t, Forall Q (tr_log t)) (unlogged m).
Proof. intros t Ht. unfold unlogged. by destruct (m (tr_world t)). Qed.
End Traced.

(** ** What may be accessed *)
Section Accounted.
Context (allowed : string → list string → string → string → GroupVersionResource → string → Prop).

(** The calls that may be made for a binding with metadata [m] which [user]
    asked for; [owned] says whether resources owned by services are listed.
    This is what the code ensures, which is less than that the requester may
    make each call: the resources owned by services are listed with the rights
    of the operator ([owned_secret_unasked]), and of an update it is only known
    that the requester may update some object of the type in the namespace,
    because a secret path can rename the object after the review
    ([secretPath_redirects_update]). *)
Definition accounted (user : UserInfo) (m : ObjectMeta) (owned : Prop) (a : access) : Prop :=
  let may verb gvr ns name := allowed (ui_username user) (ui_groups user) verb ns gvr name in
  let own o := ∃ hashed data owner,
    o = secret_json (om_namespace m) (hashed_name (om_name m) hashed) owner data ∧
    match owner with
    | Some r => or_name r = om_name m ∧ or_uid r = om_uid m ∧ or_controller r = true
    | None => om_uid m = ""
    end in
  match a with
  | AGet gvr ns name =>
      may "get" gvr ns name ∨ gvr ∈ crdGVRs ∨
      gvr = secretGVR ∧ ns = om_namespace m ∧ ∃ hashed, name = hashed_name (om_name m) hashed
  | AList gvr ns => may "list" gvr ns "" ∨ owned ∧ gvr ∈ bindableResourceGVRs
  | ACreate gvr ns o => gvr = secretGVR ∧ ns = om_namespace m ∧ own o
  | AUpdate gvr ns o => ns = om_namespace m ∧
      (gvr = secretGVR ∧ own o ∨ ∃ name, may "update" gvr ns name)
  | ABinding m' => kept m m'
  end.

Section Flows.
Context {W : Type} `{KubeAPI W} `{BindingAPI W v1alpha1.ServiceBinding}
  `{BindingAPI W v1beta1.ServiceBinding} `{Clock W}.
Context `{UserInfoJSON} `{JSONPathLib} `{BucketRateLimiter} `{MappingDecoder} `{Converter} `{Templates}.

Lemma traced_review : sound_review (W := W) allowed → sound_review (W := traced W) allowed.
Proof.
  intros Hrev user groups verb ns gvr name t t' Hr. simpl in Hr. unfold unlogged in Hr.
  destruct (kube_subjectAccessReview user groups verb ns gvr name (tr_world t)) as [r w] eqn:E.
  simplify_eq. by eapply Hrev.
Qed.
Lemma traced_get : named_get (W := W) → named_get (W := traced W).
Proof.
  intros Hget gvr ns name t u t' Hr. simpl in Hr. unfold logged in Hr.
  destruct (kube_get gvr ns name (tr_world t)) as [r w] eqn:E. simplify_eq. by eapply Hget.
Qed.

Abbreviation log_pledge user m owned :=
  (permission_pledge (W := traced W) allowed user m owned
     (λ t, Forall (accounted user m owned) (tr_log t))).

Lemma traced_safe {B} `{ServiceBindingKind B} `{BindingAPI W B} user m owned :
  sound_review (W := W) allowed → named_get (W := W) → Requester m = Some user →
  SafeWorld (traced W) B (log_pledge user m owned).
Proof.
  intros Hrev%traced_review Hget%traced_get Hreq.
  split; intros; try apply inv_unlogged; try (apply inv_logged; simpl; eauto 8).
  - by eapply (permission_may (W := traced W) allowed user m owned).
  - by erewrite Hget.
  - split; [done|]. right. simpl in *. by eexists.
Qed.

(** C3: which calls processing a binding makes: with a recorded requester, in
    either flow and on every path, it only gets objects the requester may get,
    CRDs and the binding's own secret; only lists what the requester may list
    or, for coreos bindings and without asking, the types of resources services
    can own; only creates or updates the secret named after the binding and
    controlled by it; otherwise only updates objects in the namespace of the
    binding, of a type of which the requester may update some object there (not
    necessarily the same one); and only writes the binding with its name, UID,
    finalizers and requester unchanged. *)
Theorem Process_accounted (hlaws : JSONPathLaws) (w : W) (user : UserInfo)
    (b1 : v1alpha1.ServiceBinding) (b2 : v1beta1.ServiceBinding) :
  sound_review (W := W) allowed → named_get (W := W) →
  Requester (sbk_meta b1) = Some user → Requester (sbk_meta b2) = Some user →
  let start := {| tr_world := w; tr_log := [] |} in
  Forall (accounted user (sbk_meta b1) True) (tr_log (Process Provider_Get defaultFlow b1 start).2) ∧
  Forall (accounted user (sbk_meta b2) False) (tr_log (Process SpecProvider_Get specFlow b2 start).2).
Proof.
  intros Hrev Hget Hr1 Hr2 start. split.
  - by destruct (Process_inv_coreos (log_pledge user (sbk_meta b1) True) start b1
      (traced_safe user _ True Hrev Hget Hr1) (kept_refl _) I (Forall_nil_2 _)).
  - by destruct (Process_inv_spec (log_pledge user (sbk_meta b2) False) start b2
      (traced_safe user _ False Hrev Hget Hr2) (kept_refl _) (Forall_nil_2 _)).
Qed.
End Flows.
End Accounted.

(** ** At work *)
Section Witness.
#[local] Existing Instance alpha_in_beta.

Abbreviation alice := {| ui_username := "alice"; ui_groups := [] |}.

(** For [alice] the deployment is updated; nothing else is written but the
    status of the binding. *)
Definition traced_run (user : string) : list access :=
  tr_log (Process SpecProvider_Get specFlow (demo_binding (asked_by user) [] None)
    {| tr_world := demo_cluster demo_workload [demo_binding (asked_by user) [] None]; tr_log := [] |}).2.

Definition is_write (a : access) : bool :=
  match a with ACreate _ _ _ | AUpdate _ _ _ | ABinding _ => true | _ => false end.

Lemma Process_accounted_witness :
  Forall (accounted not_eve alice (asked_by "alice") False) (traced_run "alice") ∧
  length (List.filter is_write (traced_run "alice")) = 3 ∧
  List.filter is_write (traced_run "eve") = [ABinding (asked_by "eve"); ABinding (asked_by "eve")].
Proof.
  split; [|split; by vm_compute].
  exact (proj2 (Process_accounted not_eve dotted_laws
    (demo_cluster demo_workload [demo_binding (asked_by "alice") [] None]) alice
    (demo_app (asked_by "alice")) (demo_binding (asked_by "alice") [] None)
    server_review server_get ltac:(by vm_compute) ltac:(by vm_compute))).
Defined.

(** A coreos binding of the deployment to the database. *)
Definition coreos_demo (user secretPath : string) (owned : bool) : v1alpha1.ServiceBinding :=
  let base := demo_app (asked_by user) in
  let spec := v1alpha1.sb_spec base in
  let app := v1alpha1.sp_application spec in
  {| v1alpha1.sb_kind := v1alpha1.sb_kind base; v1alpha1.sb_apiVersion := v1alpha1.sb_apiVersion base;
     v1alpha1.sb_objectMeta := v1alpha1.sb_objectMeta base;
     v1alpha1.sb_spec := {| v1alpha1.sp_name := ""; v1alpha1.sp_namingStrategy := "none";
       v1alpha1.sp_mappings := None;
       v1alpha1.sp_services := Some [{| v1alpha1.sv_ref := {| v1alpha1.nr_ref := {|
           v1alpha1.r_group := "example.com"; v1alpha1.r_version := "v1"; v1alpha1.r_kind := "Database";
           v1alpha1.r_resource := ""; v1alpha1.r_name := "db" |}; v1alpha1.nr_namespace := None |};
         v1alpha1.sv_id := None |}];
       v1alpha1.sp_application := {| v1alpha1.ap_ref := v1alpha1.ap_ref app;
         v1alpha1.ap_labelSelector := None;
         v1alpha1.ap_bindingPath := Some {| v1alpha1.bp_containersPath := "";
                                            v1alpha1.bp_secretPath := secretPath |} |};
       v1alpha1.sp_detectBindingResources := owned; v1alpha1.sp_bindAsFiles := true |};
     v1alpha1.sb_status := v1alpha1.sb_status base |}.

Definition updates (log : list access) : list (string * string) :=
  omap (λ a, match a with AUpdate gvr _ o => Some (gvr_resource gvr, GetName o) | _ => None end) log.

(** The secret path of a binding may be the name of the workload itself: the
    deployment that was read and reviewed is [web], the one updated is not. *)
Lemma secretPath_redirects_update :
  updates (tr_log (Process Provider_Get defaultFlow (coreos_demo "alice" "metadata.name" false)
    {| tr_world := demo_cluster demo_workload []; tr_log := [] |}).2) = [("deployments", "db-secret")].
Proof. by vm_compute. Qed.

(** A database that owns a secret, and a user who may not read secrets. *)
Definition owned_secret : json :=
  JObj [("apiVersion", JStr "v1"); ("kind", JStr "Secret");
        ("metadata", JObj [("name", JStr "root"); ("namespace", JStr "ns");
           ("ownerReferences", JArr SliceAny [JObj [("uid", JStr "u-db")]])]);
        ("data", JObj [("password", JStr (EncodeToString "hunter2"))])].
Definition bare_database : json :=
  JObj [("apiVersion", JStr "example.com/v1"); ("kind", JStr "Database");
        ("metadata", JObj [("name", JStr "db"); ("namespace", JStr "ns"); ("uid", JStr "u-db")])].
Definition owning_cluster : cluster v1beta1.ServiceBinding :=
  let c := demo_cluster demo_workload [] in
  {| cl_objects := [(deploymentGVR, "ns", "web", demo_workload); (databaseGVR, "ns", "db", bare_database);
                    (secretGVR, "ns", "root", owned_secret)];
     cl_kinds := cl_kinds c; cl_denied := [("mallory", "get secrets")]; cl_now := cl_now c;
     cl_bindings := []; cl_writes := [] |}.

(** Its content is collected and written into the secret of the binding. *)
Lemma owned_secret_unasked :
  let w := (Process Provider_Get defaultFlow (coreos_demo "mallory" "" true) owning_cluster).2 in
  (canPerform secretGVR "root" "ns" "get"
     (fresh (Provider_Get (coreos_demo "mallory" "" true)) owning_cluster)).1 = Ret false ∧
  omap (λ o, match NestedStringMap o.2 ["stringData"] with Found d => aget "password" d | _ => None end)
    (cl_objects w) = ["hunter2"].
Proof. by vm_compute. Qed.
End Witness.
