(* ===== verification/Marks.v ===== *)
(** * Marking the bindings of a changed mapping

    What [MappingValidator.ValidateUpdate] writes: before a mapping changes,
    every binding that uses it is annotated with the old mapping, so that it can
    be undone.  The calls are logged as in [Writes]. *)

From S2P Require Import Prelude.
From S2P Require Import GoLib.
From S2P Require Import GoValue.
From S2P Require Import JsonPath.
From S2P Require Import Workload.
From S2P Require Import Kube.
From S2P Require Import Apis.
From S2P Require Import Service.
From S2P Require Import Webhooks.
From S2P Require Import Cluster.
From S2P Require Import Invariant.
From S2P Require Import Writes.
From S2P Require Import WebhooksSpec.

Definition writes (log : list access) : list access := filter (λ a, is_write a = true) log.

Section Marks.
Context {W : Type} `{KubeAPI W} `{BindingDecoder} `{JSONPathLib}.

(** The resource of a kind does not depend on the state. *)
Context (resource_of : GroupVersionKind → result GroupVersionResource).
Context (Hlookup : ∀ k w, kube_resourceForKind k w = (Ret (resource_of k), w)).

(** The object that is written, and the bindings it is written for. *)
Definition marked_object (serialized : string) (binding : json) : json :=
  SetAnnotations binding (aset MappingAnnotationKey serialized (GetAnnotations binding)).

Definition v1beta1_affected (mapping : ClusterWorkloadResourceMapping) (binding : json) : option string :=
  match v1beta1_FromUnstructured binding with
  | Ok sb =>
      let wl := v1beta1.sp_workload (v1beta1.sb_spec sb) in
      match resource_of (FromAPIVersionAndKind (v1beta1.wl_apiVersion wl) (v1beta1.wl_kind wl)) with
      | Ok gvr => if AcceptsGVR mapping gvr then Some (om_namespace (v1beta1.sb_objectMeta sb)) else None
      | Err _ => None
      end
  | Err _ => None
  end.

Definition v1alpha1_affected (mapping : ClusterWorkloadResourceMapping) (binding : json) : option string :=
  match v1alpha1_FromUnstructured binding with
  | Ok sb =>
      let ref := v1alpha1.ap_ref (v1alpha1.sp_application (v1alpha1.sb_spec sb)) in
      match match ref_gvk ref with Ok k => resource_of k | Err _ => ref_gvr ref end with
      | Ok gvr => if AcceptsGVR mapping gvr then Some (om_namespace (v1alpha1.sb_objectMeta sb)) else None
      | Err _ => None
      end
  | Err _ => None
  end.

(** The updates for a list of bindings. *)
Definition marks (gvr : GroupVersionResource) (affected : json → option string) (serialized : string)
    (items : list json) : list access :=
  omap (λ b, (λ ns, AUpdate gvr ns (marked_object serialized b)) <$> affected b) items.

(** The outcome of a loop over [items]: all of them are marked, or the first
    ones. *)
Definition marks_run (gvr : GroupVersionResource) (affected : json → option string) (serialized : string)
    (items : list json) (log : list access) (r : outcome (result unit)) (t : traced W) : Prop :=
  ∃ k, tr_log t = log ++ marks gvr affected serialized (take k items) ∧
    (r = Ret (Ok tt) → take k items = items).

Lemma marks_run_stop gvr affected serialized items log r t :
  tr_log t = log → r ≠ Ret (Ok tt) → marks_run gvr affected serialized items log r t.
Proof. intros Hl Hr. exists 0. simpl. by rewrite app_nil_r. Qed.

Lemma marks_run_cons gvr affected serialized b items log r t :
  marks_run gvr affected serialized items (log ++ marks gvr affected serialized [b]) r t →
  marks_run gvr affected serialized (b :: items) log r t.
Proof.
  intros (k & Hl & Hr). exists (S k). split; [|intros ->; simpl; by rewrite Hr].
  rewrite Hl, <- app_assoc. unfold marks. simpl. by destruct (affected b).
Qed.

(** Marking one binding, and going on. *)
Lemma mark_binding_run gvr ns affected serialized b items (k : M (traced W) (result unit)) t :
  affected b = Some ns →
  (∀ t', tr_log t' = tr_log t ++ marks gvr affected serialized [b] →
     let '(r, t'') := k t' in marks_run gvr affected serialized items (tr_log t') r t'') →
  let '(r, t'') := rbind (mark_binding gvr ns serialized b) (λ _, k) t in
  marks_run gvr affected serialized (b :: items) (tr_log t) r t''.
Proof.
  intros Ha Hk. unfold mark_binding, rbind, mbind, M_bind, mret, M_ret. simpl. unfold logged.
  fold (marked_object serialized b).
  destruct (kube_update gvr ns (marked_object serialized b) (tr_world t)) as [[[o|e]|e] w]; simpl.
  - specialize (Hk {| tr_world := w; tr_log := tr_log t ++ [AUpdate gvr ns (marked_object serialized b)] |}).
    simpl in Hk. rewrite Ha in Hk. specialize (Hk eq_refl). destruct (k _) as [r t''].
    apply marks_run_cons. unfold marks. simpl. by rewrite Ha.
  - apply marks_run_cons, marks_run_stop; [|done]. unfold marks. simpl. by rewrite Ha.
  - apply marks_run_cons, marks_run_stop; [|done]. unfold marks. simpl. by rewrite Ha.
Qed.

(** A binding that is not affected. *)
Lemma marks_run_skip gvr affected serialized b items log r t :
  affected b = None → marks_run gvr affected serialized items log r t →
  marks_run gvr affected serialized (b :: items) log r t.
Proof. intros Ha Hr. apply marks_run_cons. unfold marks. simpl. by rewrite Ha, app_nil_r. Qed.

Lemma traced_lookup k t : kube_resourceForKind (W := traced W) k t = (Ret (resource_of k), t).
Proof. simpl. unfold unlogged. rewrite Hlookup. by destruct t. Qed.

Lemma mark_v1beta1_run mapping serialized items t :
  let '(r, t') := mark_v1beta1 mapping serialized items t in
  marks_run v1beta1.GroupVersionResource (v1beta1_affected mapping) serialized items (tr_log t) r t'.
Proof.
  revert t. induction items as [|b items IH]; intros t; [by exists 0; rewrite app_nil_r|]. cbn [mark_v1beta1].
  destruct (v1beta1_FromUnstructured b) as [sb|e] eqn:Hb; [|by apply marks_run_stop].
  cbv zeta. unfold ResourceForKind. unfold rbind at 1, mbind at 1, M_bind at 1. rewrite traced_lookup.
  set (wl := v1beta1.sp_workload (v1beta1.sb_spec sb)).
  destruct (resource_of _) as [gvr|e] eqn:Hr; [|by apply marks_run_stop].
  destruct (AcceptsGVR mapping gvr) eqn:Ha; simpl negb; cbn [negb].
  - apply mark_binding_run; [|by intros t' _; apply IH].
    unfold v1beta1_affected. rewrite Hb. fold wl. by rewrite Hr, Ha.
  - specialize (IH t). destruct (mark_v1beta1 _ _ _ _) as [r t']. apply marks_run_skip; [|done].
    unfold v1beta1_affected. rewrite Hb. fold wl. by rewrite Hr, Ha.
Qed.

(** One binding of a kind the cluster does not know refuses every change. *)
Lemma unknown_workload_refuses mapping serialized items b sb e (t : W) :
  b ∈ items → v1beta1_FromUnstructured b = Ok sb →
  (let wl := v1beta1.sp_workload (v1beta1.sb_spec sb) in
   resource_of (FromAPIVersionAndKind (v1beta1.wl_apiVersion wl) (v1beta1.wl_kind wl)) = Err e) →
  (mark_v1beta1 mapping serialized items t).1 ≠ Ret (Ok tt).
Proof.
  intros Hb Hsb Hun. revert t. induction items as [|b' items IH]; intros t; [by apply elem_of_nil in Hb|].
  cbn [mark_v1beta1]. destruct (v1beta1_FromUnstructured b') as [sb'|e'] eqn:Hd; [|done].
  cbv zeta. unfold ResourceForKind. unfold rbind at 1. erewrite mbind_ret by apply Hlookup.
  apply elem_of_cons in Hb as [<-|Hb].
  - rewrite Hsb in Hd. injection Hd as <-. cbv zeta in Hun. by rewrite Hun.
  - specialize (IH Hb). destruct (resource_of _) as [gvr|]; [|done].
    destruct (negb _); [apply IH|]. unfold mark_binding, rbind, mbind, M_bind, mret, M_ret. simpl.
    destruct (kube_update _ _ _ _) as [[[o|?]|?] w]; [apply IH|done..].
Qed.

Lemma workloadGVR_run ref t :
  v1alpha1_workloadGVR (W := traced W) ref t =
  (match match ref_gvk ref with Ok k => resource_of k | Err _ => ref_gvr ref end, ref_gvk ref with
   | Err _, Err _ => Panic "invalid memory address or nil pointer dereference"
   | r, _ => Ret r
   end, t).
Proof.
  unfold v1alpha1_workloadGVR. destruct (ref_gvk ref) as [k|e].
  - unfold ResourceForKind. rewrite traced_lookup. by destruct (resource_of k).
  - by destruct (ref_gvr ref).
Qed.

Lemma mark_v1alpha1_run mapping serialized items t :
  let '(r, t') := mark_v1alpha1 mapping serialized items t in
  marks_run v1alpha1.GroupVersionResource (v1alpha1_affected mapping) serialized items (tr_log t) r t'.
Proof.
  revert t. induction items as [|b items IH]; intros t; [by exists 0; rewrite app_nil_r|]. cbn [mark_v1alpha1].
  destruct (v1alpha1_FromUnstructured b) as [sb|e] eqn:Hb; [|by apply marks_run_stop].
  unfold rbind at 1, mbind at 1, M_bind at 1. rewrite workloadGVR_run.
  set (ref := v1alpha1.ap_ref (v1alpha1.sp_application (v1alpha1.sb_spec sb))).
  assert (v1alpha1_affected mapping b =
    match match ref_gvk ref with Ok k => resource_of k | Err _ => ref_gvr ref end with
    | Ok gvr => if AcceptsGVR mapping gvr then Some (om_namespace (v1alpha1.sb_objectMeta sb)) else None
    | Err _ => None
    end) as Haff by (unfold v1alpha1_affected; by rewrite Hb).
  destruct (match ref_gvk ref with Ok k => resource_of k | Err _ => ref_gvr ref end) as [gvr|e];
    [|by destruct (ref_gvk ref); apply marks_run_stop].
  destruct (AcceptsGVR mapping gvr) eqn:Ha; cbn [negb].
  - by apply mark_binding_run; [|intros t' _; apply IH].
  - specialize (IH t). destruct (mark_v1alpha1 _ _ _ _) as [r t']. by apply marks_run_skip.
Qed.

Lemma writes_marks gvr affected serialized items :
  writes (marks gvr affected serialized items) = marks gvr affected serialized items.
Proof.
  apply filter_all. intros a (b & _ & Ha)%list_elem_of_omap. by destruct (affected b); simplify_eq/=.
Qed.

Definition logged_from (log : list access) (w : W) : traced W := {| tr_world := w; tr_log := log |}.

(** All writes of a run: marks of bindings of both kinds, of all that are
    affected when it succeeds. *)
Lemma Serialize_run mapping serialized w :
  marshal_Mapping mapping = Ok serialized →
  let '(r, t) := Serialize mapping (logged_from [] w) in
  ∃ items1 items2,
    writes (tr_log t) =
      marks v1beta1.GroupVersionResource (v1beta1_affected mapping) serialized items1 ++
      marks v1alpha1.GroupVersionResource (v1alpha1_affected mapping) serialized items2 ∧
    (r = Ret (Ok tt) → ∃ w1 w2 w3,
       kube_list v1beta1.GroupVersionResource "" ∅ w = (Ret (Ok items1), w1) ∧
       kube_list v1alpha1.GroupVersionResource "" ∅ w2 = (Ret (Ok items2), w3)).
Proof.
  intros Hm. unfold Serialize. rewrite Hm. unfold rbind, mbind, M_bind. simpl. unfold logged at 1. simpl.
  destruct (kube_list v1beta1.GroupVersionResource "" ∅ w) as [[[l1|e]|e] w1] eqn:El1; simpl;
    [|by exists [], []..].
  pose proof (mark_v1beta1_run mapping serialized l1 (logged_from [AList v1beta1.GroupVersionResource ""] w1)) as Hr1.
  unfold logged_from in Hr1. simpl in Hr1.
  destruct (mark_v1beta1 _ _ _ _) as [[[[]|e]|e] t1]; destruct Hr1 as (k & Hl & Hk).
  2, 3: exists (take k l1), []; rewrite app_nil_r, Hl; split; [|done];
    unfold writes; cbn [app]; rewrite filter_cons_False by done; apply writes_marks.
  rewrite (Hk eq_refl) in Hl. unfold logged.
  destruct (kube_list v1alpha1.GroupVersionResource "" ∅ (tr_world t1)) as [[[l2|e]|e] w3] eqn:El2; simpl.
  2, 3: exists l1, []; rewrite app_nil_r, Hl; split; [|done];
    unfold writes; cbn [app]; rewrite filter_cons_False, filter_app by done;
    fold (writes (marks v1beta1.GroupVersionResource (v1beta1_affected mapping) serialized l1));
    by rewrite writes_marks, app_nil_r.
  set (log1 := tr_log t1 ++ _).
  pose proof (mark_v1alpha1_run mapping serialized l2 {| tr_world := w3; tr_log := log1 |}) as Hr2.
  destruct (mark_v1alpha1 _ _ _ _) as [r t2]. destruct Hr2 as (k2 & Hl2 & Hk2).
  exists l1, (take k2 l2). split.
  - rewrite Hl2. simpl. unfold log1. rewrite Hl. unfold writes. rewrite !filter_app. cbn [app].
    rewrite filter_cons_False by done.
    fold (writes (marks v1beta1.GroupVersionResource (v1beta1_affected mapping) serialized l1)).
    fold (writes (marks v1alpha1.GroupVersionResource (v1alpha1_affected mapping) serialized (take k2 l2))).
    rewrite !writes_marks. rewrite filter_cons_False by done. by rewrite app_nil_r.
  - intros Hr. exists w1, (tr_world t1), w3. by rewrite (Hk2 Hr).
Qed.

(** C16: changing a mapping marks exactly the bindings that use it: an update
    with errors is refused without a call; one that is admitted has written, for
    every binding of both kinds whose workload the old mapping is for, in the
    namespace of the binding, the binding with the old mapping as annotation and
    all other annotations as they were, and nothing else; one that fails on the
    way has only written such objects. *)
Theorem ValidateUpdate_marks (oldMapping mapping : ClusterWorkloadResourceMapping) (w : W) :
  let '(r, t) := validator_ValidateUpdate oldMapping mapping (logged_from [] w) in
  let beta := v1beta1_affected oldMapping in
  let alpha := v1alpha1_affected oldMapping in
  (validate mapping ≠ [] → r = Ret (inl (validate mapping)) ∧ tr_log t = []) ∧
  (validate mapping = [] → ∃ serialized items1 items2,
     writes (tr_log t) = marks v1beta1.GroupVersionResource beta serialized items1 ++
                         marks v1alpha1.GroupVersionResource alpha serialized items2 ∧
     (writes (tr_log t) ≠ [] ∨ r = Ret (inr (Ok tt)) → marshal_Mapping oldMapping = Ok serialized) ∧
     (r = Ret (inr (Ok tt)) → ∃ w1 w2 w3,
        kube_list v1beta1.GroupVersionResource "" ∅ w = (Ret (Ok items1), w1) ∧
        kube_list v1alpha1.GroupVersionResource "" ∅ w2 = (Ret (Ok items2), w3))) ∧
  (∀ serialized b, has_metadata b = true →
     let anns := GetAnnotations (marked_object serialized b) in
     aget MappingAnnotationKey anns = Some serialized ∧
     ∀ k, k ≠ MappingAnnotationKey → aget k anns = aget k (GetAnnotations b)).
Proof.
  assert (∀ serialized b, has_metadata b = true →
     let anns := GetAnnotations (marked_object serialized b) in
     aget MappingAnnotationKey anns = Some serialized ∧
     ∀ k, k ≠ MappingAnnotationKey → aget k anns = aget k (GetAnnotations b)) as Hobj.
  { intros serialized b Hb anns. unfold anns, marked_object. rewrite GetAnnotations_SetAnnotations by done.
    split; [apply aget_aset_eq|]. intros k Hk. by apply aget_aset_ne. }
  unfold validator_ValidateUpdate. destruct (validate mapping) as [|e errs] eqn:Hv; [|by split_and!].
  unfold fmap, M_map, mbind, M_bind, mret, M_ret. destruct (marshal_Mapping oldMapping) as [serialized|e] eqn:Hm.
  - pose proof (Serialize_run oldMapping serialized w Hm) as Hs.
    destruct (Serialize oldMapping (logged_from [] w)) as [r t]. destruct Hs as (l1 & l2 & Hw & Hok).
    assert (∀ r', r = Ret r' → r' = Ok tt → ∃ w1 w2 w3,
        kube_list v1beta1.GroupVersionResource "" ∅ w = (Ret (Ok l1), w1) ∧
        kube_list v1alpha1.GroupVersionResource "" ∅ w2 = (Ret (Ok l2), w3)) as Hlists
      by (intros r' -> ->; by apply Hok).
    destruct r as [r|e]; cbv beta iota zeta; (split; [done|]; split; [|done]; intros _; exists serialized, l1, l2;
      split; [done|]; split; [done|]; intros Hr); simplify_eq. by eapply Hlists.
  - unfold Serialize. rewrite Hm. simpl. split; [done|]. split; [|done]. intros _. exists "", [], [].
    split; [done|]. split; [by intros [?|?]; simplify_eq|by intros ?; simplify_eq].
Qed.
End Marks.

(** ** At work: two bindings, one of which uses the mapping *)
Section Witness.

Record binding_server := { bs_items : list json; bs_updates : nat }.

#[local] Instance binding_server_api : KubeAPI binding_server := {|
  kube_get _ _ name := mret (Err (EAPI true name));
  kube_list gvr _ _ := mgets (λ w, Ok (if String.eqb (gvr_group gvr) "servicebinding.io" then bs_items w else []));
  kube_create _ _ o := mret (Ok o);
  kube_update _ _ o := λ w, (Ret (Ok o), {| bs_items := bs_items w; bs_updates := S (bs_updates w) |});
  kube_subjectAccessReview _ _ _ _ _ _ := mret (Ok true);
  kube_resourceForKind k := mret (Ok {| gvr_group := gvk_group k; gvr_version := gvk_version k;
    gvr_resource := if String.eqb (gvk_kind k) "CronJob" then "cronjobs" else "deployments" |});
  kube_kindForResource _ := mret (Err (EAPI true ""))
|}.

(** The workload of a binding is in its [apiVersion] and [kind]. *)
#[local] Instance demo_bindings : BindingDecoder := {|
  marshal_Mapping m := Ok (cwrm_name m);
  v1beta1_FromUnstructured o :=
    let base := demo_binding (demo_meta [] [] None) [] None in
    Ok {| v1beta1.sb_kind := v1beta1.sb_kind base; v1beta1.sb_apiVersion := v1beta1.sb_apiVersion base;
          v1beta1.sb_objectMeta := v1beta1.sb_objectMeta base;
          v1beta1.sb_spec := {|
            v1beta1.sp_name := ""; v1beta1.sp_type := ""; v1beta1.sp_provider := "";
            v1beta1.sp_workload := {| v1beta1.wl_apiVersion := getNestedString o ["apiVersion"];
              v1beta1.wl_kind := getNestedString o ["kind"]; v1beta1.wl_name := "w";
              v1beta1.wl_selector := None; v1beta1.wl_containers := None |};
            v1beta1.sp_service := v1beta1.sp_service (v1beta1.sb_spec base); v1beta1.sp_env := None |};
          v1beta1.sb_status := v1beta1.sb_status base |};
  v1alpha1_FromUnstructured _ := Err (ENew "")
|}.

Definition binding_of (apiVersion kind : string) : json :=
  JObj [("apiVersion", JStr apiVersion); ("kind", JStr kind); ("metadata", JObj [])].
Definition two_bindings : binding_server :=
  {| bs_items := [binding_of "apps/v1" "Deployment"; binding_of "batch/v1" "CronJob"]; bs_updates := 0 |}.
Abbreviation changed path :=
  (validator_ValidateUpdate (demo_mapping_resource ".spec.containers[*]") (demo_mapping_resource path)
     (logged_from [] two_bindings)).

Lemma ValidateUpdate_marks_witness :
  (changed ".spec.containers[*]").1 = Ret (inr (Ok tt)) ∧
  writes (tr_log (changed ".spec.containers[*]").2) =
    [AUpdate v1beta1.GroupVersionResource "ns" (marked_object "cronjobs.batch" (binding_of "batch/v1" "CronJob"))] ∧
  tr_log (changed "").2 = [] ∧
  aget MappingAnnotationKey (GetAnnotations (marked_object "cronjobs.batch" (binding_of "batch/v1" "CronJob"))) =
    Some "cronjobs.batch".
Proof.
  pose proof (ValidateUpdate_marks
    (λ k, Ok {| gvr_group := gvk_group k; gvr_version := gvk_version k;
      gvr_resource := if String.eqb (gvk_kind k) "CronJob" then "cronjobs" else "deployments" |})
    (λ k w, eq_refl) (demo_mapping_resource ".spec.containers[*]") (demo_mapping_resource "") two_bindings) as Ht.
  destruct (changed "") as [r t] eqn:E. destruct Ht as (Hbad & _ & Hobj).
  split; [by vm_compute|]. split; [by vm_compute|]. split.
  - apply Hbad. by vm_compute.
  - apply Hobj. by vm_compute.
Defined.
End Witness.
