(* ===== verification/System.v ===== *)
(** * The whole system

    Users, the API server with the admission webhook, the environment and the
    reconciler act on one binding in any order.  [step] is one action; the
    theorem is about every state that is reached by any sequence of actions. *)

From stdpp Require Import relations.
From S2P Require Import Prelude.
From S2P Require Import GoLib.
From S2P Require Import GoValue.
From S2P Require Import JsonPath.
From S2P Require Import Heap.
From S2P Require Import Converter.
From S2P Require Import Kube.
From S2P Require Import Apis.
From S2P Require Import Service.
From S2P Require Import Context.
From S2P Require Import Kinds.
From S2P Require Import Collect.
From S2P Require Import Pipeline.
From S2P Require Import Webhooks.
From S2P Require Import Cluster.
From S2P Require Import Invariant.
From S2P Require Import Safety.
From S2P Require Import Writes.
From S2P Require Import WebhooksSpec.

(** ** The API server's side of a binding resource

    How a written object is read, and what is stored for it, given what was
    stored before; the object is gone when its last finalizer is removed. *)
Class BindingServer (B : Type) := {
  srv_decode : json → result B;
  srv_encode : B → json;
  srv_create : B → result B;
  srv_update : B → B → result (option B);
  srv_updateStatus : B → B → result (option B)
}.

Definition requester_text (m : ObjectMeta) : option string :=
  aget requesterAnnotationKey (om_annotations m).

(** Reading an object gives its annotations and writing it keeps them; creating
    and updating store the annotations that were sent, updating the status keeps
    those stored. *)
Class BindingServerLaws (B : Type) `{BindingServer B} `{ServiceBindingKind B} := {
  decode_annotations o b : srv_decode o = Ok b →
    has_metadata o = true ∧ om_annotations (sbk_meta b) = GetAnnotations o;
  encode_requester b :
    aget requesterAnnotationKey (GetAnnotations (srv_encode b)) = requester_text (sbk_meta b);
  create_requester b b' : srv_create b = Ok b' →
    requester_text (sbk_meta b') = requester_text (sbk_meta b);
  update_requester old b b' : srv_update old b = Ok (Some b') →
    requester_text (sbk_meta b') = requester_text (sbk_meta b);
  updateStatus_requester old b b' : srv_updateStatus old b = Ok (Some b') →
    requester_text (sbk_meta b') = requester_text (sbk_meta old)
}.

(** ** Worlds around the logged API server

    [lift] runs a call of the server in a larger world; what the larger world
    adds is the bindings. *)
Definition lifted_api {W X : Type} `{KubeAPI W} (lift : ∀ A, M (traced W) A → M X A) : KubeAPI X := {|
  kube_get gvr ns name := lift _ (kube_get gvr ns name);
  kube_list gvr ns sel := lift _ (kube_list gvr ns sel);
  kube_create gvr ns o := lift _ (kube_create gvr ns o);
  kube_update gvr ns o := lift _ (kube_update gvr ns o);
  kube_subjectAccessReview user groups verb ns gvr name :=
    lift _ (kube_subjectAccessReview user groups verb ns gvr name);
  kube_resourceForKind k := lift _ (kube_resourceForKind k);
  kube_kindForResource r := lift _ (kube_kindForResource r)
|}.

Lemma Requester_text `{UserInfoJSON} m m' : requester_text m = requester_text m' → Requester m = Requester m'.
Proof. unfold requester_text, Requester. by intros ->. Qed.

Section Lifted.
Context {W X B : Type} `{KubeAPI W} `{Clock W} `{ServiceBindingKind B} `{UserInfoJSON} `{!ServiceBindingLaws B}.
Context (lift : ∀ A, M (traced W) A → M X A) `{BindingAPI X B}.
Context (allowed : string → list string → string → string → GroupVersionResource → string → Prop) (owned : Prop).
Context (P : X → Prop) (u : UserInfo) (m : ObjectMeta).

(** The calls run on some state of the server, and keep [P] when they are
    accounted for by the rights of [u]. *)
Hypothesis Hrun : ∀ A (x : M (traced W) A) s r s', lift A x s = (Ret r, s') → ∃ t t', x t = (Ret r, t').
Hypothesis Hlift : ∀ A (x : M (traced W) A),
  inv (λ t, Forall (accounted allowed u m owned) (tr_log t)) x → inv P (lift A x).
Hypothesis Hupdate : ∀ b : B, Requester (sbk_meta b) = Some u → inv P (binding_update b).
Hypothesis Hstatus : ∀ b : B, inv P (binding_updateStatus b).
Hypothesis Hreview : sound_review (W := W) allowed.
Hypothesis Hget : named_get (W := W).

#[local] Instance the_lifted_api : KubeAPI X := lifted_api lift.
#[local] Instance the_lifted_clock : Clock X := lift _ time_Now.

(** The promise of a flow whose binding has metadata [m'], the same as [m] but
    for its finalizers. *)
Lemma lifted_safe m' :
  om_name m' = om_name m → om_namespace m' = om_namespace m → om_uid m' = om_uid m →
  Requester m' = Some u →
  SafeWorld X B (permission_pledge allowed u m' owned P).
Proof.
  intros Hn Hns Huid Hreq.
  assert (sound_review (W := X) allowed) as Hrev.
  { intros user groups verb ns gvr name w w' (t & t' & Hr)%Hrun.
    exact (traced_review allowed Hreview _ _ _ _ _ _ _ _ Hr). }
  assert (∀ gvr ns name w x w', kube_get (W := X) gvr ns name w = (Ret (Ok x), w') → GetName x = name) as Hg.
  { intros gvr ns name w x w' (t & t' & Hr)%Hrun. exact (traced_get Hget _ _ _ _ _ _ Hr). }
  assert (∀ o, own_secret (permission_pledge allowed u m' owned P) o →
    accounted allowed u m owned (ACreate secretGVR (om_namespace m) o)) as Hown.
  { intros o (hashed & data & owner & -> & Ho). unfold pl_name, pl_namespace, pl_uid in *. simpl in Ho.
    rewrite Hn, Huid in Ho. split_and!; [done..|]. exists hashed, data, owner. simpl.
    by rewrite Hn, Hns. }
  split; try (intros; apply Hlift, inv_unlogged).
  - intros. by eapply (permission_may (W := X) allowed u m' owned).
  - intros gvr ns name w x w' Hx Hm. by erewrite Hg.
  - intros gvr ns name Hm. apply Hlift, inv_logged. simpl.
    destruct Hm as [?|[?|(-> & -> & hashed & ->)]]; [by left|by right; left|right; right].
    unfold pl_name, pl_namespace. simpl. rewrite Hn, Hns. eauto.
  - intros gvr ns sel Hm. by apply Hlift, inv_logged.
  - intros o Ho. apply Hlift, inv_logged. unfold pl_namespace. simpl. rewrite Hns. by apply Hown.
  - intros o Ho. apply Hlift, inv_logged. unfold pl_namespace. simpl. rewrite Hns.
    split; [done|]. left. by destruct (Hown o Ho) as (? & ? & ?).
  - intros gvr name o Hm. apply Hlift, inv_logged. unfold pl_namespace in *. simpl in *.
    rewrite Hns in *. split; [done|]. right. by eexists.
  - intros b [Hid _]. apply Hupdate. rewrite <- Hreq. apply Requester_text. by apply identity_aget.
  - intros b _. apply Hstatus.
Qed.

(** *** Reconciling *)
Context (process : B → X → processed * B * X).
Hypothesis Hprocess : ∀ (pl : pledge X) b w,
  SafeWorld X B pl → kept (pl_meta pl) (sbk_meta b) → pl_owned pl = owned → pl_world pl w →
  let r := process b w in kept (pl_meta pl) (sbk_meta r.1.2) ∧ pl_world pl r.2.

(** Adding or removing the finalizer changes nothing else. *)
Lemma MaybeAddFinalizer_same m1 :
  let m' := (MaybeAddFinalizer m1).2 in
  om_name m' = om_name m1 ∧ om_namespace m' = om_namespace m1 ∧ om_uid m' = om_uid m1 ∧
  requester_text m' = requester_text m1.
Proof. unfold MaybeAddFinalizer. by destruct (existsb _ _). Qed.

Lemma MaybeRemoveFinalizer_requester m1 :
  requester_text (MaybeRemoveFinalizer m1).2 = requester_text m1.
Proof. unfold MaybeRemoveFinalizer. by destruct (remove_first _ _). Qed.

(** Processing a binding that keeps its requester. *)
Lemma processed_keeps (b : B) w :
  P w → om_name (sbk_meta b) = om_name m → om_namespace (sbk_meta b) = om_namespace m →
  om_uid (sbk_meta b) = om_uid m → Requester (sbk_meta b) = Some u →
  let r := process b w in Requester (sbk_meta r.1.2) = Some u ∧ P r.2.
Proof.
  intros Hw Hn Hns Huid Hreq.
  destruct (Hprocess (permission_pledge allowed u (sbk_meta b) owned P) b w
    (lifted_safe (sbk_meta b) Hn Hns Huid Hreq) (kept_refl _) eq_refl Hw) as [[Hid _] Hgood].
  split; [|exact Hgood]. rewrite <- Hreq. apply Requester_text. by apply identity_aget.
Qed.

Lemma Reconcile_keeps ns name w w1 b :
  binding_get ns name w = (Ret (Ok b), w1) → sbk_meta b = m → Requester m = Some u → P w1 →
  P (Reconcile process ns name w).2.
Proof.
  intros Hread Hm Hreq Hw. unfold Reconcile. erewrite (mbind_ret _ _ _ (Ok b)) by exact Hread. simpl.
  set (deleted := match om_deletionTimestamp _ with Some _ => true | None => false end).
  assert (let m' := (if deleted then (false, sbk_meta b) else MaybeAddFinalizer (sbk_meta b)).2 in
    om_name m' = om_name m ∧ om_namespace m' = om_namespace m ∧ om_uid m' = om_uid m ∧
    Requester m' = Some u) as Hm'.
  { rewrite <- Hm, <- Hreq. destruct deleted; [by rewrite Hm|].
    destruct (MaybeAddFinalizer_same (sbk_meta b)) as (? & ? & ? & ?%Requester_text).
    split_and!; [done..|]. by rewrite <- Hm. }
  destruct (if deleted then _ else _) as [added m']. simpl in Hm'. destruct Hm' as (Hn & Hns & Hu & Hr).
  match goal with |- P (?f w1).2 => cut (inv P f); [by intros Hf; apply Hf|] end.
  apply inv_bind; [destruct added; [apply Hupdate; by rewrite meta_set|apply inv_ret]|].
  intros [_|e]; [|apply inv_ret].
  assert (∀ w, P w → let r := process (sbk_set_meta m' b) w in Requester (sbk_meta r.1.2) = Some u ∧ P r.2) as Hp.
  { intros w2 Hw2. apply processed_keeps; by rewrite ?meta_set. }
  apply (inv_bind_post _ (λ pb, Requester (sbk_meta pb.2) = Some u)).
  - intros w2 Hw2. specialize (Hp w2 Hw2). destruct (process (sbk_set_meta m' b) w2) as [[p b'] w']. by destruct Hp.
  - intros w2 pb w' Hw2 Hpb. specialize (Hp w2 Hw2).
    destruct (process (sbk_set_meta m' b) w2) as [[p b'] w3]. simplify_eq/=. by destruct Hp.
  - intros [p b'] Hb'. simpl in Hb'. destruct (p_err p); [inv_auto|].
    destruct (_ && _); [|inv_auto].
    pose proof (MaybeRemoveFinalizer_requester (sbk_meta b')) as Hrem%Requester_text.
    destruct (MaybeRemoveFinalizer (sbk_meta b')) as [[] m2]; [|inv_auto].
    apply inv_bind; [apply Hupdate; rewrite meta_set; simpl in Hrem; congruence|].
    intros v. inv_auto.
Qed.
End Lifted.

(** The cluster with the binding in it; calls are logged. *)
Record world (W B : Type) := { wd_api : traced W; wd_binding : option B }.
Arguments wd_api {W B}.
Arguments wd_binding {W B}.

Section World.
Context {W B : Type} `{KubeAPI W} `{Clock W} `{ServiceBindingKind B} `{BindingServer B} `{UserInfoJSON}.
Context (operator : UserInfo) (serviceAccountName : string).

Definition on_server {A} (m : M (traced W) A) : M (world W B) A :=
  zoom wd_api (λ t w, {| wd_api := t; wd_binding := wd_binding w |}) m.

Definition world_api : KubeAPI (world W B) := lifted_api (@on_server).

Definition world_clock : Clock (world W B) := on_server time_Now.

(** The object after the mutating webhook. *)
Definition admitted (user : UserInfo) (op : Operation) (o : json) : result B :=
  match admission_Handle serviceAccountName
          {| req_UserInfo := user; req_Operation := op; req_Object := Ok o |} with
  | Allowed => srv_decode o
  | Errored e => Err e
  | Patched o' => srv_decode o'
  end.

(** The operator's own writes: the webhook sees updates, not updates of the
    status. *)
Definition put (store : B → B → result (option B)) (b : result B) : M (world W B) (result unit) := λ w,
  match wd_binding w, b with
  | Some old, Ok b =>
      match store old b with
      | Ok stored => (Ret (Ok tt), {| wd_api := wd_api w; wd_binding := stored |})
      | Err e => (Ret (Err e), w)
      end
  | None, _ => (Ret (Err (EAPI true "")), w)
  | _, Err e => (Ret (Err e), w)
  end.

Definition world_bindings : BindingAPI (world W B) B := {|
  binding_get ns name := mgets (λ w,
    match wd_binding w with
    | Some b => if String.eqb (om_namespace (sbk_meta b)) ns && String.eqb (om_name (sbk_meta b)) name
                then Ok b else Err (EAPI true name)
    | None => Err (EAPI true name)
    end);
  binding_update b := put srv_update (admitted operator Update (srv_encode b));
  binding_updateStatus b := put srv_updateStatus (Ok b)
|}.
End World.

(** ** States and actions

    [sys_writer] is the user who wrote the binding last; [sys_done] are the
    calls the reconciler made, each with the writer and the metadata of the
    binding when its reconciliation began. *)
Record system (W B : Type) := {
  sys_api : W;
  sys_binding : option B;
  sys_writer : option UserInfo;
  sys_done : list (option UserInfo * option ObjectMeta * access)
}.
Arguments sys_api {W B}.
Arguments sys_binding {W B}.
Arguments sys_writer {W B}.
Arguments sys_done {W B}.

Definition initial {W B} (w : W) : system W B :=
  {| sys_api := w; sys_binding := None; sys_writer := None; sys_done := [] |}.

Definition with_deletion (t : Z) (m : ObjectMeta) : ObjectMeta :=
  {| om_name := om_name m; om_namespace := om_namespace m; om_uid := om_uid m;
     om_generation := om_generation m; om_annotations := om_annotations m;
     om_finalizers := om_finalizers m; om_deletionTimestamp := Some t |}.

Section System.
Context {W B : Type} `{KubeAPI W} `{Clock W} `{ServiceBindingKind B} `{BindingServer B} `{UserInfoJSON}.
Context (operator : UserInfo) (serviceAccountName : string).
Context (process : B → world W B → processed * B * world W B).

#[local] Existing Instance world_api.
#[local] Existing Instance world_clock.
#[local] Instance bindings_of_world : BindingAPI (world W B) B := world_bindings operator serviceAccountName.

Abbreviation sys := (system W B).

Definition set_stored (b : option B) (s : sys) : sys :=
  {| sys_api := sys_api s; sys_binding := b; sys_writer := sys_writer s; sys_done := sys_done s |}.
Definition set_written (b : B) (user : UserInfo) (s : sys) : sys :=
  {| sys_api := sys_api s; sys_binding := Some b; sys_writer := Some user; sys_done := sys_done s |}.

(** The world a reconciliation starts in, and the state after it. *)
Definition start_world (s : sys) : world W B :=
  {| wd_api := {| tr_world := sys_api s; tr_log := [] |}; wd_binding := sys_binding s |}.
Definition after_reconcile (s : sys) (w : world W B) : sys :=
  {| sys_api := tr_world (wd_api w); sys_binding := wd_binding w; sys_writer := sys_writer s;
     sys_done := sys_done s ++ map (λ a, (sys_writer s, sbk_meta <$> sys_binding s, a)) (tr_log (wd_api w)) |}.

(** The mark a changed mapping leaves on a binding ([validator.go]). *)
Definition marked (text : string) (b : B) : B :=
  sbk_set_meta (with_annotations (aset MappingAnnotationKey text (om_annotations (sbk_meta b))) (sbk_meta b)) b.

Inductive step : sys → sys → Prop :=
| user_creates s user o b b' :
    ui_username user ≠ serviceAccountName → sys_binding s = None →
    admitted serviceAccountName user Create o = Ok b → srv_create b = Ok b' →
    step s (set_written b' user s)
| user_updates s user o old b b' :
    ui_username user ≠ serviceAccountName → sys_binding s = Some old →
    admitted serviceAccountName user Update o = Ok b → srv_update old b = Ok (Some b') →
    step s (set_written b' user s)
| user_deletes s old t :
    sys_binding s = Some old →
    step s (set_stored (Some (sbk_set_meta (with_deletion t (sbk_meta old)) old)) s)
| server_removes s : step s (set_stored None s)
| status_written s old b b' :
    sys_binding s = Some old → srv_updateStatus old b = Ok (Some b') → step s (set_stored (Some b') s)
| mapping_changed s b text :
    sys_binding s = Some b →
    step s (after_reconcile s (binding_update (marked text b) (start_world s)).2)
| environment s w : step s {| sys_api := w; sys_binding := sys_binding s; sys_writer := sys_writer s;
                              sys_done := sys_done s |}
| reconciles s ns name :
    step s (after_reconcile s (Reconcile process ns name (start_world s)).2).
End System.

(** ** The invariant *)
Section Invariant.
Context {W B : Type} `{KubeAPI W} `{Clock W} `{ServiceBindingKind B} `{BindingServer B} `{UserInfoJSON}.
Context `{!ServiceBindingLaws B} `{!BindingServerLaws B}.
Context (operator : UserInfo) (serviceAccountName : string).
Context (allowed : string → list string → string → string → GroupVersionResource → string → Prop).
Context (owned : Prop).
Context (Hoperator : ui_username operator = serviceAccountName).
Context (Hcodec : ∀ u, unmarshal_UserInfo (marshal_UserInfo u) = Ok u).
Context (Hreview : sound_review (W := W) allowed) (Hget : named_get (W := W)).

#[local] Existing Instance world_api.
#[local] Existing Instance world_clock.
#[local] Instance the_bindings : BindingAPI (world W B) B := world_bindings operator serviceAccountName.

Lemma admitted_operator b b' :
  admitted serviceAccountName operator Update (srv_encode b) = Ok b' →
  requester_text (sbk_meta b') = requester_text (sbk_meta b).
Proof.
  unfold admitted, admission_Handle. cbn [req_UserInfo]. rewrite Hoperator, String.eqb_refl.
  intros [_ Ha]%decode_annotations. unfold requester_text at 1. rewrite Ha. apply encode_requester.
Qed.

Lemma admitted_user user op o b :
  ui_username user ≠ serviceAccountName → op = Create ∨ op = Update →
  admitted serviceAccountName user op o = Ok b → Requester (sbk_meta b) = Some user.
Proof.
  intros Huser Hop. unfold admitted, admission_Handle. cbn [req_UserInfo req_Object req_Operation].
  destruct (String.eqb_spec (ui_username user) serviceAccountName); [done|].
  assert (∀ o', srv_decode o' = Ok b → o' = SetAnnotations o (SetRequester (GetAnnotations o) user) →
    Requester (sbk_meta b) = Some user) as Hpatched.
  { intros o' [Hm Ha]%decode_annotations ->.
    destruct (has_metadata o) eqn:Ho; [|rewrite SetAnnotations_no_metadata in Hm by done; congruence].
    rewrite <- (patched_requester user o (sbk_meta b) Hcodec Ho). unfold Requester. simpl. by rewrite Ha. }
  destruct Hop as [-> | ->]; eauto.
Qed.

(** What holds while [u]'s binding with metadata [m] is reconciled. *)
Definition good (u : UserInfo) (m : ObjectMeta) (w : world W B) : Prop :=
  Forall (accounted allowed u m owned) (tr_log (wd_api w)) ∧
  ∀ b, wd_binding w = Some b → Requester (sbk_meta b) = Some u.

Lemma inv_on_server {A} u m (x : M (traced W) A) :
  inv (λ t, Forall (accounted allowed u m owned) (tr_log t)) x → inv (good u m) (on_server x).
Proof.
  intros Hx w [Hl Hb]. specialize (Hx _ Hl). unfold on_server, zoom.
  by destruct (x (wd_api w)).
Qed.

Lemma inv_put u m store (b : result B) :
  (∀ old b' b1, b = Ok b' → store old b' = Ok (Some b1) → Requester (sbk_meta old) = Some u →
     Requester (sbk_meta b1) = Some u) →
  inv (good u m) (put store b).
Proof.
  intros Hs w [Hl Hb]. unfold put. destruct (wd_binding w) as [old|] eqn:Ho; [|by split; simpl; rewrite ?Ho].
  destruct b as [b|e]; [|by split; simpl; rewrite ?Ho].
  destruct (store old b) as [stored|e] eqn:Es; [|by split; simpl; rewrite ?Ho].
  split; [done|]. simpl. intros b1 ->. eauto.
Qed.

Lemma inv_operator_update u m b :
  Requester (sbk_meta b) = Some u → inv (good u m) (binding_update b).
Proof.
  intros Hu. apply inv_put. intros old b' b1 Ha%admitted_operator Hs%update_requester _.
  rewrite <- Hu. apply Requester_text. by rewrite Hs.
Qed.

Lemma inv_operator_status u m b : inv (good u m) (binding_updateStatus b).
Proof.
  apply inv_put. intros old b' b1 _ Hs%updateStatus_requester Hu.
  rewrite <- Hu. by apply Requester_text.
Qed.

Lemma on_server_run {A} (x : M (traced W) A) (w : world W B) r w' :
  on_server x w = (Ret r, w') → ∃ t t', x t = (Ret r, t').
Proof.
  unfold on_server, zoom. destruct (x (wd_api w)) as [r' t'] eqn:E. intros [= -> <-]. eauto.
Qed.

(** ** Reconciling *)
Context (process : B → world W B → processed * B * world W B).
Context (Hprocess : ∀ (pl : pledge (world W B)) b w,
  SafeWorld (world W B) B pl → kept (pl_meta pl) (sbk_meta b) → pl_owned pl = owned →
  pl_world pl w →
  let r := process b w in kept (pl_meta pl) (sbk_meta r.1.2) ∧ pl_world pl r.2).

Lemma Reconcile_good u m ns name w :
  good u m w → (∀ b, wd_binding w = Some b → sbk_meta b = m) →
  good u m (Reconcile process ns name w).2.
Proof.
  intros Hw Hm. destruct (binding_get ns name w) as [[[b|e]|e] w1] eqn:Hread.
  - assert (wd_binding w = Some b ∧ w1 = w) as [Hb ->].
    { simpl in Hread. unfold mgets in Hread. destruct (wd_binding w) as [b0|]; [|done].
      destruct (_ && _); by simplify_eq. }
    eapply (Reconcile_keeps (@on_server W B)); [| | | |done|done|exact Hprocess|exact Hread|by apply Hm| |done].
    + intros. by eapply on_server_run.
    + intros A x Hx. by apply inv_on_server.
    + apply inv_operator_update.
    + apply inv_operator_status.
    + rewrite <- (Hm b Hb). by apply Hw.
  - unfold Reconcile, mbind, M_bind. rewrite Hread. simpl in Hread. unfold mgets in Hread.
    injection Hread as _ <-. by destruct (IsNotFound e).
  - by simpl in Hread.
Qed.

(** ** Reachable states *)
Abbreviation reachable w s := (rtc (step operator serviceAccountName process) (initial w) s).

Definition truthful (s : system W B) : Prop :=
  ∀ b, sys_binding s = Some b → ∃ u, sys_writer s = Some u ∧ Requester (sbk_meta b) = Some u.
Definition all_accounted (s : system W B) : Prop :=
  Forall (λ d, ∃ u m, d.1 = (Some u, Some m) ∧ accounted allowed u m owned d.2) (sys_done s).

(** A run of the operator keeps both. *)
Lemma after_operator {A} (s : system W B) (f : M (world W B) A) :
  truthful s → all_accounted s →
  (∀ u m, (∀ b, wd_binding (start_world s) = Some b → sbk_meta b = m) →
     good u m (start_world s) → good u m (f (start_world s)).2) →
  (sys_binding s = None → (f (start_world s)).2 = start_world s) →
  truthful (after_reconcile s (f (start_world s)).2) ∧ all_accounted (after_reconcile s (f (start_world s)).2).
Proof.
  intros Ht Ha Hf Hnone. unfold truthful, all_accounted, after_reconcile in *.
  destruct (sys_binding s) as [b|] eqn:Hb.
  - destruct (Ht b eq_refl) as (u & Hu & Hr).
    destruct (Hf u (sbk_meta b)) as [Hlog Hst].
    { simpl. rewrite Hb. by intros b' [= ->]. }
    { split; [constructor|]. simpl. rewrite Hb. by intros b' [= <-]. }
    split; simpl; [eauto|]. apply Forall_app. split; [done|]. apply Forall_map. rewrite Hu.
    eapply Forall_impl; [exact Hlog|]. intros a Haa. by exists u, (sbk_meta b).
  - rewrite (Hnone eq_refl). simpl. rewrite Hb, app_nil_r. done.
Qed.

Lemma truthful_stored (s : system W B) b b' :
  truthful s → sys_binding s = Some b → requester_text (sbk_meta b') = requester_text (sbk_meta b) →
  truthful (set_stored (Some b') s).
Proof.
  intros Ht Hb Hr%Requester_text b1 [= <-]. simpl. rewrite Hr. by apply Ht.
Qed.

Lemma step_keeps s s' :
  step operator serviceAccountName process s s' →
  truthful s ∧ all_accounted s → truthful s' ∧ all_accounted s'.
Proof.
  intros Hstep [Ht Ha]. destruct Hstep as
    [s user o b b' Hu Hb Had Hc|s user o old b b' Hu Hb Had Hc|s old t Hb|s|s old b b' Hb Hc|s b text Hb|s w|s ns name].
  - split; [|done]. intros b1 [= <-]. exists user. split; [done|].
    rewrite <- (admitted_user user Create o b Hu (or_introl eq_refl) Had).
    apply Requester_text. by eapply create_requester.
  - split; [|done]. intros b1 [= <-]. exists user. split; [done|].
    rewrite <- (admitted_user user Update o b Hu (or_intror eq_refl) Had).
    apply Requester_text. by eapply update_requester.
  - split; [|done]. eapply truthful_stored; [done..|]. by rewrite meta_set.
  - by split.
  - split; [|done]. eapply truthful_stored; [done..|]. by eapply updateStatus_requester.
  - apply after_operator; [done..| |].
    + intros u m Hm [Hl Hst]. apply inv_operator_update; [|by split].
      rewrite <- (Hst b Hb). apply Requester_text. unfold marked, requester_text. rewrite meta_set. simpl.
      by apply aget_aset_ne.
    + intros Hnone. congruence.
  - by split.
  - apply after_operator; [done..| |].
    + intros u m Hm Hgood. by apply Reconcile_good.
    + intros Hnone. unfold Reconcile. unfold mbind, M_bind. simpl. by rewrite Hnone.
Qed.

Lemma reachable_inv w s : reachable w s → truthful s ∧ all_accounted s.
Proof.
  apply (rtc_ind_r (λ s, truthful s ∧ all_accounted s) (initial w)); [split; [done|constructor]|].
  intros s1 s2 _. apply step_keeps.
Qed.
End Invariant.

(** ** Both kinds of binding *)
Section Kinds.
Context {W : Type} `{KubeAPI W} `{Clock W} `{UserInfoJSON} `{JSONPathLib} `{BucketRateLimiter}
  `{MappingDecoder} `{Converter} `{Templates}.
Context `{BindingServer v1alpha1.ServiceBinding} `{BindingServer v1beta1.ServiceBinding}.
Context (operator : UserInfo) (serviceAccountName : string).

#[local] Existing Instance world_api.
#[local] Existing Instance world_clock.
#[local] Instance coreos_bindings : BindingAPI (world W v1alpha1.ServiceBinding) v1alpha1.ServiceBinding :=
  world_bindings operator serviceAccountName.
#[local] Instance spec_bindings : BindingAPI (world W v1beta1.ServiceBinding) v1beta1.ServiceBinding :=
  world_bindings operator serviceAccountName.

(** The reconcilers of [controllers/binding] and [controllers/spec]. *)
Definition coreos_step := step (W := W) operator serviceAccountName (Process Provider_Get defaultFlow).
Definition spec_step := step (W := W) operator serviceAccountName (Process SpecProvider_Get specFlow).

(** C1: end to end, the operator acts with the rights of the user who wrote
    the binding last: in every state reached by any sequence of creations and
    updates by users, deletions, changes of the status, of the mappings and of
    the rest of the cluster, and reconciliations, the requester recorded in the
    binding is the user who wrote it last, and every call a reconciliation ever
    made is one [accounted] allows for the user who had written the binding when
    the reconciliation began (the resources owned by services of a coreos
    binding are listed unasked, and the right to update some object of a type is
    enough); for both kinds of binding. *)
Theorem system_acts_for_writer (hlaws : JSONPathLaws)
    (alaws : BindingServerLaws v1alpha1.ServiceBinding) (blaws : BindingServerLaws v1beta1.ServiceBinding)
    (allowed : string → list string → string → string → GroupVersionResource → string → Prop) (w : W)
    (s1 : system W v1alpha1.ServiceBinding) (s2 : system W v1beta1.ServiceBinding) :
  ui_username operator = serviceAccountName →
  (∀ u, unmarshal_UserInfo (marshal_UserInfo u) = Ok u) →
  sound_review (W := W) allowed → named_get (W := W) →
  rtc coreos_step (initial w) s1 → rtc spec_step (initial w) s2 →
  (truthful s1 ∧ all_accounted allowed True s1) ∧ (truthful s2 ∧ all_accounted allowed False s2).
Proof.
  intros Hop Hcodec Hrev Hget Hs1 Hs2. split.
  - eapply reachable_inv; [done..| |exact Hs1].
    intros pl b wd Hs Hid Ho Hw. apply Process_inv_coreos; [done..| |done]. by rewrite Ho.
  - eapply reachable_inv; [done..| |exact Hs2].
    intros pl b wd Hs Hid Ho Hw. by apply Process_inv_spec.
Qed.
End Kinds.

(** ** At work: a server that keeps the metadata, and a deployment bound for [alice] *)
Section Witness.

Definition stored_meta (o : json) : ObjectMeta :=
  demo_meta (GetAnnotations o)
    (match NestedFieldNoCopy o ["metadata"; "finalizers"] with
     | Found (JArr _ l) => omap (λ x, match x with JStr f => Some f | _ => None end) l
     | _ => []
     end) None.

Definition simple_server {B} `{ServiceBindingKind B} (mk : ObjectMeta → B) : BindingServer B := {|
  srv_decode o := if has_metadata o then Ok (mk (stored_meta o)) else Err (ENew "metadata is not an object");
  srv_encode b := SetAnnotations
    (JObj [("metadata", JObj [("finalizers", JArr SliceAny (JStr <$> om_finalizers (sbk_meta b)))])])
    (om_annotations (sbk_meta b));
  srv_create b := Ok b;
  srv_update old b := Ok (Some b);
  srv_updateStatus old b := Ok (Some (sbk_set_meta (sbk_meta old) b))
|}.

Lemma simple_server_laws {B} `{ServiceBindingKind B} `{!ServiceBindingLaws B} (mk : ObjectMeta → B) :
  (∀ m, sbk_meta (mk m) = m) → @BindingServerLaws B (simple_server mk) _.
Proof.
  intros Hmk. split.
  - intros o b. simpl. destruct (has_metadata o); [|done]. intros [= <-]. by rewrite Hmk.
  - intros b. simpl. by rewrite GetAnnotations_SetAnnotations.
  - by intros b b' [= ->].
  - by intros old b b' [= ->].
  - intros old b b' [= <-]. by rewrite meta_set.
Qed.

#[local] Instance coreos_server : BindingServer v1alpha1.ServiceBinding := simple_server demo_app.
#[local] Instance spec_server : BindingServer v1beta1.ServiceBinding :=
  simple_server (λ m, demo_binding m [] None).
#[local] Existing Instance world_api.
#[local] Existing Instance world_clock.

Abbreviation sbo := {| ui_username := "sbo"; ui_groups := [] |}.
Abbreviation W0 := (cluster v1beta1.ServiceBinding).

#[local] Instance coreos_server_laws : BindingServerLaws v1alpha1.ServiceBinding.
Proof. by apply simple_server_laws. Qed.
#[local] Instance spec_server_laws : BindingServerLaws v1beta1.ServiceBinding.
Proof. by apply simple_server_laws. Qed.

(** The object [alice] sends claims to be asked for by someone else. *)
Definition sent : json := SetAnnotations (JObj []) [(requesterAnnotationKey, "root")].
Definition created : system W0 v1beta1.ServiceBinding :=
  let b := demo_binding (stored_meta (SetAnnotations sent
    (SetRequester (GetAnnotations sent) {| ui_username := "alice"; ui_groups := [] |}))) [] None in
  set_written b {| ui_username := "alice"; ui_groups := [] |} (initial (demo_cluster demo_workload [])).
#[local] Instance demo_bindings : BindingAPI (world W0 v1beta1.ServiceBinding) v1beta1.ServiceBinding :=
  world_bindings sbo "sbo".
Definition reconciled : system W0 v1beta1.ServiceBinding :=
  after_reconcile created
    (Reconcile (Process SpecProvider_Get specFlow) "ns" "binding" (start_world created)).2.

(** The finalizer is there, the deployment was updated, all on behalf of [alice]. *)
Lemma system_acts_for_writer_witness :
  rtc (spec_step (W := W0) sbo "sbo") (initial (demo_cluster demo_workload [])) reconciled ∧
  truthful reconciled ∧ all_accounted not_eve False reconciled ∧
  om_finalizers ∘ sbk_meta <$> sys_binding reconciled = Some [finalizerName] ∧
  length (List.filter (is_write ∘ snd) (sys_done reconciled)) = 1.
Proof.
  assert (rtc (spec_step (W := W0) sbo "sbo") (initial (demo_cluster demo_workload [])) reconciled) as Hr.
  { eapply rtc_l; [|apply rtc_once; exact (reconciles sbo "sbo" (Process SpecProvider_Get specFlow) created "ns" "binding")].
    eapply (user_creates _ _ _ _ {| ui_username := "alice"; ui_groups := [] |} sent); by vm_compute. }
  split; [exact Hr|].
  destruct (system_acts_for_writer sbo "sbo" dotted_laws coreos_server_laws spec_server_laws
    not_eve (demo_cluster demo_workload []) (initial (demo_cluster demo_workload [])) reconciled
    eq_refl user_codec_law server_review server_get (rtc_refl _ _) Hr) as [_ [Ht Ha]].
  split; [exact Ht|]. split; [exact Ha|]. split; by vm_compute.
Defined.
End Witness.
