(* ===== verification/WhoAmI.v ===== *)
(** * The operator's own name ([pkg/client/kubernetes/whoami.go])

    At start-up the operator asks the API server who it is; the admission
    webhook uses the answer to tell its own writes from those of users. *)

From S2P Require Import Prelude.
From S2P Require Import GoLib.
From S2P Require Import GoValue.
From S2P Require Import Kube.
From S2P Require Import Apis.
From S2P Require Import Service.
From S2P Require Import Webhooks.
From S2P Require Import WebhooksSpec.
From S2P Require Import Cluster.

(** ** Strings and the regular expression *)

(** [strings.ReplaceAll(s, old, "")] for a non-empty [old]; [skip] counts the
    bytes of a match that are still to be dropped. *)
Fixpoint remove_all (old : string) (skip : nat) (s : string) : string :=
  match s with
  | EmptyString => ""
  | String a s' =>
      match skip with
      | S k => remove_all old k s'
      | O => if String.prefix old s then remove_all old (String.length old - 1) s'
             else String a (remove_all old 0 s')
      end
  end.

Definition newline : ascii := Ascii.ascii_of_nat 10.
Definition quote : string := String (Ascii.ascii_of_nat 34) "".

Definition strip (p s : string) : option string :=
  if String.prefix p s then Some (drop_str (String.length p) s) else None.

(** The regular expression [.*] before [k]: it takes as much as it can, but no
    newline.  The text it takes, and what [k] gives on the rest. *)
Fixpoint greedy {A} (k : string → option A) (s : string) : option (string * A) :=
  let here := (λ a, ("", a)) <$> k s in
  match s with
  | EmptyString => here
  | String c s' =>
      if Ascii.eqb c newline then here
      else match greedy k s' with
           | Some (p, a) => Some (String c p, a)
           | None => here
           end
  end.

Definition userMark : string := " User " +:+ quote.
Definition cannotMark : string := quote +:+ " cannot ".

(** The match of the expression of the source: anything, [userMark], the group,
    [cannotMark], anything; its group. *)
Definition match_username (s : string) : option string :=
  r ← greedy (λ s, rest ← strip userMark s;
                   greedy (λ s, rest ← strip cannotMark s;
                                if Count rest newline =? 0 then Some tt else None) rest) s;
  Some (r.2.1).

(** [getUsernameFromError]: [ReplaceAllString] leaves a text that does not
    match as it is. *)
Definition getUsernameFromError (text : string) : string := default text (match_username text).

(** ** The client *)

(** [rest.Config] and [transport.Config], the fields used. *)
Record restConfig := {
  rc_BearerToken : string;
  rc_BearerTokenFile : string;
  rc_Username : string;
  rc_AuthProvider : bool;
  rc_ExecProvider : bool
}.
Record transportConfig := {
  tc_BearerToken : string;
  tc_BearerTokenFile : string;
  tc_Username : string;
  tc_CertData : string; tc_CertFile : string;
  tc_KeyData : string; tc_KeyFile : string
}.

Definition nonempty (s : string) : bool := negb (String.eqb s "").
Definition HasBasicAuth (c : transportConfig) : bool := nonempty (tc_Username c).
Definition HasTokenAuth (c : transportConfig) : bool :=
  nonempty (tc_BearerToken c) || nonempty (tc_BearerTokenFile c).
Definition HasCertAuth (c : transportConfig) : bool :=
  (nonempty (tc_CertData c) || nonempty (tc_CertFile c)) &&
  (nonempty (tc_KeyData c) || nonempty (tc_KeyFile c)).

(** [TokenReviewStatus], and an error of the API server with its text. *)
Record TokenReviewStatus := {
  trs_Authenticated : bool; trs_Username : string; trs_Error : string
}.
Record apiError := { ae_forbidden : bool; ae_text : string }.

(** The calls made.  A request shows its authorization header to the round
    tripper that wraps the transport. *)
Class AuthAPI (W : Type) := {
  rest_TransportConfig : restConfig → M W (result transportConfig);
  kubernetes_NewForConfig : restConfig → M W (result unit);
  os_ReadFile : string → M W (result string);
  selfSubjectRulesReview : M W (string * result unit);
  tokenReview : string → M W (res apiError TokenReviewStatus)
}.

(** [tokenRetriever.RoundTrip]: the token it keeps. *)
Definition RoundTrip (header token : string) : string :=
  if HasPrefix header "Bearer " then remove_all "Bearer " 0 header else token.

Section WhoAmI.
Context {W : Type} `{AuthAPI W}.

(** The token of the configuration: the one given wins over the file. *)
Definition configured_token (config : restConfig) (transport : transportConfig) : M W (result string) :=
  if HasTokenAuth transport then
    let! token := (if nonempty (rc_BearerTokenFile config)
                   then os_ReadFile (rc_BearerTokenFile config) else mret (Ok "")) in
    mret (Ok (if nonempty (rc_BearerToken config) then rc_BearerToken config else token))
  else mret (Ok "").

(** The token of a provider, seen on the way of a request. *)
Definition retrieved_token (config : restConfig) (token : string) : M W (result string) :=
  if String.eqb token "" && (rc_AuthProvider config || rc_ExecProvider config) then
    r ← selfSubjectRulesReview;
    let '(header, answer) := r in
    match answer with
    | Err e => mret (Err e)
    | Ok _ => mret (Ok (RoundTrip header ""))
    end
  else mret (Ok token).

Definition WhoAmI (config : restConfig) : M W (result string) :=
  let! transport := rest_TransportConfig config in
  let! _ := kubernetes_NewForConfig config in
  let! token := configured_token config transport in
  let! token := retrieved_token config token in
  if nonempty token then
    r ← tokenReview token;
    match r with
    | Err e => if ae_forbidden e then mret (Ok (getUsernameFromError (ae_text e)))
               else mret (Err (ENew (ae_text e)))
    | Ok status => if nonempty (trs_Error status) then mret (Err (EErrorf (trs_Error status) []))
                   else mret (Ok (trs_Username status))
    end
  else if HasBasicAuth transport then mret (Ok ("kubecfg:basicauth:" +:+ rc_Username config))
  else if HasCertAuth transport then mret (Ok "kubecfg:certauth:admin")
  else mret (Err (ENew "unsupported auth mechanism")).
End WhoAmI.

(** ** Proofs: the regular expression *)
Fixpoint occurs (p s : string) : bool :=
  String.prefix p s || match s with EmptyString => false | String _ s' => occurs p s' end.

Lemma occurs_suffix p z v : occurs p (z +:+ v) = false → String.prefix p v = false.
Proof.
  induction z as [|a z IH]; [by destruct v; intros [? _]%orb_false_iff|].
  rewrite string_app_cons. cbn [occurs]. by intros [_ ?%IH]%orb_false_iff.
Qed.

Section Greedy.
Context {A : Type} (k : string → option A).

Lemma greedy_none s : (∀ u t, s = u +:+ t → k t = None) → greedy k s = None.
Proof.
  induction s as [|c s IH]; intros Hk; cbn [greedy]; rewrite (Hk "" _ eq_refl); [done|].
  destruct (Ascii.eqb c newline); [done|]. rewrite IH; [done|].
  intros u t ->. apply (Hk (String c u)). by rewrite string_app_cons.
Qed.

(** The last place where [k] succeeds is the one chosen. *)
Lemma greedy_last p s a :
  Count p newline = 0 → k s = Some a → (∀ u t, s = u +:+ t → u ≠ "" → k t = None) →
  greedy k (p +:+ s) = Some (p, a).
Proof.
  intros Hp Hs Hlast. induction p as [|c p IH].
  - change ("" +:+ s) with s. destruct s as [|c s]; cbn [greedy]; rewrite Hs; [done|].
    destruct (Ascii.eqb c newline); [done|]. rewrite greedy_none; [done|].
    intros u t ->. apply (Hlast (String c u)); by rewrite ?string_app_cons.
  - rewrite string_app_cons. cbn [greedy Count] in *. destruct (Ascii.eqb c newline); [done|].
    by rewrite IH.
Qed.
End Greedy.

Lemma strip_None p s : String.prefix p s = false → strip p s = None.
Proof. unfold strip. by intros ->. Qed.
Lemma strip_app p s : strip p (p +:+ s) = Some s.
Proof. unfold strip. by rewrite prefix_app, drop_str_app. Qed.

Abbreviation quotec := (Ascii.ascii_of_nat 34).

(** After its first byte, the mark before the verb does not occur again. *)
Lemma cannot_once rest y v :
  occurs cannotMark rest = false → cannotMark +:+ rest = y +:+ v → y ≠ "" →
  String.prefix cannotMark v = false.
Proof.
  intros Hrest [(z & Hz & ->)|(z & -> & ->)]%string_app_cut Hy; [|by eapply occurs_suffix].
  destruct z as [|c z]; [by apply (occurs_suffix _ "")|].
  assert (Count (String c z) quotec = 0) as Hc.
  { pose proof (f_equal (λ s, Count s quotec) Hz) as Hn. simpl in Hn. rewrite Count_app in Hn.
    destruct y as [|d y]; [done|]. injection Hz as <- _. cbn [Count] in Hn.
    rewrite Ascii.eqb_refl in Hn. cbn [Count]. lia. }
  cbn [Count] in Hc. rewrite string_app_cons. change cannotMark with (String quotec " cannot "). cbn [String.prefix].
  destruct (Ascii.ascii_dec quotec c) as [<-|]; [by rewrite Ascii.eqb_refl in Hc|done].
Qed.

Fixpoint last_char (s : string) : option ascii :=
  match s with
  | EmptyString => None
  | String a EmptyString => Some a
  | String _ s' => last_char s'
  end.

Lemma last_char_app a b : b ≠ "" → last_char (a +:+ b) = last_char b.
Proof.
  intros Hb. induction a as [|x a IH]; [done|]. rewrite string_app_cons. cbn [last_char].
  destruct (a +:+ b) as [|y s] eqn:E; [|done]. by destruct a, b.
Qed.

Lemma last_char_Count s c : last_char s = Some c → Count s c ≠ 0.
Proof.
  induction s as [|a s IH]; [done|]. cbn [last_char Count]. destruct s as [|b s].
  - intros [= ->]. by rewrite Ascii.eqb_refl.
  - intros ?%IH. lia.
Qed.

(** The user named in the message of a refusal. *)
Lemma getUsernameFromError_spec (pre name rest : string) :
  Count pre newline = 0 → Count name newline = 0 → Count rest newline = 0 →
  Count name quotec = 0 → occurs cannotMark rest = false →
  getUsernameFromError (pre +:+ userMark +:+ name +:+ cannotMark +:+ rest) = name.
Proof.
  intros Hpre Hname Hrest Hq Hocc. unfold getUsernameFromError, match_username.
  set (k2 := λ s, rest ← strip cannotMark s; if Count rest newline =? 0 then Some tt else None).
  assert (∀ y v, cannotMark +:+ rest = y +:+ v → y ≠ "" → k2 v = None) as Hk2.
  { intros y v Hy Hne. unfold k2. by rewrite strip_None by by eapply cannot_once. }
  assert (greedy k2 (name +:+ cannotMark +:+ rest) = Some (name, tt)) as Hinner.
  { apply greedy_last; [done| |done]. unfold k2. rewrite strip_app. simpl. by rewrite Hrest. }
  rewrite (greedy_last _ pre _ (name, tt)); [done|done|by rewrite strip_app|].
  intros u t Ht Hu. destruct (strip userMark t) as [t'|] eqn:Hs; [|done]. simpl.
  assert (t = userMark +:+ t') as ->.
  { unfold strip in Hs. destruct (String.prefix userMark t) eqn:Hp; [|done]. injection Hs as <-.
    by apply prefix_split. }
  apply greedy_none. intros x v ->.
  rewrite <- (string_app_assoc u) in Ht. symmetry in Ht.
  assert (0 < String.length u) as Hlen by (destruct u; simpl; [done|lia]).
  apply string_app_cut in Ht as [(k & Hk & Hv)|(k & Hk & _)];
    [|apply (f_equal String.length) in Hk; rewrite !string_length_app in Hk; lia].
  assert (k ≠ "") as Hkne.
  { intros ->. apply (f_equal String.length) in Hk. rewrite !string_length_app in Hk. simpl in Hk. lia. }
  assert (Count k quotec ≠ 0) as Hkq.
  { apply last_char_Count. rewrite <- (last_char_app userMark k Hkne), <- Hk. by rewrite last_char_app. }
  apply string_app_cut in Hv as [(k' & -> & _)|(k' & -> & Hv)].
  { rewrite Count_app in Hq. lia. }
  assert (k' ≠ "") as Hk' by (intros ->; rewrite string_app_nil_r in Hkq; lia).
  rewrite <- string_app_assoc in Hv. apply (Hk2 _ _ Hv). by destruct k'.
Qed.

Lemma remove_bearer t : remove_all "Bearer " 0 ("Bearer " +:+ t) = remove_all "Bearer " 0 t.
Proof.
  pose proof (prefix_app "Bearer " t) as Hp. rewrite !string_app_cons in *. cbn [remove_all].
  rewrite Hp. reflexivity.
Qed.

(** ** The name the operator finds *)
Section Correct.
Context {W : Type} `{AuthAPI W} `{UserInfoJSON}.

(** [m] answers [a] and changes nothing. *)
Definition answers {A} (m : M W A) (a : A) : Prop := ∀ w, m w = (Ret a, w).

(** What the API server says about a token that belongs to [name]: its
    review, or a refusal that names the user. *)
Definition names_user (answer : res apiError TokenReviewStatus) (name : string) : Prop :=
  answer = Ok {| trs_Authenticated := true; trs_Username := name; trs_Error := "" |} ∨
  ∃ pre rest, answer = Err {| ae_forbidden := true;
                              ae_text := pre +:+ userMark +:+ name +:+ cannotMark +:+ rest |} ∧
    Count pre newline = 0 ∧ Count rest newline = 0 ∧ occurs cannotMark rest = false.

Lemma rbind_answers {A B} (m : M W (result A)) (k : A → M W (result B)) a w :
  answers m (Ok a) → rbind m k w = k a w.
Proof. intros Hm. unfold rbind. by rewrite (mbind_ret _ _ _ _ _ (Hm w)). Qed.

(** Reviewing the token that was found. *)
Lemma review_name token name answer w :
  Count name newline = 0 → Count name quotec = 0 →
  answers (tokenReview token) answer → names_user answer name →
  (r ← tokenReview token;
   match r with
   | Err e => if ae_forbidden e then mret (Ok (getUsernameFromError (ae_text e)))
              else mret (Err (ENew (ae_text e)))
   | Ok status => if nonempty (trs_Error status) then mret (Err (EErrorf (trs_Error status) []))
                  else mret (Ok (trs_Username status))
   end) w = (Ret (Ok name : result string), w).
Proof.
  intros Hn Hq Ha Hname. rewrite (mbind_ret _ _ _ _ _ (Ha w)).
  destruct Hname as [->|(pre & rest & -> & Hpre & Hrest & Hocc)]; [done|]. simpl.
  by rewrite getUsernameFromError_spec.
Qed.

(** C15: with a bearer token the operator finds its own name, and so leaves its
    own writes alone: whether the token is configured, read from a file or supplied by a provider
    and seen on the way of a request, and whether the API server reviews the token
    or refuses the review and names the user, [WhoAmI] returns the name of the
    user; the webhook set up with that name admits the operator's requests as they
    are. *)
Theorem WhoAmI_finds_operator (config : restConfig) (transport : transportConfig)
    (file header token name : string) (answer : res apiError TokenReviewStatus) (w : W) :
  answers (rest_TransportConfig config) (Ok transport) →
  answers (kubernetes_NewForConfig config) (Ok tt) →
  answers (os_ReadFile (rc_BearerTokenFile config)) (Ok file) →
  answers selfSubjectRulesReview (header, Ok tt) →
  answers (tokenReview token) answer → names_user answer name →
  Count name newline = 0 → Count name quotec = 0 → token ≠ "" →
  (HasTokenAuth transport = true ∧ rc_BearerToken config = token ∨
   HasTokenAuth transport = true ∧ rc_BearerToken config = "" ∧ rc_BearerTokenFile config ≠ "" ∧ file = token ∨
   HasTokenAuth transport = false ∧ (rc_AuthProvider config || rc_ExecProvider config) = true ∧
     header = "Bearer " +:+ token ∧ remove_all "Bearer " 0 token = token) →
  WhoAmI config w = (Ret (Ok name), w) ∧
  ∀ req, ui_username (req_UserInfo req) = name → admission_Handle name req = Allowed.
Proof.
  intros Ht Hc Hf Hh Hr Hname Hn Hq Hne Hsource. split; [|intros req <-; unfold admission_Handle; by rewrite String.eqb_refl].
  unfold WhoAmI. rewrite (rbind_answers _ _ _ _ Ht), (rbind_answers _ _ _ _ Hc).
  assert (nonempty token = true) as Hnet by (unfold nonempty; by str_cases).
  enough (∃ t0, answers (configured_token config transport) (Ok t0) ∧
    answers (retrieved_token config t0) (Ok token)) as (t0 & H1 & H2).
  { rewrite (rbind_answers _ _ _ _ H1), (rbind_answers _ _ _ _ H2), Hnet. by eapply review_name. }
  assert (answers (retrieved_token config token) (Ok token)) as Hgiven.
  { intros w'. unfold retrieved_token. by str_cases. }
  unfold configured_token. destruct Hsource as [[-> Hb]|[(-> & Hb & Hfile & ->)|(-> & Hp & -> & Hrm)]].
  - exists token. split; [|done]. intros w'. unfold nonempty. rewrite Hb.
    destruct (String.eqb_spec (rc_BearerTokenFile config) ""); simpl;
      rewrite ?(rbind_answers _ _ _ _ Hf); unfold nonempty in Hnet; by rewrite Hnet.
  - exists token. split; [|done]. intros w'. unfold nonempty. rewrite Hb.
    destruct (String.eqb_spec (rc_BearerTokenFile config) ""); [done|]. simpl.
    by rewrite (rbind_answers _ _ _ _ Hf).
  - exists "". split; [done|]. intros w'. unfold retrieved_token. rewrite Hp. simpl.
    rewrite (mbind_ret _ _ _ _ _ (Hh w')). simpl. unfold RoundTrip, HasPrefix. rewrite prefix_app. by rewrite remove_bearer, Hrm.
Qed.

(** Without a token no question is asked: a user name gives the name
    [kubecfg:basicauth:<user>] and a certificate [kubecfg:certauth:admin],
    whatever name the API server knows the operator by. *)
Lemma WhoAmI_fixed_name (config : restConfig) (transport : transportConfig) (w : W) :
  answers (rest_TransportConfig config) (Ok transport) →
  answers (kubernetes_NewForConfig config) (Ok tt) →
  HasTokenAuth transport = false → (rc_AuthProvider config || rc_ExecProvider config) = false →
  WhoAmI config w =
  (Ret (if HasBasicAuth transport then Ok ("kubecfg:basicauth:" +:+ rc_Username config)
        else if HasCertAuth transport then Ok "kubecfg:certauth:admin"
        else Err (ENew "unsupported auth mechanism")), w).
Proof.
  intros Ht Hc Htok Hp. unfold WhoAmI. rewrite (rbind_answers _ _ _ _ Ht), (rbind_answers _ _ _ _ Hc).
  assert (answers (configured_token config transport) (Ok "")) as H1
    by (intros w'; unfold configured_token; by rewrite Htok).
  assert (answers (retrieved_token config "") (Ok "")) as H2
    by (intros w'; unfold retrieved_token; by rewrite Hp).
  rewrite (rbind_answers _ _ _ _ H1), (rbind_answers _ _ _ _ H2). cbn [nonempty String.eqb negb].
  by destruct (HasBasicAuth transport), (HasCertAuth transport).
Qed.

(** A refusal in other words gives its whole text as the name, a token that is
    not authenticated the empty name; neither is an error. *)
Lemma WhoAmI_wrong_name (config : restConfig) (transport : transportConfig) (w : W) :
  answers (rest_TransportConfig config) (Ok transport) →
  answers (kubernetes_NewForConfig config) (Ok tt) →
  HasTokenAuth transport = true → rc_BearerToken config ≠ "" → rc_BearerTokenFile config = "" →
  (∀ text, match_username text = None →
     answers (tokenReview (rc_BearerToken config)) (Err {| ae_forbidden := true; ae_text := text |}) →
     WhoAmI config w = (Ret (Ok text), w)) ∧
  (answers (tokenReview (rc_BearerToken config))
     (Ok {| trs_Authenticated := false; trs_Username := ""; trs_Error := "" |}) →
   WhoAmI config w = (Ret (Ok ""), w)).
Proof.
  intros Ht Hc Htok Hb Hfile. unfold WhoAmI. rewrite (rbind_answers _ _ _ _ Ht), (rbind_answers _ _ _ _ Hc).
  assert (answers (configured_token config transport) (Ok (rc_BearerToken config))) as H1.
  { intros w'. unfold configured_token. rewrite Htok, Hfile. unfold nonempty. by str_cases. }
  assert (answers (retrieved_token config (rc_BearerToken config)) (Ok (rc_BearerToken config))) as H2.
  { intros w'. unfold retrieved_token. by str_cases. }
  rewrite (rbind_answers _ _ _ _ H1), (rbind_answers _ _ _ _ H2).
  assert (nonempty (rc_BearerToken config) = true) as -> by (unfold nonempty; by str_cases).
  split.
  - intros text Hm Ha. rewrite (mbind_ret _ _ _ _ _ (Ha w)). simpl. unfold getUsernameFromError. by rewrite Hm.
  - intros Ha. by rewrite (mbind_ret _ _ _ _ _ (Ha w)).
Qed.

(** With a wrong name the operator's own update of a binding replaces the
    recorded requester by the operator. *)
Lemma wrong_name_replaces_requester (serviceAccountName : string) (operator : UserInfo) obj m :
  (∀ u, unmarshal_UserInfo (marshal_UserInfo u) = Ok u) → has_metadata obj = true →
  ui_username operator ≠ serviceAccountName →
  ∃ obj', admission_Handle serviceAccountName
      {| req_UserInfo := operator; req_Operation := Update; req_Object := Ok obj |} = Patched obj' ∧
    Requester (with_annotations (GetAnnotations obj') m) = Some operator.
Proof.
  intros Hcodec Hm Hne. eexists. split; [|by apply patched_requester].
  unfold admission_Handle. simpl. by str_cases.
Qed.
End Correct.

(** ** At work: a service account that may not review tokens *)
Section Witness.
#[local] Instance refusing : AuthAPI unit := {|
  rest_TransportConfig c := mret (Ok {| tc_BearerToken := rc_BearerToken c;
    tc_BearerTokenFile := rc_BearerTokenFile c; tc_Username := rc_Username c;
    tc_CertData := ""; tc_CertFile := ""; tc_KeyData := ""; tc_KeyFile := "" |});
  kubernetes_NewForConfig _ := mret (Ok tt);
  os_ReadFile _ := mret (Ok "secret-token");
  selfSubjectRulesReview := mret ("Bearer secret-token", Ok tt);
  tokenReview _ := mret (Err {| ae_forbidden := true;
    ae_text := "tokenreviews.authentication.k8s.io is forbidden:" +:+ userMark +:+
      "system:serviceaccount:operators:sbo" +:+ cannotMark +:+ "create resource tokenreviews" |})
|}.

Abbreviation in_cluster := {| rc_BearerToken := ""; rc_BearerTokenFile := "/var/run/token"; rc_Username := "";
  rc_AuthProvider := false; rc_ExecProvider := false |}.

Lemma WhoAmI_finds_operator_witness :
  WhoAmI in_cluster tt = (Ret (Ok "system:serviceaccount:operators:sbo"), tt) ∧
  admission_Handle "system:serviceaccount:operators:sbo"
    {| req_UserInfo := {| ui_username := "system:serviceaccount:operators:sbo"; ui_groups := [] |};
       req_Operation := Update; req_Object := Ok (JObj []) |} = Allowed.
Proof.
  destruct (WhoAmI_finds_operator in_cluster
    {| tc_BearerToken := ""; tc_BearerTokenFile := "/var/run/token"; tc_Username := "";
       tc_CertData := ""; tc_CertFile := ""; tc_KeyData := ""; tc_KeyFile := "" |}
    "secret-token" "Bearer secret-token" "secret-token" "system:serviceaccount:operators:sbo"
    (Err {| ae_forbidden := true;
       ae_text := "tokenreviews.authentication.k8s.io is forbidden:" +:+ userMark +:+
         "system:serviceaccount:operators:sbo" +:+ cannotMark +:+ "create resource tokenreviews" |}) tt)
    as [H1 H2]; [intros ?; reflexivity..| |by vm_compute|by vm_compute|done| |].
  - right. exists "tokenreviews.authentication.k8s.io is forbidden:", "create resource tokenreviews".
    split_and!; [reflexivity|by vm_compute..].
  - right. left. by vm_compute.
  - split; [exact H1|by apply H2].
Defined.
End Witness.
