(* ===== verification/Events.v ===== *)
(** * Events that cause a reconciliation ([controllers/common.go])

    The controllers filter the events of the bindings they watch.  The operator
    writes bindings itself while it reconciles them; the filter and the writes
    together decide whether it wakes itself up. *)

From S2P Require Import Prelude.
From S2P Require Import GoLib.
From S2P Require Import GoValue.
From S2P Require Import JsonPath.
From S2P Require Import Heap.
From S2P Require Import Converter.
From S2P Require Import Kube.
From S2P Require Import Apis.
From S2P Require Import Service.
From S2P Require Import Context.
From S2P Require Import Kinds.
From S2P Require Import Collect.
From S2P Require Import Pipeline.
From S2P Require Import Cluster.
From S2P Require Import Invariant.
From S2P Require Import Safety.
From S2P Require Import Writes.

(** ** Events ([predicate.Or(GenerationChanged, AnnotationChanged)]) *)

(** The metadata an event carries; a missing object is [None]. *)
Inductive event : Type :=
| CreateEvent (obj : ObjectMeta)
| UpdateEvent (objectOld objectNew : option ObjectMeta)
| DeleteEvent (obj : ObjectMeta)
| GenericEvent (obj : ObjectMeta).

Definition predicate : Type := event → bool.

Definition GenerationChangedPredicate : predicate := λ e,
  match e with
  | UpdateEvent (Some old) (Some new) => negb (om_generation new =? om_generation old)%Z
  | UpdateEvent _ _ => false
  | _ => true
  end.

(** Annotations are compared as maps. *)
Definition annotation_map (m : ObjectMeta) : gmap string string := list_to_map (om_annotations m).

Definition AnnotationChangedPredicate : predicate := λ e,
  match e with
  | UpdateEvent (Some old) (Some new) => negb (bool_decide (annotation_map new = annotation_map old))
  | UpdateEvent _ _ => false
  | _ => true
  end.

Definition Or (ps : list predicate) : predicate := λ e, existsb (λ p, p e) ps.

Definition binding_filter : predicate := Or [GenerationChangedPredicate; AnnotationChangedPredicate].

Lemma annotation_map_lookup m k : annotation_map m !! k = aget k (om_annotations m).
Proof.
  unfold annotation_map. induction (om_annotations m) as [|[x v] l IH]; [done|]. simpl.
  destruct (String.eqb_spec k x) as [->|Hk]; [by rewrite lookup_insert_eq|].
  by rewrite lookup_insert_ne by done.
Qed.

(** ** What the filter lets through *)
Lemma binding_filter_update m m' :
  binding_filter (UpdateEvent (Some m) (Some m')) = true ↔
  om_generation m' ≠ om_generation m ∨ annotation_map m' ≠ annotation_map m.
Proof.
  unfold binding_filter, Or. simpl. rewrite orb_false_r, orb_true_iff, !negb_true_iff, Z.eqb_neq.
  by rewrite bool_decide_eq_false.
Qed.

(** The same generation and annotations, but for the mark of a changed mapping. *)
Definition quiet (m m' : ObjectMeta) : Prop :=
  om_generation m' = om_generation m ∧
  other_annotations (om_annotations m') = other_annotations (om_annotations m) ∧
  om_annotations m' `sublist_of` om_annotations m.

Lemma kept_quiet m m' : kept m m' → quiet m m'.
Proof. intros [Hid Hs]. by injection Hid. Qed.
Lemma quiet_trans m1 m2 m3 : quiet m1 m2 → quiet m2 m3 → quiet m1 m3.
Proof. intros (? & ? & ?) (? & ? & ?). split_and!; [congruence..|by etrans]. Qed.
Lemma with_finalizers_quiet fs m : quiet m (with_finalizers fs m).
Proof. done. Qed.
Lemma MaybeAddFinalizer_quiet m : quiet m (MaybeAddFinalizer m).2.
Proof. unfold MaybeAddFinalizer. by destruct (existsb _ _). Qed.
Lemma MaybeRemoveFinalizer_quiet m : quiet m (MaybeRemoveFinalizer m).2.
Proof. unfold MaybeRemoveFinalizer. by destruct (remove_first _ _). Qed.

Lemma quiet_filtered m m' :
  quiet m m' → binding_filter (UpdateEvent (Some m) (Some m')) = true →
  aget MappingAnnotationKey (om_annotations m) ≠ None.
Proof.
  intros (Hg & Ho & Hs) Hf Hnone. apply binding_filter_update in Hf as [Hf|Hf]; [done|].
  apply Hf. unfold annotation_map. by rewrite (unmarked_annotations _ _ Hnone Hs Ho).
Qed.

(** ** What a reconciliation writes *)
Definition quiet_access (m : ObjectMeta) (a : access) : Prop :=
  match a with ABinding m' => quiet m m' | _ => True end.

Section Reconcile.
Context {W B : Type} `{KubeAPI W} `{BindingAPI W B} `{Clock W} `{ServiceBindingKind B} `{!ServiceBindingLaws B}.
Context `{UserInfoJSON}.

(** The promise of a flow that runs with metadata [m1] after a first write. *)
Definition quiet_pledge (m m1 : ObjectMeta) : pledge (traced W) :=
  {| pl_meta := m1; pl_may _ _ _ _ := True; pl_owned := True;
     pl_world t := Forall (quiet_access m) (tr_log t) |}.

Lemma quiet_safe m m1 : quiet m m1 → SafeWorld (traced W) B (quiet_pledge m m1).
Proof.
  intros Hq. split; intros; try done; try apply inv_unlogged; apply inv_logged; try done;
    by eapply quiet_trans, kept_quiet.
Qed.

Context (process : B → traced W → processed * B * traced W).
Context (Hprocess : ∀ (pl : pledge (traced W)) b t,
  SafeWorld (traced W) B pl → kept (pl_meta pl) (sbk_meta b) → pl_owned pl → pl_world pl t →
  let r := process b t in kept (pl_meta pl) (sbk_meta r.1.2) ∧ pl_world pl r.2).

Lemma process_quiet m b t :
  quiet m (sbk_meta b) → Forall (quiet_access m) (tr_log t) →
  let r := process b t in quiet m (sbk_meta r.1.2) ∧ Forall (quiet_access m) (tr_log r.2).
Proof.
  intros Hq Ht. destruct (Hprocess (quiet_pledge m (sbk_meta b)) b t (quiet_safe _ _ Hq) (kept_refl _) I Ht)
    as [Hk Hl]. split; [|exact Hl]. by eapply quiet_trans, kept_quiet.
Qed.

Lemma inv_quiet_update m (b : B) :
  quiet m (sbk_meta b) → inv (λ t, Forall (quiet_access m) (tr_log t)) (binding_update (W := traced W) b).
Proof. intros Hq. by apply inv_logged. Qed.

Lemma Reconcile_quiet ns name b w w' :
  binding_get ns name w = (Ret (Ok b), w') →
  Forall (quiet_access (sbk_meta b))
    (tr_log (Reconcile process ns name {| tr_world := w; tr_log := [] |}).2).
Proof.
  intros Hget. set (m := sbk_meta b). unfold Reconcile.
  erewrite (mbind_ret _ _ _ (Ok b)) by (simpl; unfold unlogged; simpl; by rewrite Hget). simpl.
  set (deleted := match om_deletionTimestamp _ with Some _ => true | None => false end).
  assert (quiet m (if deleted then (false, sbk_meta b) else MaybeAddFinalizer (sbk_meta b)).2) as Hq
    by (destruct deleted; [done|apply MaybeAddFinalizer_quiet]).
  destruct (if deleted then _ else _) as [added m']. simpl in Hq.
  match goal with |- Forall _ (tr_log (?f ?t0).2) =>
    cut (inv (λ t, Forall (quiet_access m) (tr_log t)) f); [intros Hf; by apply (Hf t0)|] end.
  apply inv_bind; [destruct added; [apply inv_quiet_update; by rewrite meta_set|apply inv_ret]|].
  intros [_|e]; [|apply inv_ret].
  apply (inv_bind_post _ (λ pb, quiet m (sbk_meta pb.2))).
  - intros t Ht. pose proof (process_quiet m (sbk_set_meta m' b) t) as Hp. rewrite meta_set in Hp.
    specialize (Hp Hq Ht). by destruct (process _ t) as [[p b'] t'], Hp.
  - intros t pb t' Ht Hpb. pose proof (process_quiet m (sbk_set_meta m' b) t) as Hp. rewrite meta_set in Hp.
    specialize (Hp Hq Ht). destruct (process _ t) as [[p b'] t1]. simplify_eq/=. by destruct Hp.
  - intros [p b'] Hb'. simpl in Hb'. destruct (p_err p); [inv_auto|].
    destruct (_ && _); [|inv_auto].
    pose proof (MaybeRemoveFinalizer_quiet (sbk_meta b')) as Hr.
    destruct (MaybeRemoveFinalizer (sbk_meta b')) as [[] m2]; [|inv_auto].
    apply inv_bind; [apply inv_quiet_update; rewrite meta_set; by eapply quiet_trans|].
    intros v. inv_auto.
Qed.
End Reconcile.

(** ** Both kinds of binding *)
Section Kinds.
Context {W : Type} `{KubeAPI W} `{BindingAPI W v1alpha1.ServiceBinding}
  `{BindingAPI W v1beta1.ServiceBinding} `{Clock W}.
Context `{UserInfoJSON} `{JSONPathLib} `{BucketRateLimiter} `{MappingDecoder} `{Converter} `{Templates}.

(** The metadata of the bindings a run wrote that wakes the controller up. *)
Definition waking (m : ObjectMeta) (log : list access) : list ObjectMeta :=
  omap (λ a, match a with
             | ABinding m' => if binding_filter (UpdateEvent (Some m) (Some m')) then Some m' else None
             | _ => None
             end) log.

Lemma quiet_waking m log :
  Forall (quiet_access m) log → aget MappingAnnotationKey (om_annotations m) = None → waking m log = [].
Proof.
  intros Hl Hm. induction Hl as [|a log Ha Hl IH]; [done|]. unfold waking in *. cbn [omap list_omap].
  destruct a as [| | | |m']; try exact IH. destruct (binding_filter _) eqn:Hf; [|exact IH].
  by destruct (quiet_filtered m m' Ha Hf).
Qed.

(** C14: the operator does not wake itself up: unless the binding carries the
    mark of a changed mapping, no update of it that a reconciliation makes
    (adding or removing the finalizer, the status, the secret's name) causes
    another one, for both kinds of binding and on every path; while every change
    of the generation or of an annotation, as the requester's, does. *)
Theorem own_writes_do_not_wake (hlaws : JSONPathLaws) (ns name : string) (w w' : W) :
  let start := {| tr_world := w; tr_log := [] |} in
  (∀ b : v1alpha1.ServiceBinding, binding_get ns name w = (Ret (Ok b), w') →
     aget MappingAnnotationKey (om_annotations (sbk_meta b)) = None →
     waking (sbk_meta b) (tr_log (Reconcile (Process Provider_Get defaultFlow) ns name start).2) = []) ∧
  (∀ b : v1beta1.ServiceBinding, binding_get ns name w = (Ret (Ok b), w') →
     aget MappingAnnotationKey (om_annotations (sbk_meta b)) = None →
     waking (sbk_meta b) (tr_log (Reconcile (Process SpecProvider_Get specFlow) ns name start).2) = []) ∧
  (∀ m m', om_generation m' ≠ om_generation m ∨
     (∃ k, aget k (om_annotations m') ≠ aget k (om_annotations m)) →
     binding_filter (UpdateEvent (Some m) (Some m')) = true).
Proof.
  intros start. split_and!.
  - intros b Hg Hm. apply quiet_waking; [|done]. eapply Reconcile_quiet; [|exact Hg].
    intros pl b' t Hs Hk Ho Ht. by apply Process_inv_coreos.
  - intros b Hg Hm. apply quiet_waking; [|done]. eapply Reconcile_quiet; [|exact Hg].
    intros pl b' t Hs Hk Ho Ht. by apply Process_inv_spec.
  - intros m m' Hc. apply binding_filter_update. destruct Hc as [Hc|[k Hc]]; [by left|right].
    intros Heq. apply Hc. by rewrite <- !annotation_map_lookup, Heq.
Qed.
End Kinds.

(** ** At work: a binding is reconciled, then marked *)
Section Witness.
#[local] Existing Instance alpha_in_beta.

Definition binding_writes (log : list access) : list ObjectMeta :=
  omap (λ a, match a with ABinding m => Some m | _ => None end) log.

Definition reconciled (b : v1beta1.ServiceBinding) : list access :=
  tr_log (Reconcile (Process SpecProvider_Get specFlow) "ns" (om_name (sbk_meta b))
    {| tr_world := demo_cluster demo_workload [b]; tr_log := [] |}).2.

Abbreviation plain := (demo_binding (demo_meta [] [] None) [] None).
Abbreviation with_mark := (demo_binding (demo_meta [(MappingAnnotationKey, "{}")] [] None) [] None).

Lemma own_writes_do_not_wake_witness :
  waking (sbk_meta plain) (reconciled plain) = [] ∧ length (binding_writes (reconciled plain)) = 3 ∧
  binding_filter (UpdateEvent (Some (sbk_meta plain)) (Some (sbk_meta with_mark))) = true.
Proof.
  split; [|split; by vm_compute].
  refine (proj1 (proj2 (own_writes_do_not_wake dotted_laws "ns" (om_name (sbk_meta plain))
    (demo_cluster demo_workload [plain]) _)) plain _ _); by vm_compute.
Defined.
End Witness.
