(* ===== verification/Startup.v ===== *)
(** * Starting the operator ([main.go] and the set-up functions it calls)

    The manager is told what to watch and whom to ask, in the order of [main];
    every step that fails ends the process.  Also here: the builders of the
    pipelines ([builder/pipeline.go]) and the schemes ([groupversion_info.go]). *)

From S2P Require Import Prelude.
From S2P Require Import GoLib.
From S2P Require Import GoValue.
From S2P Require Import JsonPath.
From S2P Require Import Heap.
From S2P Require Import Converter.
From S2P Require Import Kube.
From S2P Require Import Apis.
From S2P Require Import Service.
From S2P Require Import Context.
From S2P Require Import Kinds.
From S2P Require Import Collect.
From S2P Require Import Pipeline.
From S2P Require Import Cluster.
From S2P Require Import Invariant.
From S2P Require Import Safety.
From S2P Require Import Writes.

(** ** Builders of pipelines *)
Section Builder.
Context {W B : Type} `{KubeAPI W} `{BindingAPI W B} `{Clock W} `{ServiceBindingKind B}.
Context `{UserInfoJSON} `{JSONPathLib} `{BucketRateLimiter} `{MappingDecoder}.

(** [builder] and [impl]; a missing provider is [None]. *)
Record builder := {
  bd_ctxProvider : option (B → impl B);
  bd_handlers : list (M (st W B) unit)
}.

Definition Builder : builder := {| bd_ctxProvider := None; bd_handlers := [] |}.
Definition WithContextProvider (p : B → impl B) (b : builder) : builder :=
  {| bd_ctxProvider := Some p; bd_handlers := bd_handlers b |}.
Definition WithHandlers (h : list (M (st W B) unit)) (b : builder) : builder :=
  {| bd_ctxProvider := bd_ctxProvider b; bd_handlers := bd_handlers b ++ h |}.

(** [Build().Process]: without a provider the call of [Get] on a nil interface
    panics, which [Process] recovers. *)
Definition Build_Process (b : builder) (binding : B) (w : W) : processed * B * W :=
  match bd_ctxProvider b with
  | Some p => Process p (bd_handlers b) binding w
  | None => ({| p_retry := true; p_delay := 0;
                p_err := Some (panic_error "invalid memory address or nil pointer dereference") |}, binding, w)
  end.
End Builder.

Section Builders.
Context {W B : Type} `{KubeAPI W} `{BindingAPI W B} `{Clock W} `{ServiceBindingKind B}.
Context `{UserInfoJSON} `{JSONPathLib} `{BucketRateLimiter} `{MappingDecoder} `{Converter} `{Templates}.
Context `{PipelineContext W B}.
Definition DefaultBuilder : builder (W := W) (B := B) := WithHandlers defaultFlow Builder.
Definition SpecBuilder : builder (W := W) (B := B) := WithHandlers specFlow Builder.
End Builders.

(** ** Schemes *)

(** [scheme.Builder]: what [Register] was called with. *)
Record SchemeBuilder := { sc_group : string; sc_version : string; sc_kinds : list string }.
Definition Register (kinds : list string) (b : SchemeBuilder) : SchemeBuilder :=
  {| sc_group := sc_group b; sc_version := sc_version b; sc_kinds := sc_kinds b ++ kinds |}.
Definition AddToScheme (b : SchemeBuilder) (scheme : list GroupVersionKind) : list GroupVersionKind :=
  scheme ++ map (λ k, {| gvk_group := sc_group b; gvk_version := sc_version b; gvk_kind := k |}) (sc_kinds b).

(** The [init] functions of the API packages, in the order of their files. *)
Definition bindablekinds_init : SchemeBuilder → SchemeBuilder := Register ["BindableKinds"; "BindableKindsList"].
Definition servicebinding_init : SchemeBuilder → SchemeBuilder := Register ["ServiceBinding"; "ServiceBindingList"].
Definition mapping_init : SchemeBuilder → SchemeBuilder :=
  Register ["ClusterWorkloadResourceMapping"; "ClusterWorkloadResourceMappingList"].

(** The package variables after them. *)
Definition v1alpha1_SchemeBuilder : SchemeBuilder :=
  servicebinding_init (bindablekinds_init
    {| sc_group := "binding.operators.coreos.com"; sc_version := "v1alpha1"; sc_kinds := [] |}).
Definition v1beta1_SchemeBuilder : SchemeBuilder :=
  servicebinding_init (mapping_init
    {| sc_group := "servicebinding.io"; sc_version := "v1beta1"; sc_kinds := [] |}).

(** The kinds of the libraries the scheme also knows. *)
Class LibrarySchemes := {
  clientgo_scheme : list GroupVersionKind;
  apiextensions_v1 : list GroupVersionKind;
  apiextensions_v1beta1 : list GroupVersionKind
}.

(** [init] of [main]. *)
Definition main_scheme `{LibrarySchemes} : list GroupVersionKind :=
  AddToScheme v1beta1_SchemeBuilder
    (AddToScheme v1alpha1_SchemeBuilder clientgo_scheme ++ apiextensions_v1 ++ apiextensions_v1beta1).

(** ** What the manager is told *)
Record ManagerOptions := {
  mo_namespaces : list string;
  mo_metricsAddr : string;
  mo_metricsNextProtos : option (list string);
  mo_webhookPort : Z;
  mo_webhookNextProtos : option (list string);
  mo_probeAddr : string;
  mo_leaderElection : bool;
  mo_leaderElectionID : string
}.

Inductive registration : Type :=
| RController (kind : GroupVersionKind) (filtered : bool) (maxConcurrentReconciles : Z)
| RValidator (kind : GroupVersionKind)
| RMutating (path serviceAccountName : string)
| RHealthz (name : string)
| RReadyz (name : string).

(** The command line, with its defaults. *)
Record flags := {
  fl_metricsAddr : string;
  fl_probeAddr : string;
  fl_enableLeaderElection : bool;
  fl_enableHTTP2 : bool;
  fl_maxConcurrentReconciles : Z
}.
(** [controllers.RegisterFlags]: the default of [max-concurrent-reconciles]. *)
Definition RegisterFlags : Z := 1.
Definition default_flags : flags :=
  {| fl_metricsAddr := ":8080"; fl_probeAddr := ":8081"; fl_enableLeaderElection := false;
     fl_enableHTTP2 := false; fl_maxConcurrentReconciles := RegisterFlags |}.

(** Whether each step works: the error it ends with, if any. *)
Class Platform := {
  newManager : ManagerOptions → option goerr;
  dynamic_NewForConfig : option goerr;
  authv1_NewForConfig : option goerr;
  complete : registration → option goerr;
  manager_Start : option goerr;
  whoami : result string
}.

(** What has been done so far. *)
Record startup := {
  su_manager : option ManagerOptions;
  su_registered : list registration;
  su_started : bool
}.
Definition not_started : startup := {| su_manager := None; su_registered := []; su_started := false |}.

Definition add_registration (r : registration) (s : startup) : startup :=
  {| su_manager := su_manager s; su_registered := su_registered s ++ [r]; su_started := su_started s |}.

(** [getWatchNamespace] with the environment. *)
Definition AllNamespaces : string := "".
Definition getWatchNamespace (env : list (string * string)) : string * option goerr :=
  match aget "WATCH_NAMESPACE" env with
  | Some ns => (ns, None)
  | None => (AllNamespaces, Some (EErrorf "%s must be set" [AStr "WATCH_NAMESPACE"]))
  end.

Definition disableHTTP2 (nextProtos : option (list string)) : option (list string) := Some ["http/1.1"].

Definition v1alpha1_GroupVersionKind : GroupVersionKind :=
  {| gvk_group := "binding.operators.coreos.com"; gvk_version := "v1alpha1"; gvk_kind := "ServiceBinding" |}.
Definition v1beta1_GroupVersionKind : GroupVersionKind :=
  {| gvk_group := "servicebinding.io"; gvk_version := "v1beta1"; gvk_kind := "ServiceBinding" |}.
Definition mappingGVK : GroupVersionKind :=
  {| gvk_group := "servicebinding.io"; gvk_version := "v1beta1"; gvk_kind := "ClusterWorkloadResourceMapping" |}.
Definition crdGVK : GroupVersionKind :=
  {| gvk_group := "apiextensions.k8s.io"; gvk_version := "v1"; gvk_kind := "CustomResourceDefinition" |}.

Section Main.
Context `{Platform}.

(** A program that may end the process: [Err tt] is [os.Exit(1)]. *)
Abbreviation mainM := (M startup (res unit unit)).

Definition orExit (e : option goerr) : mainM :=
  match e with None => mret (Ok tt) | Some _ => mret (Err tt) end.
Definition register (r : registration) : M startup (option goerr) :=
  match complete r with
  | Some e => mret (Some e)
  | None => _ ← mmodify (add_registration r); mret None
  end.

(** Clients are made before the controller is registered. *)
Definition after_clients (clients : list (option goerr)) (m : M startup (option goerr)) :
    M startup (option goerr) :=
  match list_find (λ e, e ≠ None) clients with
  | Some (_, e) => mret e
  | None => m
  end.

(** [BindingReconciler.SetupWithManager] of the reconcilers that
    [controllers/binding] and [controllers/spec] make. *)
Definition binding_SetupWithManager (kind : GroupVersionKind) (maxConcurrent : Z) :
    M startup (option goerr) :=
  after_clients [dynamic_NewForConfig; authv1_NewForConfig] (register (RController kind true maxConcurrent)).

(** [SetupWebhookWithManager] of both [ServiceBinding] types. *)
Definition SetupWebhookWithManager (kind : GroupVersionKind) : M startup (option goerr) :=
  register (RValidator kind).

(** [webhooks.SetupWithManager]: registering a handler cannot fail. *)
Definition webhooks_SetupWithManager (serviceAccountName : string) : M startup unit :=
  mmodify (add_registration (RMutating "/mutate-servicebinding" serviceAccountName)).

(** [NewMappingValidator] and its [SetupWebhookWithManager]. *)
Definition NewMappingValidator : option goerr := dynamic_NewForConfig.
Definition validator_SetupWebhookWithManager : M startup (option goerr) := register (RValidator mappingGVK).

(** [CrdReconciler.SetupWithManager]; the controller has default options. *)
Definition crd_SetupWithManager : M startup (option goerr) :=
  after_clients [dynamic_NewForConfig] (register (RController crdGVK false 0)).

Definition manager_options (env : list (string * string)) (f : flags) : ManagerOptions :=
  let tls := if fl_enableHTTP2 f then None else disableHTTP2 None in
  {| mo_namespaces := [(getWatchNamespace env).1]; mo_metricsAddr := fl_metricsAddr f;
     mo_metricsNextProtos := tls; mo_webhookPort := 9443; mo_webhookNextProtos := tls;
     mo_probeAddr := fl_probeAddr f; mo_leaderElection := fl_enableLeaderElection f;
     mo_leaderElectionID := "8fa65150.coreos.com" |}.

Definition new_manager (o : ManagerOptions) : M startup (option goerr) :=
  match newManager o with
  | Some e => mret (Some e)
  | None => _ ← mmodify (λ s, {| su_manager := Some o; su_registered := su_registered s;
                                 su_started := su_started s |}); mret None
  end.

(** [if err = step; err != nil { os.Exit(1) }]. *)
Definition must (step : M startup (option goerr)) : mainM := e ← step; orExit e.

Definition main (env : list (string * string)) (f : flags) : mainM :=
  let n := fl_maxConcurrentReconciles f in
  let! _ := must (new_manager (manager_options env f)) in
  match whoami with
  | Err _ => mret (Err tt)
  | Ok serviceAccountName =>
      let! _ := must (binding_SetupWithManager v1alpha1_GroupVersionKind n) in
      let! _ := must (SetupWebhookWithManager v1alpha1_GroupVersionKind) in
      let! _ := must (binding_SetupWithManager v1beta1_GroupVersionKind n) in
      _ ← webhooks_SetupWithManager serviceAccountName;
      let! _ := must (SetupWebhookWithManager v1beta1_GroupVersionKind) in
      let! _ := orExit NewMappingValidator in
      let! _ := must validator_SetupWebhookWithManager in
      let! _ := must crd_SetupWithManager in
      let! _ := must (register (RHealthz "health")) in
      let! _ := must (register (RReadyz "check")) in
      _ ← mmodify (λ s, {| su_manager := su_manager s; su_registered := su_registered s; su_started := true |});
      orExit manager_Start
  end.

(** Everything the operator needs, in the order it is registered. *)
Definition all_registrations (serviceAccountName : string) (n : Z) : list registration :=
  [RController v1alpha1_GroupVersionKind true n; RValidator v1alpha1_GroupVersionKind;
   RController v1beta1_GroupVersionKind true n; RMutating "/mutate-servicebinding" serviceAccountName;
   RValidator v1beta1_GroupVersionKind; RValidator mappingGVK; RController crdGVK false 0;
   RHealthz "health"; RReadyz "check"].

Definition all_work (env : list (string * string)) (f : flags) (serviceAccountName : string) : Prop :=
  newManager (manager_options env f) = None ∧ whoami = Ok serviceAccountName ∧
  dynamic_NewForConfig = None ∧ authv1_NewForConfig = None ∧
  Forall (λ r, complete r = None ∨ ∃ path sa, r = RMutating path sa)
    (all_registrations serviceAccountName (fl_maxConcurrentReconciles f)).

(** One step that registers something, and what follows it. *)
Lemma must_register (r : registration) (k : unit → mainM) s :
  rbind (must (register r)) k s =
  match complete r with
  | None => k tt (add_registration r s)
  | Some _ => (Ret (Err tt), s)
  end.
Proof. unfold must, register, rbind. m_unfold. by destruct (complete r). Qed.

Lemma must_after_clients clients (m : M startup (option goerr)) (k : unit → mainM) s :
  rbind (must (after_clients clients m)) k s =
  if bool_decide (Forall (λ e, e = None) clients) then rbind (must m) k s else (Ret (Err tt), s).
Proof.
  unfold after_clients. destruct (list_find (λ e, e ≠ None) clients) as [[i e]|] eqn:Hf.
  - apply list_find_Some in Hf as (Hi & He & _). rewrite bool_decide_eq_false_2.
    + unfold must, rbind. m_unfold. by destruct e.
    + intros Hall. rewrite Forall_lookup in Hall. by apply He, (Hall i).
  - rewrite bool_decide_eq_true_2; [done|]. apply list_find_None in Hf.
    eapply Forall_impl; [exact Hf|]. intros e He. by destruct (decide (e = None)).
Qed.

Lemma orExit_bind e (k : unit → mainM) s :
  rbind (orExit e) k s = match e with None => k tt s | Some _ => (Ret (Err tt), s) end.
Proof. by destruct e. Qed.

Lemma mmodify_bind {S A} (g : S → S) (k : unit → M S A) s : (mmodify g ≫= k) s = k tt (g s).
Proof. done. Qed.

Lemma must_new_manager o (k : unit → mainM) s :
  rbind (must (new_manager o)) k s =
  match newManager o with
  | None => k tt {| su_manager := Some o; su_registered := su_registered s; su_started := su_started s |}
  | Some _ => (Ret (Err tt), s)
  end.
Proof. unfold must, new_manager, rbind. m_unfold. by destruct (newManager o). Qed.

(** Each registration works, when they all do. *)
Lemma all_work_complete env f sa r :
  all_work env f sa → r ∈ all_registrations sa (fl_maxConcurrentReconciles f) →
  complete r = None ∨ ∃ path n, r = RMutating path n.
Proof. intros (_ & _ & _ & _ & Hall) Hr. rewrite Forall_forall in Hall. by apply Hall. Qed.

(** The two ways [main] can go. *)
Definition main_outcome (env : list (string * string)) (f : flags) (r : outcome (res unit unit)) (s : startup) :
    Prop :=
  (∃ sa, all_work env f sa ∧
     r = Ret (match manager_Start with None => Ok tt | Some _ => Err tt end) ∧
     s = {| su_manager := Some (manager_options env f); su_started := true;
            su_registered := all_registrations sa (fl_maxConcurrentReconciles f) |}) ∨
  (¬ (∃ sa, all_work env f sa) ∧ r = Ret (Err tt) ∧ su_started s = false).

Ltac main_fails :=
  unfold main_outcome; right; split; [|done]; intros (sa' & Hwork);
  first
    [ destruct Hwork as (? & ? & ? & ? & _); congruence
    | match goal with
      | He : complete ?r = Some _ |- _ =>
          destruct (all_work_complete _ _ _ r Hwork ltac:(unfold all_registrations; rewrite !elem_of_cons; tauto))
            as [?|(? & ? & ?)]; congruence
      end ].

Lemma main_cases env f : main_outcome env f (main env f not_started).1 (main env f not_started).2.
Proof.
  unfold main. cbv zeta. rewrite must_new_manager.
  destruct (newManager (manager_options env f)) eqn:Hm; [main_fails|].
  destruct whoami as [sa|] eqn:Hw; [|main_fails].
  unfold binding_SetupWithManager, SetupWebhookWithManager, validator_SetupWebhookWithManager,
    crd_SetupWithManager, NewMappingValidator, webhooks_SetupWithManager.
  rewrite must_after_clients.
  destruct dynamic_NewForConfig eqn:Hd; [rewrite bool_decide_eq_false_2 by (inversion_clear 1; done); main_fails|].
  destruct authv1_NewForConfig eqn:Ha;
    [rewrite bool_decide_eq_false_2 by (inversion_clear 1 as [|?? _ Hl]; by inversion Hl); main_fails|].
  rewrite bool_decide_eq_true_2 by (by repeat constructor).
  repeat first [rewrite mmodify_bind | rewrite must_register | rewrite must_after_clients | rewrite orExit_bind
    | rewrite bool_decide_eq_true_2 by (by repeat constructor)
    | match goal with |- context [complete ?r] => destruct (complete r) eqn:?; [main_fails|] end].
  left. exists sa. split_and!.
  - unfold all_work, all_registrations. split_and!; [done..|].
    repeat (apply Forall_cons_2; [eauto|]). apply Forall_nil_2.
  - by destruct manager_Start.
  - by destruct manager_Start.
Qed.

(** C29: the operator never runs half set up: the manager is started exactly
    when every step worked, and then with both binding controllers, the CRD
    controller, all validating webhooks, the mutating webhook under the
    operator's own name and both checks; when it is not started the process ends
    with an error.  All watched kinds are in the scheme; without the flag neither
    server offers HTTP/2. *)
Theorem main_complete `{LibrarySchemes} (env : list (string * string)) (f : flags) :
  let '(r, s) := main env f not_started in
  (∀ sa, all_work env f sa →
     r = Ret (match manager_Start with None => Ok tt | Some _ => Err tt end) ∧
     s = {| su_manager := Some (manager_options env f); su_started := true;
            su_registered := all_registrations sa (fl_maxConcurrentReconciles f) |}) ∧
  (su_started s = true → ∃ sa, all_work env f sa) ∧
  (su_started s = false → r = Ret (Err tt)) ∧
  (crdGVK ∈ apiextensions_v1 → ∀ sa n k c m, RController k c m ∈ all_registrations sa n → k ∈ main_scheme) ∧
  (fl_enableHTTP2 f = false →
     mo_webhookNextProtos (manager_options env f) = Some ["http/1.1"] ∧
     mo_metricsNextProtos (manager_options env f) = Some ["http/1.1"]).
Proof.
  pose proof (main_cases env f) as Hc. destruct (main env f not_started) as [r s]. simpl in Hc.
  split_and!.
  - intros sa Hwork. destruct Hc as [(sa' & (_ & Hw & _) & -> & ->)|(Hno & _)]; [|by destruct Hno; exists sa].
    destruct Hwork as (_ & Hw' & _). split; [done|]. congruence.
  - intros Hs. destruct Hc as [(sa & Hwork & _)|(_ & _ & Hf)]; [by exists sa|congruence].
  - intros Hs. destruct Hc as [(sa & _ & _ & ->)|(_ & -> & _)]; done.
  - intros Hcrd sa n k c m Hk. unfold all_registrations in Hk. unfold main_scheme, AddToScheme. simpl.
    repeat (apply elem_of_cons in Hk as [Hk|Hk]; [simplify_eq/=; set_solver|]). by apply elem_of_nil in Hk.
  - intros Hh. unfold manager_options, disableHTTP2. by rewrite Hh.
Qed.
End Main.

(** ** At work: everything works, and one thing does not *)
Section Witness.
Definition demo_platform (broken : option goerr) : Platform := {|
  newManager _ := None; dynamic_NewForConfig := None; authv1_NewForConfig := None;
  complete r := match r with RValidator k => if String.eqb (gvk_kind k) (gvk_kind mappingGVK) then broken else None
                           | _ => None end;
  manager_Start := None; whoami := Ok "system:serviceaccount:operators:sbo"
|}.
Definition demo_schemes : LibrarySchemes :=
  {| clientgo_scheme := []; apiextensions_v1 := [crdGVK]; apiextensions_v1beta1 := [] |}.
Abbreviation demo_start broken := (@main (demo_platform broken) [] default_flags not_started).

Lemma main_complete_witness :
  (demo_start None).1 = Ret (Ok tt) ∧
  su_registered (demo_start None).2 = all_registrations "system:serviceaccount:operators:sbo" 1 ∧
  (demo_start (Some (ENew "no webhook server"))).1 = Ret (Err tt) ∧
  crdGVK ∈ @main_scheme demo_schemes.
Proof.
  destruct (@main_complete (demo_platform None) demo_schemes [] default_flags) as (Hall & _ & _ & Hs & _).
  destruct (Hall "system:serviceaccount:operators:sbo") as [_ Hr].
  { unfold all_work. split_and!; [done..|]. repeat (apply Forall_cons_2; [by eauto|]). apply Forall_nil_2. }
  split_and!; [by vm_compute|by vm_compute|by vm_compute|].
  apply (Hs ltac:(by left) "" 0%Z crdGVK false 0%Z). unfold all_registrations. set_solver.
Defined.
End Witness.
