(* ===== verification/CopyMemory.v ===== *)
(** * Objects in memory, and copying them

    Controllers read bindings from a cache they share, so what they change must
    be a copy that shares no memory with the original.  Here the API types are
    laid out in a memory: a pointer or a slice is the address of a cell, a struct
    contains such addresses.  [Copyable] says how a type is read and copied, and
    [CopyLaws] that the copy reads the same and uses new cells only; the library
    types ([ObjectMeta] and the like) are parameters with these laws. *)

From S2P Require Import Prelude.
From S2P Require Import GoLib.
From S2P Require Import GoValue.
From S2P Require Import JsonPath.
From S2P Require Import Heap.
From S2P Require Import Converter.
From S2P Require Import Workload.
From S2P Require Import Apis.

Abbreviation loc := nat.

(** The library types as they lie in memory, with cells of their own. *)
Class Library := {
  TObjectMeta : Type;
  TListMeta : Type;
  TLabelSelector : Type;
  TCondition : Type;
  VListMeta : Type;
  LibCell : Type
}.

(** A pointer to a [T], or a slice by its backing array; either may be nil. *)
Inductive ptr (T : Type) : Type := Nil | Addr (a : loc).
Arguments Nil {T}.
Arguments Addr {T} a.

Section Types.
Context `{Library}.

(** *** [apis/binding/v1alpha1] *)
Record NamespacedRef := { nr_ref : v1alpha1.Ref; nr_namespace : ptr string }.
Record Service := { sv_ref : NamespacedRef; sv_id : ptr string }.
Record Application := {
  ap_ref : v1alpha1.Ref;
  ap_labelSelector : ptr TLabelSelector;
  ap_bindingPath : ptr v1alpha1.BindingPath
}.
Record ServiceBindingSpec := {
  sp_name : string;
  sp_namingStrategy : string;
  sp_mappings : ptr (list v1alpha1.Mapping);
  sp_services : ptr (list Service);
  sp_application : Application;
  sp_detectBindingResources : bool;
  sp_bindAsFiles : bool
}.
Record ServiceBindingStatus := { ss_conditions : ptr (list TCondition); ss_secret : string }.
Record ServiceBinding := {
  sb_kind : string;
  sb_apiVersion : string;
  sb_objectMeta : TObjectMeta;
  sb_spec : ServiceBindingSpec;
  sb_status : ServiceBindingStatus
}.
Record ServiceBindingList := {
  sbl_kind : string;
  sbl_apiVersion : string;
  sbl_listMeta : TListMeta;
  sbl_items : ptr (list ServiceBinding)
}.
Record BindableKinds := {
  bk_kind : string;
  bk_apiVersion : string;
  bk_objectMeta : TObjectMeta;
  bk_status : ptr (list GroupVersionKind)
}.
Record BindableKindsList := {
  bkl_kind : string;
  bkl_apiVersion : string;
  bkl_listMeta : TListMeta;
  bkl_items : ptr (list BindableKinds)
}.

(** *** [apis/spec/v1beta1] *)
Record ServiceBindingWorkloadReference := {
  wl_apiVersion : string;
  wl_kind : string;
  wl_name : string;
  wl_selector : ptr TLabelSelector;
  wl_containers : ptr (list string)
}.
Record ServiceBindingSecretReference := { srf_name : string }.
Record ServiceBindingSpec_v1beta1 := {
  bsp_name : string;
  bsp_type : string;
  bsp_provider : string;
  bsp_workload : ServiceBindingWorkloadReference;
  bsp_service : v1beta1.ServiceBindingServiceReference;
  bsp_env : ptr (list v1beta1.EnvMapping)
}.
Record ServiceBindingStatus_v1beta1 := {
  bss_observedGeneration : Z;
  bss_conditions : ptr (list TCondition);
  bss_binding : ptr ServiceBindingSecretReference
}.
Record ServiceBinding_v1beta1 := {
  bsb_kind : string;
  bsb_apiVersion : string;
  bsb_objectMeta : TObjectMeta;
  bsb_spec : ServiceBindingSpec_v1beta1;
  bsb_status : ServiceBindingStatus_v1beta1
}.
Record ServiceBindingList_v1beta1 := {
  bsl_kind : string;
  bsl_apiVersion : string;
  bsl_listMeta : TListMeta;
  bsl_items : ptr (list ServiceBinding_v1beta1)
}.
Record MappingTemplate := {
  mt_version : string;
  mt_annotations : string;
  mt_containers : ptr (list ClusterWorkloadResourceMappingContainer);
  mt_volumes : string
}.
Record ResourceMappingSpec := { cms_versions : ptr (list MappingTemplate) }.
Record ResourceMapping := {
  cwm_kind : string;
  cwm_apiVersion : string;
  cwm_objectMeta : TObjectMeta;
  cwm_spec : ResourceMappingSpec
}.
Record ResourceMappingList := {
  cwl_kind : string;
  cwl_apiVersion : string;
  cwl_listMeta : TListMeta;
  cwl_items : ptr (list ResourceMapping)
}.

(** What a cell holds; [CZero] is zeroed memory that is not filled yet. *)
Inductive cell : Type :=
| CZero
| CString (x : string)
| CRef (x : v1alpha1.Ref)
| CMapping (x : v1alpha1.Mapping)
| CMappings (x : list v1alpha1.Mapping)
| CBindingPath (x : v1alpha1.BindingPath)
| CLabelSelector (x : TLabelSelector)
| CNamespacedRef (x : NamespacedRef)
| CService (x : Service)
| CServices (x : list Service)
| CApplication (x : Application)
| CConditions (x : list TCondition)
| CSpec (x : ServiceBindingSpec)
| CStatus (x : ServiceBindingStatus)
| CBinding (x : ServiceBinding)
| CBindings (x : list ServiceBinding)
| CBindingList (x : ServiceBindingList)
| CKind (x : GroupVersionKind)
| CKinds (x : list GroupVersionKind)
| CBindable (x : BindableKinds)
| CBindables (x : list BindableKinds)
| CBindableList (x : BindableKindsList)
| CStrings (x : list string)
| CWorkloadReference (x : ServiceBindingWorkloadReference)
| CSecretReference (x : ServiceBindingSecretReference)
| CServiceReference (x : v1beta1.ServiceBindingServiceReference)
| CEnvMapping (x : v1beta1.EnvMapping)
| CEnvMappings (x : list v1beta1.EnvMapping)
| CBetaSpec (x : ServiceBindingSpec_v1beta1)
| CBetaStatus (x : ServiceBindingStatus_v1beta1)
| CBetaBinding (x : ServiceBinding_v1beta1)
| CBetaBindings (x : list ServiceBinding_v1beta1)
| CBetaBindingList (x : ServiceBindingList_v1beta1)
| CContainer (x : ClusterWorkloadResourceMappingContainer)
| CContainers (x : list ClusterWorkloadResourceMappingContainer)
| CTemplate (x : MappingTemplate)
| CTemplates (x : list MappingTemplate)
| CMappingSpec (x : ResourceMappingSpec)
| CResourceMapping (x : ResourceMapping)
| CResourceMappings (x : list ResourceMapping)
| CResourceMappingList (x : ResourceMappingList)
| CLib (x : LibCell).
End Types.

Abbreviation mem := (list cell).

(** ** Values of a type in a cell *)
Class Stored `{Library} (T : Type) := {
  inj : T → cell;
  proj : cell → option T;
  proj_inj x : proj (inj x) = Some x
}.

Section Stored.
Context `{Library}.
#[export] Instance string_stored : Stored string :=
  {| inj := CString; proj c := match c with CString x => Some x | _ => None end; proj_inj _ := eq_refl |}.
#[export] Instance ref_stored : Stored v1alpha1.Ref :=
  {| inj := CRef; proj c := match c with CRef x => Some x | _ => None end; proj_inj _ := eq_refl |}.
#[export] Instance mapping_stored : Stored v1alpha1.Mapping :=
  {| inj := CMapping; proj c := match c with CMapping x => Some x | _ => None end; proj_inj _ := eq_refl |}.
#[export] Instance mappings_stored : Stored (list v1alpha1.Mapping) :=
  {| inj := CMappings; proj c := match c with CMappings x => Some x | _ => None end; proj_inj _ := eq_refl |}.
#[export] Instance bindingPath_stored : Stored v1alpha1.BindingPath :=
  {| inj := CBindingPath; proj c := match c with CBindingPath x => Some x | _ => None end; proj_inj _ := eq_refl |}.
#[export] Instance labelSelector_stored : Stored TLabelSelector :=
  {| inj := CLabelSelector; proj c := match c with CLabelSelector x => Some x | _ => None end; proj_inj _ := eq_refl |}.
#[export] Instance namespacedRef_stored : Stored NamespacedRef :=
  {| inj := CNamespacedRef; proj c := match c with CNamespacedRef x => Some x | _ => None end; proj_inj _ := eq_refl |}.
#[export] Instance service_stored : Stored Service :=
  {| inj := CService; proj c := match c with CService x => Some x | _ => None end; proj_inj _ := eq_refl |}.
#[export] Instance services_stored : Stored (list Service) :=
  {| inj := CServices; proj c := match c with CServices x => Some x | _ => None end; proj_inj _ := eq_refl |}.
#[export] Instance application_stored : Stored Application :=
  {| inj := CApplication; proj c := match c with CApplication x => Some x | _ => None end; proj_inj _ := eq_refl |}.
#[export] Instance conditions_stored : Stored (list TCondition) :=
  {| inj := CConditions; proj c := match c with CConditions x => Some x | _ => None end; proj_inj _ := eq_refl |}.
#[export] Instance spec_stored : Stored ServiceBindingSpec :=
  {| inj := CSpec; proj c := match c with CSpec x => Some x | _ => None end; proj_inj _ := eq_refl |}.
#[export] Instance status_stored : Stored ServiceBindingStatus :=
  {| inj := CStatus; proj c := match c with CStatus x => Some x | _ => None end; proj_inj _ := eq_refl |}.
#[export] Instance binding_stored : Stored ServiceBinding :=
  {| inj := CBinding; proj c := match c with CBinding x => Some x | _ => None end; proj_inj _ := eq_refl |}.
#[export] Instance bindings_stored : Stored (list ServiceBinding) :=
  {| inj := CBindings; proj c := match c with CBindings x => Some x | _ => None end; proj_inj _ := eq_refl |}.
#[export] Instance bindingList_stored : Stored ServiceBindingList :=
  {| inj := CBindingList; proj c := match c with CBindingList x => Some x | _ => None end; proj_inj _ := eq_refl |}.
#[export] Instance kind_stored : Stored GroupVersionKind :=
  {| inj := CKind; proj c := match c with CKind x => Some x | _ => None end; proj_inj _ := eq_refl |}.
#[export] Instance kinds_stored : Stored (list GroupVersionKind) :=
  {| inj := CKinds; proj c := match c with CKinds x => Some x | _ => None end; proj_inj _ := eq_refl |}.
#[export] Instance bindable_stored : Stored BindableKinds :=
  {| inj := CBindable; proj c := match c with CBindable x => Some x | _ => None end; proj_inj _ := eq_refl |}.
#[export] Instance bindables_stored : Stored (list BindableKinds) :=
  {| inj := CBindables; proj c := match c with CBindables x => Some x | _ => None end; proj_inj _ := eq_refl |}.
#[export] Instance bindableList_stored : Stored BindableKindsList :=
  {| inj := CBindableList; proj c := match c with CBindableList x => Some x | _ => None end; proj_inj _ := eq_refl |}.
#[export] Instance strings_stored : Stored (list string) :=
  {| inj := CStrings; proj c := match c with CStrings x => Some x | _ => None end; proj_inj _ := eq_refl |}.
#[export] Instance workloadReference_stored : Stored ServiceBindingWorkloadReference :=
  {| inj := CWorkloadReference; proj c := match c with CWorkloadReference x => Some x | _ => None end; proj_inj _ := eq_refl |}.
#[export] Instance secretReference_stored : Stored ServiceBindingSecretReference :=
  {| inj := CSecretReference; proj c := match c with CSecretReference x => Some x | _ => None end; proj_inj _ := eq_refl |}.
#[export] Instance serviceReference_stored : Stored v1beta1.ServiceBindingServiceReference :=
  {| inj := CServiceReference; proj c := match c with CServiceReference x => Some x | _ => None end; proj_inj _ := eq_refl |}.
#[export] Instance envMapping_stored : Stored v1beta1.EnvMapping :=
  {| inj := CEnvMapping; proj c := match c with CEnvMapping x => Some x | _ => None end; proj_inj _ := eq_refl |}.
#[export] Instance envMappings_stored : Stored (list v1beta1.EnvMapping) :=
  {| inj := CEnvMappings; proj c := match c with CEnvMappings x => Some x | _ => None end; proj_inj _ := eq_refl |}.
#[export] Instance betaSpec_stored : Stored ServiceBindingSpec_v1beta1 :=
  {| inj := CBetaSpec; proj c := match c with CBetaSpec x => Some x | _ => None end; proj_inj _ := eq_refl |}.
#[export] Instance betaStatus_stored : Stored ServiceBindingStatus_v1beta1 :=
  {| inj := CBetaStatus; proj c := match c with CBetaStatus x => Some x | _ => None end; proj_inj _ := eq_refl |}.
#[export] Instance betaBinding_stored : Stored ServiceBinding_v1beta1 :=
  {| inj := CBetaBinding; proj c := match c with CBetaBinding x => Some x | _ => None end; proj_inj _ := eq_refl |}.
#[export] Instance betaBindings_stored : Stored (list ServiceBinding_v1beta1) :=
  {| inj := CBetaBindings; proj c := match c with CBetaBindings x => Some x | _ => None end; proj_inj _ := eq_refl |}.
#[export] Instance betaBindingList_stored : Stored ServiceBindingList_v1beta1 :=
  {| inj := CBetaBindingList; proj c := match c with CBetaBindingList x => Some x | _ => None end; proj_inj _ := eq_refl |}.
#[export] Instance container_stored : Stored ClusterWorkloadResourceMappingContainer :=
  {| inj := CContainer; proj c := match c with CContainer x => Some x | _ => None end; proj_inj _ := eq_refl |}.
#[export] Instance containers_stored : Stored (list ClusterWorkloadResourceMappingContainer) :=
  {| inj := CContainers; proj c := match c with CContainers x => Some x | _ => None end; proj_inj _ := eq_refl |}.
#[export] Instance template_stored : Stored MappingTemplate :=
  {| inj := CTemplate; proj c := match c with CTemplate x => Some x | _ => None end; proj_inj _ := eq_refl |}.
#[export] Instance templates_stored : Stored (list MappingTemplate) :=
  {| inj := CTemplates; proj c := match c with CTemplates x => Some x | _ => None end; proj_inj _ := eq_refl |}.
#[export] Instance mappingSpec_stored : Stored ResourceMappingSpec :=
  {| inj := CMappingSpec; proj c := match c with CMappingSpec x => Some x | _ => None end; proj_inj _ := eq_refl |}.
#[export] Instance resourceMapping_stored : Stored ResourceMapping :=
  {| inj := CResourceMapping; proj c := match c with CResourceMapping x => Some x | _ => None end; proj_inj _ := eq_refl |}.
#[export] Instance resourceMappings_stored : Stored (list ResourceMapping) :=
  {| inj := CResourceMappings; proj c := match c with CResourceMappings x => Some x | _ => None end; proj_inj _ := eq_refl |}.
#[export] Instance resourceMappingList_stored : Stored ResourceMappingList :=
  {| inj := CResourceMappingList; proj c := match c with CResourceMappingList x => Some x | _ => None end; proj_inj _ := eq_refl |}.
End Stored.

(** ** Memory *)
Section Memory.
Context `{Library}.

Definition load {T} `{Stored T} (a : loc) : M mem T := λ m,
  match m !! a ≫= proj with
  | Some x => (Ret x, m)
  | None => (Panic "invalid memory address", m)
  end.
(** [new] or [make], and what is written there. *)
Definition reserve : M mem loc := λ m, (Ret (length m), m ++ [CZero]).
Definition fill {T} `{Stored T} (a : loc) (x : T) : M mem unit := mmodify (λ m, <[a := inj x]> m).
End Memory.

(** ** Types that can be copied *)

(** [value]: what is read, if all its pointers are valid; [reach]: the cells it
    is made of; [DeepCopyInto]: the content of [*out] afterwards. *)
Class Copyable `{Library} (T V : Type) := {
  value : mem → T → option V;
  reach : mem → T → list loc;
  DeepCopyInto : T → M mem T
}.
#[global] Hint Mode Copyable - ! - : typeclass_instances.

(** What is read depends on the cells reached, and these are valid. *)
Class ReadLaws `{Library} (T V : Type) `{!Copyable T V} := {
  value_frame (m m' : mem) (x : T) : (∀ a, a ∈ reach m x → m' !! a = m !! a) →
    value m' x = value m x ∧ reach m' x = reach m x;
  reach_valid (m : mem) (x : T) (v : V) : value m x = Some v → ∀ a, a ∈ reach m x → a < length m
}.
(** The outcome of copying something that reads as [v]: it reads the same, out
    of new cells; no other cell changes. *)
Definition copied `{Library} {T V : Type} `{!Copyable T V} (m : mem) (v : V) (r : outcome T * mem) : Prop :=
  ∃ y m', r = (Ret y, m') ∧ m `prefix_of` m' ∧ value m' y = Some v ∧ ∀ a, a ∈ reach m' y → length m ≤ a.
Class CopyLaws `{Library} (T V : Type) `{!Copyable T V} := {
  copy_reads :: ReadLaws T V;
  copy_run (m : mem) (x : T) (v : V) : value m x = Some v → copied m v (DeepCopyInto x m)
}.

Section Rules.
Context `{Library} {T V : Type} `{!Copyable T V}.

Lemma prefix_lookup_eq {A} (l l' : list A) a : l `prefix_of` l' → a < length l → l' !! a = l !! a.
Proof. intros [k ->] Ha. by apply lookup_app_l. Qed.

(** More memory changes nothing. *)
Lemma value_grow `{!ReadLaws T V} (m m' : mem) (x : T) (v : V) :
  m `prefix_of` m' → value m x = Some v → value m' x = Some v ∧ reach m' x = reach m x.
Proof.
  intros Hp Hv. destruct (value_frame m m' x) as [-> ->]; [|done].
  intros a Ha. apply prefix_lookup_eq; [done|]. by eapply reach_valid.
Qed.

End Rules.

(** [x] reads as [v], out of cells from [n] on. *)
Definition made_of `{Library} {T V : Type} `{!Copyable T V} (n : loc) (m : mem) (x : T) (v : V) : Prop :=
  value m x = Some v ∧ ∀ a, a ∈ reach m x → n ≤ a.

Lemma made_of_grow `{Library} {T V : Type} `{!Copyable T V} `{!ReadLaws T V} n (m m' : mem) (x : T) (v : V) :
  m `prefix_of` m' → made_of n m x v → made_of n m' x v.
Proof.
  intros Hp [Hv Hr]. destruct (value_grow m m' x v Hp Hv) as [Hv' Hr']. split; [done|]. by rewrite Hr'.
Qed.

(** Copying a part, and going on. *)
Lemma copy_bind `{Library} {T V : Type} `{!Copyable T V} `{!CopyLaws T V} {R}
    (Q : outcome R * mem → Prop) n (m : mem) (x : T) (v : V) (k : T → M mem R) :
  made_of n m x v →
  (∀ y m', m `prefix_of` m' → length m ≤ length m' → made_of (length m) m' y v → Q (k y m')) →
  Q ((DeepCopyInto x ≫= k) m).
Proof.
  intros [Hv _] Hk. destruct (copy_run m x v Hv) as (y & m' & Hr & Hp & Hy & Hf).
  erewrite mbind_ret by exact Hr. by apply Hk; [|apply prefix_length|].
Qed.

(** *** Values without pointers *)
Section Plain.
Context `{Library}.
Definition plain_copy (T : Type) : Copyable T T :=
  {| value _ x := Some x; reach _ _ := []; DeepCopyInto := mret |}.
Lemma plain_laws T : @CopyLaws _ T T (plain_copy T).
Proof.
  split; [split; [done|by intros ? ? ? ? ? ?%elem_of_nil]|].
  intros m x v [= ->]. exists v, m. split_and!; [done..|]. by intros a ?%elem_of_nil.
Qed.
End Plain.

(** *** The elements of a slice, one after the other *)
Section Elements.
Context `{Library} {T V : Type} `{!Copyable T V} `{!CopyLaws T V}.

Fixpoint copy_elements (l : list T) : M mem (list T) :=
  match l with
  | [] => mret []
  | x :: l' => y ← DeepCopyInto x; ys ← copy_elements l'; mret (y :: ys)
  end.

#[export] Instance list_copy : Copyable (list T) (list V) :=
  {| value m l := mapM (value m) l; reach m l := flat_map (reach m) l; DeepCopyInto := copy_elements |}.

#[export] Instance list_reads : ReadLaws (list T) (list V).
Proof.
  split.
  - intros m m' l Ha. induction l as [|x l IH]; [done|]. simpl in *.
    destruct (value_frame m m' x) as [-> ->]; [set_solver|]. destruct IH as [IH1 IH2]; [set_solver|].
    by rewrite IH1, IH2.
  - intros m l. induction l as [|x l IH]; intros v Hv a; [by intros ?%elem_of_nil|].
    simpl in *. destruct (value m x) eqn:Hx; [|done]. destruct (mapM _ l) eqn:Hl; [|done].
    intros [Ha|Ha]%elem_of_app; [by eapply reach_valid|by eapply IH].
Qed.

Lemma value_cons m x l v vs : value m x = Some v → value m l = Some vs → value m (x :: l) = Some (v :: vs).
Proof. simpl. by intros -> ->. Qed.

#[export] Instance list_laws : CopyLaws (list T) (list V).
Proof.
  split; [apply _|]. intros m l. revert m. induction l as [|x l IH]; intros m v Hv.
  { exists [], m. split_and!; [done..|]. by intros a ?%elem_of_nil. }
  simpl in Hv. destruct (value m x) as [v1|] eqn:Hx; [|done].
  destruct (mapM _ l) as [vs|] eqn:Hl; [|done]. injection Hv as <-.
  change (value m l = Some vs) in Hl. simpl. apply (copy_bind (copied m _) 0 m x v1); [split; [done|lia]|].
  intros y m1 Hp Hlen [Hy Hf]. destruct (value_grow m m1 l _ Hp Hl) as [Hl1 _].
  destruct (IH m1 vs Hl1) as (ys & m2 & Hr2 & Hp2 & Hys & Hf2). erewrite mbind_ret by exact Hr2.
  destruct (value_grow m1 m2 y _ Hp2 Hy) as [Hy2 Hry].
  exists (y :: ys), m2. split; [done|]. split; [by etrans|]. split; [by apply value_cons|].
  intros a [Ha|Ha]%elem_of_app; [apply Hf; by rewrite <- Hry|]. specialize (Hf2 a Ha). lia.
Qed.
End Elements.

(** What a deep copy is for: it reads as the original, and whatever becomes of
    the cells of one, and of cells that are in neither, the other reads as before. *)
Definition deep_copies `{Library} {T V} `{!Copyable (ptr T) V} (copy : ptr T → M mem (ptr T)) : Prop :=
  ∀ m p v, value m p = Some v →
    ∃ p' m', copy p m = (Ret p', m') ∧ value m' p' = Some v ∧ value m' p = Some v ∧
      (∀ a, a ∈ reach m' p → a ∉ reach m' p') ∧
      (∀ m'', (∀ a, a ∈ reach m' p → m'' !! a = m' !! a) → value m'' p = Some v) ∧
      (∀ m'', (∀ a, a ∈ reach m' p' → m'' !! a = m' !! a) → value m'' p' = Some v).

Lemma copied_apart `{Library} {T V} `{!Copyable (ptr T) V} `{!ReadLaws (ptr T) V} (copy : ptr T → M mem (ptr T)) :
  (∀ m p v, value m p = Some v → copied m v (copy p m)) → deep_copies copy.
Proof.
  intros Hc m p v Hv. destruct (Hc m p v Hv) as (p' & m' & Hr & Hp & Hv' & Hf).
  destruct (value_grow m m' p v Hp Hv) as [Hpv Hpr]. exists p', m'. split_and!; try done.
  - intros a Ha Ha'. rewrite Hpr in Ha. pose proof (reach_valid m p v Hv a Ha). specialize (Hf a Ha'). lia.
  - intros m'' Ha. by destruct (value_frame m' m'' p Ha) as [-> _].
  - intros m'' Ha. by destruct (value_frame m' m'' p' Ha) as [-> _].
Qed.

(** *** Pointers and slices *)
Section Pointers.
Context `{Library} {T V : Type} `{!Stored T} `{!Copyable T V} `{!CopyLaws T V}.

(** For a pointer that is not nil, [new] and [DeepCopyInto]; the same with
    [make] and a loop for a slice. *)
Definition copy_pointer (p : ptr T) : M mem (ptr T) :=
  match p with
  | Nil => mret Nil
  | Addr a => x ← load a; out ← reserve; y ← DeepCopyInto x; _ ← fill out y; mret (Addr out)
  end.

Definition target (m : mem) (a : loc) : option T := m !! a ≫= proj.

#[export] Instance pointer_copy : Copyable (ptr T) (option V) := {|
  value m p := match p with
               | Nil => Some None
               | Addr a => match target m a with Some x => Some <$> value m x | None => None end
               end;
  reach m p := match p with
               | Nil => []
               | Addr a => a :: match target m a with Some x => reach m x | None => [] end
               end;
  DeepCopyInto := copy_pointer
|}.

#[export] Instance pointer_reads : ReadLaws (ptr T) (option V).
Proof.
  split.
  - intros m m' [|a] Ha; [done|]. simpl in *. unfold target in *. rewrite (Ha a) by by left.
    destruct (m !! a ≫= proj) as [x|]; [|done].
    destruct (value_frame m m' x) as [-> ->]; [|done]. intros b Hb. apply Ha. by right.
  - intros m [|a] v Hv b; simpl in *; [by intros ?%elem_of_nil|].
    unfold target in *. destruct (m !! a) as [c|] eqn:Hc; [|done]. simpl in *.
    destruct (proj c) as [x|]; [|done]. destruct (value m x) as [v1|] eqn:Hx; [|done].
    intros [->|Hb]%elem_of_cons; [by eapply lookup_lt_Some|by apply (reach_valid m x v1)].
Qed.

#[export] Instance pointer_laws : CopyLaws (ptr T) (option V).
Proof.
  split; [apply pointer_reads|]. intros m [|a] v Hv; simpl in Hv.
  { injection Hv as <-. exists Nil, m. split_and!; [done..|]. by intros b ?%elem_of_nil. }
  destruct (target m a) as [x|] eqn:Ht; [|done]. destruct (value m x) as [v1|] eqn:Hx; [|done].
  injection Hv as <-. simpl. unfold copy_pointer, load. unfold target in Ht.
  erewrite mbind_ret by (by rewrite Ht). erewrite mbind_ret by done.
  destruct (value_grow m (m ++ [CZero]) x _ (prefix_app_r _ _ _ (reflexivity m)) Hx) as [Hx1 _].
  apply (copy_bind (copied m _) 0 (m ++ [CZero]) x v1); [split; [done|lia]|].
  intros y m2 [k ->] _ [Hy Hf]. erewrite mbind_ret by done.
  rewrite length_app in Hf. simpl in Hf. rewrite <- app_assoc in *.
  assert (<[length m := inj y]> (m ++ [CZero] ++ k) = m ++ inj y :: k) as Hm
    by (by rewrite insert_app_r_alt, Nat.sub_diag by done).
  destruct (value_frame (m ++ [CZero] ++ k) (m ++ inj y :: k) y) as [Hvy Hry].
  { intros b Hb. specialize (Hf b Hb). rewrite !lookup_app_r by lia.
    by destruct (b - length m) eqn:E; [lia|]. }
  exists (Addr (length m)), (m ++ inj y :: k). split; [by rewrite <- Hm|]. split; [by eexists|].
  simpl. unfold target. rewrite list_lookup_middle by done. simpl. rewrite proj_inj, Hvy, Hy, Hry.
  split; [done|]. intros b [->|Hb]%elem_of_cons; [done|]. specialize (Hf b Hb). lia.
Qed.

Lemma copy_pointer_deep :
  deep_copies (T := T) copy_pointer.
Proof. apply copied_apart. intros m p v. exact (copy_run m p v). Qed.
End Pointers.

(** Reads the parts of a struct one after the other. *)
Ltac struct_reads :=
  split;
  [ intros m m' x Ha; simpl in *;
    repeat match goal with
    | |- context [value m' ?y] =>
        let H1 := fresh in let H2 := fresh in
        destruct (value_frame m m' y) as [H1 H2]; [intros; apply Ha; set_solver|rewrite !H1, !H2]
    end; done
  | intros m x v Hv a Ha; simpl in *;
    repeat match goal with
    | H : context [value m ?y] |- _ =>
        lazymatch goal with _ : value m y = Some _ |- _ => fail | _ => idtac end;
        destruct (value m y) eqn:?; [|discriminate]
    end;
    rewrite ?elem_of_app in Ha;
    repeat match goal with
    | Hv : value m ?y = Some ?v, Ha : a ∈ reach m ?y |- _ => exact (reach_valid m y v Hv a Ha)
    | Ha : _ ∨ _ |- _ => destruct Ha as [Ha|Ha]
    end ].

(** Copies them one after the other. *)
Ltac struct_copies f :=
  split; [apply _|]; intros m x v Hv; simpl in Hv;
  repeat match type of Hv with
  | context [value m ?y] =>
      let v1 := fresh "v" in let H1 := fresh "Hm" in
      destruct (value m y) as [v1|] eqn:H1; [|discriminate];
      assert (made_of 0 m y v1) by (split; [exact H1|lia]); clear H1; simpl in Hv
  end;
  injection Hv as <-; simpl; unfold f;
  repeat match goal with
  | Hm : made_of ?n ?m1 ?y ?v1 |- copied m ?v ((DeepCopyInto ?y ≫= _) ?m1) =>
      apply (copy_bind (copied m v) n m1 y v1 _ Hm); clear Hm;
      let y' := fresh "y" in let m2 := fresh "m" in let Hp := fresh "Hp" in
      intros y' m2 Hp ? ?;
      repeat match goal with
      | Ho : made_of _ m1 _ _ |- _ => apply (made_of_grow _ _ _ _ _ Hp) in Ho
      end
  end;
  eexists _, _; split; [reflexivity|]; split; [by repeat (eassumption || etrans)|];
  simpl; split;
  [ repeat match goal with Hm : made_of _ _ _ _ |- _ => destruct Hm as [-> _] end; reflexivity
  | intros a Ha; rewrite ?elem_of_app in Ha;
    repeat match goal with
    | Hm : made_of _ ?m1 ?y _, Ha : a ∈ reach ?m1 ?y |- _ => apply Hm in Ha; lia
    | Ha : _ ∨ _ |- _ => destruct Ha as [Ha|Ha]
    end ].

Section Shared.
Context `{Library}.

#[export] Instance string_copy : Copyable string string := plain_copy string.
#[export] Instance string_laws : CopyLaws string string := plain_laws _.

(** A nil slice reads as no elements. *)
Definition elements {A} (l : option (list A)) : list A := default [] l.

(** A nil copy becomes a nil interface. *)
Definition as_object {T} (copy : ptr T → M mem (ptr T)) (p : ptr T) : M mem (ptr T) :=
  c ← copy p;
  match c with Addr a => mret (Addr a) | Nil => mret Nil end.

Lemma as_object_deep {T V} `{!Copyable (ptr T) V} (copy : ptr T → M mem (ptr T)) :
  deep_copies copy → deep_copies (as_object copy).
Proof.
  intros Hc m p v Hv. destruct (Hc m p v Hv) as (p' & m' & Hr & Hp). exists p', m'. split; [|done].
  unfold as_object. erewrite mbind_ret by exact Hr. by destruct p'.
Qed.
End Shared.
