(* ===== verification/DeepCopy.v ===== *)
(** * Generated deep copies ([apis/binding/v1alpha1/zz_generated.deepcopy.go]) *)

From S2P Require Import Prelude.
From S2P Require Import GoLib.
From S2P Require Import GoValue.
From S2P Require Import Apis.
From S2P Require Import CopyMemory.

(** ** The API types *)

(** What is read of the types that [Apis] does not have. *)
Record VServiceBindingList `{Library} := {
  vsl_kind : string; vsl_apiVersion : string; vsl_listMeta : VListMeta; vsl_items : list v1alpha1.ServiceBinding
}.
Record VBindableKinds := {
  vbk_kind : string; vbk_apiVersion : string; vbk_objectMeta : ObjectMeta; vbk_status : list GroupVersionKind
}.
Record VBindableKindsList `{Library} := {
  vbl_kind : string; vbl_apiVersion : string; vbl_listMeta : VListMeta; vbl_items : list VBindableKinds
}.

Section Structs.
Context `{Library}.
Context `{!Copyable TObjectMeta ObjectMeta, !CopyLaws TObjectMeta ObjectMeta}.
Context `{!Copyable TListMeta VListMeta, !CopyLaws TListMeta VListMeta}.
Context `{!Copyable TLabelSelector LabelSelector, !CopyLaws TLabelSelector LabelSelector}.
Context `{!Copyable TCondition Condition, !CopyLaws TCondition Condition}.

(** [*out = *in]. *)
#[export] Instance Ref_copy : Copyable v1alpha1.Ref v1alpha1.Ref := plain_copy v1alpha1.Ref.
#[export] Instance Mapping_copy : Copyable v1alpha1.Mapping v1alpha1.Mapping := plain_copy v1alpha1.Mapping.
#[export] Instance BindingPath_copy : Copyable v1alpha1.BindingPath v1alpha1.BindingPath :=
  plain_copy v1alpha1.BindingPath.
#[export] Instance BindableKindsStatus_copy : Copyable GroupVersionKind GroupVersionKind :=
  plain_copy GroupVersionKind.
#[export] Instance Ref_laws : CopyLaws v1alpha1.Ref v1alpha1.Ref := plain_laws _.
#[export] Instance Mapping_laws : CopyLaws v1alpha1.Mapping v1alpha1.Mapping := plain_laws _.
#[export] Instance BindingPath_laws : CopyLaws v1alpha1.BindingPath v1alpha1.BindingPath := plain_laws _.
#[export] Instance BindableKindsStatus_laws : CopyLaws GroupVersionKind GroupVersionKind := plain_laws _.

Opaque pointer_copy list_copy.

Definition NamespacedRef_DeepCopyInto (x : NamespacedRef) : M mem NamespacedRef :=
  namespace ← DeepCopyInto (nr_namespace x);
  mret {| nr_ref := nr_ref x; nr_namespace := namespace |}.

#[export] Instance NamespacedRef_copy : Copyable NamespacedRef v1alpha1.NamespacedRef := {|
  value m x := namespace ← value m (nr_namespace x);
               Some {| v1alpha1.nr_ref := nr_ref x; v1alpha1.nr_namespace := namespace |};
  reach m x := reach m (nr_namespace x);
  DeepCopyInto := NamespacedRef_DeepCopyInto
|}.
#[export] Instance NamespacedRef_reads : ReadLaws NamespacedRef v1alpha1.NamespacedRef.
Proof. struct_reads. Qed.
#[export] Instance NamespacedRef_laws : CopyLaws NamespacedRef v1alpha1.NamespacedRef.
Proof. struct_copies NamespacedRef_DeepCopyInto. Qed.
Opaque NamespacedRef_copy.

Definition Service_DeepCopyInto (x : Service) : M mem Service :=
  ref ← DeepCopyInto (sv_ref x);
  id ← DeepCopyInto (sv_id x);
  mret {| sv_ref := ref; sv_id := id |}.

#[export] Instance Service_copy : Copyable Service v1alpha1.Service := {|
  value m x := ref ← value m (sv_ref x); id ← value m (sv_id x);
               Some {| v1alpha1.sv_ref := ref; v1alpha1.sv_id := id |};
  reach m x := reach m (sv_ref x) ++ reach m (sv_id x);
  DeepCopyInto := Service_DeepCopyInto
|}.
#[export] Instance Service_reads : ReadLaws Service v1alpha1.Service.
Proof. struct_reads. Qed.
#[export] Instance Service_laws : CopyLaws Service v1alpha1.Service.
Proof. struct_copies Service_DeepCopyInto. Qed.
Opaque Service_copy.

Definition Application_DeepCopyInto (x : Application) : M mem Application :=
  labelSelector ← DeepCopyInto (ap_labelSelector x);
  bindingPath ← DeepCopyInto (ap_bindingPath x);
  mret {| ap_ref := ap_ref x; ap_labelSelector := labelSelector; ap_bindingPath := bindingPath |}.

#[export] Instance Application_copy : Copyable Application v1alpha1.Application := {|
  value m x := selector ← value m (ap_labelSelector x); path ← value m (ap_bindingPath x);
               Some {| v1alpha1.ap_ref := ap_ref x; v1alpha1.ap_labelSelector := selector;
                       v1alpha1.ap_bindingPath := path |};
  reach m x := reach m (ap_labelSelector x) ++ reach m (ap_bindingPath x);
  DeepCopyInto := Application_DeepCopyInto
|}.
#[export] Instance Application_reads : ReadLaws Application v1alpha1.Application.
Proof. struct_reads. Qed.
#[export] Instance Application_laws : CopyLaws Application v1alpha1.Application.
Proof. struct_copies Application_DeepCopyInto. Qed.
Opaque Application_copy.

Definition ServiceBindingSpec_DeepCopyInto (x : ServiceBindingSpec) : M mem ServiceBindingSpec :=
  mappings ← DeepCopyInto (sp_mappings x);
  services ← DeepCopyInto (sp_services x);
  application ← DeepCopyInto (sp_application x);
  mret {| sp_name := sp_name x; sp_namingStrategy := sp_namingStrategy x; sp_mappings := mappings;
          sp_services := services; sp_application := application;
          sp_detectBindingResources := sp_detectBindingResources x; sp_bindAsFiles := sp_bindAsFiles x |}.

#[export] Instance ServiceBindingSpec_copy : Copyable ServiceBindingSpec v1alpha1.ServiceBindingSpec := {|
  value m x :=
    mappings ← value m (sp_mappings x); services ← value m (sp_services x);
    application ← value m (sp_application x);
    Some {| v1alpha1.sp_name := sp_name x; v1alpha1.sp_namingStrategy := sp_namingStrategy x;
            v1alpha1.sp_mappings := mappings; v1alpha1.sp_services := services;
            v1alpha1.sp_application := application;
            v1alpha1.sp_detectBindingResources := sp_detectBindingResources x;
            v1alpha1.sp_bindAsFiles := sp_bindAsFiles x |};
  reach m x := reach m (sp_mappings x) ++ reach m (sp_services x) ++ reach m (sp_application x);
  DeepCopyInto := ServiceBindingSpec_DeepCopyInto
|}.
#[export] Instance ServiceBindingSpec_reads : ReadLaws ServiceBindingSpec v1alpha1.ServiceBindingSpec.
Proof. struct_reads. Qed.
#[export] Instance ServiceBindingSpec_laws : CopyLaws ServiceBindingSpec v1alpha1.ServiceBindingSpec.
Proof. struct_copies ServiceBindingSpec_DeepCopyInto. Qed.
Opaque ServiceBindingSpec_copy.

Definition ServiceBindingStatus_DeepCopyInto (x : ServiceBindingStatus) : M mem ServiceBindingStatus :=
  conditions ← DeepCopyInto (ss_conditions x);
  mret {| ss_conditions := conditions; ss_secret := ss_secret x |}.

#[export] Instance ServiceBindingStatus_copy : Copyable ServiceBindingStatus v1alpha1.ServiceBindingStatus := {|
  value m x := conditions ← value m (ss_conditions x);
               Some {| v1alpha1.ss_conditions := elements conditions; v1alpha1.ss_secret := ss_secret x |};
  reach m x := reach m (ss_conditions x);
  DeepCopyInto := ServiceBindingStatus_DeepCopyInto
|}.
#[export] Instance ServiceBindingStatus_reads : ReadLaws ServiceBindingStatus v1alpha1.ServiceBindingStatus.
Proof. struct_reads. Qed.
#[export] Instance ServiceBindingStatus_laws : CopyLaws ServiceBindingStatus v1alpha1.ServiceBindingStatus.
Proof. struct_copies ServiceBindingStatus_DeepCopyInto. Qed.
Opaque ServiceBindingStatus_copy.

Definition ServiceBinding_DeepCopyInto (x : ServiceBinding) : M mem ServiceBinding :=
  objectMeta ← DeepCopyInto (sb_objectMeta x);
  spec ← DeepCopyInto (sb_spec x);
  status ← DeepCopyInto (sb_status x);
  mret {| sb_kind := sb_kind x; sb_apiVersion := sb_apiVersion x; sb_objectMeta := objectMeta;
          sb_spec := spec; sb_status := status |}.

#[export] Instance ServiceBinding_copy : Copyable ServiceBinding v1alpha1.ServiceBinding := {|
  value m x :=
    objectMeta ← value m (sb_objectMeta x); spec ← value m (sb_spec x); status ← value m (sb_status x);
    Some {| v1alpha1.sb_kind := sb_kind x; v1alpha1.sb_apiVersion := sb_apiVersion x;
            v1alpha1.sb_objectMeta := objectMeta; v1alpha1.sb_spec := spec; v1alpha1.sb_status := status |};
  reach m x := reach m (sb_objectMeta x) ++ reach m (sb_spec x) ++ reach m (sb_status x);
  DeepCopyInto := ServiceBinding_DeepCopyInto
|}.
#[export] Instance ServiceBinding_reads : ReadLaws ServiceBinding v1alpha1.ServiceBinding.
Proof. struct_reads. Qed.
#[export] Instance ServiceBinding_laws : CopyLaws ServiceBinding v1alpha1.ServiceBinding.
Proof. struct_copies ServiceBinding_DeepCopyInto. Qed.
Opaque ServiceBinding_copy.

Definition ServiceBindingList_DeepCopyInto (x : ServiceBindingList) : M mem ServiceBindingList :=
  listMeta ← DeepCopyInto (sbl_listMeta x);
  items ← DeepCopyInto (sbl_items x);
  mret {| sbl_kind := sbl_kind x; sbl_apiVersion := sbl_apiVersion x; sbl_listMeta := listMeta;
          sbl_items := items |}.

#[export] Instance ServiceBindingList_copy : Copyable ServiceBindingList VServiceBindingList := {|
  value m x :=
    listMeta ← value m (sbl_listMeta x); items ← value m (sbl_items x);
    Some {| vsl_kind := sbl_kind x; vsl_apiVersion := sbl_apiVersion x; vsl_listMeta := listMeta;
            vsl_items := elements items |};
  reach m x := reach m (sbl_listMeta x) ++ reach m (sbl_items x);
  DeepCopyInto := ServiceBindingList_DeepCopyInto
|}.
#[export] Instance ServiceBindingList_reads : ReadLaws ServiceBindingList VServiceBindingList.
Proof. struct_reads. Qed.
#[export] Instance ServiceBindingList_laws : CopyLaws ServiceBindingList VServiceBindingList.
Proof. struct_copies ServiceBindingList_DeepCopyInto. Qed.
Opaque ServiceBindingList_copy.

Definition BindableKinds_DeepCopyInto (x : BindableKinds) : M mem BindableKinds :=
  objectMeta ← DeepCopyInto (bk_objectMeta x);
  status ← DeepCopyInto (bk_status x);
  mret {| bk_kind := bk_kind x; bk_apiVersion := bk_apiVersion x; bk_objectMeta := objectMeta;
          bk_status := status |}.

#[export] Instance BindableKinds_copy : Copyable BindableKinds VBindableKinds := {|
  value m x :=
    objectMeta ← value m (bk_objectMeta x); status ← value m (bk_status x);
    Some {| vbk_kind := bk_kind x; vbk_apiVersion := bk_apiVersion x; vbk_objectMeta := objectMeta;
            vbk_status := elements status |};
  reach m x := reach m (bk_objectMeta x) ++ reach m (bk_status x);
  DeepCopyInto := BindableKinds_DeepCopyInto
|}.
#[export] Instance BindableKinds_reads : ReadLaws BindableKinds VBindableKinds.
Proof. struct_reads. Qed.
#[export] Instance BindableKinds_laws : CopyLaws BindableKinds VBindableKinds.
Proof. struct_copies BindableKinds_DeepCopyInto. Qed.
Opaque BindableKinds_copy.

Definition BindableKindsList_DeepCopyInto (x : BindableKindsList) : M mem BindableKindsList :=
  listMeta ← DeepCopyInto (bkl_listMeta x);
  items ← DeepCopyInto (bkl_items x);
  mret {| bkl_kind := bkl_kind x; bkl_apiVersion := bkl_apiVersion x; bkl_listMeta := listMeta;
          bkl_items := items |}.

#[export] Instance BindableKindsList_copy : Copyable BindableKindsList VBindableKindsList := {|
  value m x :=
    listMeta ← value m (bkl_listMeta x); items ← value m (bkl_items x);
    Some {| vbl_kind := bkl_kind x; vbl_apiVersion := bkl_apiVersion x; vbl_listMeta := listMeta;
            vbl_items := elements items |};
  reach m x := reach m (bkl_listMeta x) ++ reach m (bkl_items x);
  DeepCopyInto := BindableKindsList_DeepCopyInto
|}.
#[export] Instance BindableKindsList_reads : ReadLaws BindableKindsList VBindableKindsList.
Proof. struct_reads. Qed.
#[export] Instance BindableKindsList_laws : CopyLaws BindableKindsList VBindableKindsList.
Proof. struct_copies BindableKindsList_DeepCopyInto. Qed.
Opaque BindableKindsList_copy.

(** ** [DeepCopy] and [DeepCopyObject]

    [DeepCopy] of a nil pointer is nil, of any other a [new] object filled by
    [DeepCopyInto]. *)
Definition Ref_DeepCopy : ptr v1alpha1.Ref → M mem (ptr v1alpha1.Ref) := copy_pointer.
Definition Mapping_DeepCopy : ptr v1alpha1.Mapping → M mem (ptr v1alpha1.Mapping) := copy_pointer.
Definition BindingPath_DeepCopy : ptr v1alpha1.BindingPath → M mem (ptr v1alpha1.BindingPath) := copy_pointer.
Definition BindableKindsStatus_DeepCopy : ptr GroupVersionKind → M mem (ptr GroupVersionKind) := copy_pointer.
Definition NamespacedRef_DeepCopy : ptr NamespacedRef → M mem (ptr NamespacedRef) := copy_pointer.
Definition Service_DeepCopy : ptr Service → M mem (ptr Service) := copy_pointer.
Definition Application_DeepCopy : ptr Application → M mem (ptr Application) := copy_pointer.
Definition ServiceBindingSpec_DeepCopy : ptr ServiceBindingSpec → M mem (ptr ServiceBindingSpec) := copy_pointer.
Definition ServiceBindingStatus_DeepCopy : ptr ServiceBindingStatus → M mem (ptr ServiceBindingStatus) := copy_pointer.
Definition ServiceBinding_DeepCopy : ptr ServiceBinding → M mem (ptr ServiceBinding) := copy_pointer.
Definition ServiceBindingList_DeepCopy : ptr ServiceBindingList → M mem (ptr ServiceBindingList) := copy_pointer.
Definition BindableKinds_DeepCopy : ptr BindableKinds → M mem (ptr BindableKinds) := copy_pointer.
Definition BindableKindsList_DeepCopy : ptr BindableKindsList → M mem (ptr BindableKindsList) := copy_pointer.

Definition ServiceBinding_DeepCopyObject : ptr ServiceBinding → M mem (ptr ServiceBinding) := as_object ServiceBinding_DeepCopy.
Definition ServiceBindingList_DeepCopyObject : ptr ServiceBindingList → M mem (ptr ServiceBindingList) := as_object ServiceBindingList_DeepCopy.
Definition BindableKinds_DeepCopyObject : ptr BindableKinds → M mem (ptr BindableKinds) := as_object BindableKinds_DeepCopy.
Definition BindableKindsList_DeepCopyObject : ptr BindableKindsList → M mem (ptr BindableKindsList) := as_object BindableKindsList_DeepCopy.

Lemma v1alpha1_copies :
  (deep_copies ServiceBinding_DeepCopyObject ∧ deep_copies ServiceBindingList_DeepCopyObject ∧
   deep_copies BindableKinds_DeepCopyObject ∧ deep_copies BindableKindsList_DeepCopyObject) ∧
  (deep_copies Ref_DeepCopy ∧ deep_copies Mapping_DeepCopy ∧ deep_copies BindingPath_DeepCopy ∧
   deep_copies BindableKindsStatus_DeepCopy ∧ deep_copies NamespacedRef_DeepCopy ∧
   deep_copies Service_DeepCopy ∧ deep_copies Application_DeepCopy ∧
   deep_copies ServiceBindingSpec_DeepCopy ∧ deep_copies ServiceBindingStatus_DeepCopy).
Proof. split_and!; first [apply as_object_deep, copy_pointer_deep | apply copy_pointer_deep]. Qed.
End Structs.
