(* ===== verification/DeepCopySpec.v ===== *)
(** * Generated deep copies ([apis/spec/v1beta1/zz_generated.deepcopy.go])

    The copies of the other binding resource and of the mapping resource, over
    the same memory, and the theorem about both packages. *)

From S2P Require Import Prelude.
From S2P Require Import GoLib.
From S2P Require Import GoValue.
From S2P Require Import Workload.
From S2P Require Import Apis.
From S2P Require Import CopyMemory.
From S2P Require Import DeepCopy.

(** What is read of the types that [Apis] and [Workload] do not have. *)
Record VServiceBindingList_v1beta1 `{Library} := {
  vbs_kind : string; vbs_apiVersion : string; vbs_listMeta : VListMeta; vbs_items : list v1beta1.ServiceBinding
}.
Record VMapping := {
  vcm_kind : string; vcm_apiVersion : string; vcm_objectMeta : ObjectMeta;
  vcm_versions : list ClusterWorkloadResourceMappingTemplate
}.
Record VMappingList `{Library} := {
  vcl_kind : string; vcl_apiVersion : string; vcl_listMeta : VListMeta; vcl_items : list VMapping
}.

Section Structs.
Context `{Library}.
Context `{!Copyable TObjectMeta ObjectMeta, !CopyLaws TObjectMeta ObjectMeta}.
Context `{!Copyable TListMeta VListMeta, !CopyLaws TListMeta VListMeta}.
Context `{!Copyable TLabelSelector LabelSelector, !CopyLaws TLabelSelector LabelSelector}.
Context `{!Copyable TCondition Condition, !CopyLaws TCondition Condition}.

(** [*out = *in]. *)
#[export] Instance EnvMapping_copy : Copyable v1beta1.EnvMapping v1beta1.EnvMapping :=
  plain_copy v1beta1.EnvMapping.
#[export] Instance EnvMapping_laws : CopyLaws v1beta1.EnvMapping v1beta1.EnvMapping := plain_laws _.
#[export] Instance ServiceBindingServiceReference_copy : Copyable v1beta1.ServiceBindingServiceReference v1beta1.ServiceBindingServiceReference :=
  plain_copy v1beta1.ServiceBindingServiceReference.
#[export] Instance ServiceBindingServiceReference_laws : CopyLaws v1beta1.ServiceBindingServiceReference v1beta1.ServiceBindingServiceReference := plain_laws _.
#[export] Instance ClusterWorkloadResourceMappingContainer_copy : Copyable ClusterWorkloadResourceMappingContainer ClusterWorkloadResourceMappingContainer :=
  plain_copy ClusterWorkloadResourceMappingContainer.
#[export] Instance ClusterWorkloadResourceMappingContainer_laws : CopyLaws ClusterWorkloadResourceMappingContainer ClusterWorkloadResourceMappingContainer := plain_laws _.
#[export] Instance ServiceBindingSecretReference_copy : Copyable ServiceBindingSecretReference string :=
  {| value _ x := Some (srf_name x); reach _ _ := []; DeepCopyInto := mret |}.
#[export] Instance ServiceBindingSecretReference_laws : CopyLaws ServiceBindingSecretReference string.
Proof.
  split; [split; [done|by intros ? ? ? ? ? ?%elem_of_nil]|].
  intros m x v Hv. exists x, m. split_and!; [done..|]. by intros a ?%elem_of_nil.
Qed.

Opaque pointer_copy list_copy.

Definition ServiceBindingWorkloadReference_DeepCopyInto (x : ServiceBindingWorkloadReference) : M mem ServiceBindingWorkloadReference :=
  selector ← DeepCopyInto (wl_selector x);
  containers ← DeepCopyInto (wl_containers x);
  mret {| wl_apiVersion := wl_apiVersion x; wl_kind := wl_kind x; wl_name := wl_name x; wl_selector := selector; wl_containers := containers |}.

#[export] Instance ServiceBindingWorkloadReference_copy : Copyable ServiceBindingWorkloadReference v1beta1.ServiceBindingWorkloadReference := {|
  value m x :=
    selector ← value m (wl_selector x);
    containers ← value m (wl_containers x);
    Some {| v1beta1.wl_apiVersion := wl_apiVersion x; v1beta1.wl_kind := wl_kind x; v1beta1.wl_name := wl_name x;
            v1beta1.wl_selector := selector; v1beta1.wl_containers := containers |};
  reach m x := reach m (wl_selector x) ++ reach m (wl_containers x);
  DeepCopyInto := ServiceBindingWorkloadReference_DeepCopyInto
|}.
#[export] Instance ServiceBindingWorkloadReference_reads : ReadLaws ServiceBindingWorkloadReference v1beta1.ServiceBindingWorkloadReference.
Proof. struct_reads. Qed.
#[export] Instance ServiceBindingWorkloadReference_laws : CopyLaws ServiceBindingWorkloadReference v1beta1.ServiceBindingWorkloadReference.
Proof. struct_copies ServiceBindingWorkloadReference_DeepCopyInto. Qed.
Opaque ServiceBindingWorkloadReference_copy.

Definition ServiceBindingSpec_v1beta1_DeepCopyInto (x : ServiceBindingSpec_v1beta1) : M mem ServiceBindingSpec_v1beta1 :=
  workload ← DeepCopyInto (bsp_workload x);
  env ← DeepCopyInto (bsp_env x);
  mret {| bsp_name := bsp_name x; bsp_type := bsp_type x; bsp_provider := bsp_provider x; bsp_workload := workload; bsp_service := bsp_service x; bsp_env := env |}.

#[export] Instance ServiceBindingSpec_v1beta1_copy : Copyable ServiceBindingSpec_v1beta1 v1beta1.ServiceBindingSpec := {|
  value m x :=
    workload ← value m (bsp_workload x);
    env ← value m (bsp_env x);
    Some {| v1beta1.sp_name := bsp_name x; v1beta1.sp_type := bsp_type x; v1beta1.sp_provider := bsp_provider x;
            v1beta1.sp_workload := workload; v1beta1.sp_service := bsp_service x; v1beta1.sp_env := env |};
  reach m x := reach m (bsp_workload x) ++ reach m (bsp_env x);
  DeepCopyInto := ServiceBindingSpec_v1beta1_DeepCopyInto
|}.
#[export] Instance ServiceBindingSpec_v1beta1_reads : ReadLaws ServiceBindingSpec_v1beta1 v1beta1.ServiceBindingSpec.
Proof. struct_reads. Qed.
#[export] Instance ServiceBindingSpec_v1beta1_laws : CopyLaws ServiceBindingSpec_v1beta1 v1beta1.ServiceBindingSpec.
Proof. struct_copies ServiceBindingSpec_v1beta1_DeepCopyInto. Qed.
Opaque ServiceBindingSpec_v1beta1_copy.

Definition ServiceBindingStatus_v1beta1_DeepCopyInto (x : ServiceBindingStatus_v1beta1) : M mem ServiceBindingStatus_v1beta1 :=
  conditions ← DeepCopyInto (bss_conditions x);
  binding ← DeepCopyInto (bss_binding x);
  mret {| bss_observedGeneration := bss_observedGeneration x; bss_conditions := conditions; bss_binding := binding |}.

#[export] Instance ServiceBindingStatus_v1beta1_copy : Copyable ServiceBindingStatus_v1beta1 v1beta1.ServiceBindingStatus := {|
  value m x :=
    conditions ← value m (bss_conditions x);
    binding ← value m (bss_binding x);
    Some {| v1beta1.ss_observedGeneration := bss_observedGeneration x;
            v1beta1.ss_conditions := elements conditions; v1beta1.ss_binding := binding |};
  reach m x := reach m (bss_conditions x) ++ reach m (bss_binding x);
  DeepCopyInto := ServiceBindingStatus_v1beta1_DeepCopyInto
|}.
#[export] Instance ServiceBindingStatus_v1beta1_reads : ReadLaws ServiceBindingStatus_v1beta1 v1beta1.ServiceBindingStatus.
Proof. struct_reads. Qed.
#[export] Instance ServiceBindingStatus_v1beta1_laws : CopyLaws ServiceBindingStatus_v1beta1 v1beta1.ServiceBindingStatus.
Proof. struct_copies ServiceBindingStatus_v1beta1_DeepCopyInto. Qed.
Opaque ServiceBindingStatus_v1beta1_copy.

Definition ServiceBinding_v1beta1_DeepCopyInto (x : ServiceBinding_v1beta1) : M mem ServiceBinding_v1beta1 :=
  objectMeta ← DeepCopyInto (bsb_objectMeta x);
  spec ← DeepCopyInto (bsb_spec x);
  status ← DeepCopyInto (bsb_status x);
  mret {| bsb_kind := bsb_kind x; bsb_apiVersion := bsb_apiVersion x; bsb_objectMeta := objectMeta; bsb_spec := spec; bsb_status := status |}.

#[export] Instance ServiceBinding_v1beta1_copy : Copyable ServiceBinding_v1beta1 v1beta1.ServiceBinding := {|
  value m x :=
    objectMeta ← value m (bsb_objectMeta x);
    spec ← value m (bsb_spec x);
    status ← value m (bsb_status x);
    Some {| v1beta1.sb_kind := bsb_kind x; v1beta1.sb_apiVersion := bsb_apiVersion x;
            v1beta1.sb_objectMeta := objectMeta; v1beta1.sb_spec := spec; v1beta1.sb_status := status |};
  reach m x := reach m (bsb_objectMeta x) ++ reach m (bsb_spec x) ++ reach m (bsb_status x);
  DeepCopyInto := ServiceBinding_v1beta1_DeepCopyInto
|}.
#[export] Instance ServiceBinding_v1beta1_reads : ReadLaws ServiceBinding_v1beta1 v1beta1.ServiceBinding.
Proof. struct_reads. Qed.
#[export] Instance ServiceBinding_v1beta1_laws : CopyLaws ServiceBinding_v1beta1 v1beta1.ServiceBinding.
Proof. struct_copies ServiceBinding_v1beta1_DeepCopyInto. Qed.
Opaque ServiceBinding_v1beta1_copy.

Definition ServiceBindingList_v1beta1_DeepCopyInto (x : ServiceBindingList_v1beta1) : M mem ServiceBindingList_v1beta1 :=
  listMeta ← DeepCopyInto (bsl_listMeta x);
  items ← DeepCopyInto (bsl_items x);
  mret {| bsl_kind := bsl_kind x; bsl_apiVersion := bsl_apiVersion x; bsl_listMeta := listMeta; bsl_items := items |}.

#[export] Instance ServiceBindingList_v1beta1_copy : Copyable ServiceBindingList_v1beta1 VServiceBindingList_v1beta1 := {|
  value m x :=
    listMeta ← value m (bsl_listMeta x);
    items ← value m (bsl_items x);
    Some {| vbs_kind := bsl_kind x; vbs_apiVersion := bsl_apiVersion x; vbs_listMeta := listMeta;
            vbs_items := elements items |};
  reach m x := reach m (bsl_listMeta x) ++ reach m (bsl_items x);
  DeepCopyInto := ServiceBindingList_v1beta1_DeepCopyInto
|}.
#[export] Instance ServiceBindingList_v1beta1_reads : ReadLaws ServiceBindingList_v1beta1 VServiceBindingList_v1beta1.
Proof. struct_reads. Qed.
#[export] Instance ServiceBindingList_v1beta1_laws : CopyLaws ServiceBindingList_v1beta1 VServiceBindingList_v1beta1.
Proof. struct_copies ServiceBindingList_v1beta1_DeepCopyInto. Qed.
Opaque ServiceBindingList_v1beta1_copy.

Definition ClusterWorkloadResourceMappingTemplate_DeepCopyInto (x : MappingTemplate) : M mem MappingTemplate :=
  containers ← DeepCopyInto (mt_containers x);
  mret {| mt_version := mt_version x; mt_annotations := mt_annotations x; mt_containers := containers; mt_volumes := mt_volumes x |}.

#[export] Instance ClusterWorkloadResourceMappingTemplate_copy : Copyable MappingTemplate ClusterWorkloadResourceMappingTemplate := {|
  value m x :=
    containers ← value m (mt_containers x);
    Some {| cmt_version := mt_version x; cmt_annotations := mt_annotations x;
            cmt_containers := elements containers; cmt_volumes := mt_volumes x |};
  reach m x := reach m (mt_containers x);
  DeepCopyInto := ClusterWorkloadResourceMappingTemplate_DeepCopyInto
|}.
#[export] Instance ClusterWorkloadResourceMappingTemplate_reads : ReadLaws MappingTemplate ClusterWorkloadResourceMappingTemplate.
Proof. struct_reads. Qed.
#[export] Instance ClusterWorkloadResourceMappingTemplate_laws : CopyLaws MappingTemplate ClusterWorkloadResourceMappingTemplate.
Proof. struct_copies ClusterWorkloadResourceMappingTemplate_DeepCopyInto. Qed.
Opaque ClusterWorkloadResourceMappingTemplate_copy.

Definition ClusterWorkloadResourceMappingSpec_DeepCopyInto (x : ResourceMappingSpec) : M mem ResourceMappingSpec :=
  versions ← DeepCopyInto (cms_versions x);
  mret {| cms_versions := versions |}.

#[export] Instance ClusterWorkloadResourceMappingSpec_copy : Copyable ResourceMappingSpec (list ClusterWorkloadResourceMappingTemplate) := {|
  value m x :=
    versions ← value m (cms_versions x);
    Some (elements versions);
  reach m x := reach m (cms_versions x);
  DeepCopyInto := ClusterWorkloadResourceMappingSpec_DeepCopyInto
|}.
#[export] Instance ClusterWorkloadResourceMappingSpec_reads : ReadLaws ResourceMappingSpec (list ClusterWorkloadResourceMappingTemplate).
Proof. struct_reads. Qed.
#[export] Instance ClusterWorkloadResourceMappingSpec_laws : CopyLaws ResourceMappingSpec (list ClusterWorkloadResourceMappingTemplate).
Proof. struct_copies ClusterWorkloadResourceMappingSpec_DeepCopyInto. Qed.
Opaque ClusterWorkloadResourceMappingSpec_copy.

Definition ClusterWorkloadResourceMapping_DeepCopyInto (x : ResourceMapping) : M mem ResourceMapping :=
  objectMeta ← DeepCopyInto (cwm_objectMeta x);
  spec ← DeepCopyInto (cwm_spec x);
  mret {| cwm_kind := cwm_kind x; cwm_apiVersion := cwm_apiVersion x; cwm_objectMeta := objectMeta; cwm_spec := spec |}.

#[export] Instance ClusterWorkloadResourceMapping_copy : Copyable ResourceMapping VMapping := {|
  value m x :=
    objectMeta ← value m (cwm_objectMeta x);
    spec ← value m (cwm_spec x);
    Some {| vcm_kind := cwm_kind x; vcm_apiVersion := cwm_apiVersion x; vcm_objectMeta := objectMeta;
            vcm_versions := spec |};
  reach m x := reach m (cwm_objectMeta x) ++ reach m (cwm_spec x);
  DeepCopyInto := ClusterWorkloadResourceMapping_DeepCopyInto
|}.
#[export] Instance ClusterWorkloadResourceMapping_reads : ReadLaws ResourceMapping VMapping.
Proof. struct_reads. Qed.
#[export] Instance ClusterWorkloadResourceMapping_laws : CopyLaws ResourceMapping VMapping.
Proof. struct_copies ClusterWorkloadResourceMapping_DeepCopyInto. Qed.
Opaque ClusterWorkloadResourceMapping_copy.

Definition ClusterWorkloadResourceMappingList_DeepCopyInto (x : ResourceMappingList) : M mem ResourceMappingList :=
  listMeta ← DeepCopyInto (cwl_listMeta x);
  items ← DeepCopyInto (cwl_items x);
  mret {| cwl_kind := cwl_kind x; cwl_apiVersion := cwl_apiVersion x; cwl_listMeta := listMeta; cwl_items := items |}.

#[export] Instance ClusterWorkloadResourceMappingList_copy : Copyable ResourceMappingList VMappingList := {|
  value m x :=
    listMeta ← value m (cwl_listMeta x);
    items ← value m (cwl_items x);
    Some {| vcl_kind := cwl_kind x; vcl_apiVersion := cwl_apiVersion x; vcl_listMeta := listMeta;
            vcl_items := elements items |};
  reach m x := reach m (cwl_listMeta x) ++ reach m (cwl_items x);
  DeepCopyInto := ClusterWorkloadResourceMappingList_DeepCopyInto
|}.
#[export] Instance ClusterWorkloadResourceMappingList_reads : ReadLaws ResourceMappingList VMappingList.
Proof. struct_reads. Qed.
#[export] Instance ClusterWorkloadResourceMappingList_laws : CopyLaws ResourceMappingList VMappingList.
Proof. struct_copies ClusterWorkloadResourceMappingList_DeepCopyInto. Qed.
Opaque ClusterWorkloadResourceMappingList_copy.

(** ** [DeepCopy] and [DeepCopyObject] *)
Definition EnvMapping_DeepCopy : ptr v1beta1.EnvMapping → M mem (ptr v1beta1.EnvMapping) :=
  copy_pointer.
Definition ServiceBindingServiceReference_DeepCopy : ptr v1beta1.ServiceBindingServiceReference → M mem (ptr v1beta1.ServiceBindingServiceReference) :=
  copy_pointer.
Definition ServiceBindingSecretReference_DeepCopy : ptr ServiceBindingSecretReference → M mem (ptr ServiceBindingSecretReference) :=
  copy_pointer.
Definition ClusterWorkloadResourceMappingContainer_DeepCopy : ptr ClusterWorkloadResourceMappingContainer → M mem (ptr ClusterWorkloadResourceMappingContainer) :=
  copy_pointer.
Definition ServiceBindingWorkloadReference_DeepCopy : ptr ServiceBindingWorkloadReference → M mem (ptr ServiceBindingWorkloadReference) :=
  copy_pointer.
Definition ServiceBindingSpec_v1beta1_DeepCopy : ptr ServiceBindingSpec_v1beta1 → M mem (ptr ServiceBindingSpec_v1beta1) :=
  copy_pointer.
Definition ServiceBindingStatus_v1beta1_DeepCopy : ptr ServiceBindingStatus_v1beta1 → M mem (ptr ServiceBindingStatus_v1beta1) :=
  copy_pointer.
Definition ServiceBinding_v1beta1_DeepCopy : ptr ServiceBinding_v1beta1 → M mem (ptr ServiceBinding_v1beta1) :=
  copy_pointer.
Definition ServiceBindingList_v1beta1_DeepCopy : ptr ServiceBindingList_v1beta1 → M mem (ptr ServiceBindingList_v1beta1) :=
  copy_pointer.
Definition ClusterWorkloadResourceMappingTemplate_DeepCopy : ptr MappingTemplate → M mem (ptr MappingTemplate) :=
  copy_pointer.
Definition ClusterWorkloadResourceMappingSpec_DeepCopy : ptr ResourceMappingSpec → M mem (ptr ResourceMappingSpec) :=
  copy_pointer.
Definition ClusterWorkloadResourceMapping_DeepCopy : ptr ResourceMapping → M mem (ptr ResourceMapping) :=
  copy_pointer.
Definition ClusterWorkloadResourceMappingList_DeepCopy : ptr ResourceMappingList → M mem (ptr ResourceMappingList) :=
  copy_pointer.
Definition ServiceBinding_v1beta1_DeepCopyObject : ptr ServiceBinding_v1beta1 → M mem (ptr ServiceBinding_v1beta1) :=
  as_object ServiceBinding_v1beta1_DeepCopy.
Definition ServiceBindingList_v1beta1_DeepCopyObject : ptr ServiceBindingList_v1beta1 → M mem (ptr ServiceBindingList_v1beta1) :=
  as_object ServiceBindingList_v1beta1_DeepCopy.
Definition ClusterWorkloadResourceMapping_DeepCopyObject : ptr ResourceMapping → M mem (ptr ResourceMapping) :=
  as_object ClusterWorkloadResourceMapping_DeepCopy.
Definition ClusterWorkloadResourceMappingList_DeepCopyObject : ptr ResourceMappingList → M mem (ptr ResourceMappingList) :=
  as_object ClusterWorkloadResourceMappingList_DeepCopy.

(** C17: copies share nothing with the original: for every memory and every
    object in it, [DeepCopyObject] of a binding of either kind, of the mapping
    resource, of the bindable kinds and of lists of them, and [DeepCopy] of every
    part of these, return an object that reads the same, leave the original as it
    was, and have no cell in common with it, so that a change of one is never
    seen through the other. *)
Theorem DeepCopy_shares_nothing :
  (deep_copies ServiceBinding_DeepCopyObject ∧ deep_copies ServiceBindingList_DeepCopyObject ∧
   deep_copies BindableKinds_DeepCopyObject ∧ deep_copies BindableKindsList_DeepCopyObject) ∧
  (deep_copies Ref_DeepCopy ∧ deep_copies Mapping_DeepCopy ∧ deep_copies BindingPath_DeepCopy ∧
   deep_copies BindableKindsStatus_DeepCopy ∧ deep_copies NamespacedRef_DeepCopy ∧
   deep_copies Service_DeepCopy ∧ deep_copies Application_DeepCopy ∧
   deep_copies ServiceBindingSpec_DeepCopy ∧ deep_copies ServiceBindingStatus_DeepCopy) ∧
  (deep_copies ServiceBinding_v1beta1_DeepCopyObject ∧ deep_copies ServiceBindingList_v1beta1_DeepCopyObject ∧
   deep_copies ClusterWorkloadResourceMapping_DeepCopyObject ∧
   deep_copies ClusterWorkloadResourceMappingList_DeepCopyObject) ∧
  (deep_copies EnvMapping_DeepCopy ∧ deep_copies ServiceBindingServiceReference_DeepCopy ∧
   deep_copies ServiceBindingSecretReference_DeepCopy ∧ deep_copies ClusterWorkloadResourceMappingContainer_DeepCopy ∧
   deep_copies ServiceBindingWorkloadReference_DeepCopy ∧ deep_copies ServiceBindingSpec_v1beta1_DeepCopy ∧
   deep_copies ServiceBindingStatus_v1beta1_DeepCopy ∧ deep_copies ClusterWorkloadResourceMappingTemplate_DeepCopy ∧
   deep_copies ClusterWorkloadResourceMappingSpec_DeepCopy).
Proof.
  destruct v1alpha1_copies as [Ho Hp]. split; [exact Ho|]. split; [exact Hp|].
  split_and!; first [apply as_object_deep, copy_pointer_deep | apply copy_pointer_deep].
Qed.
End Structs.

(** ** At work: a binding to a service with an id *)
Section Witness.

(** A library whose types have no pointers. *)
#[local] Instance flat_library : Library := {|
  TObjectMeta := ObjectMeta; TListMeta := string; TLabelSelector := LabelSelector; TCondition := Condition;
  VListMeta := string; LibCell := unit
|}.
#[local] Instance flat_meta : Copyable TObjectMeta ObjectMeta := plain_copy ObjectMeta.
#[local] Instance flat_listMeta : Copyable TListMeta VListMeta := plain_copy string.
#[local] Instance flat_selector : Copyable TLabelSelector LabelSelector := plain_copy LabelSelector.
#[local] Instance flat_condition : Copyable TCondition Condition := plain_copy Condition.

Definition demo_object : ServiceBinding := {|
  sb_kind := "ServiceBinding"; sb_apiVersion := "binding.operators.coreos.com/v1alpha1";
  sb_objectMeta := {| om_name := "b"; om_namespace := "ns"; om_uid := "u"; om_generation := 1;
    om_annotations := []; om_finalizers := []; om_deletionTimestamp := None |};
  sb_spec := {| sp_name := ""; sp_namingStrategy := "none"; sp_mappings := Nil; sp_services := Addr 1;
    sp_application := {| ap_labelSelector := Nil; ap_bindingPath := Nil;
      ap_ref := {| v1alpha1.r_group := "apps"; v1alpha1.r_version := "v1"; v1alpha1.r_kind := "Deployment";
                   v1alpha1.r_resource := ""; v1alpha1.r_name := "web" |} |};
    sp_detectBindingResources := false; sp_bindAsFiles := true |};
  sb_status := {| ss_conditions := Nil; ss_secret := "" |}
|}.
Definition demo_memory : mem := [
  CBinding demo_object;
  CServices [{| sv_id := Addr 2; sv_ref := {| nr_namespace := Nil;
     nr_ref := {| v1alpha1.r_group := "example.com"; v1alpha1.r_version := "v1"; v1alpha1.r_kind := "Database";
                  v1alpha1.r_resource := ""; v1alpha1.r_name := "db" |} |} |}];
  CString "id"].

Lemma DeepCopy_shares_nothing_witness :
  ∃ p' m' v, ServiceBinding_DeepCopyObject (Addr 0) demo_memory = (Ret p', m') ∧ value m' p' = Some v ∧
    p' = Addr 3 ∧ reach m' p' = [3; 4; 5] ∧
    value (<[5 := CString "changed"]> m') (Addr (T := ServiceBinding) 0) = Some v.
Proof.
  destruct (@DeepCopy_shares_nothing flat_library flat_meta (plain_laws _) flat_listMeta (plain_laws _)
    flat_selector (plain_laws _) flat_condition (plain_laws _)) as [[Hb _] _].
  destruct (value demo_memory (Addr (T := ServiceBinding) 0)) as [v|] eqn:Hv; [|by vm_compute in Hv].
  destruct (Hb demo_memory (Addr 0) v Hv) as (p' & m' & Hr & Hv' & _ & Hdis & Hwrite & _).
  exists p', m', v. split; [exact Hr|]. split; [exact Hv'|].
  assert (p' = Addr 3 ∧ reach m' p' = [3; 4; 5]) as [Hp Hre].
  { vm_compute in Hr. injection Hr as <- <-. by vm_compute. }
  split; [exact Hp|]. split; [exact Hre|]. apply Hwrite. intros a Ha. apply list_lookup_insert_ne.
  intros <-. apply (Hdis 5 Ha). rewrite Hre. apply (bool_decide_unpack _). by vm_compute.
Defined.
End Witness.
