(* ===== verification/Tree.v ===== *)
(** * Trees in the store

    The handlers edit a workload through pointers into it.  This file relates
    the store to the plain tree it holds: [repr F h v j X] says that [v] holds
    the tree [j] in [h], that the maps of the tree are the cells [X], each of
    them reached in one way only, and that further maps, which may be shared,
    lie in the set [F] of cells nobody writes to any more.  [refines d hs op f]
    says that the code [op], run on the store, does to the tree under [d] what
    the pure function [f] does, touches no cell outside it, and keeps the
    pointers [hs] into it. *)

From S2P Require Import Prelude.
From S2P Require Import GoLib.
From S2P Require Import GoValue.
From S2P Require Import Heap.
From S2P Require Import Converter.
From S2P Require Import Workload.

(** ** Entries as parallel lists of keys and values *)
Fixpoint key_index (k : string) (ks : list string) : option nat :=
  match ks with
  | [] => None
  | k' :: ks' => if String.eqb k k' then Some 0 else S <$> key_index k ks'
  end.

Section Keys.
Context {A : Type}.
Implicit Types m : list (string * A).

Lemma aget_index k m : aget k m = key_index k m.*1 ≫= λ i, m.*2 !! i.
Proof.
  induction m as [|[k' v] m IH]; [done|]. csimpl. destruct (String.eqb k k'); [done|].
  rewrite IH. by destruct (key_index k m.*1).
Qed.

Lemma aset_index k v m i :
  key_index k m.*1 = Some i → (aset k v m).*1 = m.*1 ∧ (aset k v m).*2 = <[i := v]> m.*2.
Proof.
  revert i. induction m as [|[k' w] m IH]; intros i Hi; [done|]. csimpl in *.
  str_cases; subst; simplify_eq/=; [done|].
  apply fmap_Some in Hi as (i' & Hi & ->). destruct (IH i' Hi) as [H1 H2]. simpl. by rewrite H1, H2.
Qed.

Lemma aset_no_index k v m :
  key_index k m.*1 = None → (aset k v m).*1 = m.*1 ++ [k] ∧ (aset k v m).*2 = m.*2 ++ [v].
Proof.
  induction m as [|[k' w] m IH]; intros Hi; [done|]. csimpl in *.
  str_cases; subst; simplify_eq/=. apply fmap_None in Hi. by destruct (IH Hi) as [-> ->].
Qed.

Lemma key_index_lookup k (ks : list string) i : key_index k ks = Some i → ks !! i = Some k.
Proof.
  revert i. induction ks as [|k' ks IH]; intros i Hi; simpl in Hi; [done|].
  str_cases; subst; simplify_eq/=; [done|].
  apply fmap_Some in Hi as (i' & Hi & ->). by apply IH.
Qed.

Lemma aget_aset_same k v m : aget k m = Some v → aset k v m = m.
Proof.
  induction m as [|[k' w] m IH]; [done|]. simpl. str_cases; subst; intros; simplify_eq/=; [done|].
  by rewrite IH.
Qed.
End Keys.

(** ** Representation *)
Section Repr.
Variable F : gset loc.
Variable h : heap.

(** A map entry never points to a cell that was given up; an element of a
    slice may. *)
Definition live (v : gval) : Prop := match v with VMap b => b ∉ F | _ => True end.

Inductive repr : gval → json → gset loc → Prop :=
| repr_nil : repr VNil JNil ∅
| repr_bool b : repr (VBool b) (JBool b) ∅
| repr_int z : repr (VInt z) (JInt z) ∅
| repr_float r : repr (VFloat r) (JFloat r) ∅
| repr_str s : repr (VStr s) (JStr s) ∅
| repr_slice t vs js X : reprs vs js X → repr (VSlice t vs) (JArr t js) X
| repr_map a c m X :
    h !! a = Some c → c.*1 = m.*1 → reprs c.*2 m.*2 X → a ∉ F → a ∉ X →
    Forall live c.*2 → repr (VMap a) (JObj m) ({[a]} ∪ X)
| repr_frozen a c m :
    h !! a = Some c → c.*1 = m.*1 → reprs c.*2 m.*2 ∅ → a ∈ F → repr (VMap a) (JObj m) ∅
with reprs : list gval → list json → gset loc → Prop :=
| reprs_nil : reprs [] [] ∅
| reprs_cons v vs j js X Y :
    repr v j X → reprs vs js Y → X ## Y → reprs (v :: vs) (j :: js) (X ∪ Y).
End Repr.

Scheme repr_mut := Minimality for repr Sort Prop
  with reprs_mut := Minimality for reprs Sort Prop.
Combined Scheme repr_both from repr_mut, reprs_mut.

Section Facts.
Implicit Types (F X Y : gset loc) (h : heap).

(** The representation only depends on the cells of the tree. *)
Lemma repr_frame_both F h h' :
  (∀ v j X, repr F h v j X → (∀ a, a ∈ X ∪ F → h' !! a = h !! a) → repr F h' v j X) ∧
  (∀ vs js X, reprs F h vs js X → (∀ a, a ∈ X ∪ F → h' !! a = h !! a) → reprs F h' vs js X).
Proof.
  apply repr_both; intros; try by constructor.
  - constructor. eauto.
  - econstructor; eauto; [|set_solver].
    match goal with H : ∀ a, _ → h' !! a = _ |- _ => rewrite H by set_solver end. done.
  - econstructor; eauto.
    match goal with H : ∀ a, _ → h' !! a = _ |- _ => rewrite H by set_solver end. done.
  - constructor; [| |done]; match goal with IH : (∀ a, _) → ?P |- ?P => apply IH end; set_solver.
Qed.

Lemma repr_frame F h h' v j X :
  repr F h v j X → (∀ a, a ∈ X ∪ F → h' !! a = h !! a) → repr F h' v j X.
Proof. intros Hr. by apply repr_frame_both. Qed.
Lemma reprs_frame F h h' vs js X :
  reprs F h vs js X → (∀ a, a ∈ X ∪ F → h' !! a = h !! a) → reprs F h' vs js X.
Proof. intros Hr. by apply repr_frame_both. Qed.

Lemma live_own F h v j X : repr F h v j X → live F v → ∀ F', X ## F' → live F' v.
Proof. destruct 1; simpl; try done. intros _ F' Hd. set_solver. Qed.

Lemma reprs_live F F' h vs js X :
  reprs F h vs js X → Forall (live F) vs → X ## F' → Forall (live F') vs.
Proof.
  induction 1 as [|v vs j js X Y Hv Hvs IH Hd]; intros HF Ho; [constructor|].
  apply Forall_cons in HF as [H1 H2]. constructor; [|apply IH; [done|set_solver]].
  eapply live_own; [done..|set_solver].
Qed.

(** More cells may be given up, if they are not cells of the tree. *)
Lemma repr_give_both F F' h :
  F ⊆ F' →
  (∀ v j X, repr F h v j X → X ## F' → repr F' h v j X) ∧
  (∀ vs js X, reprs F h vs js X → X ## F' → reprs F' h vs js X).
Proof.
  intros HF. apply repr_both; intros; try by constructor.
  - constructor. eauto.
  - eapply repr_map; eauto; [match goal with IH : _ → ?P |- ?P => apply IH end; set_solver|set_solver|].
    eapply reprs_live; [eassumption..|set_solver].
  - eapply repr_frozen; eauto.
  - constructor; [| |done]; match goal with IH : _ → ?P |- ?P => apply IH end; set_solver.
Qed.

Lemma repr_give F F' h v j X : repr F h v j X → F ⊆ F' → X ## F' → repr F' h v j X.
Proof. intros Hr HF. by apply (repr_give_both F F' h HF). Qed.
Lemma reprs_give F F' h vs js X : reprs F h vs js X → F ⊆ F' → X ## F' → reprs F' h vs js X.
Proof. intros Hr HF. by apply (repr_give_both F F' h HF). Qed.

(** A whole tree may be given up. *)
Lemma repr_freeze_both F h :
  (∀ v j X, repr F h v j X → repr (F ∪ X) h v j ∅) ∧
  (∀ vs js X, reprs F h vs js X → reprs (F ∪ X) h vs js ∅).
Proof.
  apply repr_both; intros; try by constructor.
  - eapply repr_frozen; [eassumption..| |set_solver].
    eapply reprs_give; [eassumption|set_solver|set_solver].
  - eapply repr_frozen; [eassumption..| |set_solver].
    match goal with H : reprs (F ∪ ∅) _ _ _ _ |- _ => by rewrite union_empty_r_L in H |- * end.
  - rewrite <- (union_empty_l_L ∅). constructor; [| |set_solver];
      [eapply repr_give|eapply reprs_give]; try eassumption; set_solver.
Qed.

Lemma repr_freeze F h v j X : repr F h v j X → repr (F ∪ X) h v j ∅.
Proof. apply repr_freeze_both. Qed.

Lemma repr_dom_both F h :
  (∀ v j X, repr F h v j X → ∀ a, a ∈ X → a < length h ∧ a ∉ F) ∧
  (∀ vs js X, reprs F h vs js X → ∀ a, a ∈ X → a < length h ∧ a ∉ F).
Proof.
  apply repr_both; intros; try set_solver.
  match goal with H : h !! _ = Some _, Ha : _ ∈ {[_]} ∪ _ |- _ =>
    apply lookup_lt_Some in H; apply elem_of_union in Ha as [->%elem_of_singleton|]; auto end.
Qed.

Lemma repr_dom F h v j X a : repr F h v j X → a ∈ X → a < length h.
Proof. intros Hr Ha. by apply (proj1 (repr_dom_both F h) _ _ _ Hr). Qed.
Lemma repr_own F h v j X a : repr F h v j X → a ∈ X → a ∉ F.
Proof. intros Hr Ha. by apply (proj1 (repr_dom_both F h) _ _ _ Hr). Qed.
Lemma reprs_dom F h vs js X a : reprs F h vs js X → a ∈ X → a < length h.
Proof. intros Hr Ha. by apply (proj2 (repr_dom_both F h) _ _ _ Hr). Qed.
Lemma reprs_own F h vs js X a : reprs F h vs js X → a ∈ X → a ∉ F.
Proof. intros Hr Ha. by apply (proj2 (repr_dom_both F h) _ _ _ Hr). Qed.

(** What is represented is what reading the store gives. *)
Lemma repr_reify_both F h :
  (∀ v j X, repr F h v j X → ∃ n, reify n h v = Some j) ∧
  (∀ vs js X, reprs F h vs js X → ∃ n, mapM (reify n h) vs = Some js).
Proof.
  assert (∀ n a c m, h !! a = Some c → c.*1 = m.*1 → mapM (reify n h) c.*2 = Some m.*2 →
    reify (S n) h (VMap a) = Some (JObj m)) as Hmap.
  { intros n a c m Hc Hk Hv. simpl. rewrite Hc. simpl.
    assert (mapM (λ kv : string * gval, pair kv.1 <$> reify n h kv.2) c = Some m) as ->; [|done].
    apply mapM_Some in Hv. apply mapM_Some. clear Hc. revert m Hk Hv.
    induction c as [|[k v] c IH]; intros [|[k' j] m] Hk Hv; try done.
    injection Hk as -> Hk. apply Forall2_cons in Hv as [Hv Hvs]. constructor; [|by apply IH].
    simpl in *. by rewrite Hv. }
  apply repr_both; try by (intros; exists 1).
  - intros t vs js X _ [n Hn]. exists (S n). simpl. by rewrite Hn.
  - intros a c m X Hc Hk _ [n Hn] _ _. eauto.
  - intros a c m Hc Hk _ [n Hn] _. eauto.
  - intros v vs j js X Y _ [n Hn] _ [n' Hn'] _. exists (n `max` n').
    apply mapM_Some in Hn'. apply mapM_Some. constructor; [eapply reify_mono; [exact Hn|lia|done]|].
    eapply Forall2_impl; [exact Hn'|]. intros x y Hx. eapply reify_mono; [exact Hx|lia|done].
Qed.

Lemma repr_reify F h v j X : repr F h v j X → reify (gval_size v + heap_size h) h v = Some j.
Proof.
  intros Hr. destruct (proj1 (repr_reify_both F h) _ _ _ Hr) as [n Hn]. by eapply reify_enough.
Qed.

(** ** Looking into a tree and putting something else there *)

Lemma reprs_lookup_l F h vs js X i v :
  reprs F h vs js X → vs !! i = Some v → ∃ j Y, js !! i = Some j ∧ repr F h v j Y ∧ Y ⊆ X.
Proof.
  intros Hr. revert i. induction Hr as [|v' vs j1 js Y1 Y2 Hv Hvs IH Hd]; intros i Hi; [done|].
  destruct i as [|i]; simpl in *; simplify_eq.
  - exists j1, Y1. split_and!; [done..|set_solver].
  - destruct (IH i Hi) as (j & Y & ? & ? & ?). exists j, Y. split_and!; [done..|set_solver].
Qed.

(** One element can be replaced, in a store that keeps the others. *)
Lemma reprs_lookup F h vs js X i j :
  reprs F h vs js X → js !! i = Some j →
  ∃ v Y, vs !! i = Some v ∧ repr F h v j Y ∧ Y ⊆ X ∧
    (∀ i' w, i' ≠ i → vs !! i' = Some w → ∃ x Z, repr F h w x Z ∧ Z ⊆ X ∖ Y) ∧
    ∀ F' h' v' j' Y', repr F' h' v' j' Y' → F ⊆ F' → (X ∖ Y) ## F' → Y' ## (X ∖ Y) →
      (∀ a, a ∈ (X ∖ Y) ∪ F → h' !! a = h !! a) →
      reprs F' h' (<[i := v']> vs) (<[i := j']> js) (X ∖ Y ∪ Y').
Proof.
  intros Hr. revert i. induction Hr as [|v vs j1 js Y1 Y2 Hv Hvs IH Hd]; intros i Hi; [done|].
  destruct i as [|i]; simpl in Hi; simplify_eq.
  - exists v, Y1. split_and!; [done|done|set_solver| |].
    { intros [|i'] w Hi' Hw; [done|]. simpl in Hw.
      destruct (reprs_lookup_l _ _ _ _ _ _ _ Hvs Hw) as (x & Z & _ & ? & ?). exists x, Z.
      split; [done|set_solver]. }
    intros F' h' v' j' Y' Hv' HF Ho Hd' Hh. simpl.
    replace ((Y1 ∪ Y2) ∖ Y1 ∪ Y') with (Y' ∪ Y2) by (apply set_eq; set_solver).
    constructor; [done| |set_solver].
    eapply reprs_give; [|done|set_solver]. eapply reprs_frame; [done|]. set_solver.
  - destruct (IH i Hi) as (w & Y & Hw & Hrw & Hsub & Hoth & Hput). exists w, Y.
    split_and!; [done|done|set_solver| |].
    { intros [|i'] u Hi' Hu; simpl in Hu; simplify_eq; [exists j1, Y1; set_solver|].
      destruct (Hoth i' u ltac:(lia) Hu) as (x & Z & ? & ?). exists x, Z. split; [done|set_solver]. }
    intros F' h' v' j' Y' Hv' HF Ho Hd' Hh. simpl.
    replace ((Y1 ∪ Y2) ∖ Y ∪ Y') with (Y1 ∪ (Y2 ∖ Y ∪ Y')) by (apply set_eq; set_solver).
    constructor; [|apply Hput; [done|done|set_solver..]|set_solver].
    eapply repr_give; [|done|set_solver]. eapply repr_frame; [done|]. set_solver.
Qed.

Lemma reprs_length F h vs js X : reprs F h vs js X → length vs = length js.
Proof. induction 1; simpl; congruence. Qed.

Lemma reprs_app F h vs ws js ks X Y :
  reprs F h vs js X → reprs F h ws ks Y → X ## Y → reprs F h (vs ++ ws) (js ++ ks) (X ∪ Y).
Proof.
  intros Hr Hs. induction Hr as [|v vs j js X1 X2 Hv Hvs IH Hd]; intros Hd'; simpl.
  - by rewrite union_empty_l_L.
  - rewrite <- union_assoc_L. constructor; [done|apply IH; set_solver|set_solver].
Qed.

(** The entries of a represented map. *)
Lemma repr_map_inv F h a j X :
  repr F h (VMap a) j X → ∃ c m Y, j = JObj m ∧ h !! a = Some c ∧ c.*1 = m.*1 ∧
    reprs F h c.*2 m.*2 Y ∧ (a ∉ Y) ∧ (a ∈ X → (X = {[a]} ∪ Y) ∧ a ∉ F) ∧ (a ∉ F → a ∈ X ∧ Forall (live F) c.*2) ∧ Y ⊆ X.
Proof.
  intros Hr. inversion Hr; subst; eexists _, _, _; split_and!; eauto; set_solver.
Qed.

Lemma repr_aget F h a m X k j :
  repr F h (VMap a) (JObj m) X → aget k m = Some j →
  ∃ v Y, aget k (cell_at h a) = Some v ∧ repr F h v j Y.
Proof.
  intros (c & m' & Y & ? & Hc & Hk & Hr & _)%repr_map_inv; simplify_eq.
  unfold cell_at. rewrite Hc. simpl. rewrite !aget_index, Hk.
  destruct (key_index k m'.*1) as [i|]; [|done]. simpl. intros Hj.
  destruct (reprs_lookup _ _ _ _ _ _ _ Hr Hj) as (v & Y' & -> & ? & _). eauto.
Qed.

Lemma repr_aget_None F h a m X k :
  repr F h (VMap a) (JObj m) X → aget k m = None → aget k (cell_at h a) = None.
Proof.
  intros (c & m' & Y & ? & Hc & Hk & Hr & _)%repr_map_inv; simplify_eq.
  unfold cell_at. rewrite Hc. simpl. rewrite !aget_index, Hk.
  destruct (key_index k m'.*1) as [i|]; [|done]. simpl.
  rewrite !lookup_ge_None, (reprs_length _ _ _ _ _ Hr). done.
Qed.

(** The accessors see the tree. *)
Lemma repr_nested F h v j X path :
  repr F h v j X →
  match NestedFieldNoCopy j path, @NestedFieldNoCopy gval (heap_view h) v path with
  | Found j', Found v' => ∃ Y, repr F h v' j' Y
  | NotFound, NotFound => True
  | NErr e, NErr e' => e = e'
  | _, _ => False
  end.
Proof.
  revert v j X. induction path as [|p path IH]; intros v j X Hr; simpl; [eauto|].
  destruct j, v; try (inversion Hr; done); simpl; try done.
  destruct (aget p m) as [j'|] eqn:Hp.
  - destruct (repr_aget _ _ _ _ _ _ _ Hr Hp) as (v' & Y & -> & Hr'). by eapply IH.
  - by rewrite (repr_aget_None _ _ _ _ _ _ Hr Hp).
Qed.

Lemma repr_nested_string F h v j X path :
  repr F h v j X → @NestedString gval (heap_view h) v path = NestedString j path.
Proof.
  intros Hr. unfold NestedString. pose proof (repr_nested _ _ _ _ _ path Hr) as Hn.
  destruct (NestedFieldNoCopy j path) as [j'| |],
    (@NestedFieldNoCopy gval (heap_view h) v path) as [v'| |]; try done; simplify_eq; [|done].
  destruct Hn as [Y Hn]. simpl. by inversion Hn.
Qed.

(** ** Fresh trees *)
Definition below (n : nat) (F : gset loc) : Prop := ∀ a, a ∈ F → a < n.
Definition between (n m : nat) (X : gset loc) : Prop := ∀ a, a ∈ X → n ≤ a < m.

Lemma repr_prefix F h h' v j X :
  repr F h v j X → below (length h) F → h `prefix_of` h' → repr F h' v j X.
Proof.
  intros Hr HF [k ->]. eapply repr_frame; [done|]. intros a Ha. apply lookup_app_l.
  apply elem_of_union in Ha as [Ha|Ha]; [by eapply repr_dom|by apply HF].
Qed.

Lemma thread_repr {A B} (f : A → heap → B * heap) (g : B → gval) (c : A → json) F l h ys h' :
  Forall (λ x, ∀ h y h', f x h = (y, h') → below (length h) F →
    h `prefix_of` h' ∧ live F (g y) ∧
    ∃ X, repr F h' (g y) (c x) X ∧ between (length h) (length h') X) l →
  thread f l h = (ys, h') → below (length h) F →
  h `prefix_of` h' ∧ Forall (live F) (g <$> ys) ∧
  ∃ X, reprs F h' (g <$> ys) (c <$> l) X ∧ between (length h) (length h') X.
Proof.
  intros HF. revert h ys h'. induction HF as [|x l Hx _ IH]; intros h ys h' E Hb; simpl in E.
  { simplify_eq. split; [done|]. split; [constructor|]. exists ∅.
    split; [constructor|]. by intros a ?%elem_of_empty. }
  destruct (f x h) as [y h1] eqn:E1, (thread f l h1) as [ys' h2] eqn:E2; simplify_eq.
  destruct (Hx _ _ _ E1 Hb) as (Hp1 & Hl1 & X1 & Hr1 & Hb1). pose proof (prefix_length _ _ Hp1).
  assert (below (length h1) F) as HF1 by (intros a Ha; specialize (Hb a Ha); lia).
  destruct (IH _ _ _ E2 HF1) as (Hp2 & Hl2 & X2 & Hr2 & Hb2). pose proof (prefix_length _ _ Hp2).
  split; [by etrans|]. split; [by constructor|]. exists (X1 ∪ X2). split.
  - csimpl. constructor; [by eapply repr_prefix|done|].
    intros a Ha1 Ha2. specialize (Hb1 a Ha1). specialize (Hb2 a Ha2). lia.
  - intros a [Ha|Ha]%elem_of_union; [specialize (Hb1 a Ha)|specialize (Hb2 a Ha)]; lia.
Qed.

Lemma thread_keys {A B} (f : A → heap → B * heap) (g : B → string) (c : A → string) l h :
  (∀ x h, g (f x h).1 = c x) → g <$> (thread f l h).1 = c <$> l.
Proof.
  intros Hk. revert h. induction l as [|x l IH]; intros h; [done|]. simpl.
  specialize (Hk x h). destruct (f x h) as [y h1] eqn:E1. simpl in Hk.
  specialize (IH h1). destruct (thread f l h1) as [ys h2] eqn:E2. csimpl in *. congruence.
Qed.

(** A copied tree is represented by fresh cells. *)
Lemma alloc_json_repr F j h v h' :
  alloc_json j h = (v, h') → below (length h) F →
  h `prefix_of` h' ∧ live F v ∧ ∃ X, repr F h' v j X ∧ between (length h) (length h') X.
Proof.
  revert h v h'. induction j as [| | | | |t l IH|m IH] using json_ind'; intros h v h' Ha Hb;
    simpl in Ha; simplify_eq;
    try (split; [done|]; split; [done|]; exists ∅; split; [constructor|by intros a ?%elem_of_empty]).
  - destruct (thread _ l h) as [vs h1] eqn:E; simplify_eq.
    destruct (thread_repr alloc_json id id F l h vs h' IH E Hb) as (Hp & _ & X & Hr & HX).
    split; [done|]. split; [done|]. exists X. split; [|done]. constructor. by rewrite !list_fmap_id in Hr.
  - destruct (thread _ m h) as [c h1] eqn:E; simplify_eq.
    pose proof E as Ek. pose proof (f_equal fst E) as Efst.
    apply (thread_repr _ snd snd F) in E as (Hp & Hl & X & Hr & HX); [| |done].
    + pose proof (prefix_length _ _ Hp). split; [by etrans; [|apply prefix_app_r]|].
      split; [intros Hin; specialize (Hb _ Hin); lia|]. exists ({[length h1]} ∪ X).
      assert (length h1 ∉ X) as Hfresh by (intros Hin; specialize (HX _ Hin); lia).
      split.
      * apply repr_map with c; [by apply list_lookup_middle| | | |done|done].
        -- simpl in Efst. rewrite <- Efst. apply (thread_keys _ fst fst). intros [k x] h0. simpl.
           by destruct (alloc_json x h0).
        -- eapply reprs_frame; [done|]. intros a Ha. apply lookup_app_l.
           apply elem_of_union in Ha as [Ha|Ha]; [by eapply reprs_dom|specialize (Hb a Ha); lia].
        -- intros Hin. specialize (Hb _ Hin). lia.
      * rewrite length_app. simpl. intros a [->%elem_of_singleton|Ha]%elem_of_union; [lia|].
        specialize (HX a Ha). lia.
    + eapply Forall_impl; [exact IH|]. intros [k x] Hx h0 y h2 Hy Hb0; simpl in *.
      destruct (alloc_json x h0) as [w h3] eqn:Ex; simplify_eq. simpl. by eapply Hx.
Qed.

(** A map made by [ToUnstructured] is not written to any more. *)
Lemma to_unstructured_frozen F m h :
  below (length h) F →
  ∃ u h' G, to_unstructured (JObj m) h = (Ret u, h') ∧ h `prefix_of` h' ∧
    between (length h) (length h') G ∧ repr (F ∪ G) h' (VMap u) (JObj m) ∅.
Proof.
  intros Hb. unfold to_unstructured. destruct (alloc_json (JObj m) h) as [v h'] eqn:E.
  destruct (alloc_json_repr F _ _ _ _ E Hb) as (Hp & _ & X & Hr & HX).
  destruct v; try (inversion Hr; done). exists a, h', X. split_and!; [done..|]. by apply repr_freeze.
Qed.
End Facts.
