(* ===== verification/TreeEdit.v ===== *)
(** * Editing a tree in the store

    Positions in a tree, the pointers that lead to them, and what a write
    through one of them does to the whole tree.  [refines] is the notion of
    refinement the operations of [mapping.go] are proved against. *)

From S2P Require Import Prelude.
From S2P Require Import GoLib.
From S2P Require Import GoValue.
From S2P Require Import Heap.
From S2P Require Import Converter.
From S2P Require Import Workload.
From S2P Require Import Tree.

(** ** Positions *)
Inductive pstep : Type := K (k : string) | I (i : nat).
Abbreviation pos := (list pstep).
#[export] Instance pstep_eq_dec : EqDecision pstep.
Proof. solve_decision. Defined.

Fixpoint jget (p : pos) (j : json) : option json :=
  match p with
  | [] => Some j
  | K k :: p' => match j with JObj m => aget k m ≫= jget p' | _ => None end
  | I i :: p' => match j with JArr _ l => l !! i ≫= jget p' | _ => None end
  end.

(** Replaces what is at a position of the tree. *)
Fixpoint jput (p : pos) (x j : json) : json :=
  match p with
  | [] => x
  | K k :: p' =>
      match j with
      | JObj m => match aget k m with Some y => JObj (aset k (jput p' x y) m) | None => j end
      | _ => j
      end
  | I i :: p' =>
      match j with
      | JArr t l => match l !! i with Some y => JArr t (<[i := jput p' x y]> l) | None => j end
      | _ => j
      end
  end.

(** What the store has there. *)
Fixpoint hget (h : heap) (p : pos) (v : gval) : option gval :=
  match p with
  | [] => Some v
  | K k :: p' => match v with VMap a => aget k (cell_at h a) ≫= hget h p' | _ => None end
  | I i :: p' => match v with VSlice _ l => l !! i ≫= hget h p' | _ => None end
  end.

Lemma hget_app h p q v : hget h (p ++ q) v = hget h p v ≫= hget h q.
Proof.
  revert v. induction p as [|[k|i] p IH]; intros v; [done|..]; simpl; destruct v; try done.
  - destruct (aget k (cell_at h a)); simpl; [apply IH|done].
  - destruct (l !! i); simpl; [apply IH|done].
Qed.

Section Focus.
Implicit Types (F X Y : gset loc) (h : heap) (p q : pos).

Lemma diff_through X Yi Y Y' : Y ⊆ Yi → Yi ⊆ X → (X ∖ Y) ∪ Y' = (X ∖ Yi) ∪ ((Yi ∖ Y) ∪ Y').
Proof.
  intros HY HX. apply set_eq. intros b. destruct (decide (b ∈ Y)), (decide (b ∈ Yi)); set_solver.
Qed.

Lemma diff_add a X Y Y' : a ∉ Y → (({[a]} ∪ X) ∖ Y) ∪ Y' = {[a]} ∪ ((X ∖ Y) ∪ Y').
Proof. intros Ha. apply set_eq. set_solver. Qed.

(** The store holds something at the positions of the tree, and only there. *)
Lemma repr_hget F h p v j X w :
  repr F h v j X → hget h p v = Some w → ∃ x Y, jget p j = Some x ∧ repr F h w x Y.
Proof.
  revert v j X. induction p as [|[k|i] p IH]; intros v j X Hr Hg; simpl in *; simplify_eq; [eauto|..].
  - destruct v; try done. destruct (aget k (cell_at h a)) as [v'|] eqn:Hv; [|done]. simpl in Hg.
    destruct j; try (inversion Hr; done). simpl. destruct (aget k m) as [j'|] eqn:Hj.
    + destruct (repr_aget _ _ _ _ _ _ _ Hr Hj) as (v'' & Y & ? & ?). simplify_eq. by eapply IH.
    + by rewrite (repr_aget_None _ _ _ _ _ _ Hr Hj) in Hv.
  - destruct v; try done. destruct (l !! i) as [v'|] eqn:Hv; [|done]. simpl in Hg.
    inversion Hr as [| | | | |? ? ? ? Hrs| |]; subst. simpl.
    destruct (reprs_lookup_l _ _ _ _ _ _ _ Hrs Hv) as (j' & Y & -> & ? & _). simpl. by eapply IH.
Qed.

Lemma repr_handle F h d x Y : repr F h (VMap d) x Y → d ∉ F → d ∈ Y.
Proof.
  intros (? & ? & ? & _ & _ & _ & _ & _ & _ & Hown & _)%repr_map_inv Hd. by apply Hown.
Qed.

Lemma hget_frame F h h' p v j X :
  repr F h v j X → (∀ a, a ∈ X ∪ F → h' !! a = h !! a) → hget h' p v = hget h p v.
Proof.
  revert v j X. induction p as [|[k|i] p IH]; intros v j X Hr Hh; simpl; [done|..].
  - destruct v; try done.
    pose proof Hr as (c & m & Y & -> & Hc & Hk & Hrs & _ & _ & Hown & Hsub)%repr_map_inv.
    assert (h' !! a = Some c) as Hc'.
    { rewrite Hh; [done|]. destruct (decide (a ∈ F)) as [|Ha]; [set_solver|].
      destruct (Hown Ha). set_solver. }
    unfold cell_at. rewrite Hc, Hc'. simpl. rewrite aget_index.
    destruct (key_index k c.*1) as [i|]; [|done]. simpl.
    destruct (c.*2 !! i) as [w|] eqn:Hw; [|done]. simpl.
    destruct (reprs_lookup_l _ _ _ _ _ _ _ Hrs Hw) as (x & Z & _ & Hx & ?).
    eapply IH; [done|]. set_solver.
  - destruct v; try done. inversion Hr as [| | | | |? ? ? ? Hrs| |]; subst.
    destruct (l !! i) as [w|] eqn:Hw; [|done]. simpl.
    destruct (reprs_lookup_l _ _ _ _ _ _ _ Hrs Hw) as (x & Z & _ & Hx & ?).
    eapply IH; [done|]. set_solver.
Qed.

(** Putting another tree under the map at a position changes the tree there,
    and does not move what is not below that position. *)
Lemma repr_focus F h p v j X d :
  repr F h v j X → hget h p v = Some (VMap d) → d ∉ F →
  ∃ x Y, jget p j = Some x ∧ repr F h (VMap d) x Y ∧ d ∈ Y ∧ Y ⊆ X ∧
    (∀ a, v = VMap a → p ≠ [] → a ∉ Y) ∧
    ∀ F' h' x' Y', repr F' h' (VMap d) x' Y' → d ∉ F' → F ⊆ F' → (X ∖ Y) ## F' → Y' ## (X ∖ Y) →
      (∀ a, a ∈ (X ∖ Y) ∪ F → h' !! a = h !! a) →
      repr F' h' v (jput p x' j) ((X ∖ Y) ∪ Y') ∧ (live F v → live F' v) ∧
      hget h' p v = Some (VMap d) ∧
      ∀ q, ¬ p `prefix_of` q → hget h' q v = hget h q v.
Proof.
  revert v j X. induction p as [|[k|i] p IH]; intros v j X Hr Hg Hd.
  - simpl in Hg. simplify_eq. exists j, X. pose proof (repr_handle _ _ _ _ _ Hr Hd).
    split_and!; [done..|]. intros F' h' x' Y' Hr' Hd' _ _ _ _.
    replace ((X ∖ X) ∪ Y') with Y' by (apply set_eq; set_solver). split_and!; [done..|].
    intros q Hq. destruct Hq. apply prefix_nil.
  - simpl in Hg. destruct v; try done. destruct (aget k (cell_at h a)) as [v1|] eqn:Hv1; [|done].
    simpl in Hg.
    pose proof Hr as (c & m & Y0 & -> & Hc & Hk & Hrs & Ha0 & Hin & Hown & Hsub)%repr_map_inv.
    unfold cell_at in Hv1. rewrite Hc in Hv1. simpl in Hv1. rewrite aget_index, Hk in Hv1.
    destruct (key_index k m.*1) as [i|] eqn:Hi; [|done]. simpl in Hv1.
    destruct (reprs_lookup_l _ _ _ _ _ _ _ Hrs Hv1) as (j1 & _ & Hj1 & _ & _).
    destruct (reprs_lookup _ _ _ _ _ _ _ Hrs Hj1) as (v1' & Yi & ? & Hr1 & Hsi & Hoth & Hput). simplify_eq.
    destruct (IH _ _ _ Hr1 Hg Hd) as (x & Y & Hx & Hrx & HdY & HY & _ & Hf).
    assert (a ∉ F) as HaF.
    { intros HaF. inversion Hr; subst; [done|]. set_solver. }
    destruct (Hown HaF) as [HaX Hlive]. destruct (Hin HaX) as [-> _].
    exists x, Y. simpl. rewrite (aget_index k m), Hi. simpl. rewrite Hj1. split_and!; [done..|set_by HY Hsi|intros b ? _; simplify_eq; set_by HY Hsi Ha0|].
    intros F' h' x' Y' Hr' HdF' HF HoF Hd' Hh.
    destruct (Hf F' h' x' Y' Hr' HdF' HF) as (Hr1' & Hl1 & Hg1 & Hkeep);
      [set_by HoF HY Hsi|set_by Hd' HY Hsi|intros b Hb; apply Hh; set_by Hb HY Hsi|].
    assert (h' !! a = Some c) as Hc' by (rewrite Hh; [done|set_solver]).
    destruct (aset_index k (jput p x' j1) m i Hi) as [Hks Hvs].
    assert (reprs F' h' (<[i := v1]> c.*2) (<[i := jput p x' j1]> m.*2) (Y0 ∖ Yi ∪ (Yi ∖ Y ∪ Y'))) as Hrs'.
    { apply Hput; [done|done|set_by HoF HY Hsi|set_by Hd' HY Hsi|].
      intros b Hb. apply Hh. set_by Hb HY Hsi. }
    rewrite (list_insert_id _ _ _ Hv1), <- Hvs in Hrs'. split_and!.
    + rewrite diff_add, (diff_through Y0 Yi) by (done || set_by Ha0 Hsi HY).
      apply repr_map with c; [done|by rewrite Hks|done|set_by HoF Ha0 Hsi HY|set_by Hd' Ha0 Hsi HY|].
      apply Forall_lookup. intros i' w Hw. pose proof (Forall_lookup_1 _ _ _ _ Hlive Hw) as Hlw.
      destruct (decide (i' = i)) as [->|Hne]; [simplify_eq; by apply Hl1|].
      destruct (Hoth i' w Hne Hw) as (x2 & Z & Hr2 & HZ).
      eapply live_own; [exact Hr2|done|]. set_by HZ HoF HY Hsi.
    + simpl. intros _. set_by HoF Ha0 Hsi HY.
    + simpl. unfold cell_at. rewrite Hc'. simpl. rewrite aget_index, Hk, Hi. simpl. by rewrite Hv1.
    + intros [|[k'|i'] q] Hnp; simpl; [done| |done].
      unfold cell_at. rewrite Hc, Hc'. simpl. rewrite aget_index, Hk.
      destruct (key_index k' m.*1) as [i'|] eqn:Hi'; [|done]. simpl.
      destruct (c.*2 !! i') as [v2|] eqn:Hv2; [|done]. simpl.
      destruct (decide (i' = i)) as [->|Hne].
      * simplify_eq. apply Hkeep. contradict Hnp.
        apply key_index_lookup in Hi, Hi'. simplify_eq. by apply prefix_cons.
      * destruct (Hoth i' v2 Hne Hv2) as (x2 & Z & Hr2 & HZ).
        eapply hget_frame; [exact Hr2|]. intros b Hb'. apply Hh. set_by Hb' HZ HY.
  - simpl in Hg. destruct v as [| | | | |t vs|]; try done. destruct (vs !! i) as [v1|] eqn:Hv1; [|done].
    simpl in Hg. inversion Hr as [| | | | |? ? js ? Hrs| |]; subst.
    destruct (reprs_lookup_l _ _ _ _ _ _ _ Hrs Hv1) as (j1 & _ & Hj1 & _ & _).
    destruct (reprs_lookup _ _ _ _ _ _ _ Hrs Hj1) as (v1' & Yi & ? & Hr1 & Hsi & Hoth & Hput). simplify_eq.
    destruct (IH _ _ _ Hr1 Hg Hd) as (x & Y & Hx & Hrx & HdY & HY & _ & Hf).
    exists x, Y. simpl. rewrite Hj1. split_and!; [done..|set_by HY Hsi|done|].
    intros F' h' x' Y' Hr' HdF' HF HoF Hd' Hh.
    destruct (Hf F' h' x' Y' Hr' HdF' HF) as (Hr1' & Hl1 & Hg1 & Hkeep);
      [set_by HoF HY Hsi|set_by Hd' HY Hsi|intros b Hb; apply Hh; set_by Hb HY Hsi|].
    assert (reprs F' h' (<[i := v1]> vs) (<[i := jput p x' j1]> js) (X ∖ Yi ∪ (Yi ∖ Y ∪ Y'))) as Hrs'.
    { apply Hput; [done|done|set_by HoF HY Hsi|set_by Hd' HY Hsi|].
      intros b Hb. apply Hh. set_by Hb HY Hsi. }
    rewrite (list_insert_id _ _ _ Hv1) in Hrs'. split_and!.
    + rewrite (diff_through X Yi) by done. by constructor.
    + done.
    + by rewrite Hv1.
    + intros [|[k'|i'] q] Hnp; simpl; [done|done|].
      destruct (vs !! i') as [v2|] eqn:Hv2; [|done]. simpl.
      destruct (decide (i' = i)) as [->|Hne].
      * simplify_eq. apply Hkeep. contradict Hnp. by apply prefix_cons.
      * destruct (Hoth i' v2 Hne Hv2) as (x2 & Z & Hr2 & HZ).
        eapply hget_frame; [exact Hr2|]. intros b Hb'. apply Hh. set_by Hb' HZ HY.
Qed.
End Focus.

(** ** Writing at a path of keys *)

(** The assignment [setSlice] makes, with the maps that are missing on the
    way. *)
Fixpoint hwrite (d : loc) (path : list string) (v : gval) (h : heap) : heap :=
  match path with
  | [] => h
  | [k] => hset d k v h
  | k :: path' =>
      match aget k (cell_at h d) with
      | Some (VMap b) => hwrite b path' v h
      | Some _ => h
      | None => let '(y, h1) := halloc [] h in hwrite y path' v (hset d k (VMap y) h1)
      end
  end.

(** The same on a tree. *)
Fixpoint jwrite (path : list string) (x : json) (j : json) : json :=
  match path, j with
  | [k], JObj m => JObj (aset k x m)
  | k :: path', JObj m => JObj (aset k (jwrite path' x (default (JObj []) (aget k m))) m)
  | _, _ => j
  end.

(** There is a map, or nothing, at every key of the path but the last. *)
Fixpoint writable (path : list string) (j : json) : bool :=
  match j with
  | JObj m =>
      match path with
      | [] => false
      | [_] => true
      | k :: path' => match aget k m with Some j' => writable path' j' | None => true end
      end
  | _ => false
  end.

Lemma set_path_cases obj t rs path key h :
  last path = Some key →
  setSlice obj t rs path h =
    match find_dest obj path h with
    | (Err e, h') => (Ret (Err e), h')
    | (Ok dest, h') => (Ret (Ok tt), hset dest key (VSlice t (VMap <$> rs)) h')
    end.
Proof. intros Hl. unfold setSlice. rewrite Hl. by destruct (find_dest obj path h) as [[]]. Qed.

(** A pointer into the tree under [r]: the map [d] at the position [p]. *)
Definition handle (F : gset loc) (h : heap) (r : loc) (pd : pos * loc) : Prop :=
  hget h pd.1 (VMap r) = Some (VMap pd.2) ∧ pd.2 ∉ F.

(** What may happen to the store while the tree with the cells [X] is edited:
    the other cells stay, cells are added to the tree or given up only when
    they are new. *)
Record ext (F : gset loc) (h : heap) (X F' : gset loc) (h' : heap) (X' : gset loc) : Prop := {
  ext_length : length h ≤ length h';
  ext_frame a : a < length h → a ∉ X → h' !! a = h !! a;
  ext_cells a : a ∈ X' → a ∈ X ∨ length h ≤ a;
  ext_given : F ⊆ F';
  ext_fresh a : a ∈ F' → a ∈ F ∨ length h ≤ a;
  ext_below : below (length h') F'
}.

Section Write.
Implicit Types (F X Y : gset loc) (h : heap) (p q : pos).

Lemma repr_new F h : length h ∉ F → repr F (h ++ [[]]) (VMap (length h)) (JObj []) ({[length h]} ∪ ∅).
Proof.
  intros. apply repr_map with []; [by apply list_lookup_middle|done|constructor|done|set_solver|done].
Qed.

Lemma hset_cell h a k v c : h !! a = Some c → hset a k v h !! a = Some (aset k v c).
Proof.
  intros Ha. unfold hset, cell_at. rewrite Ha. simpl. rewrite list_lookup_insert_eq; [done|].
  by eapply lookup_lt_Some.
Qed.

Lemma hset_other h a b k v : a ≠ b → hset a k v h !! b = h !! b.
Proof. intros. unfold hset. by apply list_lookup_insert_ne. Qed.

(** Setting the entry [k] of the map [d]: what was there is replaced. *)
Lemma repr_hset F h d m X k :
  repr F h (VMap d) (JObj m) X → d ∉ F →
  ∃ Yo, Yo ⊆ X ∧ (d ∉ Yo) ∧
    (∀ x, aget k m = Some x → ∃ v, aget k (cell_at h d) = Some v ∧ repr F h v x Yo) ∧
    (aget k m = None → Yo = ∅) ∧
    ∀ h1 v x Y, repr F h1 v x Y → live F v → Y ## (X ∖ Yo) →
      (∀ a, a ∈ (X ∖ Yo) ∪ F → a ≠ d → h1 !! a = h !! a) → h1 !! d = Some (aset k v (cell_at h d)) →
      repr F h1 (VMap d) (JObj (aset k x m)) ((X ∖ Yo) ∪ Y).
Proof.
  intros Hr HdF.
  pose proof Hr as (c & m' & Y0 & ? & Hc & Hk & Hrs & Ha0 & Hin & Hown & _)%repr_map_inv; simplify_eq.
  destruct (Hown HdF) as [HdX Hlive]. destruct (Hin HdX) as [-> _]. unfold cell_at. rewrite Hc. simpl.
  assert (∀ Yo h1, d ∉ Yo → (∀ a, a ∈ (({[d]} ∪ Y0) ∖ Yo) ∪ F → a ≠ d → h1 !! a = h !! a) →
            ∀ a, a ∈ (Y0 ∖ Yo) ∪ F → h1 !! a = h !! a) as Hfr.
  { intros Yo h1 Hd Hh a Ha. apply Hh; [set_by Ha|]. intros ->. set_by Ha Ha0 HdF. }
  destruct (key_index k m'.*1) as [i|] eqn:Hi.
  - destruct (m'.*2 !! i) as [j|] eqn:Hj.
    2:{ exfalso. apply key_index_lookup, lookup_lt_Some in Hi.
        apply lookup_ge_None in Hj. rewrite !length_fmap in *. lia. }
    destruct (reprs_lookup _ _ _ _ _ _ _ Hrs Hj) as (w & Yo & Hw & Hrw & Hsub & _ & Hput).
    exists Yo. split_and!; [set_by Hsub|set_by Hsub Ha0| | |].
    + intros x. rewrite !aget_index, Hk, Hi. simpl. intros ?. simplify_eq. eauto.
    + rewrite aget_index, Hi. simpl. by rewrite Hj.
    + intros h1 v x Y Hv Hlv Hd Hh Hd1. assert (d ∉ Yo) as HdY by set_by Hsub Ha0.
      rewrite diff_add by done.
      destruct (aset_index k v c i ltac:(by rewrite Hk)) as [Hk1 Hv1].
      destruct (aset_index k x m' i Hi) as [Hk2 Hv2].
      apply repr_map with (aset k v c); [done|by rewrite Hk1, Hk2| |done|set_by Ha0 Hd HdY|].
      2:{ rewrite Hv1. by apply Forall_insert. }
      rewrite Hv1, Hv2. apply Hput; [done|done| |set_by Hd|by apply Hfr].
      intros a Ha1 Ha2. destruct (proj2 (repr_dom_both F h) _ _ _ Hrs a) as [_ ?]; [set_by Ha1|done].
  - exists ∅. assert (aget k m' = None) as Hnone by by rewrite aget_index, Hi.
    split_and!; [apply empty_subseteq|apply not_elem_of_empty|by rewrite Hnone|done|].
    intros h1 v x Y Hv Hlv Hd Hh Hd1. rewrite diff_add by apply not_elem_of_empty.
    destruct (aset_no_index k v c ltac:(by rewrite Hk)) as [Hk1 Hv1].
    destruct (aset_no_index k x m' Hi) as [Hk2 Hv2].
    apply repr_map with (aset k v c); [done|by rewrite Hk1, Hk2, Hk| |done|set_by Ha0 Hd|].
    2:{ rewrite Hv1. apply Forall_app. auto. }
    rewrite Hv1, Hv2. replace (Y0 ∖ ∅ ∪ Y) with (Y0 ∪ (Y ∪ ∅)) by (clear; apply set_eq; set_solver).
    apply reprs_app; [|constructor; [done|constructor|]|].
    + eapply reprs_frame; [exact Hrs|]. intros a Ha. apply (Hfr ∅); [set_by|done|set_by Ha].
    + apply disjoint_empty_r.
    + set_by Hd.
Qed.

Lemma entry_frame F h h' d j X k q :
  repr F h (VMap d) j X → d ∉ F → aget k (cell_at h' d) = aget k (cell_at h d) →
  (∀ a, a ∈ X ∪ F → a ≠ d → h' !! a = h !! a) →
  hget h' (K k :: q) (VMap d) = hget h (K k :: q) (VMap d).
Proof.
  intros Hr HdF Hk Hh. simpl. rewrite Hk.
  pose proof Hr as (c & m & Y0 & -> & Hc & Hks & Hrs & Ha0 & _ & _ & Hsub)%repr_map_inv.
  destruct (aget k (cell_at h d)) as [w|] eqn:Hw; [|done]. simpl.
  unfold cell_at in Hw. rewrite Hc in Hw. simpl in Hw. rewrite aget_index in Hw.
  destruct (key_index k c.*1) as [i|]; [|done]. simpl in Hw.
  destruct (reprs_lookup_l _ _ _ _ _ _ _ Hrs Hw) as (x & Z & _ & Hx & HZ).
  eapply hget_frame; [exact Hx|]. intros a Ha. apply Hh; [set_by Ha HZ Hsub|].
  intros ->. set_by Ha HZ Ha0 HdF.
Qed.

(** The positions a write at [path] does not touch. *)
Definition spared (path : list string) (q : pos) : Prop :=
  q = [] ∨ (¬ (K <$> path) `prefix_of` q ∧ ¬ q `prefix_of` (K <$> path)).

(** The contract of a write: what was at the path is replaced by what the
    value [v] represents; the cells of the tree outside the old value may
    change, new ones may be added. *)
Definition writes (F : gset loc) (h : heap) (d : loc) (j : json) (X Yo : gset loc)
    (path : list string) : Prop :=
  ∀ v x Y, repr F h v x Y → live F v → Y ## (X ∖ Yo) →
    ∃ X', repr F (hwrite d path v h) (VMap d) (jwrite path x j) X' ∧
      length h ≤ length (hwrite d path v h) ∧
      (∀ a, a < length h → a ∉ X ∖ Yo → hwrite d path v h !! a = h !! a) ∧
      (∀ a, a ∈ X' → a ∈ X ∖ Yo ∨ a ∈ Y ∨ length h ≤ a) ∧
      ∀ q, spared path q → hget (hwrite d path v h) q (VMap d) = hget h q (VMap d).

Lemma hwrite_last F h d m X k :
  repr F h (VMap d) (JObj m) X → d ∉ F →
  ∃ Yo, Yo ⊆ X ∧ (d ∉ Yo) ∧
    (∀ x, aget k m = Some x → ∃ v, aget k (cell_at h d) = Some v ∧ repr F h v x Yo) ∧
    writes F h d (JObj m) X Yo [k].
Proof.
  intros Hr HdF. destruct (repr_hset F h d m X k Hr HdF) as (Yo & Hsub & HdY & Hold & _ & Hput).
  exists Yo. split_and!; [done..|]. intros v x Y Hv Hlv Hd.
  pose proof (repr_handle _ _ _ _ _ Hr HdF) as HdX.
  assert (∃ c, h !! d = Some c) as [c Hc]
    by (apply lookup_lt_is_Some; eapply repr_dom; [exact Hr|done]).
  pose proof (hset_cell h d k v c Hc) as Hc'.
  exists ((X ∖ Yo) ∪ Y). change (hwrite d [k] v h) with (hset d k v h). split_and!.
  - apply Hput with v; [|done|done|intros a _ Hne; by apply hset_other|].
    + eapply repr_frame; [exact Hv|]. intros a Ha. apply hset_other. intros <-.
      set_by Ha Hd HdX HdY HdF.
    + unfold cell_at. by rewrite Hc', Hc.
  - by rewrite hset_length.
  - intros a _ Ha. apply hset_other. intros <-. set_by Ha HdX HdY.
  - intros a. rewrite elem_of_union. tauto.
  - intros [|[k'|i] q] [?|[Hnp _]]; try done.
    eapply entry_frame; [exact Hr|done| |intros a _ Hne; by apply hset_other].
    unfold cell_at. rewrite Hc', Hc. simpl. apply aget_aset_ne. intros ->. destruct Hnp.
    apply prefix_cons, prefix_nil.
Qed.

Lemma below_new F h : below (length h) F → length h ∉ F.
Proof. intros Hb Hin. specialize (Hb _ Hin). lia. Qed.

(** A missing map is made first. *)
Lemma hwrite_new F h d m X k path :
  repr F h (VMap d) (JObj m) X → d ∉ F → below (length h) F → aget k m = None →
  let h1 := hset d k (VMap (length h)) (h ++ [[]]) in
  repr F h1 (VMap (length h)) (JObj []) ({[length h]} ∪ ∅) ∧
  (writes F h1 (length h) (JObj []) ({[length h]} ∪ ∅) ∅ path →
   path ≠ [] → writes F h d (JObj m) X ∅ (k :: path)).
Proof.
  intros Hr HdF Hb Hk h1. pose proof (repr_handle _ _ _ _ _ Hr HdF) as HdX.
  pose proof (below_new _ _ Hb) as Hy.
  assert (d < length h) as Hdl by (eapply repr_dom; [exact Hr|done]).
  assert (length h1 = S (length h)) as Hl1 by (unfold h1; rewrite hset_length, length_app; simpl; lia).
  assert (∀ a, a < length h → a ≠ d → h1 !! a = h !! a) as Hold.
  { intros a Ha Hne. unfold h1. rewrite hset_other by done. by apply lookup_app_l. }
  assert (h1 !! d = Some (aset k (VMap (length h)) (cell_at h d))) as Hd1.
  { unfold h1, cell_at. destruct (lookup_lt_is_Some_2 h d Hdl) as [c Hc]. rewrite Hc.
    apply hset_cell. by rewrite lookup_app_l. }
  split.
  { eapply repr_frame; [by apply repr_new|]. intros a Ha. unfold h1. apply hset_other.
    intros <-. rewrite union_empty_r_L, elem_of_union, elem_of_singleton in Ha.
    destruct Ha as [->|?]; [lia|done]. }
  intros Hput Hne v x Y Hv Hlv Hd.
  destruct (repr_hset F h d m X k Hr HdF) as (Yo & _ & _ & _ & Hnone & Hset).
  rewrite (Hnone Hk) in Hset. clear Yo Hnone.
  assert (d ∉ Y) as HdY by set_by Hd HdX.
  destruct (Hput v x Y) as (X' & Hr' & Hlen & Hfr & HX' & Hkeep); [|done| |].
  { eapply repr_frame; [exact Hv|]. intros a Ha.
    apply Hold; [|intros ->; set_by Ha HdY HdF].
    apply elem_of_union in Ha as [Ha|Ha]; [eapply repr_dom; [exact Hv|done]|by apply Hb]. }
  { intros a Ha Ha2. assert (a < length h) by (eapply repr_dom; [exact Hv|done]).
    assert (a = length h) by set_by Ha2. lia. }
  set (h' := hwrite (length h) path v h1) in *.
  assert (hwrite d (k :: path) v h = h') as ->.
  { destruct path; [done|]. simpl. by rewrite (repr_aget_None _ _ _ _ _ _ Hr Hk). }
  assert (∀ a, a < length h → h' !! a = h1 !! a) as Hh1.
  { intros a Ha. apply Hfr; [lia|]. intros Hin. assert (a = length h) by set_by Hin. lia. }
  assert (∀ a, a ∈ X ∖ ∅ ∪ F → a ≠ d → h' !! a = h !! a) as Hsame.
  { intros a Ha Had. assert (a < length h).
    { apply elem_of_union in Ha as [Ha|Ha]; [|by apply Hb]. eapply repr_dom; [exact Hr|set_by Ha]. }
    rewrite Hh1 by done. by apply Hold. }
  assert (h' !! d = Some (aset k (VMap (length h)) (cell_at h d))) as Hd' by (by rewrite Hh1).
  exists ((X ∖ ∅) ∪ X'). split_and!.
  - assert (jwrite (k :: path) x (JObj m) = JObj (aset k (jwrite path x (JObj [])) m)) as ->.
    { destruct path; [done|]. simpl. by rewrite Hk. }
    apply Hset with (VMap (length h)); [done|done| |done|done].
    intros a Ha Ha2. assert (a < length h) by (eapply repr_dom; [exact Hr|set_by Ha2]).
    destruct (HX' a Ha) as [Hin|[Hin|?]]; [|set_by Hin Hd Ha2|lia].
    assert (a = length h) by set_by Hin. lia.
  - lia.
  - intros a Ha Hn. rewrite Hh1 by done. apply Hold; [done|]. intros ->. set_by Hn HdX.
  - intros a [Ha|Ha]%elem_of_union; [by left|right].
    destruct (HX' a Ha) as [Hin|[Hin|?]]; [|by left|right; lia].
    right. assert (a = length h) by set_by Hin. lia.
  - intros [|[k2|i] q] [?|[Hnp Hnq]]; try done. destruct (decide (k2 = k)) as [->|Hk2].
    { assert (hget h (K k :: q) (VMap d) = None) as ->.
      { simpl. by rewrite (repr_aget_None _ _ _ _ _ _ Hr Hk). }
      simpl. unfold cell_at. rewrite Hd'. simpl. rewrite aget_aset_eq. simpl.
      rewrite Hkeep by (right; split; [contradict Hnp|contradict Hnq]; by apply prefix_cons).
      destruct q as [|[k3|i3] q]; [|simpl|done].
      - destruct Hnq. apply prefix_cons, prefix_nil.
      - unfold h1. rewrite cell_at_hset_ne by lia. by rewrite cell_at_halloc. }
    eapply entry_frame; [exact Hr|done| |].
    + unfold cell_at. rewrite Hd'. simpl. by apply aget_aset_ne.
    + intros a Ha. apply Hsame. set_by Ha.
Qed.

Lemma writable_cons k k' path j :
  writable (k :: k' :: path) j = true →
  ∃ m, j = JObj m ∧ match aget k m with Some j' => writable (k' :: path) j' = true | None => True end.
Proof. destruct j; try done. simpl. intros Hw. eexists. split; [done|]. by destruct (aget k m). Qed.

Lemma hwrite_repr path F h d j X :
  repr F h (VMap d) j X → d ∉ F → below (length h) F → writable path j = true →
  ∃ Yo, Yo ⊆ X ∧ (d ∉ Yo) ∧
    (∀ x, NestedFieldNoCopy j path = Found x →
       ∃ v, hNestedField h d path = Found v ∧ repr F h v x Yo) ∧
    writes F h d j X Yo path.
Proof.
  revert h d j X. induction path as [|k path IH]; intros h d j X Hr HdF Hb Hw; [by destruct j|].
  destruct path as [|k' path].
  { destruct j as [| | | | | |m]; try done.
    destruct (hwrite_last F h d m X k Hr HdF) as (Yo & ? & ? & Hold & ?). exists Yo.
    split_and!; [done..| |done]. unfold hNestedField. simpl. intros x Hx.
    destruct (aget k m) as [x'|]; simplify_eq.
    destruct (Hold x eq_refl) as (v & -> & ?). eauto. }
  apply writable_cons in Hw as (m & -> & Hw).
  pose proof (repr_handle _ _ _ _ _ Hr HdF) as HdX.
  destruct (aget k m) as [j1|] eqn:Hk.
  - destruct (repr_aget _ _ _ _ _ _ _ Hr Hk) as (v1 & Y1 & Hv1 & Hr1).
    destruct v1 as [| | | | | |b]; try (inversion Hr1; subst; done).
    assert (b ∉ F) as HbF.
    { pose proof Hr as (c & ? & ? & ? & Hc & ? & ? & ? & ? & Hown & ?)%repr_map_inv.
      destruct (Hown HdF) as [_ Hlive]. unfold cell_at in Hv1. rewrite Hc in Hv1. simpl in Hv1.
      apply aget_elem in Hv1. rewrite Forall_fmap, Forall_forall in Hlive. exact (Hlive _ Hv1). }
    assert (hget h [K k] (VMap d) = Some (VMap b)) as Hg by (simpl; by rewrite Hv1).
    destruct (repr_focus F h [K k] (VMap d) (JObj m) X b Hr Hg HbF)
      as (x1 & Xi & Hx1 & Hri & Hbi & Hsi & Hroot & Hf).
    simpl in Hx1. rewrite Hk in Hx1. injection Hx1 as <-.
    destruct (IH h b j1 Xi Hri HbF Hb Hw) as (Yo & Hsub & HbY & Hold & Hput).
    assert (d ∉ Xi) as HdXi by by apply Hroot.
    exists Yo. split_and!; [set_by Hsub Hsi|set_by Hsub HdXi| |].
    + intros x Hx. unfold hNestedField. simpl in Hx |- *. rewrite Hk in Hx. rewrite Hv1. by apply Hold.
    + intros v x Y Hv Hlv Hd.
      destruct (Hput v x Y Hv Hlv ltac:(set_by Hd Hsi)) as (X' & Hr' & Hlen & Hfr & HX' & Hkeep).
      set (h' := hwrite b (k' :: path) v h) in *.
      assert (hwrite d (k :: k' :: path) v h = h') as -> by (simpl; by rewrite Hv1).
      assert (∀ a, a ∈ X ∖ Xi ∪ F → h' !! a = h !! a) as Hsame.
      { intros a Ha. apply Hfr.
        - apply elem_of_union in Ha as [Ha|Ha]; [|by apply Hb]. eapply repr_dom; [exact Hr|set_by Ha].
        - destruct (decide (a ∈ F)) as [HaF|HaF]; [|set_by Ha HaF].
          intros Hin. eapply repr_own; [exact Hri| |exact HaF]. set_by Hin. }
      assert (X' ## (X ∖ Xi)) as HdX'.
      { intros a Ha Ha2. destruct (HX' a Ha) as [Hin|[Hin|Hge]]; [set_by Hin Ha2|set_by Ha2 Hd Hin Hsub|].
        assert (a < length h); [|lia]. eapply repr_dom; [exact Hr|set_by Ha2]. }
      destruct (Hf F h' (jwrite (k' :: path) x j1) X' Hr' HbF ltac:(done)) as (Hr2 & _ & Hg2 & Hk2);
        [|done|done|].
      { intros a Ha HaF. eapply repr_own; [exact Hr| |exact HaF]. set_by Ha. }
      exists (X ∖ Xi ∪ X'). split_and!.
      * simpl in Hr2. rewrite Hk in Hr2. simpl. by rewrite Hk.
      * done.
      * intros a Ha Hn. apply Hfr; [done|set_by Hn Hsi].
      * intros a [Ha|Ha]%elem_of_union; [set_by Ha Hsub|].
        destruct (HX' a Ha) as [Hin|[?|?]]; [set_by Hin Hsi|auto..].
      * intros q Hq. destruct (decide ([K k] `prefix_of` q)) as [[q' ->]|Hn]; [|by apply Hk2].
        rewrite !hget_app, Hg, Hg2. simpl. apply Hkeep. destruct Hq as [?|[Hnp Hnq]]; [done|].
        right. split; [contradict Hnp|contradict Hnq]; by apply prefix_cons.
  - destruct (hwrite_new F h d m X k (k' :: path) Hr HdF Hb Hk) as (Hry & Hnew).
    destruct (IH _ _ _ _ Hry) as (Yo & Hsub & Hy & _ & Hput);
      [by apply below_new|by rewrite hset_length, length_app; intros a ?%Hb; simpl; lia| |].
    { simpl. by destruct path. }
    assert (Yo = ∅) as -> by (clear -Hsub Hy; set_solver).
    exists ∅. split_and!; [apply empty_subseteq|apply not_elem_of_empty| |by apply Hnew].
    simpl. by rewrite Hk.
Qed.
End Write.
