(* ===== verification/TreeOps.v ===== *)
(** * The operations of [mapping.go] as functions on trees

    For every operation of [MetaContainer] and [MetaPodSpec] there is a
    function here on the tree under the container or the pod, without store
    or pointers, errors included; the theorems show that the pointer code does
    exactly that to the tree and to nothing else. *)

From S2P Require Import Prelude.
From S2P Require Import GoLib.
From S2P Require Import GoValue.
From S2P Require Import JsonPath.
From S2P Require Import Heap.
From S2P Require Import Converter.
From S2P Require Import Workload.
From S2P Require Import Tree.
From S2P Require Import TreeEdit.

(** ** Reference functions *)

(** The first key of the path whose value is there and not a map. *)
Fixpoint blocked (seen ps : list string) (j : json) : option goerr :=
  match ps with
  | [] => None
  | p :: ps' =>
      match j with
      | JObj m =>
          match aget p m with
          | None => None
          | Some (JObj m') => blocked (seen ++ [p]) ps' (JObj m')
          | Some _ => Some (EErrorf "Value already exists at path %v" (AStr <$> seen))
          end
      | _ => None
      end
  end.

(** Why a list cannot be written at a path. *)
Definition write_error (path : list string) (j : json) : option goerr :=
  match NestedFieldNoCopy j (path_init path) with
  | NErr e => Some e
  | Found (JObj _) => None
  | Found _ => Some (EErrorf "Value already exists at path %v" (AStr <$> path_init path))
  | NotFound => blocked [] (path_init path) j
  end.

Definition tsetSlice (t : slice_ty) (resources : list json) (path : list string) : M json (result unit) := λ j,
  match path with
  | [] => (Panic "index out of range [-1]", j)
  | _ =>
      match write_error path j with
      | Some e => (Ret (Err e), j)
      | None => (Ret (Ok tt), jwrite path (JArr t resources) j)
      end
  end.

Section Ops.
Context `{Converter}.

(** The list of resources at a path: the elements are objects of that type. *)
Fixpoint tconvert_items (k : rkind) (l : list json) : nested (list json) :=
  match l with
  | [] => Found []
  | JObj m :: l' =>
      match from_unstructured k (JObj m) with
      | Some e => NErr e
      | None => nested_bind (tconvert_items k l') (λ xs, Found (JObj m :: xs))
      end
  | _ :: _ => NErr (ENew "not a map")
  end.

Definition tResources (k : rkind) (path : list string) (j : json) : nested (list json) :=
  nested_bind (NestedFieldNoCopy j path) (λ val,
    match val with
    | JArr _ l => tconvert_items k l
    | _ => NErr (ENew "not a slice")
    end).

(** All the edits read the list at a path and write another one: [init] when
    there is no list, [g] of it when there is one; [None] leaves the tree.  The
    type of the new list depends on its length. *)
Definition tupdate (k : rkind) (path : list string) (ty : nat → slice_ty) (init : option (list json))
    (g : list json → option (list json)) : M json (result unit) := λ j,
  match tResources k path j with
  | NErr e => (Ret (Err e), j)
  | NotFound => match init with Some l => tsetSlice (ty (length l)) l path j | None => (Ret (Ok tt), j) end
  | Found l => match g l with Some l' => tsetSlice (ty (length l')) l' path j | None => (Ret (Ok tt), j) end
  end.

Definition tremove (k : rkind) (path : list string) (p : json → bool) : M json (result unit) :=
  tupdate k path (λ _, SliceMap) None (remove_first p).
Definition tput (k : rkind) (path : list string) (p : json → bool) (u : json) : M json (result unit) :=
  tupdate k path (λ _, SliceMap) (Some [u]) (λ l, Some (replace_or_append p u l)).
Definition tappend (k : rkind) (path : list string) (data : list json) : M json (result unit) :=
  tupdate k path built (Some data) (λ l, Some (l ++ data)).

(** The tests on an element. *)
Definition tstring_at_is (fields : list string) (name : string) (x : json) : bool :=
  match NestedString x fields with Found s => String.eqb s name | _ => false end.
Definition tfield (k : string) (x : json) : string :=
  match x with JObj m => match aget k m with Some (JStr s) => s | _ => "" end | _ => "" end.
Definition tmount_is (name : string) (x : json) : bool :=
  match from_unstructured KVolumeMount x with
  | None => String.eqb (tfield "name" x) name
  | Some _ => false
  end.
Definition tname_is (name : string) (x : json) : bool :=
  match x with
  | JObj m => match aget "name" m with Some (JStr s) => String.eqb s name | _ => false end
  | _ => false
  end.

Definition tAddVolume (path : list string) (v : Volume) : M json (result unit) :=
  tput KVolume path (tname_is (vol_name v)) (Volume_json v).
Definition tRemoveVolume (path : list string) (name : string) : M json (result unit) :=
  tremove KVolume path (tstring_at_is ["name"] name).
Definition tAddVolumeMount (path : list string) (v : VolumeMount) : M json (result unit) :=
  tput KVolumeMount path (λ x, String.eqb (tfield "name" x) (vm_name v)) (VolumeMount_json v).
Definition tRemoveVolumeMount (path : list string) (name : string) : M json (result unit) :=
  tremove KVolumeMount path (tmount_is name).
Definition tRemoveEnvVars (path : list string) (name : string) : M json (result unit) :=
  tremove KEnvVar path (tstring_at_is ["name"] name).
Definition tRemoveEnvFromVars (path : list string) (secretName : string) : M json (result unit) :=
  tremove KEnvFromSource path (tstring_at_is ["secretRef"; "name"] secretName).

Definition tAddEnvVars (path : list string) (vars : list EnvVar) : M json (result unit) :=
  _ ← for_all vars (λ v, _ ← tRemoveEnvVars path (ev_name v); mret tt);
  tappend KEnvVar path (EnvVar_json <$> vars).

Definition tAddEnvFromVar (path : list string) (e : EnvFromSource) : M json (result unit) :=
  match path with
  | [] => mret (Err (ENew "No envFrom field"))
  | _ =>
      _ ← tRemoveEnvFromVars path (efs_secretRef e);
      tappend KEnvFromSource path [EnvFromSource_json e]
  end.

Definition root_env : json :=
  EnvVar_json {| ev_name := bindingRootEnvVar; ev_value := bindingRoot; ev_secretKeyRef := None |}.

Fixpoint tfind_root (envs : list json) : option string :=
  match envs with
  | [] => None
  | e :: envs' =>
      match from_unstructured KEnvVar e with
      | Some _ => tfind_root envs'
      | None =>
          if String.eqb (tfield "name" e) bindingRootEnvVar then Some (tfield "value" e)
          else tfind_root envs'
      end
  end.

Definition tMountPath (path : list string) (bindingName : string) : M json (result string) :=
  j ← mget;
  let append_root (envs : list json) : M json (result string) :=
    let! _ := tsetSlice SliceMap (envs ++ [root_env]) path in
    mret (Ok (path_Join bindingRoot bindingName)) in
  match tResources KEnvVar path j with
  | NErr e => mret (Err e)
  | NotFound => append_root []
  | Found envs =>
      match tfind_root envs with
      | Some value => mret (Ok (path_Join value bindingName))
      | None => append_root envs
      end
  end.
End Ops.

(** ** Writing a list *)
Section SetSlice.
Implicit Types (F X Y : gset loc) (h : heap).

Lemma make_path_write d seen ps h dest h' key v :
  make_path d seen ps h = (Ok dest, h') → hset dest key v h' = hwrite d (ps ++ [key]) v h.
Proof.
  revert d seen h. induction ps as [|p ps IH]; intros d seen h Hm; simpl in Hm; [by simplify_eq|].
  assert (∃ k ks, ps ++ [key] = k :: ks) as (k & ks & E) by (destruct ps; simpl; eauto).
  simpl. rewrite E.
  destruct (aget p (cell_at h d)) as [w|]; [|rewrite <- E; by eapply IH].
  destruct w; try done. rewrite <- E. by eapply IH.
Qed.

Lemma make_path_follow d seen ps h x :
  hNestedField h d ps = Found (VMap x) → make_path d seen ps h = (Ok x, h).
Proof.
  unfold hNestedField. revert d seen. induction ps as [|p ps IH]; intros d seen Hf; simpl in *.
  { by simplify_eq. }
  destruct (aget p (cell_at h d)) as [w|]; [|done].
  destruct w; try by (destruct ps). by apply IH.
Qed.

Lemma make_path_fresh d seen ps h :
  d < length h → cell_at h d = [] → ∃ x h', make_path d seen ps h = (Ok x, h').
Proof.
  revert d seen h. induction ps as [|p ps IH]; intros d seen h Hd Hc; simpl; [eauto|].
  rewrite Hc. simpl. apply IH; [rewrite hset_length, length_app; simpl; lia|].
  rewrite cell_at_hset_ne by lia. apply cell_at_halloc.
Qed.

Lemma make_path_repr F h d j X seen ps :
  repr F h (VMap d) j X →
  match blocked seen ps j with
  | Some e => make_path d seen ps h = (Err e, h)
  | None => ∃ x h', make_path d seen ps h = (Ok x, h')
  end.
Proof.
  revert d j X seen. induction ps as [|p ps IH]; intros d j X seen Hr; [simpl; eauto|].
  pose proof Hr as (c & m & Y & -> & Hc & _)%repr_map_inv. simpl.
  destruct (aget p m) as [j'|] eqn:Hp.
  - destruct (repr_aget _ _ _ _ _ _ _ Hr Hp) as (v & Y' & -> & Hv).
    inversion Hv; subst; try done; by eapply IH.
  - rewrite (repr_aget_None _ _ _ _ _ _ Hr Hp). apply make_path_fresh.
    + rewrite hset_length, length_app. simpl. lia.
    + apply lookup_lt_Some in Hc. rewrite cell_at_hset_ne by lia. apply cell_at_halloc.
Qed.

Lemma write_error_heap F h d j X path t rs :
  repr F h (VMap d) j X → path ≠ [] →
  setSlice d t rs path h =
    match write_error path j with
    | Some e => (Ret (Err e), h)
    | None => (Ret (Ok tt), hwrite d path (VSlice t (VMap <$> rs)) h)
    end.
Proof.
  intros Hr Hne. destruct (last path) as [key|] eqn:Hl; [|by apply last_None in Hl].
  pose proof (path_init_last _ _ Hl) as Hpath. unfold setSlice. rewrite Hl.
  assert (find_dest d path h = match hNestedField h d (path_init path) with
    | NErr e => (Err e, h) | NotFound => make_path d [] (path_init path) h
    | Found (VMap x) => (Ok x, h)
    | Found _ => (Err (EErrorf "Value already exists at path %v" (AStr <$> path_init path)), h) end) as ->.
  { unfold find_dest. destruct (1 <? length path) eqn:E; [done|].
    assert (path_init path = []) as ->; [|done].
    apply Nat.ltb_ge in E. unfold path_init. by replace (length path - 1) with 0 by lia. }
  unfold write_error. pose proof (repr_nested _ _ _ _ _ (path_init path) Hr) as Hn.
  unfold hNestedField.
  destruct (NestedFieldNoCopy j (path_init path)) as [j'| |] eqn:Hj,
    (@NestedFieldNoCopy gval (heap_view h) (VMap d) (path_init path)) as [v'| |] eqn:Hv;
    try done; simplify_eq.
  - destruct Hn as [Y Hn]. inversion Hn; subst; try done; do 2 f_equal; rewrite Hpath at 1;
      eapply (make_path_write d []), make_path_follow; exact Hv.
  - pose proof (make_path_repr _ _ _ _ _ [] (path_init path) Hr) as Hm.
    destruct (blocked [] (path_init path) j) as [e|]; [by rewrite Hm|].
    destruct Hm as (x & h' & Hm). rewrite Hm. do 2 f_equal. rewrite Hpath at 1.
    by eapply make_path_write.
  - done.
Qed.

Lemma blocked_writable seen ps key m :
  blocked seen ps (JObj m) = None → NestedFieldNoCopy (JObj m) ps = NotFound →
  writable (ps ++ [key]) (JObj m) = true.
Proof.
  revert seen m. induction ps as [|p ps IH]; intros seen m Hb Hn; [done|].
  assert (∃ k ks, ps ++ [key] = k :: ks) as (k & ks & E) by (destruct ps; simpl; eauto).
  simpl in *. rewrite E. destruct (aget p m) as [j'|]; [|done].
  destruct j'; try done. rewrite <- E. by eapply IH.
Qed.

Lemma found_writable ps key j m :
  NestedFieldNoCopy j ps = Found (JObj m) → writable (ps ++ [key]) j = true.
Proof.
  revert j. induction ps as [|p ps IH]; intros j Hn; simpl in Hn; [by simplify_eq|].
  assert (∃ k ks, ps ++ [key] = k :: ks) as (k & ks & E) by (destruct ps; simpl; eauto).
  destruct j; try done. simpl in *. rewrite E. destruct (aget p m0); [|done]. rewrite <- E. by apply IH.
Qed.

Lemma write_error_writable path m :
  path ≠ [] → write_error path (JObj m) = None → writable path (JObj m) = true.
Proof.
  intros Hne. destruct (last path) as [key|] eqn:Hl; [|by apply last_None in Hl].
  pose proof (path_init_last _ _ Hl) as Hpath. unfold write_error.
  destruct (NestedFieldNoCopy (JObj m) (path_init path)) as [j'| |] eqn:Hj; [|..|done].
  - destruct j'; try done. intros _. rewrite Hpath. by eapply found_writable.
  - intros Hb. rewrite Hpath. by eapply blocked_writable.
Qed.

Lemma NestedFieldNoCopy_snoc (j : json) ps key x :
  NestedFieldNoCopy j (ps ++ [key]) = Found x → ∃ m, NestedFieldNoCopy j ps = Found (JObj m).
Proof.
  revert j. induction ps as [|p ps IH]; intros j Hf; simpl in *; [destruct j; try done; eauto|].
  destruct j; try done. simpl in *. destruct (aget p m); [by apply IH|done].
Qed.

Lemma found_write_error path j x :
  path ≠ [] → NestedFieldNoCopy j path = Found x → write_error path j = None.
Proof.
  intros Hne Hf. destruct (last path) as [key|] eqn:Hl; [|by apply last_None in Hl].
  pose proof (path_init_last _ _ Hl) as Hpath. rewrite Hpath in Hf.
  apply NestedFieldNoCopy_snoc in Hf as [m Hm]. unfold write_error. by rewrite Hm.
Qed.
End SetSlice.

(** The pointers at the positions [Q] stay. *)
Definition keeps (Q : pos → Prop) (d : loc) (h h' : heap) : Prop :=
  ∀ q, Q q → hget h' q (VMap d) = hget h q (VMap d).

(** ** Refinement

    [op], run on the store that holds a tree under [d] and pointers [hs] into
    it, ends like [f] on the tree, and leaves the tree [f] leaves; the other
    cells, and what is found at the positions [Q], stay. *)
Definition refines {A} (d : loc) (Q : pos → Prop) (hs : list (pos * loc))
    (op : M heap A) (f : M json A) : Prop :=
  ∀ F h j X, repr F h (VMap d) j X → d ∉ F → below (length h) F →
  Forall (λ pd, handle F h d pd ∧ Q pd.1) hs →
  ∃ F' h' X', op h = ((f j).1, h') ∧ repr F' h' (VMap d) (f j).2 X' ∧
    ext F h X F' h' X' ∧ keeps Q d h h'.

Section Refines.
Implicit Types (F X Y : gset loc) (h : heap) (hs : list (pos * loc)) (Q : pos → Prop).

Lemma ext_refl F h X : below (length h) F → ext F h X F h X.
Proof. intros. split; auto. Qed.

Lemma ext_trans F h X F1 h1 X1 F2 h2 X2 :
  ext F h X F1 h1 X1 → ext F1 h1 X1 F2 h2 X2 → ext F h X F2 h2 X2.
Proof.
  intros [L1 Fr1 C1 G1 Fs1 B1] [L2 Fr2 C2 G2 Fs2 B2]. split.
  - lia.
  - intros a Ha Hn. rewrite Fr2; [by apply Fr1|lia|]. intros Hin. destruct (C1 a Hin); [done|lia].
  - intros a Ha. destruct (C2 a Ha) as [Ha1|]; [by apply C1|right; lia].
  - by etrans.
  - intros a Ha. destruct (Fs2 a Ha) as [Ha1|]; [by apply Fs1|right; lia].
  - done.
Qed.

(** A cell of the tree is not given up. *)
Lemma ext_kept F h X F' h' X' a : ext F h X F' h' X' → a < length h → a ∉ F → a ∉ F'.
Proof. intros He Ha HF Hin. destruct (ext_fresh _ _ _ _ _ _ He a Hin); [done|lia]. Qed.

Lemma refines_ret {A} d Q hs (a : A) : refines d Q hs (mret a) (mret a).
Proof. intros F h j X Hr Hd Hb Hh. exists F, h, X. split_and!; [done..|by apply ext_refl|done]. Qed.

Lemma refines_panic {A} d Q hs e : refines d Q hs (mpanic (A := A) e) (mpanic e).
Proof. intros F h j X Hr Hd Hb Hh. exists F, h, X. split_and!; [done..|by apply ext_refl|done]. Qed.

Lemma handles_kept F h d j X F' h' X' Q hs :
  repr F h (VMap d) j X → ext F h X F' h' X' →
  keeps Q d h h' →
  Forall (λ pd, handle F h d pd ∧ Q pd.1) hs → Forall (λ pd, handle F' h' d pd ∧ Q pd.1) hs.
Proof.
  intros Hr He Hq Hh. eapply Forall_impl; [exact Hh|]. intros [q e] [[Hg HF] HQ]. split; [|done]. simpl in *.
  destruct (repr_hget _ _ _ _ _ _ _ Hr Hg) as (x & Y & _ & Hx).
  split; simpl; [by rewrite Hq|]. eapply ext_kept; [exact He| |done]. by eapply repr_dom, repr_handle.
Qed.

Lemma refines_bind {A B} d Q hs (op : M heap A) (f : M json A) (k : A → M heap B) (g : A → M json B) :
  refines d Q hs op f → (∀ a, refines d Q hs (k a) (g a)) → refines d Q hs (op ≫= k) (f ≫= g).
Proof.
  intros Ho Hk F h j X Hr Hd Hb Hh.
  destruct (Ho F h j X Hr Hd Hb Hh) as (F1 & h1 & X1 & E1 & Hr1 & He1 & Hq1).
  unfold mbind, M_bind. rewrite E1. destruct (f j) as [[a|e] j1]; simpl in *.
  - destruct (Hk a F1 h1 j1 X1 Hr1) as (F2 & h2 & X2 & E2 & Hr2 & He2 & Hq2).
    + eapply ext_kept; [done| |done]. by eapply repr_dom, repr_handle.
    + by eapply ext_below.
    + eapply handles_kept; [exact Hr|exact He1|exact Hq1|done].
    + exists F2, h2, X2. split_and!; [done..|by eapply ext_trans|].
      intros q Hq. by rewrite Hq2, Hq1.
  - by exists F1, h1, X1.
Qed.

Lemma refines_rbind {E A B} d Q hs (op : M heap (res E A)) (f : M json (res E A))
    (k : A → M heap (res E B)) (g : A → M json (res E B)) :
  refines d Q hs op f → (∀ a, refines d Q hs (k a) (g a)) → refines d Q hs (rbind op k) (rbind f g).
Proof.
  intros Ho Hk. apply refines_bind; [done|]. intros [a|e]; [apply Hk|apply refines_ret].
Qed.

Lemma refines_for_all {A} d Q hs (xs : list A) (k : A → M heap unit) (g : A → M json unit) :
  (∀ x, x ∈ xs → refines d Q hs (k x) (g x)) → refines d Q hs (for_all xs k) (for_all xs g).
Proof.
  induction xs as [|x xs IH]; intros Hk; simpl; [apply refines_ret|].
  apply refines_bind; [apply Hk; set_solver|]. intros _. apply IH. set_solver.
Qed.

Lemma refines_for_each {A R} d Q hs (xs : list A) (k : A → M heap (ctl R)) (g : A → M json (ctl R)) :
  (∀ x, x ∈ xs → refines d Q hs (k x) (g x)) → refines d Q hs (for_each xs k) (for_each xs g).
Proof.
  induction xs as [|x xs IH]; intros Hk; simpl; [apply refines_ret|].
  apply refines_bind; [apply Hk; set_solver|]. intros [|r]; [apply IH; set_solver|apply refines_ret].
Qed.

(** The positions [Q] are not touched by a write at [path]. *)
Definition spares (path : list string) (Q : pos → Prop) : Prop := ∀ q, Q q → spared path q.


(** A write of a list whose elements are elements of the old list or maps
    that were given up. *)
Lemma setSlice_repr F h d j X Q path :
  repr F h (VMap d) j X → d ∉ F → below (length h) F → spares path Q →
  ∃ Yo, Yo ⊆ X ∧
    (∀ t l, NestedFieldNoCopy j path = Found (JArr t l) →
       ∃ vs, hNestedField h d path = Found (VSlice t vs) ∧ reprs F h vs l Yo) ∧
    ∀ t rs l Y, reprs F h (VMap <$> rs) l Y → Y ⊆ Yo →
      ∃ h' X', setSlice d t rs path h = ((tsetSlice t l path j).1, h') ∧
        repr F h' (VMap d) (tsetSlice t l path j).2 X' ∧ ext F h X F h' X' ∧ keeps Q d h h'.
Proof.
  intros Hr Hd Hb Hs. pose proof Hr as (c & m & Y0 & -> & Hc & _)%repr_map_inv.
  destruct path as [|k path].
  { exists ∅. split_and!; [apply empty_subseteq|by intros|]. intros t rs l Y _ _. exists h, X. simpl.
    split_and!; [done..|by apply ext_refl|done]. }
  destruct (write_error (k :: path) (JObj m)) as [e|] eqn:Hw.
  - exists ∅. split_and!; [apply empty_subseteq| |].
    { intros t l Hf. apply found_write_error in Hf; [congruence|done]. }
    intros t rs l Y _ _. exists h, X. rewrite (write_error_heap _ _ _ _ _ _ t rs Hr) by done.
    unfold tsetSlice. rewrite Hw. split_and!; [done..|by apply ext_refl|done].
  - pose proof (write_error_writable (k :: path) m ltac:(done) Hw) as Hwr.
    destruct (hwrite_repr (k :: path) F h d _ X Hr Hd Hb Hwr) as (Yo & Hsub & HdY & Hold & Hput).
    exists Yo. split; [done|]. split.
    { intros t l Hf. destruct (Hold _ Hf) as (v & Hv & Hrv). inversion Hrv; subst. eauto. }
    intros t rs l Y Hrs HY. rewrite (write_error_heap _ _ _ _ _ _ t rs Hr) by done.
    unfold tsetSlice. rewrite Hw.
    destruct (Hput (VSlice t (VMap <$> rs)) (JArr t l) Y) as (X' & Hr' & Hlen & Hfr & HX' & Hkeep);
      [by constructor|done|set_by HY|].
    exists (hwrite d (k :: path) (VSlice t (VMap <$> rs)) h), X'. split_and!; [done|done| |].
    + split; [done| | |done|auto|].
      * intros a Ha Hn. apply Hfr; [done|set_by Hn].
      * intros a Ha. destruct (HX' a Ha) as [Hin|[Hin|?]]; [left; set_by Hin|left; set_by Hin HY Hsub|by right].
      * intros a Ha. specialize (Hb a Ha). lia.
    + intros q Hq. by apply Hkeep, Hs.
Qed.
End Refines.

(** ** Reading and rewriting a list of resources *)
Section Lists.
Context `{Converter}.
Implicit Types (F X Y : gset loc) (h : heap) (hs : list (pos * loc)) (Q : pos → Prop).

Lemma FromUnstructured_repr F h k a x Y :
  repr F h (VMap a) x Y → FromUnstructured k h a = from_unstructured k x.
Proof.
  intros Hr%repr_reify. unfold FromUnstructured. change (S (heap_size h)) with (gval_size (VMap a) + heap_size h).
  by rewrite Hr.
Qed.

Lemma field_string_repr F h a x Y k : repr F h (VMap a) x Y → field_string h a k = tfield k x.
Proof.
  intros Hr. pose proof Hr as (c & m & ? & -> & _)%repr_map_inv. unfold field_string, tfield.
  destruct (aget k m) as [y|] eqn:Hy.
  - destruct (repr_aget _ _ _ _ _ _ _ Hr Hy) as (v & Z & -> & Hv). by destruct Hv.
  - by rewrite (repr_aget_None _ _ _ _ _ _ Hr Hy).
Qed.

Lemma string_at_is_repr F h a x Y fields name :
  repr F h (VMap a) x Y → string_at_is fields name h a = tstring_at_is fields name x.
Proof.
  intros Hr. unfold string_at_is, tstring_at_is, hNestedString.
  by rewrite (repr_nested_string _ _ _ _ _ fields Hr).
Qed.

Lemma mount_is_repr F h a x Y name :
  repr F h (VMap a) x Y → mount_is name h a = tmount_is name x.
Proof.
  intros Hr. unfold mount_is, tmount_is.
  by rewrite (FromUnstructured_repr _ _ _ _ _ _ Hr), (field_string_repr _ _ _ _ _ _ Hr).
Qed.

Lemma name_entry_repr F h a x Y name :
  repr F h (VMap a) x Y → name_entry_is name h a = tname_is name x.
Proof.
  intros Hr. pose proof Hr as (c & m & ? & -> & _)%repr_map_inv. unfold name_entry_is, tname_is.
  destruct (aget "name" m) as [y|] eqn:Hy.
  - destruct (repr_aget _ _ _ _ _ _ _ Hr Hy) as (v & Z & -> & Hv). by destruct Hv.
  - by rewrite (repr_aget_None _ _ _ _ _ _ Hr Hy).
Qed.

Lemma convert_items_repr F h k vs l Y :
  reprs F h vs l Y →
  match tconvert_items k l with
  | Found xs => xs = l ∧ ∃ ls, vs = VMap <$> ls ∧ convert_items k h vs = Found ls
  | NotFound => False
  | NErr e => convert_items k h vs = NErr e
  end.
Proof.
  induction 1 as [|v vs j js X1 X2 Hv Hvs IH Hd]; simpl; [split; [done|]; by exists []|].
  destruct v; try (inversion Hv; subst; done). pose proof Hv as (c & m & ? & -> & _)%repr_map_inv.
  rewrite (FromUnstructured_repr _ _ _ _ _ _ Hv).
  destruct (from_unstructured k (JObj m)); [done|].
  destruct (tconvert_items k js) as [xs| |]; simpl; [|done|by rewrite IH].
  destruct IH as (-> & ls & -> & ->). split; [done|]. by exists (a :: ls).
Qed.

Lemma resources_repr F h d j X k path :
  repr F h (VMap d) j X →
  match tResources k path j with
  | Found l => ∃ t ls, NestedResources k h d path = Found ls ∧
      hNestedField h d path = Found (VSlice t (VMap <$> ls)) ∧
      NestedFieldNoCopy j path = Found (JArr t l)
  | NotFound => NestedResources k h d path = NotFound
  | NErr e => NestedResources k h d path = NErr e
  end.
Proof.
  intros Hr. unfold tResources, NestedResources, hNestedField.
  pose proof (repr_nested _ _ _ _ _ path Hr) as Hn.
  destruct (NestedFieldNoCopy j path) as [x| |],
    (@NestedFieldNoCopy gval (heap_view h) (VMap d) path) as [v| |]; try done; simpl; [|congruence].
  destruct Hn as [Y Hn]. inversion Hn; subst; try done.
  pose proof (convert_items_repr F h k vs js Y ltac:(done)) as Hc.
  destruct (tconvert_items k js) as [l| |]; [|done..].
  destruct Hc as (-> & ls & -> & ?). eauto.
Qed.

(** The lists of the code and of the tree, rewritten in the same way. *)
Definition same_rewrite F h (G : list loc → option (list loc)) (g : list json → option (list json)) :=
  ∀ ls l Y, reprs F h (VMap <$> ls) l Y →
    match G ls, g l with
    | Some rs, Some l' => ∃ Y', reprs F h (VMap <$> rs) l' Y' ∧ Y' ⊆ Y
    | None, None => True
    | _, _ => False
    end.

Lemma remove_first_rewrite F h P p :
  (∀ a x Y, repr F h (VMap a) x Y → P a = p x) → same_rewrite F h (remove_first P) (remove_first p).
Proof.
  intros HP ls. induction ls as [|a ls IH]; intros l Y Hr; csimpl in Hr; inversion Hr; subst; [done|].
  simpl. match goal with Ha : repr _ _ (VMap a) _ _ |- _ => rewrite (HP _ _ _ Ha) end.
  destruct (p j); [eexists; split; [eassumption|set_solver]|].
  specialize (IH js Y0 ltac:(done)).
  destruct (remove_first P ls), (remove_first p js); simpl; try done.
  destruct IH as (Y' & ? & ?). exists (X ∪ Y'). split; [|set_solver]. csimpl. constructor; [done..|set_solver].
Qed.

Lemma existsb_repr F h P p ls l Y :
  (∀ a x Y, repr F h (VMap a) x Y → P a = p x) → reprs F h (VMap <$> ls) l Y →
  existsb P ls = existsb p l.
Proof.
  intros HP. revert l Y. induction ls as [|a ls IH]; intros l Y Hr; csimpl in Hr; inversion Hr; subst; [done|].
  simpl. erewrite HP by done. by erewrite IH by done.
Qed.

Lemma replace_rewrite F h P p u x :
  (∀ a x Y, repr F h (VMap a) x Y → P a = p x) → repr F h (VMap u) x ∅ →
  same_rewrite F h (λ ls, Some (replace_or_append P u ls)) (λ l, Some (replace_or_append p x l)).
Proof.
  intros HP Hu ls l Y Hr. unfold replace_or_append. rewrite (existsb_repr _ _ _ _ _ _ _ HP Hr).
  assert (∃ Y', reprs F h (VMap <$> map (λ b, if P b then u else b) ls)
            (map (λ y, if p y then x else y) l) Y' ∧ Y' ⊆ Y) as (Y' & Hr' & HY').
  { revert l Y Hr. induction ls as [|a ls IH]; intros l Y Hr; csimpl in Hr; inversion Hr; subst.
    { exists ∅. split; [constructor|done]. }
    destruct (IH js Y0 ltac:(done)) as (Y' & ? & ?). csimpl.
    match goal with Ha : repr _ _ (VMap a) _ _ |- _ => rewrite (HP _ _ _ Ha) end.
    destruct (p j); [exists (∅ ∪ Y')|exists (X ∪ Y')];
      (split; [constructor; [done..|set_solver]|set_solver]). }
  destruct (existsb p l); [eauto|]. exists (Y' ∪ (∅ ∪ ∅)). split; [|set_solver].
  rewrite fmap_app. apply reprs_app; [done| |set_solver]. repeat constructor; [done|set_solver].
Qed.

Lemma append_rewrite F h us xs :
  reprs F h (VMap <$> us) xs ∅ →
  same_rewrite F h (λ ls, Some (ls ++ us)) (λ l, Some (l ++ xs)).
Proof.
  intros Hu ls l Y Hr. exists (Y ∪ ∅). split; [|set_solver]. rewrite fmap_app.
  apply reprs_app; [done..|set_solver].
Qed.

(** The shape all the operations share on the store. *)
Definition hupdate (k : rkind) (d : loc) (path : list string) (ty : nat → slice_ty) (init : option (list loc))
    (G : list loc → option (list loc)) : M heap (result unit) := λ h,
  match NestedResources k h d path with
  | NErr e => (Ret (Err e), h)
  | NotFound => match init with Some rs => setSlice d (ty (length rs)) rs path h | None => (Ret (Ok tt), h) end
  | Found l => match G l with Some rs => setSlice d (ty (length rs)) rs path h | None => (Ret (Ok tt), h) end
  end.

Lemma update_repr F h d j X Q k path ty init tinit G g :
  repr F h (VMap d) j X → d ∉ F → below (length h) F → spares path Q → same_rewrite F h G g →
  match init, tinit with
  | Some rs, Some l => reprs F h (VMap <$> rs) l ∅
  | None, None => True
  | _, _ => False
  end →
  ∃ h' X', hupdate k d path ty init G h = ((tupdate k path ty tinit g j).1, h') ∧
    repr F h' (VMap d) (tupdate k path ty tinit g j).2 X' ∧ ext F h X F h' X' ∧ keeps Q d h h'.
Proof.
  intros Hr Hd Hb Hs HG Hi.
  destruct (setSlice_repr _ _ _ _ _ _ _ Hr Hd Hb Hs) as (Yo & HYo & Hold & Hset).
  assert (∃ h' X', (Ret (Ok tt) : outcome (result unit), h) = (Ret (Ok tt), h') ∧
            repr F h' (VMap d) j X' ∧ ext F h X F h' X' ∧ keeps Q d h h') as Hnop.
  { exists h, X. split_and!; [done..|by apply ext_refl|done]. }
  unfold hupdate, tupdate. pose proof (resources_repr _ _ _ _ _ k path Hr) as Hres.
  destruct (tResources k path j) as [l| |].
  - destruct Hres as (t & ls & -> & Hv & Hj). destruct (Hold t l Hj) as (vs & Hv' & Hrs).
    rewrite Hv in Hv'. simplify_eq. specialize (HG ls l Yo Hrs).
    destruct (G ls) as [rs|], (g l) as [l'|]; try done.
    destruct HG as (Y' & Hrs' & HY'). 
    pose proof (reprs_length _ _ _ _ _ Hrs') as E. rewrite length_fmap in E. rewrite E. by apply (Hset _ rs l' Y').
  - rewrite Hres. destruct init as [rs|], tinit as [l|]; try done.
    pose proof (reprs_length _ _ _ _ _ Hi) as E. rewrite length_fmap in E. rewrite E.
    apply (Hset _ rs l ∅); [done|apply empty_subseteq].
  - rewrite Hres. exists h, X. split_and!; [done..|by apply ext_refl|done].
Qed.

Lemma to_unstructured_same j h u h' :
  to_unstructured j h = (Ret u, h') → ∀ a, a < length h → h' !! a = h !! a.
Proof.
  unfold to_unstructured. destruct (alloc_json j h) as [v h1] eqn:E.
  apply alloc_json_prefix in E as [t ->]. destruct v; intros; simplify_eq. by apply lookup_app_l.
Qed.

(** [refines] from a store that also holds fresh, given up maps. *)
Definition refines_from {A} d Q us xs (op : M heap A) (f : M json A) : Prop :=
  ∀ F h j X, repr F h (VMap d) j X → d ∉ F → below (length h) F → reprs F h (VMap <$> us) xs ∅ →
  ∃ F' h' X', op h = ((f j).1, h') ∧ repr F' h' (VMap d) (f j).2 X' ∧
    ext F h X F' h' X' ∧ keeps Q d h h'.

Lemma alloc_step F h d j X Q us xs m :
  repr F h (VMap d) j X → d ∉ F → below (length h) F →
  reprs F h (VMap <$> us) xs ∅ →
  ∃ F' u h', to_unstructured (JObj m) h = (Ret u, h') ∧ repr F' h' (VMap d) j X ∧ (d ∉ F') ∧
    ext F h X F' h' X ∧ keeps Q d h h' ∧ reprs F' h' (VMap <$> (us ++ [u])) (xs ++ [JObj m]) ∅.
Proof.
  intros Hr Hd Hb Hus.
  destruct (to_unstructured_frozen F m h Hb) as (u & h' & G & Ha & Hp & HG & Hu).
  pose proof (prefix_length _ _ Hp) as Hlen.
  assert (∀ a, a < length h → h' !! a = h !! a) as Hsame.
  { intros a Hal. destruct Hp as [t ->]. by apply lookup_app_l. }
  assert (∀ a, a < length h → a ∉ F → a ∉ F ∪ G) as Hkept.
  { intros a Hal HaF [?|Hin]%elem_of_union; [done|]. specialize (HG a Hin). lia. }
  assert (X ## F ∪ G) as HX.
  { intros a Hin. apply Hkept; [by eapply repr_dom|by eapply repr_own]. }
  assert (d < length h) as Hdl by (eapply repr_dom; [exact Hr|by eapply repr_handle]).
  exists (F ∪ G), u, h'. split_and!; [done| |by apply Hkept| | |].
  - eapply repr_give; [eapply repr_prefix; [exact Hr|done|done]|set_solver|done].
  - split; [done|auto|auto|set_solver| |].
    + intros a [?|Hin]%elem_of_union; [by left|right]. specialize (HG a Hin). lia.
    + intros a [Hin|Hin]%elem_of_union; [specialize (Hb a Hin)|specialize (HG a Hin)]; lia.
  - intros q _. eapply hget_frame; [exact Hr|]. intros a Hm. apply Hsame.
    apply elem_of_union in Hm as [Hm|Hm]; [by eapply repr_dom|by apply Hb].
  - rewrite fmap_app, <- (union_empty_l_L ∅). apply reprs_app; [| |set_solver].
    + apply reprs_give with F; [|set_solver|set_solver]. eapply reprs_frame; [exact Hus|].
      intros a Hm. apply Hsame. apply Hb. set_by Hm.
    + rewrite <- (union_empty_l_L ∅). constructor; [done|constructor|set_solver].
Qed.

Lemma refines_to_unstructured {A} d Q us xs m (k : loc → M heap A) f :
  (∀ u, refines_from d Q (us ++ [u]) (xs ++ [JObj m]) (k u) f) →
  refines_from d Q us xs (u ← to_unstructured (JObj m); k u) f.
Proof.
  intros Hk F h j X Hr Hd Hb Hus.
  destruct (alloc_step _ _ _ _ _ Q _ _ m Hr Hd Hb Hus) as (F1 & u & h1 & Ha & Hr1 & Hd1 & He1 & Hq1 & Hus1).
  destruct (Hk u F1 h1 j X Hr1 Hd1 (ext_below _ _ _ _ _ _ He1) Hus1) as (F2 & h2 & X2 & E & Hr2 & He2 & Hq2).
  exists F2, h2, X2. split_and!; [|done| |].
  - unfold mbind, M_bind. by rewrite Ha.
  - by eapply ext_trans.
  - intros q Hq. by rewrite Hq2, Hq1.
Qed.

Lemma refines_from_nil {A} d Q hs (op : M heap A) f : refines_from d Q [] [] op f → refines d Q hs op f.
Proof. intros Hop F h j X Hr Hd Hb _. apply Hop; [done..|constructor]. Qed.

Lemma refines_to_all {A} d Q us xs ms (k : list loc → M heap A) f :
  (∀ us', refines_from d Q (us ++ us') (xs ++ (JObj <$> ms)) (k us') f) →
  refines_from d Q us xs (us' ← to_unstructured_all (JObj <$> ms); k us') f.
Proof.
  revert us xs k. induction ms as [|m ms IH]; intros us xs k Hk; csimpl.
  - specialize (Hk []). rewrite !app_nil_r in Hk. exact Hk.
  - intros F h j X Hr Hd Hb Hus.
    destruct (refines_to_unstructured d Q us xs m
      (λ u, us' ← to_unstructured_all (JObj <$> ms); k (u :: us')) f) with F h j X
      as (F' & h' & X' & E & Hpost); [|done..|].
    + intros u. apply IH. intros us'. specialize (Hk (u :: us')). by rewrite <- !app_assoc.
    + exists F', h', X'. split; [|done]. rewrite <- E.
      cbn [to_unstructured_all]. unfold mbind, M_bind, mret, M_ret.
      destruct (to_unstructured (JObj m) h) as [[u|] h1]; [|done].
      by destruct (to_unstructured_all (JObj <$> ms) h1) as [[]].
Qed.

Lemma refines_update d Q us xs k path ty init tinit G g :
  spares path Q →
  (∀ F h, reprs F h (VMap <$> us) xs ∅ → same_rewrite F h (G h) g) →
  (∀ F h, reprs F h (VMap <$> us) xs ∅ →
    match init, tinit with
    | Some rs, Some l => reprs F h (VMap <$> rs) l ∅
    | None, None => True
    | _, _ => False
    end) →
  refines_from d Q us xs (h ← mget; hupdate k d path ty init (G h)) (tupdate k path ty tinit g).
Proof.
  intros Hs HG Hi F h j X Hr Hd Hb Hus.
  destruct (update_repr F h d j X Q k path ty init tinit (G h) g Hr Hd Hb Hs) as (h' & X' & E & ? & ? & ?);
    [by apply HG|by eapply Hi|]. by exists F, h', X'.
Qed.
End Lists.

(** ** The operations *)
Section Theorems.
Context `{Converter}.
Implicit Types (F X Y : gset loc) (h : heap) (hs : list (pos * loc)) (Q : pos → Prop).

(** [us] and [xs] end in the map made last. *)
Lemma last_frozen F h us u xs x :
  reprs F h (VMap <$> (us ++ [u])) (xs ++ [x]) ∅ → length us = length xs → repr F h (VMap u) x ∅.
Proof.
  intros Hr Hl. rewrite fmap_app in Hr.
  destruct (reprs_lookup_l _ _ _ _ _ (length us) (VMap u) Hr) as (j & Y & Hj & Hu & HY).
  { apply list_lookup_middle. by rewrite length_fmap. }
  rewrite list_lookup_middle in Hj by done. simplify_eq. by apply equiv_empty_L in HY as ->.
Qed.

Lemma remove_refines d Q hs k path P p :
  spares path Q →
  (∀ F h a x Y, repr F h (VMap a) x Y → P h a = p x) →
  refines d Q hs (remove_resource d k path P) (tremove k path p).
Proof.
  intros Hs HP. apply refines_from_nil.
  intros F h j X Hr Hd Hb Hus.
  destruct (refines_update d Q [] [] k path (λ _, SliceMap) None None (λ h, remove_first (P h)) (remove_first p) Hs)
    with F h j X as (F' & h' & X' & E & Hpost); [| |done..|].
  - intros F0 h0 _. apply remove_first_rewrite. intros. by eapply HP.
  - done.
  - exists F', h', X'. split; [|done]. etrans; [|exact E]. unfold remove_resource, hupdate. m_unfold.
    destruct (NestedResources k h d path) as [l| |]; [|done..].
    by destruct (remove_first (P h) l).
Qed.

Lemma put_refines d Q hs k path P p m :
  spares path Q →
  (∀ F h a x Y, repr F h (VMap a) x Y → P h a = p x) →
  refines d Q hs (u ← to_unstructured (JObj m); h ← mget;
    match NestedResources k h d path with
    | NErr e => mret (Err e)
    | NotFound => setSlice d SliceMap [u] path
    | Found l => setSlice d SliceMap (replace_or_append (P h) u l) path
    end) (tput k path p (JObj m)).
Proof.
  intros Hs HP. apply refines_from_nil, refines_to_unstructured. intros u F h j X Hr Hd Hb Hus.
  destruct (refines_update d Q ([] ++ [u]) ([] ++ [JObj m]) k path (λ _, SliceMap) (Some [u]) (Some [JObj m])
    (λ h ls, Some (replace_or_append (P h) u ls)) (λ l, Some (replace_or_append p (JObj m) l)) Hs)
    with F h j X as (F' & h' & X' & E & Hpost); [| |done..|].
  - intros F0 h0 Hu0. apply replace_rewrite; [intros; by eapply HP|by apply (last_frozen _ _ [] u [])].
  - done.
  - exists F', h', X'. split; [|done]. etrans; [|exact E]. unfold hupdate. m_unfold.
    by destruct (NestedResources k h d path).
Qed.

Lemma addRaw_refines d Q us xs k path :
  spares path Q →
  refines_from d Q us xs (addRaw d k us path) (tappend k path xs).
Proof.
  intros Hs F h j X Hr Hd Hb Hus.
  destruct (refines_update d Q us xs k path built (Some us) (Some xs) (λ _ ls, Some (ls ++ us))
    (λ l, Some (l ++ xs)) Hs) with F h j X as (F' & h' & X' & E & Hpost); [| |done..|].
  - intros F0 h0 Hu0. by apply append_rewrite.
  - done.
  - exists F', h', X'. split; [|done]. etrans; [|exact E]. unfold addRaw, hupdate. m_unfold.
    by destruct (NestedResources k h d path).
Qed.

Lemma AddVolume_refines t v Q hs :
  spares (mp_Volume t) Q →
  refines (mp_Data t) Q hs (AddVolume t v) (tAddVolume (mp_Volume t) v).
Proof.
  intros Hs. apply put_refines; [done|]. intros. by eapply name_entry_repr.
Qed.

Lemma AddVolumeMount_refines c v Q hs :
  spares (mc_VolumeMount c) Q →
  refines (mc_Data c) Q hs (AddVolumeMount c v) (tAddVolumeMount (mc_VolumeMount c) v).
Proof.
  intros Hs. apply put_refines; [done|]. intros. by erewrite field_string_repr.
Qed.

Lemma RemoveVolume_refines t name Q hs :
  spares (mp_Volume t) Q →
  refines (mp_Data t) Q hs (RemoveVolume t name) (tRemoveVolume (mp_Volume t) name).
Proof. intros Hs. apply remove_refines; [done|]. intros. by eapply string_at_is_repr. Qed.

Lemma RemoveVolumeMount_refines c name Q hs :
  spares (mc_VolumeMount c) Q →
  refines (mc_Data c) Q hs (RemoveVolumeMount c name) (tRemoveVolumeMount (mc_VolumeMount c) name).
Proof. intros Hs. apply remove_refines; [done|]. intros. by eapply mount_is_repr. Qed.

Lemma RemoveEnvVars_refines c name Q hs :
  spares (mc_Env c) Q →
  refines (mc_Data c) Q hs (RemoveEnvVars c name) (tRemoveEnvVars (mc_Env c) name).
Proof. intros Hs. apply remove_refines; [done|]. intros. by eapply string_at_is_repr. Qed.

Lemma RemoveEnvFromVars_refines c name Q hs :
  spares (mc_EnvFrom c) Q →
  refines (mc_Data c) Q hs (RemoveEnvFromVars c name) (tRemoveEnvFromVars (mc_EnvFrom c) name).
Proof. intros Hs. apply remove_refines; [done|]. intros. by eapply string_at_is_repr. Qed.

Lemma AddEnvVars_refines c vars Q hs :
  spares (mc_Env c) Q →
  refines (mc_Data c) Q hs (AddEnvVars c vars) (tAddEnvVars (mc_Env c) vars).
Proof.
  intros Hs. apply refines_bind.
  - apply refines_for_all. intros v _. apply refines_bind; [by apply RemoveEnvVars_refines|].
    intros _. apply refines_ret.
  - intros _. assert (∃ ms, EnvVar_json <$> vars = JObj <$> ms) as [ms ->].
    { induction vars as [|v vars [ms IH]]; [by exists []|]. eexists (_ :: ms). csimpl. by rewrite IH. }
    apply refines_from_nil, refines_to_all. intros us. by apply addRaw_refines.
Qed.

Lemma AddEnvFromVar_refines c e Q hs :
  spares (mc_EnvFrom c) Q →
  refines (mc_Data c) Q hs (AddEnvFromVar c e) (tAddEnvFromVar (mc_EnvFrom c) e).
Proof.
  intros Hs. unfold AddEnvFromVar, tAddEnvFromVar. pose proof (RemoveEnvFromVars_refines c (efs_secretRef e) Q hs Hs).
  destruct (mc_EnvFrom c) as [|k path]; [apply refines_ret|].
  apply refines_bind; [done|]. intros _. unfold EnvFromSource_json.
  apply refines_from_nil, refines_to_unstructured. intros u. by apply addRaw_refines.
Qed.

Lemma nested_hget h v path w :
  @NestedFieldNoCopy gval (heap_view h) v path = Found w ↔ hget h (K <$> path) v = Some w.
Proof.
  revert v. induction path as [|k path IH]; intros v; csimpl; [split; congruence|].
  destruct v; simpl; try done. destruct (aget k (cell_at h a)); simpl; [apply IH|done].
Qed.

Lemma find_root_repr F h ls l Y :
  reprs F h (VMap <$> ls) l Y → find_root h ls = tfind_root l.
Proof.
  revert l Y. induction ls as [|a ls IH]; intros l Y Hr; csimpl in Hr; inversion Hr; subst; [done|].
  simpl. erewrite FromUnstructured_repr, !field_string_repr by done. by erewrite IH by done.
Qed.

(** The step of [MountPath] that appends the variable to the list [ls]. *)
Lemma append_root_refines d Q path k name F h j X ls l :
  repr F h (VMap d) j X → d ∉ F → below (length h) F → spares path Q →
  (ls = [] ∧ l = []) ∨
    (NestedResources k h d path = Found ls ∧ tResources k path j = Found l) →
  ∃ F' h' X',
    (u ← to_unstructured root_env; let! _ := setSlice d SliceMap (ls ++ [u]) path in
     mret (Ok (path_Join bindingRoot name))) h =
    (((let! _ := tsetSlice SliceMap (l ++ [root_env]) path in
       mret (Ok (path_Join bindingRoot name))) j : outcome (result string) * json).1, h') ∧
    repr F' h' (VMap d) ((let! _ := tsetSlice SliceMap (l ++ [root_env]) path in
       mret (Ok (path_Join bindingRoot name))) j : outcome (result string) * json).2 X' ∧
    ext F h X F' h' X' ∧ keeps Q d h h'.
Proof.
  intros Hr Hd Hb Hs Hls.
  destruct (alloc_step F h d j X Q [] [] [("name", JStr bindingRootEnvVar); ("value", JStr bindingRoot)]
    Hr Hd Hb ltac:(constructor)) as (F1 & u & h1 & Ha & Hr1 & Hd1 & He1 & Hh1 & Hus1).
  destruct (setSlice_repr F1 h1 d j X Q path Hr1 Hd1 (ext_below _ _ _ _ _ _ He1) Hs)
    as (Yo & HYo & Hold & Hset).
  assert (∃ Y, reprs F1 h1 (VMap <$> ls) l Y ∧ Y ⊆ Yo) as (Y & Hl & HY).
  { destruct Hls as [[-> ->]|[Hn Ht]]; [exists ∅; split; [constructor|apply empty_subseteq]|].
    pose proof (resources_repr _ _ _ _ _ k path Hr) as Hres. rewrite Ht, Hn in Hres.
    destruct Hres as (t & ls' & ? & Hv & Hj). simplify_eq.
    destruct (Hold t l Hj) as (vs & Hv1 & Hrs). exists Yo. split; [|done].
    apply nested_hget in Hv, Hv1. rewrite (hget_frame F h h1 _ _ _ _ Hr) in Hv1.
    - by simplify_eq.
    - intros a Hm. apply (to_unstructured_same _ _ _ _ Ha).
      apply elem_of_union in Hm as [Hm|Hm]; [by eapply repr_dom|by apply Hb]. }
  destruct (Hset SliceMap (ls ++ [u]) (l ++ [root_env]) (Y ∪ ∅)) as (h2 & X2 & E & Hr2 & He2 & Hh2).
  { rewrite fmap_app. apply reprs_app; [done|exact Hus1|set_solver]. }
  { set_by HY. }
  exists F1, h2, X2. unfold rbind, mbind, M_bind, mret, M_ret.
  change root_env with (JObj [("name", JStr bindingRootEnvVar); ("value", JStr bindingRoot)]) in *.
  rewrite Ha, E.
  assert (keeps Q d h h2) as Hq by (intros q Hq; by rewrite Hh2, Hh1).
  clear -Hr2 He1 He2 Hq.
  destruct (tsetSlice _ _ path j) as [[[[]|e]|e] j2]; simpl in *;
    (split_and!; [done|done|by eapply ext_trans|done]).
Qed.

Lemma MountPath_refines c name Q hs :
  spares (mc_Env c) Q →
  refines (mc_Data c) Q hs (MountPath c name) (tMountPath (mc_Env c) name).
Proof.
  intros Hs F h j X Hr Hd Hb Hh.
  pose proof (resources_repr _ _ _ _ _ KEnvVar (mc_Env c) Hr) as Hres.
  pose proof (λ ls l, append_root_refines _ Q _ KEnvVar name F h j X ls l Hr Hd Hb Hs) as Happ.
  unfold MountPath, tMountPath, root_env in *.
  unfold rbind, mbind, M_bind, mret, M_ret, mget in Happ |- *.
  destruct (tResources KEnvVar (mc_Env c) j) as [l| |] eqn:Ht.
  - destruct Hres as (t & ls & Hn & Hv & Hj). rewrite Hn.
    assert (find_root h ls = tfind_root l) as ->.
    { pose proof (repr_nested _ _ _ _ _ (mc_Env c) Hr) as Hx. rewrite Hj in Hx.
      unfold hNestedField in Hv. rewrite Hv in Hx. destruct Hx as [Y Hx]. inversion Hx; subst.
      by eapply find_root_repr. }
    destruct (tfind_root l) as [value|]; [|apply Happ; eauto].
    exists F, h, X. split_and!; [done..|by apply ext_refl|done].
  - rewrite Hres. apply (Happ [] []). eauto.
  - rewrite Hres. exists F, h, X. split_and!; [done..|by apply ext_refl|done].
Qed.
End Theorems.
