(* ===== verification/TreePods.v ===== *)
(** * Pods as trees

    The containers of a workload as positions in its tree, what the handlers
    of [handler/project/impl.go] do to one pod as a function on the tree, and
    the proof that the pointer code refines it. *)

From S2P Require Import Prelude.
From S2P Require Import GoLib.
From S2P Require Import GoValue.
From S2P Require Import JsonPath.
From S2P Require Import Heap.
From S2P Require Import Converter.
From S2P Require Import Workload.
From S2P Require Import Application.
From S2P Require Import Tree.
From S2P Require Import TreeEdit.
From S2P Require Import TreeOps.

(** ** Editing the subtree at a position *)
Definition lift_at {A} (p : pos) (f : M json A) : M json A := λ j,
  match jget p j with
  | Some x => let '(a, x') := f x in (a, jput p x' j)
  | None => (Panic "nothing there", j)
  end.

Section Lift.
Implicit Types (F X Y : gset loc) (h : heap) (hs : list (pos * loc)) (Q : pos → Prop).

(** The positions below [p], seen from there. *)
Definition beneath (p : pos) (Q : pos → Prop) : pos → Prop := λ q, Q (p ++ q).

(** An edit of the map at [p] that writes at [paths] below it is an edit of
    the whole tree. *)
Lemma refines_at {A} r Q hs p d paths (op : M heap A) f :
  (p, d) ∈ hs →
  (∀ Q', Forall (λ path, spares path Q') paths → refines d Q' [] op f) →
  Forall (λ path, spares path (beneath p Q)) paths →
  refines r Q hs op (lift_at p f).
Proof.
  intros Hin Hop Hs F h j X Hr Hrf Hb Hh. rewrite Forall_forall in Hh.
  destruct (Hh _ Hin) as [[Hg Hd] _]. simpl in Hg, Hd.
  destruct (repr_focus _ _ _ _ _ _ _ Hr Hg Hd) as (x & Y & Hx & Hrx & HdY & HY & _ & Hput).
  destruct (Hop _ Hs F h x Y Hrx Hd Hb) as (F' & h' & Y' & E & Hr' & He & Hq); [constructor|].
  pose proof He as [Hlen Hfr Hcells Hgiv Hfresh Hbel].
  assert (∀ a, a ∈ X → a < length h) as HXl
    by (intros a Ha; eapply repr_dom; [exact Hr|done]).
  assert (∀ a, a ∈ X → a ∉ F') as HXF.
  { intros a Ha. eapply ext_kept; [exact He|by apply HXl|].
    eapply repr_own; [exact Hr|done]. }
  destruct (Hput F' h' (f x).2 Y' Hr') as (Hrr & _ & Hg' & Hkeep).
  - by apply HXF, HY.
  - done.
  - intros a Ha. apply HXF. set_by Ha.
  - intros a Ha Ha2. destruct (Hcells a Ha); [set_solver|].
    assert (a < length h) by (apply HXl; set_by Ha2). lia.
  - intros a Ha. apply Hfr.
    + apply elem_of_union in Ha as [Ha|Ha]; [apply HXl; set_by Ha|by apply Hb].
    + intros HaY. apply elem_of_union in Ha as [Ha|Ha]; [set_by Ha HaY|].
      by eapply (repr_own F h _ _ _ _ Hrx).
  - exists F', h', (X ∖ Y ∪ Y'). unfold lift_at. rewrite Hx.
    destruct (f x) as [a x'] eqn:Ef. simpl in *. split_and!; [done|done| |].
    + split; [done| | |done|done|done].
      * intros b Hbl Hn. apply Hfr; [done|]. set_by Hn HY.
      * intros b [Hb'|Hb']%elem_of_union; [left; set_by Hb'|].
        destruct (Hcells b Hb'); [left; by apply HY|by right].
    + intros q HQ. destruct (decide (p `prefix_of` q)) as [[q' ->]|Hn]; [|by apply Hkeep].
      rewrite !hget_app, Hg, Hg'. simpl. by apply Hq.
Qed.
End Lift.

(** A loop that stops at the first error. *)
Fixpoint each_res {S A} (xs : list A) (body : A → M S (result unit)) : M S (result unit) :=
  match xs with
  | [] => mret (Ok tt)
  | x :: xs' => let! _ := body x in each_res xs' body
  end.

Lemma refines_each_res {A B} d Q hs (xs : list A) (ys : list B)
    (k : A → M heap (result unit)) (g : B → M json (result unit)) :
  Forall2 (λ x y, refines d Q hs (k x) (g y)) xs ys → refines d Q hs (each_res xs k) (each_res ys g).
Proof.
  induction 1 as [|x y xs ys Hx _ IH]; simpl; [apply refines_ret|]. by apply refines_rbind.
Qed.

(** ** What the handlers do to a pod *)
Section PodOps.
Context `{Converter}.

(** [BindingsAsFiles]: the volume, and in every container the mount. *)
Definition files_container (bindingName : string) (c : MetaContainer) : M heap (result unit) :=
  let! mountPath := MountPath c bindingName in
  AddVolumeMount c {| vm_name := bindingName; vm_mountPath := mountPath |}.
Definition files_pod (bindingName secretName : string) (pod : MetaPodSpec) : M heap (result unit) :=
  let! _ := AddVolume pod {| vol_name := bindingName; vol_secretName := secretName |} in
  each_res (mp_Containers pod) (files_container bindingName).

(** [BindingsAsEnv]: in every container the reference to the secret, unless
    the binding is projected as files, and the variables. *)
Definition env_container (asFiles : bool) (secretName : string) (vars : list EnvVar) (c : MetaContainer) :
    M heap (result unit) :=
  let! _ := (if asFiles then mret (Ok tt) else AddEnvFromVar c {| efs_secretRef := secretName |}) in
  AddEnvVars c vars.
Definition env_pod (asFiles : bool) (secretName : string) (vars : list EnvVar) (pod : MetaPodSpec) :
    M heap (result unit) :=
  each_res (mp_Containers pod) (env_container asFiles secretName vars).

(** [Unbind]: the volume, and in every container the variables, the reference
    to the secret and the mount. *)
Definition clean_container (bindingName secretName : string) (names : list string) (c : MetaContainer) :
    M heap (result unit) :=
  let! _ := each_res names (RemoveEnvVars c) in
  let! _ := RemoveEnvFromVars c secretName in
  RemoveVolumeMount c bindingName.
Definition clean_pod (bindingName secretName : string) (names : list string) (pod : MetaPodSpec) :
    M heap (result unit) :=
  let! _ := RemoveVolume pod bindingName in
  each_res (mp_Containers pod) (clean_container bindingName secretName names).

(** The same on trees; a container is its position and its part of the
    mapping. *)
Definition tfiles_container (bindingName : string) (c : WorkloadContainer) : M json (result unit) :=
  let! mountPath := tMountPath (wc_env c) bindingName in
  tAddVolumeMount (wc_volumeMounts c) {| vm_name := bindingName; vm_mountPath := mountPath |}.
Definition tfiles_pod (bindingName secretName : string) (volumes : list string)
    (cs : list (pos * WorkloadContainer)) : M json (result unit) :=
  let! _ := tAddVolume volumes {| vol_name := bindingName; vol_secretName := secretName |} in
  each_res cs (λ pc, lift_at pc.1 (tfiles_container bindingName pc.2)).

Definition tenv_container (asFiles : bool) (secretName : string) (vars : list EnvVar)
    (c : WorkloadContainer) : M json (result unit) :=
  let! _ := (if asFiles then mret (Ok tt)
             else tAddEnvFromVar (wc_envFrom c) {| efs_secretRef := secretName |}) in
  tAddEnvVars (wc_env c) vars.
Definition tenv_pod (asFiles : bool) (secretName : string) (vars : list EnvVar) (volumes : list string)
    (cs : list (pos * WorkloadContainer)) : M json (result unit) :=
  each_res cs (λ pc, lift_at pc.1 (tenv_container asFiles secretName vars pc.2)).

Definition tclean_container (bindingName secretName : string) (names : list string)
    (c : WorkloadContainer) : M json (result unit) :=
  let! _ := each_res names (tRemoveEnvVars (wc_env c)) in
  let! _ := tRemoveEnvFromVars (wc_envFrom c) secretName in
  tRemoveVolumeMount (wc_volumeMounts c) bindingName.
Definition tclean_pod (bindingName secretName : string) (names : list string) (volumes : list string)
    (cs : list (pos * WorkloadContainer)) : M json (result unit) :=
  let! _ := tRemoveVolume volumes bindingName in
  each_res cs (λ pc, lift_at pc.1 (tclean_container bindingName secretName names pc.2)).

(** ** Refinement *)

(** The paths a container is edited at. *)
Definition container_paths (c : WorkloadContainer) : list (list string) :=
  [wc_env c; wc_envFrom c; wc_volumeMounts c].
Definition like (mc : MetaContainer) (c : WorkloadContainer) : Prop :=
  mc_Env mc = wc_env c ∧ mc_EnvFrom mc = wc_envFrom c ∧ mc_VolumeMount mc = wc_volumeMounts c.

(** The containers at the positions [cs] and their pointers. *)
Definition pointers (mcs : list MetaContainer) (cs : list (pos * WorkloadContainer)) : list (pos * loc) :=
  zip cs.*1 (mc_Data <$> mcs).

(** The positions of containers: keys, then indices. *)
Definition element_pos (fields : list string) (ix : list nat) : pos := (K <$> fields) ++ (I <$> ix).

(** Below the lists [fss]. *)
Definition container_pos (fss : list (list string)) (q : pos) : Prop :=
  ∃ fields ix, fields ∈ fss ∧ ix ≠ [] ∧ q = element_pos fields ix.

(** The lists of containers are not inside the volumes, and every list that
    is edited has a name. *)
Definition apart (volumes : list string) (fss : list (list string)) (cs : list WorkloadContainer) : Prop :=
  Forall (λ fields, ¬ volumes `prefix_of` fields) fss ∧
  Forall (λ c, Forall (λ path, path ≠ []) (container_paths c)) cs.

Lemma element_pos_app fields ix q fields' ix' :
  ix ≠ [] → element_pos fields ix ++ q = element_pos fields' ix' → ∃ ixs, q = I <$> ixs.
Proof.
  unfold element_pos. intros Hne. revert fields'. induction fields as [|f fields IH]; intros [|f' fields'] E; csimpl in *.
  - revert ix' E. clear Hne. induction ix as [|i ix IH]; intros [|i' ix'] E; csimpl in E; simplify_eq.
    + by exists [].
    + by exists (i' :: ix').
    + by eapply IH.
  - by destruct ix.
  - by destruct ix'.
  - simplify_eq. by eapply IH.
Qed.

Lemma keys_indices_prefix path ix : path ≠ [] → ¬ (K <$> path) `prefix_of` (I <$> ix).
Proof. intros Hp [t E]. by destruct path, ix. Qed.

Lemma indices_keys_prefix path ix : ix ≠ [] → ¬ (I <$> ix) `prefix_of` (K <$> path).
Proof. intros Hp [t E]. by destruct path, ix. Qed.

Lemma keys_element_prefix volumes fields ix :
  (K <$> volumes) `prefix_of` element_pos fields ix → volumes `prefix_of` fields.
Proof.
  unfold element_pos. revert fields. induction volumes as [|v vs IH]; intros fields [t E]; [apply prefix_nil|].
  destruct fields as [|f fields]; csimpl in E; [by destruct ix|]. simplify_eq.
  apply prefix_cons, IH. by exists t.
Qed.

Lemma element_keys_prefix volumes fields ix :
  ix ≠ [] → ¬ element_pos fields ix `prefix_of` (K <$> volumes).
Proof.
  unfold element_pos. intros Hne. revert volumes. induction fields as [|f fields IH]; intros volumes [t E]; csimpl in E.
  - by destruct ix, volumes.
  - destruct volumes as [|v volumes]; csimpl in E; simplify_eq. apply (IH volumes). by exists t.
Qed.

Lemma volumes_spare volumes fss cs : apart volumes fss cs → spares volumes (container_pos fss).
Proof.
  intros [Hv _] q (fields & ix & Hf & Hne & ->). right. rewrite Forall_forall in Hv. split.
  - intros Hp%keys_element_prefix. by apply (Hv fields).
  - by apply element_keys_prefix.
Qed.

Lemma paths_spare volumes fss cs c p :
  apart volumes fss cs → c ∈ cs → container_pos fss p →
  Forall (λ path, spares path (beneath p (container_pos fss))) (container_paths c).
Proof.
  intros [_ Hc] Hin (fields & ix & _ & Hne & ->). rewrite Forall_forall in Hc.
  eapply Forall_impl; [by apply Hc|]. intros path Hpath q (fields' & ix' & _ & _ & E).
  simpl in Hpath. apply element_pos_app in E as [ixs ->]; [|done].
  destruct ixs as [|i ixs]; [by left|right].
  split; [by apply keys_indices_prefix|by apply indices_keys_prefix].
Qed.

Lemma spares_one paths path Q :
  Forall (λ path, spares path Q) paths → path ∈ paths → spares path Q.
Proof. rewrite Forall_forall. auto. Qed.

Ltac spare Hs E1 E2 E3 :=
  eapply spares_one; [exact Hs|]; unfold container_paths; rewrite ?E1, ?E2, ?E3; set_solver.

Lemma files_container_refines name mc c Q :
  like mc c → Forall (λ path, spares path Q) (container_paths c) →
  refines (mc_Data mc) Q [] (files_container name mc) (tfiles_container name c).
Proof.
  intros (E1 & E2 & E3) Hs. unfold files_container, tfiles_container. rewrite <- E1, <- E3.
  apply refines_rbind; [apply MountPath_refines|intros m; apply AddVolumeMount_refines]; spare Hs E1 E2 E3.
Qed.

Lemma env_container_refines asFiles secretName vars mc c Q :
  like mc c → Forall (λ path, spares path Q) (container_paths c) →
  refines (mc_Data mc) Q [] (env_container asFiles secretName vars mc)
    (tenv_container asFiles secretName vars c).
Proof.
  intros (E1 & E2 & E3) Hs. unfold env_container, tenv_container. rewrite <- E1, <- E2.
  apply refines_rbind; [destruct asFiles; [apply refines_ret|apply AddEnvFromVar_refines]
                       |intros m; apply AddEnvVars_refines]; spare Hs E1 E2 E3.
Qed.

Lemma clean_container_refines name secretName names mc c Q :
  like mc c → Forall (λ path, spares path Q) (container_paths c) →
  refines (mc_Data mc) Q [] (clean_container name secretName names mc)
    (tclean_container name secretName names c).
Proof.
  intros (E1 & E2 & E3) Hs. unfold clean_container, tclean_container. rewrite <- E1, <- E2, <- E3.
  apply refines_rbind; [apply refines_each_res, Forall2_same_length_lookup; split; [done|];
                        intros i x y Hx Hy; simplify_eq; apply RemoveEnvVars_refines
                       |intros _; apply refines_rbind; [apply RemoveEnvFromVars_refines
                                                       |intros _; apply RemoveVolumeMount_refines]];
    spare Hs E1 E2 E3.
Qed.

(** The containers [mcs] of a pod are those at the positions [cs]. *)
Record located (fss : list (list string)) (mcs : list MetaContainer) (cs : list (pos * WorkloadContainer)) : Prop := {
  located_like : Forall2 (λ mc pc, like mc pc.2) mcs cs;
  located_pos : Forall (λ pc, container_pos fss pc.1) cs
}.

(** An edit of every container of a pod. *)
Lemma containers_refine r volumes fss mcs cs (k : MetaContainer → M heap (result unit)) g :
  located fss mcs cs → apart volumes fss cs.*2 →
  (∀ mc c Q, like mc c → Forall (λ path, spares path Q) (container_paths c) →
     refines (mc_Data mc) Q [] (k mc) (g c)) →
  refines r (container_pos fss) (pointers mcs cs)
    (each_res mcs k) (each_res cs (λ pc, lift_at pc.1 (g pc.2))).
Proof.
  intros [Hlike Hpos] Hap Hk. apply refines_each_res, Forall2_same_length_lookup.
  split; [by eapply Forall2_length|]. intros i mc [p c] Hmc Hpc.
  apply refines_at with (mc_Data mc) (container_paths c).
  - unfold pointers. apply list_elem_of_lookup. exists i.
    by rewrite lookup_zip_with, !list_lookup_fmap, Hmc, Hpc.
  - intros Q' Hs'. apply Hk; [|done]. exact (Forall2_lookup_lr _ _ _ i _ _ Hlike Hmc Hpc).
  - eapply paths_spare; [exact Hap| |].
    + apply list_elem_of_fmap. exists (p, c). split; [done|]. by eapply list_elem_of_lookup_2.
    + exact (Forall_lookup_1 _ _ _ _ Hpos Hpc).
Qed.

(** What one pod is edited by, and the reference function. *)
Definition pod_refines (op : MetaPodSpec → M heap (result unit))
    (f : list string → list (pos * WorkloadContainer) → M json (result unit)) : Prop :=
  ∀ pod fss cs, located fss (mp_Containers pod) cs → apart (mp_Volume pod) fss cs.*2 →
    refines (mp_Data pod) (container_pos fss) (pointers (mp_Containers pod) cs)
      (op pod) (f (mp_Volume pod) cs).

Lemma files_pod_refines name secretName :
  pod_refines (files_pod name secretName) (tfiles_pod name secretName).
Proof.
  intros pod fss cs Hloc Hap. apply refines_rbind; [by eapply AddVolume_refines, volumes_spare|].
  intros _. eapply containers_refine; [done..|]. apply files_container_refines.
Qed.

Lemma env_pod_refines asFiles secretName vars :
  pod_refines (env_pod asFiles secretName vars) (tenv_pod asFiles secretName vars).
Proof.
  intros pod fss cs Hloc Hap. eapply containers_refine; [done..|]. apply env_container_refines.
Qed.

Lemma clean_pod_refines name secretName names :
  pod_refines (clean_pod name secretName names) (tclean_pod name secretName names).
Proof.
  intros pod fss cs Hloc Hap. apply refines_rbind; [by eapply RemoveVolume_refines, volumes_spare|].
  intros _. eapply containers_refine; [done..|]. apply clean_container_refines.
Qed.
End PodOps.
