(* ===== verification/TreeApps.v ===== *)
(** * The containers of a workload as positions in its tree

    [BindablePods] finds the containers by JSONPath and hands out pointers to
    them.  For mappings whose container paths have the form [.a.b.c[*]] (the
    default mapping of pod templates and the ones in the documentation) the
    containers are computed here from the tree alone, as positions. *)

From S2P Require Import Prelude.
From S2P Require Import GoLib.
From S2P Require Import GoValue.
From S2P Require Import JsonPath.
From S2P Require Import Heap.
From S2P Require Import Converter.
From S2P Require Import Kube.
From S2P Require Import Apis.
From S2P Require Import Workload.
From S2P Require Import Application.
From S2P Require Import Tree.
From S2P Require Import TreeEdit.
From S2P Require Import TreeOps.
From S2P Require Import TreePods.

(** [.a.b.c[*]]. *)
Definition element_path (fields : list string) : JSONPath :=
  Template [NodeList (map NodeField fields ++ [all_elements])].

(** The lists the container paths of a mapping run over. *)
Definition laid_out (cs : list WorkloadContainer) (fss : list (list string)) : Prop :=
  Forall2 (λ c fields, wc_path c = element_path fields) cs fss.

Fixpoint enum {A} (i : nat) (l : list A) : list (nat * A) :=
  match l with [] => [] | x :: l' => (i, x) :: enum (S i) l' end.

(** The containers an element of the list stands for: itself, or the elements
    of a nested list. *)
Definition tcontainer_maps (p : pos) (x : json) : result (list pos) :=
  match x with
  | JArr SliceAny l =>
      map_res (λ ic, match ic.2 with JObj _ => Ok (p ++ [I ic.1]) | _ => Err convert_error end) (enum 0 l)
  | JObj _ => Ok [p]
  | _ => Err convert_error
  end.

Definition tname (c : WorkloadContainer) (j : json) (p : pos) : string :=
  match jget p j with
  | Some x => match NestedString x (wc_name c) with Found name => name | _ => "" end
  | None => ""
  end.

Definition tselected (names : list string) (c : WorkloadContainer) (j : json) (p : pos) :
    list (pos * WorkloadContainer) :=
  if (length names =? 0) || bool_decide (tname c j p ∈ names) then [(p, c)] else [].

Definition tpath_containers (names : list string) (cf : WorkloadContainer * list string) (j : json) :
    result (list (pos * WorkloadContainer)) :=
  match NestedFieldNoCopy j cf.2 with
  | Found (JArr _ l) =>
      let? pss := map_res (λ ix, tcontainer_maps (element_pos cf.2 [ix.1]) ix.2) (enum 0 l) in
      Ok (flat_map (tselected names cf.1 j) (concat pss))
  | _ => Ok []
  end.

(** [BindablePods]. *)
Definition tBindablePods (names : list string) (cs : list WorkloadContainer) (fss : list (list string))
    (j : json) : result (list (pos * WorkloadContainer)) :=
  let? l := map_res (λ cf, tpath_containers names cf j) (zip cs fss) in
  match concat l with
  | [] => Err (ENew "no containers found in application resource")
  | l => Ok l
  end.

(** The lists of a mapping, when all its container paths have that form and
    the lists that are edited are apart. *)
Fixpoint fields_of (ns : list node) : option (list string) :=
  match ns with
  | [NodeArray {| p_value := 0; p_known := false; p_derived := false |}
               {| p_value := 0; p_known := false; p_derived := false |}
               {| p_value := 0; p_known := false; p_derived := false |}] => Some []
  | NodeField f :: ns' => (f ::.) <$> fields_of ns'
  | _ => None
  end.

Definition list_of (c : WorkloadContainer) : option (list string) :=
  match wc_path c with Template [NodeList ns] => fields_of ns | _ => None end.

#[export] Instance apart_dec volumes fss cs : Decision (apart volumes fss cs).
Proof. unfold apart. apply _. Defined.

Definition layout (m : WorkloadMapping) : option (list (list string)) :=
  fss ← mapM list_of (wm_containers m);
  if decide (apart (wm_volume m) fss (wm_containers m)) then Some fss else None.

Lemma fields_of_path ns fields :
  fields_of ns = Some fields → ns = map NodeField fields ++ [all_elements].
Proof.
  revert fields. induction ns as [|n ns IH]; intros fields Hf; [done|].
  destruct n; try (by destruct ns); simpl in Hf.
  - apply fmap_Some in Hf as (fs & Hf & ->). simpl. by rewrite <- (IH fs).
  - destruct from as [[] [] []], to as [[] [] []], step as [[] [] []], ns; try done. by simplify_eq.
Qed.

Lemma layout_spec m fss :
  layout m = Some fss → laid_out (wm_containers m) fss ∧ apart (wm_volume m) fss (wm_containers m).
Proof.
  unfold layout. intros (gss & Hm & Hd)%bind_Some. case_decide; simplify_eq. split; [|done].
  apply mapM_Some in Hm. eapply Forall2_impl; [exact Hm|]. intros c fields. unfold list_of.
  destruct (wc_path c) as [[|[] []]|] eqn:E; try done. by intros ->%fields_of_path.
Qed.

(** ** JSONPath evaluation of such a path *)
Section Walk.
Context {V : Type} `{GoView V}.

Lemma walk_fields_err (v : V) fields :
  (∀ w, NestedFieldNoCopy v fields ≠ Found w) →
  ∃ e, walk (NodeList (map NodeField fields)) [v] = Err e.
Proof.
  revert v. induction fields as [|f fields IH]; intros v Hv; simpl in *; [by destruct (Hv v)|].
  destruct (view v) as [| | | | | |m]; try (eexists; done).
  destruct (aget f m) as [v1|]; [|eexists; done]. simpl. by apply IH.
Qed.

Lemma walk_element_path (v : V) fields :
  match NestedFieldNoCopy v fields with
  | Found w =>
      match view w with
      | SSlice _ l => walk (NodeList (map NodeField fields ++ [all_elements])) [v] = Ok l
      | SNil => walk (NodeList (map NodeField fields ++ [all_elements])) [v] = Ok []
      | _ => ∃ e, walk (NodeList (map NodeField fields ++ [all_elements])) [v] = Err e
      end
  | _ => ∃ e, walk (NodeList (map NodeField fields ++ [all_elements])) [v] = Err e
  end.
Proof.
  rewrite walk_list_app.
  destruct (NestedFieldNoCopy v fields) as [w| |] eqn:Hn.
  - rewrite (walk_fields v w fields Hn). cbn [res_bind].
    assert (walk (NodeList [all_elements]) [w] = res_bind (walk all_elements [w]) Ok) as -> by done.
    destruct (view w) as [| | | | |t l|] eqn:Ew; try (simpl; rewrite Ew; by eexists).
    by rewrite (walk_all_elements w t l Ew).
  - destruct (walk_fields_err v fields) as [e ->]; [by rewrite Hn|by eexists].
  - destruct (walk_fields_err v fields) as [e' ->]; [by rewrite Hn|by eexists].
Qed.
End Walk.

(** ** The containers on the store and in the tree *)
Section Containers.
Context `{JSONPathLib}.
Implicit Types (F X Y : gset loc) (h : heap).

(** The container [mc] is the one at the position [pc]. *)
Definition found_at (fss : list (list string)) (h : heap) (r : loc) (mc : MetaContainer)
    (pc : pos * WorkloadContainer) : Prop :=
  like mc pc.2 ∧ container_pos fss pc.1 ∧ hget h pc.1 (VMap r) = Some (VMap (mc_Data mc)).

(** Results that agree, errors included. *)
Definition agree {A B} (R : list A → list B → Prop) (x : result (list A)) (y : result (list B)) : Prop :=
  match x, y with
  | Ok a, Ok b => R a b
  | Err e, Err e' => e = e'
  | _, _ => False
  end.

Lemma agree_concat {A B C D} (R : C → D → Prop) (f : A → result (list C)) (g : B → result (list D)) xs ys :
  Forall2 (λ x y, agree (Forall2 R) (f x) (g y)) xs ys →
  agree (λ a b, Forall2 R (concat a) (concat b)) (map_res f xs) (map_res g ys).
Proof.
  induction 1 as [|x y xs ys Hxy _ IH]; simpl; [constructor|]. unfold agree in *.
  destruct (f x), (g y); simpl; try done.
  destruct (map_res f xs), (map_res g ys); simpl; try done. by apply Forall2_app.
Qed.

Definition pointer_at (h : heap) (r b : loc) (p : pos) : Prop := hget h p (VMap r) = Some (VMap b).

(** The elements of a list, with the positions below [base]. *)
Lemma elements_agree F h r base vs js X i
    (f : gval → result (list loc)) (g : pos → json → result (list pos)) :
  reprs F h vs js X → (∀ n v, vs !! n = Some v → hget h (base ++ [I (i + n)]) (VMap r) = Some v) →
  (∀ v x Y p, repr F h v x Y → hget h p (VMap r) = Some v →
     agree (Forall2 (pointer_at h r)) (f v) (g p x)) →
  Forall2 (λ v ix, agree (Forall2 (pointer_at h r)) (f v) (g (base ++ [I ix.1]) ix.2)) vs (enum i js).
Proof.
  intros Hr Hg Hfg. revert i Hg. induction Hr as [|v vs x js X1 X2 Hv Hvs IH Hd]; intros i Hg; simpl; constructor.
  - eapply Hfg; [exact Hv|]. specialize (Hg 0 v eq_refl). by rewrite Nat.add_0_r in Hg.
  - apply IH. intros n w Hw. specialize (Hg (S n) w Hw). by rewrite Nat.add_succ_r in Hg.
Qed.

Lemma concat_singles {A B E} (f : A → res E B) (xs : list A) :
  map_res (λ x, let? y := f x in Ok [y]) xs = let? l := map_res f xs in Ok ((λ y, [y]) <$> l).
Proof.
  induction xs as [|x xs IH]; [done|]. simpl. rewrite IH. destruct (f x); [|done]. simpl.
  by destruct (map_res f xs).
Qed.

Lemma container_maps_agree F h r v x Y p :
  repr F h v x Y → hget h p (VMap r) = Some v →
  agree (Forall2 (pointer_at h r)) (container_maps v) (tcontainer_maps p x).
Proof.
  intros Hr Hg. inversion Hr as [| | | | |t vs js X Hrs| |]; subst; simpl; try done; try by repeat constructor.
  destruct t; try done.
  assert (Forall2 (λ c ic, agree (Forall2 (pointer_at h r))
    (let? b := match c with VMap b => Ok b | _ => Err convert_error end in Ok [b])
    (let? q := match ic.2 with JObj _ => Ok (p ++ [I ic.1]) | _ => Err convert_error end in Ok [q]))
    vs (enum 0 js)) as HF.
  { eapply (elements_agree F h r p vs js _ 0
      (λ c, let? b := match c with VMap b => Ok b | _ => Err convert_error end in Ok [b])
      (λ q y, let? q := match y with JObj _ => Ok q | _ => Err convert_error end in Ok [q])); [done| |].
    - intros n w Hw. rewrite hget_app, Hg. simpl. by rewrite Hw.
    - intros w y Z q Hw Hq. inversion Hw; subst; simpl; try done; by repeat constructor. }
  apply agree_concat in HF. rewrite !concat_singles in HF. unfold agree in *.
  destruct (map_res _ vs) as [bs|], (map_res _ (enum 0 js)) as [ps|]; simpl in *; try done.
  assert (∀ {A} (l : list A), concat ((λ y, [y]) <$> l) = l) as Hc.
  { intros A l. induction l as [|z l IHl]; [done|]. csimpl. by rewrite IHl. }
  by rewrite !Hc in HF.
Qed.

Lemma map_res_Forall {A B E} (P : B → Prop) (f : A → res E B) xs ys :
  (∀ x y, x ∈ xs → f x = Ok y → P y) → map_res f xs = Ok ys → Forall P ys.
Proof.
  revert ys. induction xs as [|x xs IH]; intros ys Hf Hm; simpl in Hm; [by simplify_eq|].
  destruct (f x) as [y|] eqn:Ex; [|done]. simpl in Hm.
  destruct (map_res f xs) as [ys'|]; simplify_eq/=. constructor; [eapply Hf; [|exact Ex]; set_solver|].
  apply IH; [|done]. intros x' y' Hin. apply Hf. set_solver.
Qed.

Lemma tcontainer_maps_pos fss fields i x ps :
  fields ∈ fss → tcontainer_maps (element_pos fields [i]) x = Ok ps → Forall (container_pos fss) ps.
Proof.
  intros Hin. destruct x as [| | | | |t l|m]; simpl; try done.
  - destruct t; try done. apply map_res_Forall. intros [k y] q _. simpl.
    destruct y; try done. intros ?; simplify_eq. exists fields, [i; k]. split_and!; [done..|].
    unfold element_pos. by rewrite <- app_assoc.
  - intros ?; simplify_eq. constructor; [|constructor]. by exists fields, [i].
Qed.

Lemma selected_agree F h r j X names c fss b p :
  repr F h (VMap r) j X → pointer_at h r b p → container_pos fss p →
  Forall2 (found_at fss h r) (selected h names c b) (tselected names c j p).
Proof.
  intros Hr Hp Hpos. destruct (repr_hget _ _ _ _ _ _ _ Hr Hp) as (x & Y & Hx & Hb).
  unfold selected, tselected, tname. rewrite Hx. simpl.
  unfold hNestedString. rewrite (repr_nested_string _ _ _ _ _ (wc_name c) Hb).
  destruct (_ || _); repeat constructor; done.
Qed.

Lemma flat_map_agree {A B C D} (R : C → D → Prop) (f : A → list C) (g : B → list D) xs ys :
  Forall2 (λ x y, Forall2 R (f x) (g y)) xs ys → Forall2 R (flat_map f xs) (flat_map g ys).
Proof. induction 1; simpl; [constructor|]. by apply Forall2_app. Qed.

Lemma path_containers_agree F h r j X names c fields fss :
  repr F h (VMap r) j X → wc_path c = element_path fields → fields ∈ fss →
  ∃ res, path_containers h r names c = Ret res ∧
    agree (Forall2 (found_at fss h r)) res (tpath_containers names (c, fields) j).
Proof.
  intros Hr Hc Hf. unfold path_containers, tpath_containers. rewrite Hc. cbn [FindResults element_path map_res fst snd].
  pose proof (@walk_element_path gval (heap_view h) (VMap r) fields) as Hw.
  pose proof (repr_nested _ _ _ _ _ fields Hr) as Hn.
  destruct (NestedFieldNoCopy j fields) as [x| |],
    (@NestedFieldNoCopy gval (heap_view h) (VMap r) fields) as [v| |] eqn:Hv; try done.
  2:{ destruct Hw as [e ->]. eexists. split; [done|]. constructor. }
  2:{ destruct Hw as [e' ->]. eexists. split; [done|]. constructor. }
  destruct Hn as [Y Hn].
  inversion Hn as [| | | | |t vs js Y' Hrs| |]; subst; cbn [view heap_view] in Hw;
    try (match type of Hw with ex _ => destruct Hw as [? ->] end; eexists; split; [done|]; constructor);
    rewrite Hw; (eexists; split; [reflexivity|]); [constructor|].
  apply nested_hget in Hv.
  assert (Forall2 (λ v ix, agree (Forall2 (pointer_at h r)) (container_maps v)
            (tcontainer_maps (element_pos fields [ix.1]) ix.2)) vs (enum 0 js)) as HF.
  { eapply (elements_agree F h r (K <$> fields) vs js _ 0 container_maps tcontainer_maps); [done| |].
    - intros n w Hw'. rewrite hget_app, Hv. simpl. by rewrite Hw'.
    - intros. by eapply container_maps_agree. }
  apply agree_concat in HF. unfold agree in *.
  destruct (map_res container_maps vs) as [bss|] eqn:Eb,
    (map_res _ (enum 0 js)) as [pss|] eqn:Ep; simpl; try done.
  apply flat_map_agree. apply Forall2_same_length_lookup.
  split; [by eapply Forall2_length|]. intros i b p Hb Hp.
  eapply selected_agree; [exact Hr|exact (Forall2_lookup_lr _ _ _ _ _ _ HF Hb Hp)|].
  assert (Forall (Forall (container_pos fss)) pss) as Hpos.
  { eapply map_res_Forall; [|exact Ep]. intros [k y] ps _. by apply tcontainer_maps_pos. }
  apply Forall_concat in Hpos. exact (Forall_lookup_1 _ _ _ _ Hpos Hp).
Qed.

Lemma all_containers_agree F h r j X names cs fss gss :
  repr F h (VMap r) j X → laid_out cs gss → gss ⊆ fss →
  ∃ res, all_containers h r names cs = Ret res ∧
    agree (Forall2 (found_at fss h r)) res
      (let? l := map_res (λ cf, tpath_containers names cf j) (zip cs gss) in Ok (concat l)).
Proof.
  intros Hr Hl. induction Hl as [|c fields cs gss Hc _ IH]; intros Hsub; simpl.
  { eexists. split; [done|]. constructor. }
  destruct (path_containers_agree F h r j X names c fields fss Hr Hc ltac:(set_solver)) as (res & -> & Hres).
  destruct IH as (res' & -> & Hres'); [set_solver|]. unfold agree in *.
  destruct res as [l|e], (tpath_containers names (c, fields) j) as [l1|e1]; simpl; try done.
  2:{ subst. by eexists. }
  destruct (map_res _ (zip cs gss)) as [ll|e2]; simpl in *.
  - destruct res' as [l'|]; [|done]. eexists. split; [done|]. simpl. by apply Forall2_app.
  - destruct res' as [|e']; [done|]. subst. by eexists.
Qed.

(** The containers found are containers of the mapping. *)
Lemma tBindablePods_containers names cs fss j l :
  tBindablePods names cs fss j = Ok l → Forall (λ pc, pc.2 ∈ cs) l.
Proof.
  unfold tBindablePods. destruct (map_res _ (zip cs fss)) as [ll|] eqn:E; [|done]. simpl. intros Hl.
  assert (l = concat ll) as -> by (destruct (concat ll); simplify_eq; done). clear Hl.
  apply Forall_concat. eapply map_res_Forall; [|exact E]. intros [c fields] l' Hin Hl'.
  apply elem_of_zip_l in Hin. unfold tpath_containers in Hl'. cbn [fst snd] in Hl'.
  destruct (NestedFieldNoCopy j fields) as [[]| |]; simplify_eq; try constructor.
  destruct (map_res _ (enum 0 l)) as [pss|]; simplify_eq/=.
  apply Forall_flat_map, Forall_true. intros p. unfold tselected.
  destruct (_ || _); repeat constructor. done.
Qed.

(** The containers of a tree are live: none of them was given up. *)
Definition open_at (F : gset loc) (h : heap) (r : loc) (fss : list (list string)) : Prop :=
  ∀ q d, container_pos fss q → hget h q (VMap r) = Some (VMap d) → d ∉ F.

(** The application [a] holds the tree [j]: in its copy, or in what was read
    from the cluster while there is no copy yet. *)
Definition app_repr (F : gset loc) (h : heap) (a : application) (j : json) (X : gset loc) : Prop :=
  ∃ fss, layout (a_resourceMapping a) = Some fss ∧
    match a_resource a with
    | None => a_persistedResource a = j ∧ deep_copyable j = true ∧ (∃ m, j = JObj m) ∧ X = ∅
    | Some r => repr F h (VMap r) j X ∧ (r ∉ F) ∧ open_at F h r fss
    end.

Lemma open_at_kept F h r j X F' h' X' fss :
  repr F h (VMap r) j X → ext F h X F' h' X' → keeps (container_pos fss) r h h' →
  open_at F h r fss → open_at F' h' r fss.
Proof.
  intros Hr He Hk Ho q d Hq Hg. rewrite Hk in Hg by done. specialize (Ho q d Hq Hg).
  destruct (repr_hget _ _ _ _ _ _ _ Hr Hg) as (x & Y & _ & Hx).
  eapply ext_kept; [exact He| |done]. by eapply repr_dom, repr_handle.
Qed.

(** The first call of [Resource] makes the copy. *)
Lemma Resource_repr F h a j X :
  app_repr F h a j X → below (length h) F →
  ∃ fss r h' X', layout (a_resourceMapping a) = Some fss ∧
    Resource (h, a) = (Ret r, (h', with_resource (Some r) a)) ∧
    repr F h' (VMap r) j X' ∧ (r ∉ F) ∧ open_at F h' r fss ∧
    h `prefix_of` h' ∧ (∀ b, b ∈ X' → b ∈ X ∨ length h ≤ b).
Proof.
  intros (fss & Hl & Ha) Hb. exists fss. unfold Resource. m_unfold. simpl.
  destruct (a_resource a) as [r|] eqn:Er.
  - destruct Ha as (Hr & HrF & Ho). exists r, h, X. split_and!; [done| |done..|auto].
    do 2 f_equal. destruct a; simpl in *. by subst.
  - destruct Ha as (Hj & Hd & [m Hm] & ->). unfold on_heap, zoom, DeepCopyJSONValue. rewrite Hj, Hd. simpl.
    destruct (alloc_json j h) as [v h'] eqn:E.
    destruct (alloc_json_repr F j h v h' E Hb) as (Hp & Hlv & X' & Hr & HX).
    destruct (alloc_json_repr ∅ j h v h' E ltac:(by intros ? ?%elem_of_empty)) as (_ & _ & X0 & Hr0 & HX0).
    destruct v; try (rewrite Hm in Hr; by inversion Hr). exists a0, h', X'.
    split_and!; [done..| |done|].
    + intros q d _ Hg.
      destruct (repr_focus _ _ _ _ _ _ _ Hr0 Hg ltac:(set_solver)) as (x & Y & _ & _ & Hin & Hsub & _).
      intros HF. specialize (Hb d HF). specialize (HX0 d (Hsub d Hin)). lia.
    + intros b Hin. right. specialize (HX b Hin). lia.
Qed.

(** [BindablePods] finds the containers of the tree. *)
Lemma BindablePods_repr F h a j X :
  app_repr F h a j X → below (length h) F →
  ∃ fss r h' X' res, layout (a_resourceMapping a) = Some fss ∧
    BindablePods (h, a) = (Ret res, (h', with_resource (Some r) a)) ∧
    repr F h' (VMap r) j X' ∧ (r ∉ F) ∧ open_at F h' r fss ∧
    h `prefix_of` h' ∧ (∀ b, b ∈ X' → b ∈ X ∨ length h ≤ b) ∧
    match res, tBindablePods (a_bindableContainerNames a) (wm_containers (a_resourceMapping a)) fss j with
    | Ok pod, Ok cs => mp_Data pod = r ∧ mp_Volume pod = wm_volume (a_resourceMapping a) ∧
        Forall2 (found_at fss h' r) (mp_Containers pod) cs
    | Err e, Err e' => e = e'
    | _, _ => False
    end.
Proof.
  intros Ha Hb. destruct (Resource_repr F h a j X Ha Hb) as (fss & r & h' & X' & Hl & E & Hr & HrF & Ho & Hp & HX).
  destruct (layout_spec _ _ Hl) as [Hlay _].
  destruct (all_containers_agree F h' r j X' (a_bindableContainerNames a) _ fss fss Hr Hlay ltac:(done))
    as (cres & Ec & Hagree).
  unfold tBindablePods, agree in *. exists fss, r, h', X'. unfold BindablePods.
  unfold mbind, M_bind, mret, M_ret, mget. rewrite E. simpl. rewrite Ec.
  destruct (map_res _ (zip _ fss)) as [ll|e]; simpl in Hagree |- *.
  - destruct cres as [l|]; [|done]. destruct l as [|mc l], (concat ll) as [|pc cs];
      try (by inversion Hagree); eexists; split_and!; done.
  - destruct cres as [|e']; [done|]. subst. eexists. split_and!; done.
Qed.
End Containers.
