(* ===== verification/Projection.v ===== *)
(** * What the projecting handlers do to the workloads

    The handlers [BindingsAsEnv], [BindingsAsFiles] and [Unbind] of
    [handler/project/impl.go] as functions on the trees of the applications:
    every application in turn, until one fails.  The theorems show that the
    handlers, which edit copies of the workloads through pointers, compute
    these functions. *)

From S2P Require Import Prelude.
From S2P Require Import GoLib.
From S2P Require Import GoValue.
From S2P Require Import JsonPath.
From S2P Require Import Heap.
From S2P Require Import Converter.
From S2P Require Import Kube.
From S2P Require Import Apis.
From S2P Require Import Binding.
From S2P Require Import Service.
From S2P Require Import Workload.
From S2P Require Import Application.
From S2P Require Import Context.
From S2P Require Import Kinds.
From S2P Require Import Project.
From S2P Require Import Tree.
From S2P Require Import TreeEdit.
From S2P Require Import TreeOps.
From S2P Require Import TreePods.
From S2P Require Import TreeApps.

(** ** Several applications *)
Section Apps.
Implicit Types (F X Y : gset loc) (h : heap).

(** The applications hold the trees, in separate cells. *)
Inductive apps_repr (F : gset loc) (h : heap) : list application → list json → gset loc → Prop :=
| apps_repr_nil : apps_repr F h [] [] ∅
| apps_repr_cons a l j js X Y :
    app_repr F h a j X → apps_repr F h l js Y → X ## Y → apps_repr F h (a :: l) (j :: js) (X ∪ Y).

Lemma app_repr_dom F h a j X b : app_repr F h a j X → b ∈ X → b < length h.
Proof.
  intros (fss & _ & Ha). destruct (a_resource a).
  - destruct Ha as (Hr & _). by eapply repr_dom.
  - destruct Ha as (_ & _ & _ & ->). by intros ?%elem_of_empty.
Qed.

Lemma apps_repr_dom F h l js X b : apps_repr F h l js X → b ∈ X → b < length h.
Proof.
  induction 1 as [|a l j js X Y Ha _ IH _]; [by intros ?%elem_of_empty|].
  intros [?|?]%elem_of_union; [by eapply app_repr_dom|by apply IH].
Qed.

Lemma apps_repr_length F h l js X : apps_repr F h l js X → length l = length js.
Proof. induction 1; simpl; congruence. Qed.

(** An application is not affected by an edit of other cells. *)
Lemma app_repr_ext F h a j X F' h' Z Z' :
  app_repr F h a j X → ext F h Z F' h' Z' → X ## Z → F ## Z → below (length h) F →
  app_repr F' h' a j X.
Proof.
  intros (fss & Hl & Ha) He Hd HFZ Hb. exists fss. split; [done|].
  destruct (a_resource a) as [r|]; [|done]. destruct Ha as (Hr & HrF & Ho).
  assert (∀ b, b ∈ X ∪ F → h' !! b = h !! b) as Hsame.
  { intros b Hin. eapply ext_frame; [exact He| |set_solver].
    apply elem_of_union in Hin as [?|?]; [by eapply repr_dom|by apply Hb]. }
  assert (∀ b, b < length h → b ∉ F → b ∉ F') as Hkept by (intros b; by eapply ext_kept).
  split_and!.
  - apply repr_give with F; [by eapply repr_frame|by eapply ext_given|].
    intros b Hin. apply Hkept; [by eapply repr_dom|by eapply repr_own].
  - apply Hkept; [by eapply repr_dom, repr_handle|done].
  - intros q d Hq Hg. erewrite hget_frame in Hg by done. specialize (Ho q d Hq Hg).
    destruct (repr_hget _ _ _ _ _ _ _ Hr Hg) as (x & Y & _ & Hx).
    apply Hkept; [by eapply repr_dom, repr_handle|done].
Qed.

Lemma app_repr_own F h a j X : app_repr F h a j X → F ## X.
Proof.
  intros (fss & _ & Ha). destruct (a_resource a).
  - destruct Ha as (Hr & _). intros b HF HX. by eapply repr_own.
  - destruct Ha as (_ & _ & _ & ->). set_solver.
Qed.

Lemma apps_repr_ext F h l js X F' h' Z Z' :
  apps_repr F h l js X → ext F h Z F' h' Z' → X ## Z → F ## Z → below (length h) F →
  apps_repr F' h' l js X.
Proof.
  induction 1 as [|a l j js X Y Ha _ IH Hd]; intros; constructor.
  - eapply app_repr_ext; [done..|set_solver|done|done].
  - apply IH; [done|set_solver|done|done].
  - done.
Qed.

(** One application can be edited. *)
Lemma apps_repr_middle F h l1 a l2 js1 j js2 X :
  apps_repr F h (l1 ++ a :: l2) (js1 ++ j :: js2) X → length l1 = length js1 → below (length h) F →
  ∃ Y, app_repr F h a j Y ∧ Y ⊆ X ∧
    ∀ F' h' a' j' Y', app_repr F' h' a' j' Y' → ext F h Y F' h' Y' →
      ∃ X', apps_repr F' h' (l1 ++ a' :: l2) (js1 ++ j' :: js2) X' ∧ ext F h X F' h' X'.
Proof.
  intros Hr Hl Hb. revert js1 X Hr Hl. induction l1 as [|a1 l1 IH]; intros [|j1 js1] X Hr Hl; try done; simpl in *.
  - inversion Hr as [|? ? ? ? X1 Y1 Ha Hl2 Hd]; subst. exists X1. split_and!; [done|set_solver|].
    intros F' h' a' j' Y' Ha' He. exists (Y' ∪ Y1).
    assert (Y' ## Y1) as Hd'.
    { intros b Hb1 Hb2. destruct (ext_cells _ _ _ _ _ _ He b Hb1); [set_solver|].
      pose proof (apps_repr_dom _ _ _ _ _ _ Hl2 Hb2). lia. }
    split.
    + constructor; [done| |done]. eapply apps_repr_ext; [done..|set_solver|by eapply app_repr_own|done].
    + destruct He as [? Hfr Hc ? ? ?]. split; [done| | |done..].
      * intros b Hbl Hn. apply Hfr; [done|set_solver].
      * intros b [Hin|Hin]%elem_of_union; [destruct (Hc b Hin); set_solver|set_solver].
  - inversion Hr as [|? ? ? ? X1 Y1 Ha Hl2 Hd]; subst. injection Hl as Hl.
    destruct (IH js1 Y1 Hl2 Hl) as (Y & HY & Hsub & Hput). exists Y. split_and!; [done|set_solver|].
    intros F' h' a' j' Y' Ha' He. destruct (Hput _ _ _ _ _ Ha' He) as (X' & HX' & He').
    exists (X1 ∪ X'). split.
    + constructor; [|done|].
      * eapply app_repr_ext; [done|exact He|set_solver|by eapply app_repr_own|done].
      * intros b Hb1 Hb2. destruct (ext_cells _ _ _ _ _ _ He' b Hb2); [set_solver|].
        pose proof (app_repr_dom _ _ _ _ _ _ Ha Hb1). lia.
    + destruct He' as [? Hfr Hc ? ? ?]. split; [done| | |done..].
      * intros b Hbl Hn. apply Hfr; [done|set_solver].
      * intros b [Hin|Hin]%elem_of_union; [set_solver|destruct (Hc b Hin); set_solver].
Qed.

(** The tree is what would be written to the cluster. *)
Definition holds (h : heap) (a : application) (j : json) : Prop :=
  match a_resource a with
  | Some r => resource_json h r = Some j
  | None => a_persistedResource a = j
  end.

Lemma apps_repr_holds F h l js X : apps_repr F h l js X → Forall2 (holds h) l js.
Proof.
  induction 1 as [|a l j js X Y (fss & _ & Ha) _ IH _]; constructor; [|done].
  unfold holds. destruct (a_resource a) as [r|]; [|by destruct Ha].
  destruct Ha as (Hr & _). exact (repr_reify _ _ _ _ _ Hr).
Qed.

(** Applications as they were read from the cluster. *)
Definition fresh_app (a : application) : bool :=
  match a_resource a, a_persistedResource a, layout (a_resourceMapping a) with
  | None, JObj m, Some _ => deep_copyable (JObj m)
  | _, _, _ => false
  end.

Lemma fresh_apps_repr F h l :
  forallb fresh_app l = true → apps_repr F h l (a_persistedResource <$> l) ∅.
Proof.
  induction l as [|a l IH]; simpl; [constructor|]. intros [Ha Hl]%andb_true_iff.
  rewrite <- (union_empty_l_L ∅). csimpl. constructor; [|by apply IH|apply disjoint_empty_l].
  unfold fresh_app in Ha. destruct (a_resource a) eqn:Er; [done|].
  destruct (a_persistedResource a) eqn:Ep; try done.
  destruct (layout (a_resourceMapping a)) as [fss|] eqn:El; [|done].
  exists fss. rewrite Er, Ep. split_and!; [done..|by eexists|done].
Qed.

(** ** The applications one after another *)

(** One application: the pods are found in the tree and edited by [f]; [miss]
    is what happens when there are none. *)
Definition tapp (miss : application → goerr → outcome (result unit))
    (f : list string → list (pos * WorkloadContainer) → M json (result unit))
    (a : application) : M json (result unit) := λ j,
  match layout (a_resourceMapping a) with
  | None => (Panic "not a mapping of lists of containers", j)
  | Some fss =>
      match tBindablePods (a_bindableContainerNames a) (wm_containers (a_resourceMapping a)) fss j with
      | Err e => (miss a e, j)
      | Ok cs => f (wm_volume (a_resourceMapping a)) cs j
      end
  end.

Fixpoint tapps (g : application → M json (result unit)) (l : list application) (js : list json) :
    outcome (result unit) * list json :=
  match l, js with
  | a :: l', j :: js' =>
      match g a j with
      | (Ret (Ok _), j') => let '(r, js'') := tapps g l' js' in (r, j' :: js'')
      | (r, j') => (r, j' :: js')
      end
  | _, _ => (Ret (Ok tt), js)
  end.

(** The edit of one application on the store. *)
Lemma pod_edit_repr `{JSONPathLib} `{Converter} F h r fss j X pod cs op f :
  pod_refines op f → repr F h (VMap r) j X → r ∉ F → below (length h) F → open_at F h r fss →
  mp_Data pod = r → Forall2 (found_at fss h r) (mp_Containers pod) cs → apart (mp_Volume pod) fss cs.*2 →
  ∃ F' h' X', op pod h = ((f (mp_Volume pod) cs j).1, h') ∧
    repr F' h' (VMap r) (f (mp_Volume pod) cs j).2 X' ∧ ext F h X F' h' X' ∧ open_at F' h' r fss.
Proof.
  intros Hop Hr HrF Hb Ho <- Hf Hap.
  destruct (Hop pod fss cs) with F h j X as (F' & h' & X' & E & Hr' & He & Hk); [|done..| |].
  - split.
    + eapply Forall2_impl; [exact Hf|]. by intros mc pc (? & _).
    + apply Forall_forall. intros pc Hin. apply list_elem_of_lookup in Hin as [i Hi].
      destruct (Forall2_lookup_r _ _ _ _ _ Hf Hi) as (mc & _ & _ & ? & _). done.
  - apply Forall_forall. intros [q d] Hin. unfold pointers in Hin.
    apply list_elem_of_lookup in Hin as [i Hi]. apply lookup_zip_with_Some in Hi as (q' & d' & ? & Hq & Hd).
    simplify_eq. rewrite list_lookup_fmap in Hq. rewrite list_lookup_fmap in Hd.
    apply fmap_Some in Hq as (pc & Hpc & ->). apply fmap_Some in Hd as (mc & Hmc & ->).
    destruct (Forall2_lookup_lr _ _ _ _ _ _ Hf Hmc Hpc) as (_ & Hpos & Hg).
    split; [split; [exact Hg|by eapply Ho]|done].
  - exists F', h', X'. split_and!; [done..|].
    eapply open_at_kept; [exact Hr|exact He|exact Hk|done].
Qed.
End Apps.

(** ** The loop of the handlers over the applications *)

(** Once the applications have been read from the cluster, the context hands
    them out again. *)
Class LoadedApplications (W B : Type) `{PipelineContext W B} :=
  applications_loaded (s : st W B) :
    i_applications (st_ctx s) ≠ [] →
    Applications s = (Ret (Ok (seq 0 (length (i_applications (st_ctx s))))), s).

#[export] Instance bindingImpl_loaded {W} `{KubeAPI W} `{BindingAPI W v1alpha1.ServiceBinding} `{Clock W}
    `{UserInfoJSON} `{JSONPathLib} `{BucketRateLimiter} `{MappingDecoder} :
  LoadedApplications W v1alpha1.ServiceBinding.
Proof.
  intros s Hs. cbn [Applications bindingImpl]. unfold bindingImpl_Applications, all_applications, ctx_gets.
  m_unfold. unfold id. by destruct (i_applications (st_ctx s)) eqn:E; rewrite ?E.
Qed.

#[export] Instance specImpl_loaded {W} `{KubeAPI W} `{BindingAPI W v1beta1.ServiceBinding} `{Clock W}
    `{UserInfoJSON} `{JSONPathLib} `{BucketRateLimiter} `{MappingDecoder} :
  LoadedApplications W v1beta1.ServiceBinding.
Proof.
  intros s Hs. cbn [Applications specImpl]. unfold specImpl_Applications, all_applications, ctx_gets.
  m_unfold. unfold id. by destruct (i_applications (st_ctx s)) eqn:E; rewrite ?E.
Qed.

Section Handlers.
Context {W B : Type} `{KubeAPI W} `{BindingAPI W B} `{Clock W} `{ServiceBindingKind B}.
Context `{UserInfoJSON} `{JSONPathLib} `{BucketRateLimiter} `{MappingDecoder} `{Converter}.
Context `{LoadedApplications W B}.

(** The state with another store and other applications. *)
Definition put_apps (h : heap) (l : list application) (s : st W B) : st W B :=
  {| st_world := st_world s; st_heap := h; st_ctx := set_applications l (st_ctx s) |}.

(** How a handler goes on after an edit. *)
Definition finish (o : outcome (result unit)) : M (st W B) (ctl unit) :=
  match o with
  | Ret (Ok _) => mret Next
  | Ret (Err e) => _ ← stop e; mret (Return tt)
  | Panic msg => mpanic msg
  end.

(** The same application, possibly with a copy. *)
Definition same_app (a a' : application) : Prop := ∃ r, a' = with_resource r a.

Lemma same_app_refl a : same_app a a.
Proof. exists (a_resource a). by destruct a. Qed.

Lemma same_apps_refl l : Forall2 same_app l l.
Proof. induction l; constructor; [apply same_app_refl|done]. Qed.

Lemma put_apps_twice h1 l1 h2 l2 s : put_apps h2 l2 (put_apps h1 l1 s) = put_apps h2 l2 s.
Proof. done. Qed.

Lemma set_applications_same (i : impl B) : set_applications (i_applications i) i = i.
Proof. by destruct i. Qed.

(** The body of the loops: the pods of the [n]-th application, and their edit. *)
Definition app_step (on_miss : nat → goerr → M (st W B) (ctl unit)) (op : MetaPodSpec → M heap (result unit))
    (n : nat) : M (st W B) (ctl unit) :=
  r ← on_app n BindablePods;
  match r with
  | Err err => on_miss n err
  | Ok pod => or_stop (on_store (op pod))
  end.

Context (miss : application → goerr → outcome (result unit)).
Context (on_miss : nat → goerr → M (st W B) (ctl unit)).
Context (op : MetaPodSpec → M heap (result unit)).
Context (f : list string → list (pos * WorkloadContainer) → M json (result unit)).
Hypothesis miss_ok : ∀ n a err s,
  i_applications (st_ctx s) !! n = Some a → on_miss n err s = finish (miss a err) s.
Hypothesis miss_same : ∀ a a' err, same_app a a' → miss a' err = miss a err.
Hypothesis op_ok : pod_refines op f.

(** One application. *)
Lemma app_step_refines s F l1 a l2 js1 j js2 X :
  i_applications (st_ctx s) = l1 ++ a :: l2 → length l1 = length js1 →
  apps_repr F (st_heap s) (l1 ++ a :: l2) (js1 ++ j :: js2) X → below (length (st_heap s)) F →
  ∃ F' h' a' X', same_app a a' ∧
    app_step on_miss op (length l1) s = finish (tapp miss f a j).1 (put_apps h' (l1 ++ a' :: l2) s) ∧
    apps_repr F' h' (l1 ++ a' :: l2) (js1 ++ (tapp miss f a j).2 :: js2) X' ∧
    ext F (st_heap s) X F' h' X'.
Proof.
  intros Hs Hlen Hr Hb.
  destruct (apps_repr_middle _ _ _ _ _ _ _ _ _ Hr Hlen Hb) as (Y & Ha & HY & Hput).
  destruct (BindablePods_repr F (st_heap s) a j Y Ha Hb)
    as (fss & r & h1 & X1 & res & Hlay & Ebp & Hr1 & HrF & Ho & Hp & HX1 & Hres).
  destruct (layout_spec _ _ Hlay) as [_ Hap].
  assert (below (length h1) F) as Hb1.
  { intros b Hin. specialize (Hb b Hin). apply prefix_length in Hp. lia. }
  assert (ext F (st_heap s) Y F h1 X1) as He1.
  { split; [by apply prefix_length| |done|done|auto|done].
    intros b Hbl _. destruct Hp as [t ->]. by apply lookup_app_l. }
  assert (on_app (length l1) BindablePods s = (Ret res, put_apps h1 (l1 ++ with_resource (Some r) a :: l2) s)) as Eon.
  { unfold on_app. rewrite Hs, list_lookup_middle by done. rewrite Ebp.
    by rewrite insert_app_r_alt, Nat.sub_diag by lia. }
  assert (same_app a (with_resource (Some r) a)) as Hsame by by eexists.
  unfold app_step, tapp. unfold mbind at 1, M_bind at 1. rewrite Eon, Hlay.
  set (names := a_bindableContainerNames a) in *.
  destruct res as [pod|e], (tBindablePods names _ fss j) as [cs|e'] eqn:Et; try done.
  - destruct Hres as (Hd & Hv & Hf).
    destruct (pod_edit_repr F h1 r fss j X1 pod cs op f op_ok Hr1 HrF Hb1 Ho Hd Hf) as (F' & h' & X' & E & Hr' & He & Ho').
    { rewrite Hv. destruct Hap as [Hap1 Hap2]. split; [done|]. apply tBindablePods_containers in Et.
      rewrite Forall_fmap. eapply Forall_impl; [exact Et|]. intros pc Hin.
      rewrite Forall_forall in Hap2. by apply Hap2. }
    destruct (Hput F' h' (with_resource (Some r) a) (f (mp_Volume pod) cs j).2 X') as (X2 & HX2 & He2).
    { exists fss. simpl. split_and!; [done|done| |done].
      eapply ext_kept; [exact He| |done]. by eapply repr_dom, repr_handle. }
    { by eapply ext_trans. }
    exists F', h', (with_resource (Some r) a), X2. rewrite <- Hv. split_and!; [done| |done|done].
    unfold or_stop, on_store, zoom. unfold mbind, M_bind. simpl. rewrite E.
    by destruct (f (mp_Volume pod) cs j) as [[[[]|e]|e] j'].
  - subst e'. destruct (Hput F h1 (with_resource (Some r) a) j X1) as (X2 & HX2 & He2).
    { by exists fss. }
    { done. }
    exists F, h1, (with_resource (Some r) a), X2. split_and!; [done| |done|done].
    rewrite (miss_ok _ (with_resource (Some r) a)); [by rewrite (miss_same a)|].
    simpl. by rewrite list_lookup_middle.
Qed.

(** All of them. *)
Lemma apps_loop_refines l2 : ∀ js2 l1 js1 s F X,
  i_applications (st_ctx s) = l1 ++ l2 → length l1 = length js1 →
  apps_repr F (st_heap s) (l1 ++ l2) (js1 ++ js2) X → below (length (st_heap s)) F →
  ∃ F' h' l' X', Forall2 same_app l2 l' ∧
    for_each (seq (length l1) (length l2)) (app_step on_miss op) s =
      finish (tapps (tapp miss f) l2 js2).1 (put_apps h' (l1 ++ l') s) ∧
    apps_repr F' h' (l1 ++ l') (js1 ++ (tapps (tapp miss f) l2 js2).2) X' ∧
    ext F (st_heap s) X F' h' X'.
Proof.
  induction l2 as [|a l2 IH]; intros js2 l1 js1 s F X Hs Hlen Hr Hb.
  { exists F, (st_heap s), [], X. simpl. split_and!; [constructor| |done|by apply ext_refl].
    rewrite <- Hs. unfold put_apps. rewrite set_applications_same. by destruct s. }
  destruct js2 as [|j js2].
  { exfalso. apply apps_repr_length in Hr. rewrite !length_app in Hr. simpl in Hr. lia. }
  destruct (app_step_refines s F l1 a l2 js1 j js2 X Hs Hlen Hr Hb)
    as (F1 & h1 & a1 & X1 & Hsame & E1 & Hr1 & He1).
  cbn [length seq for_each tapps]. unfold mbind at 1, M_bind at 1. rewrite E1.
  destruct (tapp miss f a j) as [o j1]. cbn [fst snd] in *.
  destruct o as [[[]|e]|e].
  - destruct (IH js2 (l1 ++ [a1]) (js1 ++ [j1]) (put_apps h1 (l1 ++ a1 :: l2) s) F1 X1)
      as (F2 & h2 & l' & X2 & Hl' & E2 & Hr2 & He2).
    + simpl. by rewrite <- app_assoc.
    + rewrite !length_app. simpl. lia.
    + by rewrite <- !app_assoc.
    + by eapply ext_below.
    + rewrite length_app in E2. simpl in E2. rewrite Nat.add_1_r in E2.
      rewrite <- app_assoc in E2. rewrite <- (app_assoc l1), <- (app_assoc js1) in Hr2. simpl in E2, Hr2.
      exists F2, h2, (a1 :: l'), X2. split_and!; [by constructor| | |by eapply ext_trans].
      * simpl. unfold mret, M_ret. rewrite E2, put_apps_twice.
        by destruct (tapps (tapp miss f) l2 js2).
      * by destruct (tapps (tapp miss f) l2 js2).
  - exists F1, h1, (a1 :: l2), X1. split_and!; [constructor; [done|apply same_apps_refl]| |done|done].
    cbn [finish fst snd]. unfold mbind, M_bind, mret, M_ret.
    by destruct (stop e (put_apps h1 (l1 ++ a1 :: l2) s)) as [[[]|] s'].
  - exists F1, h1, (a1 :: l2), X1. by split_and!; [constructor; [done|apply same_apps_refl]|..].
Qed.
End Handlers.

(** ** The handlers *)
Section Steps.
Context {W B : Type} `{KubeAPI W} `{BindingAPI W B} `{Clock W} `{ServiceBindingKind B}.
Context `{UserInfoJSON} `{JSONPathLib} `{BucketRateLimiter} `{MappingDecoder} `{Converter}.
Context `{LoadedApplications W B}.

Lemma for_each_ext {A R} (xs : list A) (k k' : A → M (st W B) (ctl R)) s :
  (∀ x s, k x s = k' x s) → for_each xs k s = for_each xs k' s.
Proof.
  intros Hk. revert s. induction xs as [|x xs IH]; intros s; [done|]. simpl. unfold mbind, M_bind.
  rewrite Hk. destruct (k' x s) as [[[|r]|e] s1]; [apply IH|done|done].
Qed.

Lemma then_ext (m m' k k' : M (st W B) (ctl unit)) s :
  (∀ s, m s = m' s) → (∀ s, k s = k' s) → then_ m k s = then_ m' k' s.
Proof.
  intros Hm Hk. unfold then_, mbind, M_bind. rewrite Hm.
  destruct (m' s) as [[[|r]|e] s1]; [apply Hk|done|done].
Qed.

(** Editing and stopping at the first error is one edit of the store. *)
Lemma then_or_stop (m k : M heap (result unit)) (s : st W B) :
  then_ (or_stop (on_store m)) (or_stop (on_store k)) s =
  or_stop (on_store (let! _ := m in k)) s.
Proof.
  unfold then_, or_stop, on_store, zoom, rbind, mbind, M_bind, mret, M_ret.
  destruct (m (st_heap s)) as [[[[]|e]|e] h1]; cbn; [| |done].
  2:{ by match goal with |- context [stop e ?s] => destruct (stop e s) as [[[]|] ?] end. }
  by destruct (k h1) as [[[[]|e]|e] h2].
Qed.

Lemma bind_or_stop {A} (m : M heap (result A)) (k : A → M heap (result unit)) (s : st W B) :
  (r ← on_store m;
   match r with Err err => _ ← stop err; mret (Return tt) | Ok a => or_stop (on_store (k a)) end) s =
  or_stop (on_store (let! a := m in k a)) s.
Proof.
  unfold or_stop, on_store, zoom, rbind, mbind, M_bind, mret, M_ret.
  destruct (m (st_heap s)) as [[[a|e]|e] h1]; simpl; [|done..].
  by destruct (k a h1) as [[[[]|e]|e] h2].
Qed.

Lemma each_or_stop {A} (xs : list A) (k : A → M heap (result unit)) (s : st W B) :
  for_each xs (λ x, or_stop (on_store (k x))) s = or_stop (on_store (each_res xs k)) s.
Proof.
  revert s. induction xs as [|x xs IH]; intros s; simpl; [by destruct s|].
  rewrite <- then_or_stop. unfold then_, mbind, M_bind.
  by destruct (or_stop (on_store (k x)) s) as [[[|r]|e] s1].
Qed.

(** The secret's name is computed without touching the workloads. *)
Definition same_store (h : heap) (l : list application) (b : B) (s : st W B) : Prop :=
  st_heap s = h ∧ i_applications (st_ctx s) = l ∧ i_binding (st_ctx s) = b.

Lemma same_store_modify h l b (g : impl B → impl B) :
  (∀ i, i_applications (g i) = i_applications i ∧ i_binding (g i) = i_binding i) →
  inv (same_store h l b) (ctx_modify g).
Proof.
  intros Hg. apply inv_modify. intros s (? & ? & ?). destruct (Hg (st_ctx s)) as [E1 E2].
  unfold same_store. simpl. by rewrite E1, E2.
Qed.

Lemma BindingSecretName_keeps h l b : inv (same_store h l b) BindingSecretName.
Proof.
  assert (∀ n items, inv (same_store h l b) (set_sbb_items n items)) as Hsbb
    by (intros; by apply same_store_modify).
  assert (∀ n bs data acc, inv (same_store h l b) (decode_items n bs data acc)) as Hdec.
  { intros n bs data. induction data as [|[x v] data IH]; intros acc; simpl; [apply inv_ret|].
    destruct (DecodeString v); [|apply inv_ret]. unfold new_item, ctx_gets.
    repeat (apply inv_bind; [|intros ?]); [apply inv_gets|by apply same_store_modify|apply inv_ret|apply Hsbb|apply IH]. }
  assert (∀ n, inv (same_store h l b) (Items n)) as Hit.
  { intros n. unfold Items, ctx_gets. inv_auto; auto. }
  assert (∀ ns, inv (same_store h l b) (secret_items ns)) as Hsec.
  { intros ns. induction ns as [|n ns IH]; simpl; [apply inv_ret|].
    apply inv_bind; [apply Hit|]. intros r. apply inv_bind; [apply IH|]. intros rest. apply inv_ret. }
  unfold BindingSecretName, bindingSecretName, bindingItemMap, ctx_gets. apply inv_fmap.
  repeat first [apply inv_bind; [|intros ?]|apply inv_gets|apply inv_ret|apply Hsec
               |match goal with |- inv _ (match ?x with _ => _ end) => destruct x end
               |match goal with |- inv _ (let _ := _ in _) => cbv zeta end].
Qed.

(** What a handler does after the edits. *)
Definition conclude (o : outcome (result unit)) : M (st W B) unit :=
  match o with
  | Ret (Ok _) => mret tt
  | Ret (Err e) => stop e
  | Panic msg => mpanic msg
  end.

(** [BindablePods] failing is fine for an application that only takes the name
    of the secret. *)
Definition pods_missing (a : application) (e : goerr) : outcome (result unit) :=
  Ret (if negb (String.eqb (SecretPath a) "") then Ok tt else Err e).
(** [Unbind] dereferences the missing pod. *)
Definition pods_nil (a : application) (e : goerr) : outcome (result unit) :=
  Panic "invalid memory address or nil pointer dereference".

Definition skip_or_stop (n : nat) (err : goerr) : M (st W B) (ctl unit) :=
  app ← app_at n;
  if negb (String.eqb (SecretPath app) "") then mret Next else _ ← stop err; mret (Return tt).

Lemma for_pods_refines (body : MetaPodSpec → M (st W B) (ctl unit)) op f s F js X :
  (∀ pod s, body pod s = or_stop (on_store (op pod)) s) → pod_refines op f →
  i_applications (st_ctx s) ≠ [] → below (length (st_heap s)) F →
  apps_repr F (st_heap s) (i_applications (st_ctx s)) js X →
  let t := tapps (tapp pods_missing f) (i_applications (st_ctx s)) js in
  ∃ F' h' l' X', Forall2 same_app (i_applications (st_ctx s)) l' ∧
    for_pods body s = conclude t.1 (put_apps h' l' s) ∧ apps_repr F' h' l' t.2 X' ∧
    ext F (st_heap s) X F' h' X'.
Proof.
  intros Hbody Hop Hne Hb Hr t.
  destruct (apps_loop_refines (W := W) (B := B) pods_missing skip_or_stop op f) with (i_applications (st_ctx s)) js
      ([] : list application) ([] : list json) s F X
    as (F' & h' & l' & X' & Hl' & E & Hr' & He); [| |done..|].
  - intros n a err s0 Hn. unfold skip_or_stop, app_at, ctx_gets. unfold mbind, M_bind, mgets. cbn [id].
    rewrite Hn. unfold mret at 1, M_ret at 1. unfold pods_missing.
    by destruct (negb (String.eqb (SecretPath a) "")).
  - intros a a' err [r ->]. done.
  - exists F', h', l', X'. split_and!; [done| |done|done].
    unfold for_pods, applications_or_nil. unfold mbind, M_bind. rewrite applications_loaded by done.
    unfold mret, M_ret. fold (@mret (M (st W B)) _ (ctl unit)).
    erewrite for_each_ext with (k' := app_step skip_or_stop op).
    + simpl in E. rewrite E. clear. subst t. by destruct (tapps _ _ js) as [[[[]|e]|e] js'].
    + intros n s0. unfold app_step, mbind, M_bind. 
      destruct (on_app n BindablePods s0) as [[[pod|err]|] s1]; [apply Hbody|done|done].
Qed.

(** The trees the handlers leave. *)
Definition files_trees (b : B) (secretName : string) : list application → list json → outcome (result unit) * list json :=
  tapps (tapp pods_missing (tfiles_pod (BindingName b) secretName)).
Definition env_trees (b : B) (secretName : string) : list application → list json → outcome (result unit) * list json :=
  tapps (tapp pods_missing (tenv_pod (BindAsFiles b) secretName (env_vars secretName (EnvBindings b)))).
Definition clean_trees (b : B) (secretName : string) : list application → list json → outcome (result unit) * list json :=
  tapps (tapp pods_nil (tclean_pod (BindingName b) secretName (eb_Name <$> EnvBindings b))).

(** [m], run from [s], leaves the trees [t] in the applications and goes on
    with [k] from a state that differs from [s0] in the copies only. *)
Definition leaves_trees {A} (s s0 : st W B) (F X : gset loc) (m : M (st W B) A)
    (t : outcome (result unit) * list json) (k : outcome (result unit) → M (st W B) A) : Prop :=
  ∃ F' h' l' X', Forall2 same_app (i_applications (st_ctx s)) l' ∧
    m s = k t.1 (put_apps h' l' s0) ∧ Forall2 (holds h') l' t.2 ∧
    apps_repr F' h' l' t.2 X' ∧ ext F (st_heap s) X F' h' X'.

Section Handler.
Context (s s0 : st W B) (F X : gset loc) (js : list json) (secretName : string).
Let b := i_binding (st_ctx s).
Let apps := i_applications (st_ctx s).
Hypothesis Hname : BindingSecretName s = (Ret secretName, s0).
Hypothesis Hne : apps ≠ [].
Hypothesis Hb : below (length (st_heap s)) F.
Hypothesis Hr : apps_repr F (st_heap s) apps js X.

Lemma name_keeps : st_heap s0 = st_heap s ∧ i_applications (st_ctx s0) = apps.
Proof.
  destruct (BindingSecretName_keeps (st_heap s) apps b s) as (? & ? & ?); [done|].
  rewrite Hname in *. done.
Qed.

Lemma for_pods_named body op f :
  (∀ pod s, body pod s = or_stop (on_store (op pod)) s) → pod_refines op f →
  leaves_trees s s0 F X (_ ← BindingSecretName; for_pods body)
    (tapps (tapp pods_missing f) apps js) conclude.
Proof.
  intros Hbody Hop. destruct name_keeps as [Eh Ea].
  destruct (for_pods_refines body op f s0 F js X) as (F' & h' & l' & X' & Hl & E & Hr' & He);
    rewrite ?Eh, ?Ea in *; [done..|].
  exists F', h', l', X'. split_and!; [done| |by eapply apps_repr_holds|done|done].
  unfold mbind, M_bind. rewrite Hname. by rewrite E.
Qed.

Lemma BindingsAsFiles_trees :
  BindAsFiles b = true →
  leaves_trees s s0 F X BindingsAsFiles (files_trees b secretName apps js) conclude.
Proof.
  intros Hfiles.
  destruct (for_pods_named (λ pod,
      then_ (or_stop (on_store (AddVolume pod {| vol_name := BindingName b; vol_secretName := secretName |})))
        (for_each (mp_Containers pod) (λ container,
           r ← on_store (MountPath container (BindingName b));
           match r with
           | Err err => _ ← stop err; mret (Return tt)
           | Ok mountPath => or_stop (on_store (AddVolumeMount container
                 {| vm_name := BindingName b; vm_mountPath := mountPath |}))
           end)))
    (files_pod (BindingName b) secretName) (tfiles_pod (BindingName b) secretName))
    as (F' & h' & l' & X' & Hl & E & Hj & Hr' & He).
  - intros pod s1. unfold files_pod. rewrite <- then_or_stop. apply then_ext; [done|].
    intros s2. rewrite <- each_or_stop. apply for_each_ext. intros c s3. apply bind_or_stop.
  - apply files_pod_refines.
  - exists F', h', l', X'. split_and!; [done| |done|done|done]. etrans; [|exact E].
    unfold BindingsAsFiles, ctx_gets, mgets. unfold mbind, M_bind. fold b. rewrite Hfiles. simpl. by rewrite Hname.
Qed.

Lemma BindingsAsEnv_trees :
  BindAsFiles b = false ∨ EnvBindings b ≠ [] →
  leaves_trees s s0 F X BindingsAsEnv (env_trees b secretName apps js) conclude.
Proof.
  intros Henv.
  destruct (for_pods_named (λ pod,
      for_each (mp_Containers pod) (λ container,
        then_ (if BindAsFiles b then mret Next
               else or_stop (on_store (AddEnvFromVar container {| efs_secretRef := secretName |})))
              (or_stop (on_store (AddEnvVars container (env_vars secretName (EnvBindings b)))))))
    (env_pod (BindAsFiles b) secretName (env_vars secretName (EnvBindings b)))
    (tenv_pod (BindAsFiles b) secretName (env_vars secretName (EnvBindings b))))
    as (F' & h' & l' & X' & Hl & E & Hj & Hr' & He).
  - intros pod s1. unfold env_pod. rewrite <- each_or_stop. apply for_each_ext. intros c s2.
    unfold env_container. rewrite <- then_or_stop. apply then_ext; [|done].
    intros s3. destruct (BindAsFiles b); [by destruct s3|done].
  - apply env_pod_refines.
  - exists F', h', l', X'. split_and!; [done| |done|done|done]. etrans; [|exact E].
    unfold BindingsAsEnv, ctx_gets, mgets. unfold mbind, M_bind. fold b.
    assert (BindAsFiles b && (length (EnvBindings b) =? 0) = false) as ->.
    { destruct Henv as [->|Hn]; [done|]. destruct (EnvBindings b); [done|]. apply andb_false_r. }
    by rewrite Hname.
Qed.

(** [Unbind] goes on with the annotations of the binding. *)
Definition unbound (o : outcome (result unit)) : M (st W B) unit :=
  match o with
  | Ret (Ok _) =>
      cleaned ← CleanAnnotations;
      if (cleaned : bool) then RetryProcessing None else StopProcessing
  | Ret (Err e) => stop e
  | Panic msg => mpanic msg
  end.

Lemma unbind_container_edit name names c (s1 : st W B) :
  unbind_container secretName name names c s1 =
  or_stop (on_store (clean_container name secretName (eb_Name <$> names) c)) s1.
Proof.
  unfold unbind_container, clean_container. rewrite <- then_or_stop. apply then_ext.
  - intros s2. rewrite <- each_or_stop. revert s2.
    induction names as [|n names IH]; intros s2; [done|]. csimpl. unfold mbind, M_bind.
    match goal with |- context [or_stop ?m s2] => destruct (or_stop m s2) as [[[|r]|e] s3] end;
      [apply IH|done|done].
  - intros s2. by rewrite <- then_or_stop.
Qed.

Lemma Unbind_trees :
  UnbindRequested (st_ctx s) = true → secretName ≠ "" →
  leaves_trees s s0 F X Unbind (clean_trees b secretName apps js) unbound.
Proof.
  intros Hun Hsec. destruct name_keeps as [Eh Ea].
  destruct (apps_loop_refines (W := W) (B := B) pods_nil
      (λ _ _, mpanic "invalid memory address or nil pointer dereference")
      (clean_pod (BindingName b) secretName (eb_Name <$> EnvBindings b))
      (tclean_pod (BindingName b) secretName (eb_Name <$> EnvBindings b))) with apps js
      ([] : list application) ([] : list json) s0 F X
    as (F' & h' & l' & X' & Hl' & E & Hr' & He); rewrite ?Eh; [done|done|apply clean_pod_refines|done..|].
  exists F', h', l', X'. rewrite Eh in He. split_and!; [done| |by eapply apps_repr_holds|done|done].
  unfold Unbind, ctx_gets, mgets. unfold mbind at 1, M_bind at 1, id. rewrite Hun. cbn [negb].
  unfold mbind at 1, M_bind at 1. rewrite applications_loaded by done. fold apps.
  assert (∃ n ns, seq 0 (length apps) = n :: ns) as (n & ns & Ens)
    by (clear -Hne; destruct apps; [done|simpl; eauto]).
  rewrite Ens. unfold mbind at 1, M_bind at 1. rewrite Hname. fold b.
  apply String.eqb_neq in Hsec. rewrite Hsec. rewrite <- Ens.
  unfold mbind at 1, M_bind at 1.
  rewrite for_each_ext with (k' := app_step (λ _ _, mpanic "invalid memory address or nil pointer dereference")
      (clean_pod (BindingName b) secretName (eb_Name <$> EnvBindings b))).
  - simpl in E. rewrite E. unfold clean_trees.
    by destruct (tapps _ _ js) as [[[[]|e]|e] js'].
  - intros k s1. unfold unbind_app, app_step. unfold mbind, M_bind.
    destruct (on_app k BindablePods s1) as [[[pod|err]|] s2]; [|done|done].
    unfold clean_pod. rewrite <- then_or_stop. apply then_ext; [done|]. intros s3.
    rewrite <- each_or_stop. apply for_each_ext. intros c s4. apply unbind_container_edit.
Qed.
End Handler.
End Steps.

