(* ===== verification/TreeLaws.v ===== *)
(** * Laws of the edits on trees

    The functions of [TreeOps] and [TreePods] are trees to trees; this file
    has their algebra: what is at a position after a write, what a write
    leaves alone, which list an edit leaves, and that the edits do not see the
    difference between the two slice types, which is lost when an object is
    written to the cluster and read back. *)

From S2P Require Import Prelude.
From S2P Require Import GoLib.
From S2P Require Import GoValue.
From S2P Require Import JsonPath.
From S2P Require Import Heap.
From S2P Require Import Converter.
From S2P Require Import Workload.
From S2P Require Import Application.
From S2P Require Import Context.
From S2P Require Import Tree.
From S2P Require Import TreeEdit.
From S2P Require Import TreeOps.
From S2P Require Import TreePods.

(** ** Positions *)
Section Positions.
Implicit Types (p q : pos) (j x y : json).

Lemma jget_app p q j : jget (p ++ q) j = jget p j ≫= jget q.
Proof.
  revert j. induction p as [|[k|i] p IH]; intros j; [done|..]; simpl; destruct j; try done.
  - destruct (aget k m); simpl; [apply IH|done].
  - destruct (l !! i); simpl; [apply IH|done].
Qed.

Lemma jput_app p q x j y : jget p j = Some y → jput (p ++ q) x j = jput p (jput q x y) j.
Proof.
  revert j. induction p as [|[k|i] p IH]; intros j Hj; simpl in *; [by simplify_eq|..]; destruct j; try done.
  - destruct (aget k m) as [z|]; [|done]. simpl in *. by rewrite IH.
  - destruct (l !! i) as [z|]; [|done]. simpl in *. by rewrite IH.
Qed.

Lemma jget_jput_eq p x j y : jget p j = Some y → jget p (jput p x j) = Some x.
Proof.
  revert j. induction p as [|[k|i] p IH]; intros j Hj; simpl in *; [done|..]; destruct j; try done.
  - destruct (aget k m) as [z|] eqn:E; [|done]. simpl in *. rewrite aget_aset_eq. simpl. by apply IH.
  - destruct (l !! i) as [z|] eqn:E; [|done]. simpl in *.
    rewrite list_lookup_insert_eq by by eapply lookup_lt_Some. simpl. by apply IH.
Qed.

(** A position that is neither above nor below. *)
Definition incomparable p q : Prop := ¬ p `prefix_of` q ∧ ¬ q `prefix_of` p.

Lemma incomparable_cons s p q : incomparable (s :: p) (s :: q) → incomparable p q.
Proof. intros [H1 H2]. split; [contradict H1|contradict H2]; by apply prefix_cons. Qed.

Lemma jget_jput_ne p q x j : incomparable p q → jget q (jput p x j) = jget q j.
Proof.
  revert q j. induction p as [|s p IH]; intros q j Hi; [destruct Hi as [[] _]; apply prefix_nil|].
  destruct q as [|s' q]; [destruct Hi as [_ []]; apply prefix_nil|].
  destruct s as [k|i], j; simpl; try done.
  - destruct (aget k m) as [z|] eqn:E; [|done]. destruct s' as [k'|i']; simpl; [|done].
    destruct (decide (k' = k)) as [->|Hne]; [|by rewrite aget_aset_ne].
    rewrite aget_aset_eq, E. simpl. apply IH. by eapply incomparable_cons.
  - destruct (l !! i) as [z|] eqn:E; [|done]. destruct s' as [k'|i']; simpl; [done|].
    destruct (decide (i' = i)) as [->|Hne]; [|by rewrite list_lookup_insert_ne].
    rewrite list_lookup_insert_eq by by eapply lookup_lt_Some. rewrite E. simpl.
    apply IH. by eapply incomparable_cons.
Qed.

Lemma nested_jget j path x : NestedFieldNoCopy j path = Found x ↔ jget (K <$> path) j = Some x.
Proof.
  revert j. induction path as [|k path IH]; intros j; csimpl; [split; congruence|].
  destruct j; simpl; try done. destruct (aget k m); simpl; [apply IH|done].
Qed.

(** ** Writing at a path *)
Lemma jget_jwrite path x j : writable path j = true → jget (K <$> path) (jwrite path x j) = Some x.
Proof.
  revert j. induction path as [|k path IH]; intros j Hw; [by destruct j|].
  destruct path as [|k' path].
  { destruct j; try done. simpl. by rewrite aget_aset_eq. }
  apply writable_cons in Hw as (m & -> & Hw). cbn [jwrite fmap list_fmap jget].
  rewrite aget_aset_eq. apply (IH (default (JObj []) (aget k m))).
  destruct (aget k m); simpl; [done|]. by destruct path.
Qed.

Lemma jget_jwrite_ne path q x j :
  writable path j = true → incomparable (K <$> path) q → jget q (jwrite path x j) = jget q j.
Proof.
  revert q j. induction path as [|k path IH]; intros q j Hw Hi; [by destruct j|].
  destruct q as [|s q]; [destruct Hi as [_ []]; apply prefix_nil|].
  destruct path as [|k' path].
  { destruct j; try done. destruct s as [k'|i]; simpl; [|done].
    rewrite aget_aset_ne; [done|]. intros ->. destruct Hi as [[] _]. apply prefix_cons, prefix_nil. }
  apply writable_cons in Hw as (m & -> & Hw). cbn [jwrite].
  destruct s as [k2|i]; [|done]. cbn [jget].
  destruct (decide (k2 = k)) as [->|Hne]; [|by rewrite aget_aset_ne].
  rewrite aget_aset_eq.
  assert (incomparable (K <$> k' :: path) q) as Hi' by by eapply (incomparable_cons (K k)).
  etrans; [apply (IH q (default (JObj []) (aget k m))); [by destruct (aget k m); [|destruct path]|done]|].
  destruct (aget k m); [done|]. simpl. destruct q as [|[] q]; [|done..].
  destruct Hi' as [_ []]. apply prefix_nil.
Qed.

Lemma nested_jwrite_ne path path' x j :
  writable path j = true → incomparable (K <$> path) (K <$> path') →
  NestedFieldNoCopy (jwrite path x j) path' = NestedFieldNoCopy j path'.
Proof.
  revert path' j. induction path as [|k path IH]; intros path' j Hw Hi; [by destruct j|].
  destruct path' as [|k2 path']; [destruct Hi as [_ []]; apply prefix_nil|].
  destruct path as [|k' path].
  { destruct j; try done. simpl. rewrite aget_aset_ne; [done|]. intros ->.
    destruct Hi as [[] _]. apply prefix_cons, prefix_nil. }
  apply writable_cons in Hw as (m & -> & Hw). cbn [jwrite].
  cbn [NestedFieldNoCopy view json_view].
  destruct (decide (k2 = k)) as [->|Hne]; [|by rewrite aget_aset_ne].
  rewrite aget_aset_eq.
  assert (incomparable (K <$> k' :: path) (K <$> path')) as Hi' by by eapply (incomparable_cons (K k)).
  etrans; [apply (IH path' (default (JObj []) (aget k m))); [by destruct (aget k m); [|destruct path]|done]|].
  destruct (aget k m); [done|]. simpl. destruct path'; [|done].
  destruct Hi' as [_ []]. apply prefix_nil.
Qed.

(** Writing what is there changes nothing. *)
Lemma jwrite_same path x j : NestedFieldNoCopy j path = Found x → jwrite path x j = j.
Proof.
  revert j. induction path as [|k path IH]; intros j Hf; [done|].
  simpl in Hf. destruct j; try done. simpl in Hf. destruct (aget k m) as [y|] eqn:Ek; [|done].
  destruct path as [|k' path]; [simpl in *; simplify_eq; by rewrite aget_aset_same|].
  cbn [jwrite]. rewrite Ek. cbn [default]. f_equal.
  rewrite aget_aset_same; [done|]. rewrite Ek. f_equal. symmetry. by apply IH.
Qed.

Lemma jput_same p x j : jget p j = Some x → jput p x j = j.
Proof.
  revert j. induction p as [|[k|i] p IH]; intros j Hj; simpl in *; [by simplify_eq|..]; destruct j; try done.
  - destruct (aget k m) as [z|] eqn:E; [|done]. simpl in Hj. rewrite (IH z Hj).
    by rewrite aget_aset_same.
  - destruct (l !! i) as [z|] eqn:E; [|done]. simpl in Hj. rewrite (IH z Hj).
    by rewrite list_insert_id.
Qed.

Lemma jwrite_obj path x m : ∃ m', jwrite path x (JObj m) = JObj m'.
Proof. destruct path as [|k [|k' path]]; simpl; eauto. Qed.
End Positions.

(** ** The list an edit leaves *)
Section Edits.
Context `{Converter}.
Implicit Types (p : json → bool) (j u : json) (l : list json).

(** An object of the type. *)
Definition converts (k : rkind) (x : json) : Prop :=
  (∃ m, x = JObj m) ∧ from_unstructured k x = None.

Lemma tconvert_items_Found k l l' : tconvert_items k l = Found l' ↔ l' = l ∧ Forall (converts k) l.
Proof.
  revert l'. induction l as [|x l IH]; intros l'; simpl.
  { split; [intros; by simplify_eq|by intros [-> _]]. }
  destruct x as [| | | | | |m]; try (split; [done|intros [_ [[[? ?] _] _]%Forall_cons]; done]).
  destruct (from_unstructured k (JObj m)) eqn:E.
  { split; [done|]. intros [_ [[_ ?] _]%Forall_cons]. congruence. }
  destruct (tconvert_items k l) as [l0| |] eqn:E0; simpl.
  - destruct (proj1 (IH l0) eq_refl) as [-> Hl]. split.
    + intros ?; simplify_eq. split; [done|]. constructor; [split; eauto|done].
    + by intros [-> _].
  - split; [done|]. intros [-> [_ Hl]%Forall_cons]. discriminate (proj2 (IH l) (conj eq_refl Hl)).
  - split; [done|]. intros [-> [_ Hl]%Forall_cons].
    discriminate (proj2 (IH l) (conj eq_refl Hl)).
Qed.

Lemma tconvert_items_not_missing k l : tconvert_items k l ≠ NotFound.
Proof.
  induction l as [|x l IH]; simpl; [done|]. destruct x as [| | | | | |m]; try done.
  destruct (from_unstructured k (JObj m)); [done|]. by destruct (tconvert_items k l).
Qed.

Lemma tResources_Found k path j l :
  tResources k path j = Found l ↔
  (∃ t, NestedFieldNoCopy j path = Found (JArr t l)) ∧ Forall (converts k) l.
Proof.
  unfold tResources. split.
  - destruct (NestedFieldNoCopy j path) as [[]| |]; try done. simpl.
    intros [-> ?]%tconvert_items_Found. eauto.
  - intros [[t ->] Hl]. simpl. by apply tconvert_items_Found.
Qed.

Lemma tResources_NotFound k path j :
  tResources k path j = NotFound ↔ NestedFieldNoCopy j path = NotFound.
Proof.
  unfold tResources. destruct (NestedFieldNoCopy j path) as [x| |]; [|done..].
  split; [|done]. destruct x; try done. simpl. intros E. by apply tconvert_items_not_missing in E.
Qed.

(** The resources at a path; a missing list is an empty one. *)
Definition tlist (k : rkind) (path : list string) (j : json) : option (list json) :=
  match tResources k path j with Found l => Some l | NotFound => Some [] | NErr _ => None end.

(** The trees are the same except at the path, above and below it. *)
Definition outside (path : list string) (j j' : json) : Prop :=
  (∀ q, incomparable (K <$> path) q → jget q j' = jget q j) ∧
  (∀ path', incomparable (K <$> path) (K <$> path') →
     NestedFieldNoCopy j' path' = NestedFieldNoCopy j path').

Definition is_obj (j : json) : Prop := ∃ m, j = JObj m.

Lemma outside_refl path j : outside path j j.
Proof. done. Qed.

Lemma tsetSlice_spec t l path j r j' k :
  is_obj j → tsetSlice t l path j = (Ret (Ok r), j') →
  is_obj j' ∧ outside path j j' ∧ (Forall (converts k) l → tResources k path j' = Found l).
Proof.
  intros [m ->]. unfold tsetSlice. destruct path as [|k0 path]; [done|].
  destruct (write_error (k0 :: path) (JObj m)) eqn:E; [done|]. intros ?; simplify_eq.
  apply write_error_writable in E; [|done]. split_and!.
  - apply jwrite_obj.
  - split; [intros q Hq; by apply jget_jwrite_ne|intros path' Hq; by apply nested_jwrite_ne].
  - intros Hl. apply tResources_Found. split; [|done]. exists t.
    apply nested_jget. by apply jget_jwrite.
Qed.

(** A list that could be read can be written. *)
Lemma tsetSlice_found t l path j x :
  path ≠ [] → NestedFieldNoCopy j path = Found x →
  tsetSlice t l path j = (Ret (Ok tt), jwrite path (JArr t l) j).
Proof.
  intros Hne Hf. unfold tsetSlice. destruct path; [done|]. by rewrite (found_write_error _ _ _ Hne Hf).
Qed.

(** Any of the edits. *)
Lemma tupdate_spec k path ty init g j r j' :
  is_obj j → tupdate k path ty init g j = (Ret (Ok r), j') →
  is_obj j' ∧ outside path j j' ∧
  match tResources k path j with
  | Found l => match g l with
               | Some l' => Forall (converts k) l' → tResources k path j' = Found l'
               | None => j' = j
               end
  | NotFound => match init with
                | Some l' => Forall (converts k) l' → tResources k path j' = Found l'
                | None => j' = j
                end
  | NErr _ => False
  end.
Proof.
  intros Hj. unfold tupdate. destruct (tResources k path j) as [l| |]; [| |done].
  - destruct (g l); [by apply tsetSlice_spec|]. intros ?; simplify_eq. split_and!; [done|apply outside_refl|done].
  - destruct init; [by apply tsetSlice_spec|]. intros ?; simplify_eq. split_and!; [done|apply outside_refl|done].
Qed.

(** The lists that are written are slices of maps, nil or not. *)
Lemma tupdate_slice k path ty init g j r j' :
  tupdate k path ty (Some init) (λ l, Some (g l)) j = (Ret (Ok r), j') → is_obj j →
  ∃ l, NestedFieldNoCopy j' path = Found (JArr (ty (length l)) l).
Proof.
  unfold tupdate. intros Hu [m ->].
  assert (∀ l, tsetSlice (ty (length l)) l path (JObj m) = (Ret (Ok r), j') →
    ∃ l, NestedFieldNoCopy j' path = Found (JArr (ty (length l)) l)) as Hset.
  { intros l. unfold tsetSlice. destruct path as [|k0 path]; [done|].
    destruct (write_error (k0 :: path) (JObj m)) eqn:E; [done|]. intros ?; simplify_eq.
    exists l. apply nested_jget, jget_jwrite, write_error_writable; done. }
  destruct (tResources k path (JObj m)) as [l| |]; [by eapply Hset|by eapply Hset|done].
Qed.

Lemma tlist_Found k path j l : tResources k path j = Found l → tlist k path j = Some l.
Proof. unfold tlist. by intros ->. Qed.

Lemma replace_or_append_Forall {A} (P : A → Prop) (q : A → bool) (u : A) (l : list A) :
  P u → Forall P l → Forall P (replace_or_append q u l).
Proof.
  intros Hu Hl. unfold replace_or_append.
  assert (Forall P (map (λ x, if q x then u else x) l)).
  { apply Forall_fmap. eapply Forall_impl; [exact Hl|]. intros x Hx. simpl. by destruct (q x). }
  destruct (existsb q l); [done|]. apply Forall_app. auto.
Qed.

Lemma tput_spec k path p u j r j' :
  is_obj j → converts k u → tput k path p u j = (Ret (Ok r), j') →
  ∃ l, tlist k path j = Some l ∧ tResources k path j' = Found (replace_or_append p u l) ∧
    is_obj j' ∧ outside path j j'.
Proof.
  intros Hj Hu Hp. apply tupdate_spec in Hp as (? & ? & Hl); [|done]. unfold tlist.
  destruct (tResources k path j) as [l| |] eqn:E; [| |done].
  - exists l. split_and!; [done| |done..]. apply Hl. apply tResources_Found in E as [_ Hc].
    by apply replace_or_append_Forall.
  - exists []. split_and!; [done| |done..]. apply Hl. by constructor.
Qed.

Lemma remove_first_Forall {A} (P : A → Prop) (q : A → bool) (l l' : list A) :
  Forall P l → remove_first q l = Some l' → Forall P l'.
Proof.
  revert l'. induction l as [|x l IH]; intros l' Hl Hr; simpl in Hr; [done|].
  apply Forall_cons in Hl as [Hx Hl]. destruct (q x); [by simplify_eq|].
  apply fmap_Some in Hr as (l0 & Hr & ->). constructor; [done|]. by apply IH.
Qed.

Lemma tremove_spec k path p j r j' :
  is_obj j → tremove k path p j = (Ret (Ok r), j') →
  ∃ l, tlist k path j = Some l ∧ tlist k path j' = Some (default l (remove_first p l)) ∧
    is_obj j' ∧ outside path j j' ∧ (remove_first p l = None → j' = j).
Proof.
  intros Hj Hp. apply tupdate_spec in Hp as (? & ? & Hl); [|done]. unfold tlist.
  destruct (tResources k path j) as [l| |] eqn:E; [| |done].
  - exists l. destruct (remove_first p l) as [l'|] eqn:Er; simpl.
    + assert (tResources k path j' = Found l') as ->; [|done].
      apply Hl. apply tResources_Found in E as [_ Hc]. by eapply remove_first_Forall.
    + subst. by rewrite E.
  - exists []. subst. by rewrite E.
Qed.

(** Removing never fails where adding has succeeded. *)
Lemma tremove_found k path p j l :
  path ≠ [] → tResources k path j = Found l → ∃ j', tremove k path p j = (Ret (Ok tt), j').
Proof.
  intros Hne Hl. unfold tremove, tupdate. rewrite Hl. destruct (remove_first p l); [|eauto].
  apply tResources_Found in Hl as [[t Ht] _]. rewrite (tsetSlice_found _ _ _ _ _ Hne Ht). eauto.
Qed.

Lemma tMountPath_spec path name j mp j' :
  is_obj j → converts KEnvVar root_env → tMountPath path name j = (Ret (Ok mp), j') →
  ∃ l, tlist KEnvVar path j = Some l ∧ is_obj j' ∧ outside path j j' ∧
    match tfind_root l with
    | Some v => mp = path_Join v name ∧ j' = j
    | None => mp = path_Join bindingRoot name ∧ tResources KEnvVar path j' = Found (l ++ [root_env])
    end.
Proof.
  intros Hj Hroot. unfold tMountPath, tlist. unfold rbind, mbind, M_bind, mget, mret, M_ret. simpl.
  destruct (tResources KEnvVar path j) as [l| |] eqn:E; [| |done].
  - destruct (tfind_root l) as [v|] eqn:Er.
    + intros ?; simplify_eq. exists l. split_and!; [done..|apply outside_refl|by rewrite Er].
    + destruct (tsetSlice SliceMap (l ++ [root_env]) path j) as [[[]|] j1] eqn:Es; intros ?; simplify_eq.
      apply (tsetSlice_spec _ _ _ _ _ _ KEnvVar) in Es as (? & ? & Hres); [|done].
      exists l. rewrite Er. split_and!; [done..|]. apply Hres.
      apply tResources_Found in E as [_ Hc]. apply Forall_app. auto.
  - destruct (tsetSlice SliceMap [root_env] path j) as [[[]|] j1] eqn:Es; intros ?; simplify_eq.
    apply (tsetSlice_spec _ _ _ _ _ _ KEnvVar) in Es as (? & ? & Hres); [|done].
    exists []. split_and!; [done..|]. simpl. split; [done|]. apply Hres. by constructor.
Qed.
End Edits.
