(* ===== verification/TreeBind.v ===== *)
(** * Binding twice, and binding and unbinding, on trees

    Consequences of the laws of the edits for a whole pod: projecting a
    binding as files a second time changes nothing, and unbinding takes out
    what binding put in. *)

From S2P Require Import Prelude.
From S2P Require Import GoLib.
From S2P Require Import GoValue.
From S2P Require Import JsonPath.
From S2P Require Import Heap.
From S2P Require Import Converter.
From S2P Require Import Workload.
From S2P Require Import Application.
From S2P Require Import Context.
From S2P Require Import Tree.
From S2P Require Import TreeEdit.
From S2P Require Import TreeOps.
From S2P Require Import TreePods.
From S2P Require Import TreeLaws.

(** The conversion accepts what the operator writes. *)
Class ConverterAccepts `{Converter} := {
  accepts_env e : from_unstructured KEnvVar (EnvVar_json e) = None;
  accepts_envFrom e : from_unstructured KEnvFromSource (EnvFromSource_json e) = None;
  accepts_mount m : from_unstructured KVolumeMount (VolumeMount_json m) = None;
  accepts_volume v : from_unstructured KVolume (Volume_json v) = None
}.

Section Containers.
Context `{ConverterAccepts}.
Implicit Types (x j : json) (c : WorkloadContainer) (name : string).

(** The lists of a container are in different places. *)
Definition separate_paths (c : WorkloadContainer) : Prop :=
  incomparable (K <$> wc_env c) (K <$> wc_envFrom c) ∧
  incomparable (K <$> wc_env c) (K <$> wc_volumeMounts c) ∧
  incomparable (K <$> wc_envFrom c) (K <$> wc_volumeMounts c).

Lemma converts_root : converts KEnvVar root_env.
Proof. split; [by eexists|]. apply accepts_env. Qed.
Lemma converts_mount m : converts KVolumeMount (VolumeMount_json m).
Proof. split; [by eexists|]. apply accepts_mount. Qed.
Lemma converts_volume v : converts KVolume (Volume_json v).
Proof. split; [by eexists|]. apply accepts_volume. Qed.

Lemma tResources_outside k path path' j j' :
  outside path j j' → incomparable (K <$> path) (K <$> path') →
  tResources k path' j' = tResources k path' j.
Proof. intros [_ Ho] Hi. unfold tResources. by rewrite Ho. Qed.

Lemma tlist_outside k path path' j j' :
  outside path j j' → incomparable (K <$> path) (K <$> path') → tlist k path' j' = tlist k path' j.
Proof. intros Ho Hi. unfold tlist. by erewrite tResources_outside. Qed.

Lemma incomparable_sym p q : incomparable p q → incomparable q p.
Proof. intros [? ?]. by split. Qed.

Definition mount_of (name : string) (envs : list json) : json :=
  VolumeMount_json {| vm_name := name; vm_mountPath := path_Join (default bindingRoot (tfind_root envs)) name |}.
Definition is_mount (name : string) (y : json) : bool := String.eqb (tfield "name" y) name.

(** The environment of a container that has been bound. *)
Definition with_root (envs : list json) : list json :=
  match tfind_root envs with Some _ => envs | None => envs ++ [root_env] end.

Lemma tfind_root_app l l' :
  tfind_root (l ++ l') = match tfind_root l with Some v => Some v | None => tfind_root l' end.
Proof.
  induction l as [|e l IH]; [done|]. simpl. destruct (from_unstructured KEnvVar e); [done|].
  by destruct (String.eqb _ _).
Qed.

Lemma tfind_root_with_root envs :
  tfind_root (with_root envs) = Some (default bindingRoot (tfind_root envs)).
Proof.
  unfold with_root. destruct (tfind_root envs) eqn:E; [done|]. rewrite tfind_root_app, E.
  cbn [tfind_root]. unfold root_env at 1. by rewrite accepts_env.
Qed.

(** What projecting a binding as files does to a container. *)
Lemma tfiles_container_spec name c x r x' :
  is_obj x → separate_paths c → tfiles_container name c x = (Ret (Ok r), x') →
  ∃ envs mounts, tlist KEnvVar (wc_env c) x = Some envs ∧
    tlist KVolumeMount (wc_volumeMounts c) x = Some mounts ∧
    tlist KEnvVar (wc_env c) x' = Some (with_root envs) ∧
    tResources KVolumeMount (wc_volumeMounts c) x' =
      Found (replace_or_append (is_mount name) (mount_of name envs) mounts) ∧
    is_obj x' ∧
    (∀ q, incomparable (K <$> wc_env c) q → incomparable (K <$> wc_volumeMounts c) q → jget q x' = jget q x) ∧
    (∀ path, incomparable (K <$> wc_env c) (K <$> path) → incomparable (K <$> wc_volumeMounts c) (K <$> path) →
       NestedFieldNoCopy x' path = NestedFieldNoCopy x path).
Proof.
  intros Hx (Hi1 & Hi2 & Hi3). unfold tfiles_container, rbind, mbind, M_bind, mret, M_ret.
  destruct (tMountPath (wc_env c) name x) as [[[mp|]|] x1] eqn:E1; try done.
  apply tMountPath_spec in E1 as (envs & Henv & Hx1 & Ho1 & Hroot); [|done|apply converts_root].
  intros Hput. apply tput_spec in Hput as (mounts & Hm & Hm' & Hx' & Ho2); [|done|apply converts_mount].
  exists envs, mounts. rewrite (tlist_outside _ _ _ _ _ Ho1 Hi2) in Hm.
  rewrite (tlist_outside _ _ _ _ _ Ho2 (incomparable_sym _ _ Hi2)).
  split_and!; [done|done| | |done| |].
  - unfold with_root. destruct (tfind_root envs); [by destruct Hroot as [_ ->]|].
    destruct Hroot as [_ Hres]. by apply tlist_Found.
  - rewrite Hm'. unfold mount_of, is_mount. simpl. do 3 f_equal.
    destruct (tfind_root envs); by destruct Hroot as [-> _].
  - intros q Hq1 Hq2. rewrite (proj1 Ho2) by done. by apply Ho1.
  - intros path Hq1 Hq2. rewrite (proj2 Ho2) by done. by apply Ho1.
Qed.

(** Doing it again changes nothing. *)
Lemma tfiles_container_again name c x r x' :
  is_obj x → separate_paths c → wc_volumeMounts c ≠ [] →
  tfiles_container name c x = (Ret (Ok r), x') →
  tfiles_container name c x' = (Ret (Ok tt), x').
Proof.
  intros Hx Hs Hne Hf. 
  assert (∃ l, NestedFieldNoCopy x' (wc_volumeMounts c) = Found (JArr SliceMap l)) as [l Hl].
  { unfold tfiles_container, rbind, mbind, M_bind in Hf.
    destruct (tMountPath (wc_env c) name x) as [[[mp|]|] x1] eqn:E1; try done.
    apply tMountPath_spec in E1 as (_ & _ & Hx1 & _); [|done|apply converts_root].
    by apply tupdate_slice in Hf. }
  destruct (tfiles_container_spec _ _ _ _ _ Hx Hs Hf) as (envs & mounts & He & Hm & He' & Hm' & Hx' & _).
  unfold tfiles_container, rbind, mbind, M_bind, mret, M_ret.
  assert (tMountPath (wc_env c) name x' = (Ret (Ok (path_Join (default bindingRoot (tfind_root envs)) name)), x')) as ->.
  { unfold tMountPath, mbind, M_bind, mget. simpl. unfold tlist in He'.
    destruct (tResources KEnvVar (wc_env c) x') as [l0| |]; simplify_eq.
    - by rewrite tfind_root_with_root.
    - exfalso. unfold with_root in *. destruct (tfind_root envs) eqn:E; [|by destruct envs]. by subst. }
  unfold tAddVolumeMount, tput, tupdate. rewrite Hm'.
  fold (is_mount name). change (VolumeMount_json _) with (mount_of name envs).
  apply tResources_Found in Hm' as [[t Ht] _]. simplify_eq.
  rewrite replace_or_append_idem.
  - rewrite (tsetSlice_found _ _ _ _ _ Hne Hl), jwrite_same; [done|].
    rewrite Hl in Ht. injection Ht as <- ->. done.
  - unfold is_mount, mount_of. simpl. apply String.eqb_refl.
Qed.

Lemma remove_first_same {A} (p q : A → bool) (l : list A) :
  Forall (λ y, p y = q y) l → remove_first p l = remove_first q l.
Proof. induction 1 as [|x l Hx _ IH]; [done|]. simpl. by rewrite Hx, IH. Qed.

Lemma tmount_is_converted name y : converts KVolumeMount y → tmount_is name y = is_mount name y.
Proof. intros [_ Hc]. unfold tmount_is. by rewrite Hc. Qed.

(** Nothing in the container goes by the name of the binding or refers to its
    secret. *)
Definition unused (name secretName : string) (c : WorkloadContainer) (x : json) : Prop :=
  (∃ mounts, tlist KVolumeMount (wc_volumeMounts c) x = Some mounts ∧ existsb (is_mount name) mounts = false) ∧
  (∃ froms, tlist KEnvFromSource (wc_envFrom c) x = Some froms ∧
     existsb (tstring_at_is ["secretRef"; "name"] secretName) froms = false).

(** The container [x2] is the container [x], up to the variable
    [SERVICE_BINDING_ROOT]. *)
Definition restored (c : WorkloadContainer) (x x2 : json) : Prop :=
  tlist KVolumeMount (wc_volumeMounts c) x2 = tlist KVolumeMount (wc_volumeMounts c) x ∧
  tlist KEnvVar (wc_env c) x2 = with_root <$> tlist KEnvVar (wc_env c) x ∧
  ∀ q, incomparable (K <$> wc_env c) q → incomparable (K <$> wc_volumeMounts c) q → jget q x2 = jget q x.

Lemma existsb_remove_first {A} (p : A → bool) (l : list A) :
  existsb p l = false → remove_first p l = None.
Proof.
  intros Hl. apply remove_first_None, Forall_forall. intros x Hx. by eapply existsb_false.
Qed.

Lemma tremove_nothing k path p j l :
  tlist k path j = Some l → existsb p l = false → tremove k path p j = (Ret (Ok tt), j).
Proof.
  unfold tlist, tremove, tupdate. destruct (tResources k path j) as [l0| |]; intros ?; simplify_eq; [|done].
  intros Hl. by rewrite existsb_remove_first.
Qed.

Lemma tclean_files_container name secretName c x r x1 :
  is_obj x → separate_paths c → wc_volumeMounts c ≠ [] →
  tfiles_container name c x = (Ret (Ok r), x1) → unused name secretName c x →
  ∃ x2, tclean_container name secretName [] c x1 = (Ret (Ok tt), x2) ∧ is_obj x2 ∧ restored c x x2.
Proof.
  intros Hx Hs Hne Hf ((mounts & Hm & Hmf) & froms & Hfr & Hff).
  destruct (tfiles_container_spec _ _ _ _ _ Hx Hs Hf)
    as (envs & mounts' & He & Hm0 & He1 & Hm1 & Hx1 & Hq & Hp). simplify_eq.
  pose proof Hs as (Hi1 & Hi2 & Hi3).
  assert (tlist KEnvFromSource (wc_envFrom c) x1 = Some froms) as Hfr1.
  { rewrite <- Hfr. unfold tlist, tResources. by rewrite (Hp (wc_envFrom c) Hi1 (incomparable_sym _ _ Hi3)). }
  destruct (tremove_found KVolumeMount (wc_volumeMounts c) (tmount_is name) x1 _ Hne Hm1) as [x2 E2].
  exists x2. split.
  { assert (tRemoveEnvFromVars (wc_envFrom c) secretName x1 = (Ret (Ok tt), x1)) as Efr
      by by eapply tremove_nothing.
    unfold tclean_container. cbn [each_res]. unfold rbind, mbind, M_bind, mret, M_ret. cbv beta iota.
    rewrite Efr. exact E2. }
  pose proof E2 as (l & Hl & Hl2 & Hx2 & Ho & _)%tremove_spec; [|done].
  rewrite (tlist_Found _ _ _ _ Hm1) in Hl. simplify_eq. split; [done|]. split_and!.
  - rewrite Hl2, Hm. f_equal. apply tResources_Found in Hm1 as [_ Hc].
    rewrite (remove_first_same _ (is_mount name)).
    + rewrite remove_first_replace_or_append; [done| |done]. unfold is_mount. simpl. apply String.eqb_refl.
    + eapply Forall_impl; [exact Hc|]. intros y. apply tmount_is_converted.
  - rewrite (tlist_outside _ _ _ _ _ Ho (incomparable_sym _ _ Hi2)), He1, He. done.
  - intros q Hq1 Hq2. rewrite (proj1 Ho) by done. by apply Hq.
Qed.
End Containers.

(** ** Pods *)
Section Pods.
Context `{ConverterAccepts}.
Implicit Types (x j : json) (cs : list (pos * WorkloadContainer)).

(** The containers of a pod: objects at separate positions, none of them in
    the volumes. *)
Record pod_ok (volumes : list string) (cs : list (pos * WorkloadContainer)) (j : json) : Prop := {
  pod_obj : is_obj j;
  pod_volumes : volumes ≠ [];
  pod_containers : Forall (λ pc, ∃ m, jget pc.1 j = Some (JObj m)) cs;
  pod_separate : ForallOrdPairs (λ pc pc', incomparable pc.1 pc'.1) cs;
  pod_outside : Forall (λ pc, incomparable (K <$> volumes) pc.1) cs;
  pod_paths : Forall (λ pc, separate_paths pc.2 ∧ wc_volumeMounts pc.2 ≠ []) cs
}.

(** The edit of every container, seen from outside. *)
Definition edited (g : WorkloadContainer → M json (result unit)) cs (j j' : json) : Prop :=
  Forall (λ pc, ∃ x r x', jget pc.1 j = Some x ∧ g pc.2 x = (Ret (Ok r), x') ∧ jget pc.1 j' = Some x') cs ∧
  ∀ q, Forall (λ pc, incomparable pc.1 q) cs → jget q j' = jget q j.

Lemma each_lift_inv g cs j r j' :
  ForallOrdPairs (λ pc pc', incomparable pc.1 pc'.1) cs →
  each_res cs (λ pc, lift_at pc.1 (g pc.2)) j = (Ret (Ok r), j') → edited g cs j j'.
Proof.
  intros Hs. revert j. induction Hs as [|[p c] cs Hp Hs IH]; intros j Hj; simpl in Hj.
  { unfold mret, M_ret in Hj. simplify_eq. by split. }
  unfold rbind, mbind, M_bind in Hj. unfold lift_at at 1 in Hj. simpl in Hj.
  destruct (jget p j) as [x|] eqn:Ex; [|done].
  destruct (g c x) as [[[u|]|] x'] eqn:Eg; try done.
  destruct (IH _ Hj) as [HF Hq].
  assert (jget p (jput p x' j) = Some x') as Hput by by eapply jget_jput_eq.
  split.
  - constructor.
    + exists x, u, x'. split_and!; [done..|]. simpl. rewrite Hq, Hput; [done|].
      eapply Forall_impl; [exact Hp|]. intros pc Hpc. by apply incomparable_sym.
    + apply Forall_forall. intros [p' c'] Hin. rewrite Forall_forall in HF, Hp.
      destruct (HF _ Hin) as (y & v & y' & Hy & ? & ?). exists y, v, y'. split_and!; [|done..].
      rewrite <- Hy. symmetry. apply jget_jput_ne. exact (Hp _ Hin).
  - intros q [Hpq Hcq]%Forall_cons. rewrite Hq by done. by apply jget_jput_ne.
Qed.

Lemma each_lift_run g cs j :
  ForallOrdPairs (λ pc pc', incomparable pc.1 pc'.1) cs →
  Forall (λ pc, ∃ x x', jget pc.1 j = Some x ∧ g pc.2 x = (Ret (Ok tt), x')) cs →
  ∃ j', each_res cs (λ pc, lift_at pc.1 (g pc.2)) j = (Ret (Ok tt), j').
Proof.
  intros Hs. revert j. induction Hs as [|[p c] cs Hp Hs IH]; intros j Hj; [by eexists|].
  apply Forall_cons in Hj as [(x & x' & Hx & Hg) Hj]. simpl in *.
  destruct (IH (jput p x' j)) as [j' Hj'].
  - apply Forall_forall. intros [p' c'] Hin. rewrite Forall_forall in Hj, Hp.
    destruct (Hj _ Hin) as (y & y' & Hy & ?). exists y, y'. split; [|done].
    rewrite <- Hy. apply jget_jput_ne. exact (Hp _ Hin).
  - exists j'. unfold rbind, mbind, M_bind. unfold lift_at at 1. simpl. by rewrite Hx, Hg.
Qed.

(** Edits that change nothing. *)
Lemma each_lift_same g cs j :
  Forall (λ pc, ∃ x, jget pc.1 j = Some x ∧ g pc.2 x = (Ret (Ok tt), x)) cs →
  each_res cs (λ pc, lift_at pc.1 (g pc.2)) j = (Ret (Ok tt), j).
Proof.
  induction 1 as [|[p c] cs (x & Hx & Hg) _ IH]; [done|]. simpl in *.
  unfold rbind, mbind, M_bind. unfold lift_at at 1. simpl. by rewrite Hx, Hg, jput_same.
Qed.

Lemma edited_found g cs j j' path x :
  edited g cs j j' → Forall (λ pc, incomparable (K <$> path) pc.1) cs →
  NestedFieldNoCopy j path = Found x → NestedFieldNoCopy j' path = Found x.
Proof.
  intros [_ Hq] Hi Hx. apply nested_jget. apply nested_jget in Hx. rewrite <- Hx. apply Hq.
  eapply Forall_impl; [exact Hi|]. intros pc. apply incomparable_sym.
Qed.

Definition volume_of (name secretName : string) : json :=
  Volume_json {| vol_name := name; vol_secretName := secretName |}.

Lemma tname_is_volume name secretName : tname_is name (volume_of name secretName) = true.
Proof. simpl. apply String.eqb_refl. Qed.

Lemma tstring_name name m : tstring_at_is ["name"] name (JObj m) = tname_is name (JObj m).
Proof.
  unfold tstring_at_is, NestedString. simpl. by destruct (aget "name" m) as [[]|].
Qed.

(** What projecting a binding as files does to a pod. *)
Lemma tfiles_pod_spec name secretName volumes cs j r j1 :
  pod_ok volumes cs j → tfiles_pod name secretName volumes cs j = (Ret (Ok r), j1) →
  ∃ vols, tlist KVolume volumes j = Some vols ∧
    NestedFieldNoCopy j1 volumes =
      Found (JArr SliceMap (replace_or_append (tname_is name) (volume_of name secretName) vols)) ∧
    Forall (converts KVolume) (replace_or_append (tname_is name) (volume_of name secretName) vols) ∧
    Forall (λ pc, ∃ m r x', jget pc.1 j = Some (JObj m) ∧
      tfiles_container name pc.2 (JObj m) = (Ret (Ok r), x') ∧ jget pc.1 j1 = Some x') cs ∧
    ∀ q, incomparable (K <$> volumes) q → Forall (λ pc, incomparable pc.1 q) cs → jget q j1 = jget q j.
Proof.
  intros [Hobj Hvne Hcs Hsep Hout Hpaths]. unfold tfiles_pod, rbind, mbind, M_bind.
  destruct (tAddVolume volumes _ j) as [[[u|]|] ja] eqn:Ea; try done. intros Hj.
  unfold tAddVolume in Ea. pose proof Ea as (l & Hl)%tupdate_slice; [|done].
  apply tput_spec in Ea as (vols & Hv & Hv' & Hoa & Hout'); [|done|apply converts_volume].
  pose proof (each_lift_inv _ _ _ _ _ Hsep Hj) as Hed. pose proof Hed as [HF Hq].
  apply tResources_Found in Hv' as [[t Ht] Hc]. rewrite Hl in Ht. injection Ht as <- ->.
  exists vols. split_and!; [done|by eapply edited_found|done| |].
  - apply Forall_forall. intros [p c] Hin. rewrite Forall_forall in Hcs, HF, Hout.
    destruct (Hcs _ Hin) as [m Hm]. destruct (HF _ Hin) as (x & v & x' & Hx & ? & ?). simpl in *.
    rewrite (proj1 Hout') in Hx by exact (Hout _ Hin). rewrite Hm in Hx. injection Hx as <-. eauto 7.
  - intros q Hq1 Hq2. rewrite Hq by done. by apply Hout'.
Qed.

(** Projecting twice is projecting once. *)
Lemma tfiles_pod_again name secretName volumes cs j r j1 :
  pod_ok volumes cs j → tfiles_pod name secretName volumes cs j = (Ret (Ok r), j1) →
  tfiles_pod name secretName volumes cs j1 = (Ret (Ok tt), j1).
Proof.
  intros Hok Hf. destruct (tfiles_pod_spec _ _ _ _ _ _ _ Hok Hf) as (vols & Hv & Hv1 & Hc & HF & _).
  destruct Hok as [Hobj Hvne Hcs Hsep Hout Hpaths].
  assert (tAddVolume volumes {| vol_name := name; vol_secretName := secretName |} j1 = (Ret (Ok tt), j1)) as Ea.
  { unfold tAddVolume, tput, tupdate.
    rewrite (proj2 (tResources_Found _ _ _ _) (conj (ex_intro _ _ Hv1) Hc)). simpl.
    fold (volume_of name secretName). rewrite replace_or_append_idem by apply tname_is_volume.
    by rewrite (tsetSlice_found _ _ _ _ _ Hvne Hv1), jwrite_same. }
  unfold tfiles_pod, rbind, mbind, M_bind. rewrite Ea. apply each_lift_same.
  apply Forall_forall. intros [p c] Hin. rewrite Forall_forall in HF, Hpaths.
  destruct (HF _ Hin) as (m & u & x' & Hm & Hg & Hx'). destruct (Hpaths _ Hin) as [Hs Hne]. simpl in *.
  exists x'. split; [done|]. eapply tfiles_container_again; [|done|done|exact Hg]. by eexists.
Qed.

(** Unbinding after binding: the volume and the mounts are gone, nothing else
    is, and the containers keep the variable [SERVICE_BINDING_ROOT]. *)
Lemma tclean_tfiles_pod name secretName volumes cs j r j1 vols :
  pod_ok volumes cs j → tfiles_pod name secretName volumes cs j = (Ret (Ok r), j1) →
  tlist KVolume volumes j = Some vols → existsb (tname_is name) vols = false →
  Forall (λ pc, ∀ x, jget pc.1 j = Some x → unused name secretName pc.2 x) cs →
  ∃ j2, tclean_pod name secretName [] volumes cs j1 = (Ret (Ok tt), j2) ∧
    tlist KVolume volumes j2 = Some vols ∧
    Forall (λ pc, ∃ x x2, jget pc.1 j = Some x ∧ jget pc.1 j2 = Some x2 ∧ restored pc.2 x x2) cs ∧
    ∀ q, incomparable (K <$> volumes) q → Forall (λ pc, incomparable pc.1 q) cs → jget q j2 = jget q j.
Proof.
  intros Hok Hf Hvols Hfree Hun.
  destruct (tfiles_pod_spec _ _ _ _ _ _ _ Hok Hf) as (vols' & Hv & Hv1 & Hc & HF & Hq). simplify_eq.
  destruct Hok as [Hobj Hvne Hcs Hsep Hout Hpaths].
  assert (is_obj j1) as Hobj1.
  { clear -Hv1 Hvne. destruct volumes; [done|]. simpl in Hv1. destruct j1; try done. by eexists. }
  set (vl := replace_or_append (tname_is name) (volume_of name secretName) vols) in *.
  assert (tResources KVolume volumes j1 = Found vl) as Hr1 by (apply tResources_Found; eauto).
  destruct (tremove_found KVolume volumes (tstring_at_is ["name"] name) j1 vl Hvne Hr1) as [ja Ea].
  pose proof Ea as (Hoa & Houta & Hl')%tupdate_spec; [|done]. rewrite Hr1 in Hl'.
  assert (remove_first (tstring_at_is ["name"] name) vl = Some vols) as Hrm.
  { rewrite (remove_first_same _ (tname_is name)).
    - unfold vl. by rewrite remove_first_replace_or_append by (done || apply tname_is_volume).
    - eapply Forall_impl; [exact Hc|]. intros y [[m ->] _]. apply tstring_name. }
  rewrite Hrm in Hl'. specialize (Hl' (remove_first_Forall _ _ _ _ Hc Hrm)).
  destruct (each_lift_run (tclean_container name secretName []) cs ja Hsep) as [j2 Ej].
  { apply Forall_forall. intros [p c] Hin. rewrite Forall_forall in HF, Hpaths, Hout, Hun.
    destruct (HF _ Hin) as (m & u & x1 & Hm & Hg & Hx1). destruct (Hpaths _ Hin) as [Hs Hne]. simpl in *.
    destruct (tclean_files_container name secretName c (JObj m) u x1 ltac:(by eexists) Hs Hne Hg
      (Hun _ Hin _ Hm)) as (x2 & E2 & _). exists x1, x2.
    rewrite (proj1 Houta) by exact (Hout _ Hin). done. }
  exists j2. pose proof (each_lift_inv _ _ _ _ _ Hsep Ej) as Hed. pose proof Hed as [HF2 Hq2]. split_and!.
  - unfold tclean_pod, rbind, mbind, M_bind, tRemoveVolume. by rewrite Ea.
  - apply tResources_Found in Hl' as [[t Ht] Hcl]. apply tlist_Found, tResources_Found.
    split; [|done]. exists t. by eapply edited_found.
  - apply Forall_forall. intros [p c] Hin. rewrite Forall_forall in HF, HF2, Hpaths, Hout, Hun.
    destruct (HF _ Hin) as (m & u & x1 & Hm & Hg & Hx1). destruct (Hpaths _ Hin) as [Hs Hne].
    destruct (HF2 _ Hin) as (y & v & y2 & Hy & Hg2 & Hy2). simpl in *.
    rewrite (proj1 Houta), Hx1 in Hy by exact (Hout _ Hin). injection Hy as <-.
    destruct (tclean_files_container name secretName c (JObj m) u x1 ltac:(by eexists) Hs Hne Hg
      (Hun _ Hin _ Hm)) as (x2 & E2 & _ & Hres). rewrite E2 in Hg2. simplify_eq.
    by exists (JObj m), y2.
  - intros q Hq1 Hq3. rewrite Hq2 by done. rewrite (proj1 Houta) by done. by apply Hq.
Qed.
End Pods.
