(* ===== verification/TreeShape.v ===== *)
(** * The containers of a tree stay where they are

    The positions [BindablePods] finds are separate, and the edits of the
    containers and of the volumes do not change which ones it finds. *)

From S2P Require Import Prelude.
From S2P Require Import GoLib.
From S2P Require Import GoValue.
From S2P Require Import JsonPath.
From S2P Require Import Heap.
From S2P Require Import Converter.
From S2P Require Import Workload.
From S2P Require Import Application.
From S2P Require Import Context.
From S2P Require Import Tree.
From S2P Require Import TreeEdit.
From S2P Require Import TreeOps.
From S2P Require Import TreePods.
From S2P Require Import TreeApps.
From S2P Require Import TreeLaws.
From S2P Require Import TreeBind.

(** ** Lists with keys *)
Lemma NoDup_concat_keyed {A} (P : nat → A → Prop) (xss : list (list A)) i :
  (∀ k k' x, P k x → P k' x → k = k') →
  (∀ k xs, xss !! k = Some xs → NoDup xs ∧ Forall (P (i + k)) xs) → NoDup (concat xss).
Proof.
  intros Huniq. revert i. induction xss as [|xs xss IH]; intros i Hk; simpl; [constructor|].
  destruct (Hk 0 xs eq_refl) as [Hnd Hf]. rewrite Nat.add_0_r in Hf.
  assert (∀ k ys, xss !! k = Some ys → NoDup ys ∧ Forall (P (S i + k)) ys) as Hk'.
  { intros k ys Hys. specialize (Hk (S k) ys Hys). by rewrite Nat.add_succ_r in Hk. }
  apply NoDup_app. split_and!; [done| |by eapply (IH (S i))].
  intros x Hx Hin. rewrite Forall_forall in Hf. specialize (Hf x Hx).
  apply list_elem_of_In, in_concat in Hin as (ys & Hys%list_elem_of_In & Hxy%list_elem_of_In).
  apply list_elem_of_lookup in Hys as [k Hys]. destruct (Hk' k ys Hys) as [_ Hf'].
  rewrite Forall_forall in Hf'. specialize (Huniq _ _ _ Hf (Hf' x Hxy)). lia.
Qed.

Lemma map_res_lookup {A B E} (f : A → res E B) xs ys k y :
  map_res f xs = Ok ys → ys !! k = Some y → ∃ x, xs !! k = Some x ∧ f x = Ok y.
Proof.
  revert ys k. induction xs as [|x xs IH]; intros ys k Hm Hk; simpl in Hm; [by simplify_eq|].
  destruct (f x) as [z|] eqn:Ex; [|done]. simpl in Hm.
  destruct (map_res f xs) as [zs|]; simplify_eq/=. destruct k as [|k]; simpl in *; [simplify_eq; eauto|].
  by eapply IH.
Qed.

Lemma enum_lookup {A} i (l : list A) k ix : enum i l !! k = Some ix → ix.1 = i + k ∧ l !! k = Some ix.2.
Proof.
  revert i k. induction l as [|x l IH]; intros i k Hk; [done|]. destruct k as [|k]; simpl in *.
  - simplify_eq. simpl. by rewrite Nat.add_0_r.
  - destruct (IH (S i) k Hk) as [-> ?]. split; [lia|done].
Qed.

(** ** The positions found *)
Lemma element_pos_inj fields ix fields' ix' :
  element_pos fields ix = element_pos fields' ix' → ix ≠ [] → ix' ≠ [] → fields = fields' ∧ ix = ix'.
Proof.
  unfold element_pos. intros E Hne Hne'. revert fields' E.
  induction fields as [|f fields IH]; intros [|f' fields'] E; csimpl in E.
  - split; [done|]. revert ix' Hne' E. clear. induction ix as [|i ix IH]; intros [|i' ix'] _ E; csimpl in E; simplify_eq.
    + done.
    + destruct ix'; csimpl in *; [by destruct ix|]. f_equal. by apply IH.
  - by destruct ix.
  - by destruct ix'.
  - simplify_eq. by destruct (IH fields') as [-> ->].
Qed.

Lemma element_pos_snoc fields ix k : element_pos fields ix ++ [I k] = element_pos fields (ix ++ [k]).
Proof. unfold element_pos. by rewrite fmap_app, <- app_assoc. Qed.

(** The positions of one element of the list. *)
Lemma tcontainer_maps_spec fields i x ps j :
  jget (element_pos fields [i]) j = Some x → tcontainer_maps (element_pos fields [i]) x = Ok ps →
  NoDup ps ∧ Forall (λ p, (∃ ix, p = element_pos fields (i :: ix)) ∧ ∃ m, jget p j = Some (JObj m)) ps.
Proof.
  intros Hx. destruct x as [| | | | |t l|m]; simpl; try done.
  - destruct t; try done. intros Hm. split.
    + apply NoDup_alt. intros k k' p Hk Hk'.
      destruct (map_res_lookup _ _ _ _ _ Hm Hk) as ([a y] & Ha & Hp).
      destruct (map_res_lookup _ _ _ _ _ Hm Hk') as ([a' y'] & Ha' & Hp').
      destruct (enum_lookup _ _ _ _ Ha) as [Ea _]. destruct (enum_lookup _ _ _ _ Ha') as [Ea' _].
      simpl in *. subst. destruct y, y'; simplify_eq/=. done.
    + apply Forall_lookup. intros k p Hk.
      destruct (map_res_lookup _ _ _ _ _ Hm Hk) as ([a y] & Ha & Hp).
      destruct (enum_lookup _ _ _ _ Ha) as [Ea Hl]. simpl in *. subst a. destruct y; simplify_eq. split.
      * exists [k]. apply element_pos_snoc.
      * exists m. rewrite jget_app, Hx. simpl. by rewrite Hl.
  - intros ?; simplify_eq. split; [apply NoDup_singleton|]. constructor; [|constructor].
    split; [by exists []|by eexists].
Qed.

Lemma tselected_sublist names c j ps : (flat_map (tselected names c j) ps).*1 `sublist_of` ps.
Proof.
  induction ps as [|p ps IH]; simpl; [constructor|]. unfold tselected at 1.
  destruct (_ || _); simpl; by constructor.
Qed.

Lemma tpath_containers_spec names c fields j l :
  tpath_containers names (c, fields) j = Ok l →
  NoDup l.*1 ∧ Forall (λ pc, pc.2 = c ∧ (∃ ix, ix ≠ [] ∧ pc.1 = element_pos fields ix) ∧
                         ∃ m, jget pc.1 j = Some (JObj m)) l.
Proof.
  unfold tpath_containers. cbn [fst snd].
  destruct (NestedFieldNoCopy j fields) as [x| |] eqn:Hn;
    try (intros ?; simplify_eq; by split; constructor).
  destruct x as [| | | | |t xs|m]; try (intros ?; simplify_eq; by split; constructor).
  destruct (map_res _ (enum 0 xs)) as [pss|] eqn:Em; [|done]. simpl. intros ?; simplify_eq.
  apply nested_jget in Hn.
  assert (∀ k ps, pss !! k = Some ps → NoDup ps ∧
    Forall (λ p, (∃ ix, p = element_pos fields (k :: ix)) ∧ ∃ m, jget p j = Some (JObj m)) ps) as Hps.
  { intros k ps Hk. destruct (map_res_lookup _ _ _ _ _ Em Hk) as ([i x] & Hi & Hx).
    destruct (enum_lookup _ _ _ _ Hi) as [Ei Hl]. simpl in *. subst i.
    eapply tcontainer_maps_spec; [|exact Hx]. unfold element_pos. rewrite jget_app, Hn. simpl. by rewrite Hl. }
  assert (NoDup (concat pss)) as Hnd.
  { apply (NoDup_concat_keyed (λ k p, ∃ ix, p = element_pos fields (k :: ix)) _ 0).
    - intros k k' p [ix ->] [ix' E]. apply element_pos_inj in E as [_ E]; [congruence|done|done].
    - intros k ps Hk. destruct (Hps k ps Hk) as [? Hf]. split; [done|].
      eapply Forall_impl; [exact Hf|]. by intros p [? _]. }
  split; [by eapply sublist_NoDup; [|apply tselected_sublist]|].
  apply Forall_flat_map, Forall_forall. intros p Hp. unfold tselected.
  destruct (_ || _); [|constructor]. constructor; [|constructor]. simpl.
  apply list_elem_of_In, in_concat in Hp as (ps & Hin%list_elem_of_In & Hp%list_elem_of_In).
  apply list_elem_of_lookup in Hin as [k Hk]. destruct (Hps k ps Hk) as [_ Hf].
  rewrite Forall_forall in Hf. destruct (Hf p Hp) as [[ix ->] Hm]. split_and!; [done| |done].
  by exists (k :: ix).
Qed.

Lemma concat_keys {A B} (ll : list (list (A * B))) : (concat ll).*1 = concat ((λ l, l.*1) <$> ll).
Proof. induction ll as [|l ll IH]; [done|]. csimpl. by rewrite fmap_app, IH. Qed.

(** Every container found belongs to one list of the mapping. *)
Definition container_of (cs : list WorkloadContainer) (fss : list (list string)) (j : json)
    (pc : pos * WorkloadContainer) : Prop :=
  ∃ k fields ix, cs !! k = Some pc.2 ∧ fss !! k = Some fields ∧ ix ≠ [] ∧
    pc.1 = element_pos fields ix ∧ ∃ m, jget pc.1 j = Some (JObj m).

Lemma tBindablePods_spec names cs fss j l :
  NoDup fss → tBindablePods names cs fss j = Ok l →
  NoDup l.*1 ∧ Forall (container_of cs fss j) l.
Proof.
  intros Hnd. unfold tBindablePods. destruct (map_res _ (zip cs fss)) as [ll|] eqn:Em; [|done]. simpl.
  intros Hl. assert (l = concat ll) as -> by (destruct (concat ll); by simplify_eq). clear Hl.
  assert (∀ k l, ll !! k = Some l → NoDup l.*1 ∧ Forall (λ pc, ∃ fields ix, cs !! k = Some pc.2 ∧
    fss !! k = Some fields ∧ ix ≠ [] ∧ pc.1 = element_pos fields ix ∧ ∃ m, jget pc.1 j = Some (JObj m)) l) as Hll.
  { intros k l Hk. destruct (map_res_lookup _ _ _ _ _ Em Hk) as ([c fields] & Hz & Hc).
    apply lookup_zip_with_Some in Hz as (c' & f' & ? & Hc' & Hf'). simplify_eq.
    apply tpath_containers_spec in Hc as [? Hf]. split; [done|].
    eapply Forall_impl; [exact Hf|]. intros pc (-> & (ix & ? & ?) & ?). exists f', ix. done. }
  split.
  - rewrite concat_keys.
    apply (NoDup_concat_keyed (λ k p, ∃ fields ix, fss !! k = Some fields ∧ ix ≠ [] ∧ p = element_pos fields ix) _ 0).
    + intros k k' p (f & ix & Hf & Hne & ->) (f' & ix' & Hf' & Hne' & E).
      apply element_pos_inj in E as [-> _]; [|done..]. by eapply NoDup_lookup.
    + intros k ps Hk. rewrite list_lookup_fmap in Hk. apply fmap_Some in Hk as (l & Hk & ->).
      destruct (Hll k l Hk) as [? Hf]. split; [done|]. rewrite Forall_fmap.
      eapply Forall_impl; [exact Hf|]. intros pc (f & ix & _ & ? & ? & ? & _). simpl. eauto.
  - apply Forall_concat, Forall_lookup. intros k l Hk. destruct (Hll k l Hk) as [_ Hf].
    eapply Forall_impl; [exact Hf|]. intros pc (f & ix & ? & ? & ? & ? & ?). exists k, f, ix. done.
Qed.

Lemma objects_incomparable fss j p p' m m' :
  container_pos fss p → container_pos fss p' → jget p j = Some (JObj m) → jget p' j = Some (JObj m') →
  p ≠ p' → incomparable p p'.
Proof.
  assert (∀ p p' m, container_pos fss p → container_pos fss p' → jget p j = Some (JObj m) →
            jget p' j ≠ None → p ≠ p' → ¬ p `prefix_of` p') as Hone.
  { clear. intros p p' m (f & ix & _ & Hne & ->) (f' & ix' & _ & _ & ->) Hm Hm' Hneq [q E].
    rewrite E in Hm'. rewrite jget_app, Hm in Hm'.
    symmetry in E. pose proof E as [ixs ->]%element_pos_app; [|done].
    destruct ixs as [|i ixs]; [|done]. rewrite app_nil_r in E. congruence. }
  intros Hp Hp' Hm Hm' Hne. split; eapply Hone; eauto; congruence.
Qed.

(** A mapping whose lists are in different places. *)
Definition well_laid (m : WorkloadMapping) (fss : list (list string)) : Prop :=
  layout m = Some fss ∧ NoDup fss ∧
  Forall (λ c, separate_paths c ∧ incomparable (K <$> wc_env c) (K <$> wc_name c) ∧
               incomparable (K <$> wc_volumeMounts c) (K <$> wc_name c) ∧
               incomparable (K <$> wc_envFrom c) (K <$> wc_name c)) (wm_containers m).

Lemma container_of_pos cs fss j pc : container_of cs fss j pc → container_pos fss pc.1.
Proof.
  intros (k & fields & ix & _ & Hf & Hne & -> & _). exists fields, ix.
  split_and!; [by eapply list_elem_of_lookup_2|done|done].
Qed.

Lemma ForallOrdPairs_NoDup {A B} (R : A → A → Prop) (f : A → B) l :
  NoDup (f <$> l) → (∀ x y, x ∈ l → y ∈ l → f x ≠ f y → R x y) → ForallOrdPairs R l.
Proof.
  induction l as [|x l IH]; intros Hnd HR; constructor.
  - csimpl in Hnd. apply NoDup_cons in Hnd as [Hx _]. apply Forall_forall. intros y Hy.
    apply HR; [set_solver..|]. intros E. apply Hx. rewrite E. by apply list_elem_of_fmap_2.
  - csimpl in Hnd. apply NoDup_cons in Hnd as [_ Hnd]. apply IH; [done|]. intros. apply HR; set_solver.
Qed.

Lemma tBindablePods_pod_ok m fss names j cs :
  well_laid m fss → is_obj j → tBindablePods names (wm_containers m) fss j = Ok cs →
  pod_ok (wm_volume m) cs j.
Proof.
  intros (Hlay & Hnd & Hsep) Hj Hb. destruct (layout_spec _ _ Hlay) as [_ [Hv Hp]].
  pose proof (tBindablePods_containers _ _ _ _ _ Hb) as Hin.
  destruct (tBindablePods_spec _ _ _ _ _ Hnd Hb) as [Hndc Hof].
  assert (Forall (λ pc, ∃ m, jget pc.1 j = Some (JObj m)) cs) as Hobj.
  { eapply Forall_impl; [exact Hof|]. by intros pc (? & ? & ? & _ & _ & _ & _ & ?). }
  assert (cs ≠ []) as Hcs.
  { intros ->. unfold tBindablePods in Hb. destruct (map_res _ _) as [ll|]; [|done]. simpl in Hb.
    by destruct (concat ll). }
  rewrite Forall_forall in Hof. rewrite Forall_forall in Hobj. rewrite Forall_forall in Hin.
  rewrite Forall_forall in Hv. rewrite Forall_forall in Hp. rewrite Forall_forall in Hsep. split; [done| | | | |].
  - intros Hnil. destruct cs as [|pc cs]; [done|].
    destruct (Hof pc ltac:(set_solver)) as (k & fields & ix & _ & Hf & _).
    apply (Hv fields); [by eapply list_elem_of_lookup_2|]. rewrite Hnil. apply prefix_nil.
  - by apply Forall_forall.
  - eapply (ForallOrdPairs_NoDup _ fst); [exact Hndc|]. intros pc pc' Hpc Hpc' Hne.
    destruct (Hobj _ Hpc) as [m1 Hm1]. destruct (Hobj _ Hpc') as [m2 Hm2].
    eapply objects_incomparable; eauto using container_of_pos.
  - apply Forall_forall. intros pc Hpc. destruct (Hof _ Hpc) as (k & fields & ix & _ & Hf & Hne & E & _).
    rewrite E. split.
    + intros Hpre%keys_element_prefix. apply (Hv fields); [by eapply list_elem_of_lookup_2|done].
    + by apply element_keys_prefix.
  - apply Forall_forall. intros pc Hpc. specialize (Hin _ Hpc). specialize (Hp _ Hin).
    split; [by apply Hsep|]. rewrite Forall_forall in Hp. apply Hp. unfold container_paths. set_solver.
Qed.

(** ** What finding the containers depends on *)
Definition is_objb (x : json) : bool := match x with JObj _ => true | _ => false end.

(** An object, a list with its objects marked, or something else. *)
Definition tshape (x : json) : option (option (list bool)) :=
  match x with
  | JObj _ => Some None
  | JArr SliceAny l => Some (Some (is_objb <$> l))
  | _ => None
  end.

Definition list_shape (fields : list string) (j : json) : option (list (option (option (list bool)))) :=
  match jget (K <$> fields) j with Some (JArr _ l) => Some (tshape <$> l) | _ => None end.

Lemma tcontainer_maps_shape p x y : tshape x = tshape y → tcontainer_maps p x = tcontainer_maps p y.
Proof.
  destruct x as [| | | | |[] l|], y as [| | | | |[] l'|]; try done. simpl. intros [= E].
  generalize 0 as i. revert l' E. induction l as [|x l IH]; intros [|y l'] E i; csimpl in *; simplify_eq; [done|].
  rewrite (IH l') by done. by destruct x, y.
Qed.

Lemma map_res_ext {A B E} (f g : A → res E B) xs ys :
  Forall2 (λ x y, f x = g y) xs ys → map_res f xs = map_res g ys.
Proof. induction 1 as [|x y xs ys Hxy _ IH]; [done|]. simpl. by rewrite Hxy, IH. Qed.

Lemma flat_map_ext_elem {A B} (f g : A → list B) l :
  (∀ x, x ∈ l → f x = g x) → flat_map f l = flat_map g l.
Proof.
  induction l as [|x l IH]; intros Hf; [done|]. simpl. rewrite Hf, IH; [done| |]; set_solver.
Qed.

Lemma tpath_containers_ext names c fields j j' :
  list_shape fields j' = list_shape fields j →
  (∀ ix, ix ≠ [] → tname c j' (element_pos fields ix) = tname c j (element_pos fields ix)) →
  tpath_containers names (c, fields) j' = tpath_containers names (c, fields) j.
Proof.
  intros Hs Hn. unfold tpath_containers, list_shape in *. cbn [fst snd].
  assert (∀ y, NestedFieldNoCopy y fields = match jget (K <$> fields) y with
    | Some z => Found z | None => match NestedFieldNoCopy y fields with Found _ => NotFound | o => o end end) as E.
  { intros y. destruct (jget (K <$> fields) y) eqn:Ej; [by apply nested_jget|].
    destruct (NestedFieldNoCopy y fields) as [z| |] eqn:Ez; [|done..].
    apply nested_jget in Ez. congruence. }
  rewrite (E j), (E j').
  destruct (jget (K <$> fields) j) as [[| | | | |t l|]|], (jget (K <$> fields) j') as [[| | | | |t' l'|]|];
    try done; try (destruct (NestedFieldNoCopy j fields), (NestedFieldNoCopy j' fields); done);
    try (destruct (NestedFieldNoCopy j fields); done); try (destruct (NestedFieldNoCopy j' fields); done).
  simplify_eq.
  assert (map_res (λ ix, tcontainer_maps (element_pos fields [ix.1]) ix.2) (enum 0 l') =
          map_res (λ ix, tcontainer_maps (element_pos fields [ix.1]) ix.2) (enum 0 l)) as ->.
  { apply map_res_ext. generalize 0 as i. revert l Hs. induction l' as [|x l' IH]; intros [|y l] Hs i; csimpl in *;
      simplify_eq; constructor; [simpl; by apply tcontainer_maps_shape|by apply IH]. }
  destruct (map_res _ (enum 0 l)) as [pss|] eqn:Em; [|done]. simpl. f_equal.
  apply flat_map_ext_elem. intros p Hp. unfold tselected.
  apply list_elem_of_In, in_concat in Hp as (ps & Hin%list_elem_of_In & Hp%list_elem_of_In).
  apply list_elem_of_lookup in Hin as [k Hk].
  destruct (map_res_lookup _ _ _ _ _ Em Hk) as ([i x] & Hi & Hx).
  eapply (tcontainer_maps_pos [fields]) in Hx; [|set_solver]. rewrite Forall_forall in Hx.
  destruct (Hx p Hp) as (f & ix & Hf & Hne & ->). apply list_elem_of_singleton in Hf as ->. by rewrite Hn.
Qed.

Lemma tBindablePods_ext names cs fss j j' :
  (∀ k c fields, cs !! k = Some c → fss !! k = Some fields →
     list_shape fields j' = list_shape fields j ∧
     ∀ ix, ix ≠ [] → tname c j' (element_pos fields ix) = tname c j (element_pos fields ix)) →
  tBindablePods names cs fss j' = tBindablePods names cs fss j.
Proof.
  intros Hk. unfold tBindablePods.
  assert (map_res (λ cf, tpath_containers names cf j') (zip cs fss) =
          map_res (λ cf, tpath_containers names cf j) (zip cs fss)) as ->; [|done].
  apply map_res_ext, Forall2_same_length_lookup. split; [done|].
  intros k x [c fields] Hx Hy. rewrite Hx in Hy. injection Hy as ->.
  apply lookup_zip_with_Some in Hx as (c' & f' & ? & Hc & Hf). simplify_eq.
  destruct (Hk k c' f' Hc Hf). by apply tpath_containers_ext.
Qed.

(** ** One container is edited *)
Lemma tshape_jput ix x z m m' :
  jget (I <$> ix) z = Some (JObj m) → x = JObj m' → tshape (jput (I <$> ix) x z) = tshape z.
Proof.
  intros Hz ->. destruct ix as [|i ix]; csimpl in *; [by simplify_eq|].
  destruct z as [| | | | |t l|]; try done. destruct (l !! i) as [y|] eqn:Hy; [|done]. simpl in Hz.
  destruct t; try done. simpl. do 2 f_equal. rewrite list_fmap_insert. apply list_insert_id.
  rewrite list_lookup_fmap, Hy. simpl. f_equal.
  destruct ix as [|i' ix]; csimpl in *; [by simplify_eq|]. destruct y as [| | | | |t' l'|]; try done.
  simpl. by destruct (l' !! i').
Qed.

Section Step.
Context (j : json) (f0 : list string) (ix0 : list nat) (m m' : list (string * json)).
Hypothesis Hne : ix0 ≠ [].
Hypothesis Hm : jget (element_pos f0 ix0) j = Some (JObj m).
Let j' := jput (element_pos f0 ix0) (JObj m') j.

Lemma step_above p q y :
  element_pos f0 ix0 = p ++ q → jget p j = Some y → jget p j' = Some (jput q (JObj m') y).
Proof.
  intros E Hy. unfold j'. rewrite E, (jput_app _ _ _ _ _ Hy). by eapply jget_jput_eq.
Qed.

Lemma step_list_shape fields : list_shape fields j' = list_shape fields j.
Proof.
  unfold list_shape. destruct (decide ((K <$> fields) `prefix_of` element_pos f0 ix0)) as [[q E]|Hn].
  - rewrite E, jget_app in Hm. destruct (jget (K <$> fields) j) as [y|] eqn:Ey; [|done]. simpl in Hm.
    rewrite (step_above _ _ _ E Ey).
    assert ((∃ k q', q = K k :: q') ∨ fields = f0 ∧ q = I <$> ix0) as [(k & q' & ->)|[-> ->]].
    { clear -E Hne. revert f0 E. induction fields as [|f fields IH]; intros [|g gs] E; csimpl in E.
      - by right.
      - left. unfold element_pos in E. csimpl in E. eauto.
      - unfold element_pos in E. csimpl in E. by destruct ix0.
      - unfold element_pos in E. csimpl in E. simplify_eq.
        destruct (IH gs) as [?|[-> ->]]; [done|by left|by right]. }
    + simpl in Hm |- *. destruct y; try done. by destruct (aget k m0).
    + destruct ix0 as [|i ix]; [done|]. csimpl in *. destruct y as [| | | | |t l|]; try done.
      destruct (l !! i) as [z|] eqn:Ez; [|done]. simpl in Hm. f_equal.
      rewrite list_fmap_insert. apply list_insert_id. rewrite list_lookup_fmap, Ez. simpl. f_equal.
      symmetry. by eapply tshape_jput.
  - assert (incomparable (element_pos f0 ix0) (K <$> fields)) as Hi.
    { split; [by apply element_keys_prefix|done]. }
    unfold j'. by rewrite jget_jput_ne.
Qed.

Lemma step_tname c fields ix :
  ix ≠ [] → (fields = f0 → NestedString (JObj m') (wc_name c) = NestedString (JObj m) (wc_name c)) →
  tname c j' (element_pos fields ix) = tname c j (element_pos fields ix).
Proof.
  intros Hix Hname. unfold tname.
  destruct (decide (element_pos f0 ix0 `prefix_of` element_pos fields ix)) as [[q E]|Hn].
  - symmetry in E. pose proof E as [ixs ->]%element_pos_app; [|done]. symmetry in E.
    rewrite E, !jget_app, Hm. unfold j'. rewrite (jget_jput_eq _ _ _ _ Hm). simpl.
    destruct ixs as [|i ixs]; [|done]. simpl.
    rewrite app_nil_r in E. apply element_pos_inj in E as [-> _]; [|done..]. by rewrite Hname.
  - destruct (decide (element_pos fields ix `prefix_of` element_pos f0 ix0)) as [[q E]|Hn'].
    + pose proof E as E'. symmetry in E'. apply element_pos_app in E' as [ixs ->]; [|done].
      pose proof Hm as Hy. rewrite E, jget_app in Hy.
      destruct (jget (element_pos fields ix) j) as [y|] eqn:Ey; [|done]. simpl in Hy.
      rewrite (step_above _ _ _ E Ey).
      destruct ixs as [|i ixs]; [|].
      { destruct Hn. rewrite E, app_nil_r. done. }
      csimpl in *. destruct y as [| | | | |t l|]; try done. destruct (l !! i); [|done].
      unfold NestedString. by destruct (wc_name c).
    + unfold j'. by rewrite jget_jput_ne.
Qed.
End Step.

(** ** The containers found after a projection *)
Lemma element_incomparable volumes fields ix :
  ¬ volumes `prefix_of` fields → ix ≠ [] → incomparable (K <$> volumes) (element_pos fields ix).
Proof.
  intros Hv Hne. split; [by intros ?%keys_element_prefix|by apply element_keys_prefix].
Qed.

(** A list is not above a path that can be written. *)
Lemma writable_above path q j x :
  writable (path ++ q) j = true → q ≠ [] →
  (∀ y, jget (K <$> path) j = Some y → is_obj y) ∧ (∀ y, jget (K <$> path) (jwrite (path ++ q) x j) = Some y → is_obj y).
Proof.
  intros Hw Hq. revert j Hw. induction path as [|k path IH]; intros j Hw; csimpl.
  { assert (is_obj j) as [m ->] by (destruct q, j; try done; by eexists).
    split; [intros ? [= <-]; by eexists|]. intros ? [= <-]. apply jwrite_obj. }
  assert (∃ k' path', path ++ q = k' :: path') as (k' & path' & E) by (destruct path, q; try done; by eexists _, _).
  cbn [app] in *. rewrite E in *. apply writable_cons in Hw as (m & -> & Hw). cbn [jwrite].
  rewrite aget_aset_eq. destruct (aget k m) as [z|] eqn:Ez; [by apply IH|].
  split; [done|]. eapply (IH (JObj [])). simpl. by destruct path'.
Qed.

Lemma write_list_shape path x j fields :
  writable path j = true → ¬ path `prefix_of` fields →
  list_shape fields (jwrite path x j) = list_shape fields j.
Proof.
  intros Hw Hn. unfold list_shape. destruct (decide (fields `prefix_of` path)) as [[q ->]|Hn'].
  - assert (q ≠ []) as Hq by (intros ->; apply Hn; by rewrite app_nil_r).
    destruct (writable_above _ _ _ x Hw Hq) as [H1 H2].
    destruct (jget (K <$> fields) j) as [y|], (jget (K <$> fields) (jwrite (fields ++ q) x j)) as [y'|];
      try (destruct (H1 _ eq_refl) as [? ->]); try (destruct (H2 _ eq_refl) as [? ->]); done.
  - rewrite jget_jwrite_ne; [done|done|].
    split; intros [t Et]; [apply Hn|apply Hn'].
    + exists (drop (length path) fields). clear -Et. revert fields Et.
      induction path as [|p path IH]; intros [|f fields] Et; csimpl in *; simplify_eq; [done..|]. f_equal. by apply IH.
    + exists (drop (length fields) path). clear -Et. revert path Et.
      induction fields as [|p path IH]; intros [|f fields] Et; csimpl in *; simplify_eq; [done..|]. f_equal. by apply IH.
Qed.

Section Kept.
Context `{ConverterAccepts} (m : WorkloadMapping) (fss : list (list string)) (names : list string).
Hypothesis Hwell : well_laid m fss.

Lemma tsetSlice_containers t l j r j' :
  is_obj j → tsetSlice t l (wm_volume m) j = (Ret (Ok r), j') →
  tBindablePods names (wm_containers m) fss j' = tBindablePods names (wm_containers m) fss j.
Proof.
  destruct Hwell as (Hlay & _ & _). destruct (layout_spec _ _ Hlay) as [_ [Hv _]]. rewrite Forall_forall in Hv.
  intros [mj ->] Hset.
  unfold tsetSlice in Hset. destruct (wm_volume m) as [|k path] eqn:Ev; [done|]. rewrite <- Ev in *.
  destruct (write_error _ _) eqn:Ew; [done|]. simplify_eq.
  apply write_error_writable in Ew; [|by rewrite Ev].
  apply tBindablePods_ext. intros i c fields Hc Hf. apply list_elem_of_lookup_2 in Hf. split.
  - apply write_list_shape; [done|by apply Hv].
  - intros ix Hne. unfold tname. rewrite jget_jwrite_ne; [done|done|].
    apply element_incomparable; [by apply Hv|done].
Qed.

(** Any edit of the volumes. *)
Lemma volumes_containers ty init g j r j' :
  is_obj j → tupdate KVolume (wm_volume m) ty init g j = (Ret (Ok r), j') →
  tBindablePods names (wm_containers m) fss j' = tBindablePods names (wm_containers m) fss j.
Proof.
  intros Hj. unfold tupdate. destruct (tResources _ _ _) as [l| |]; [| |done].
  - destruct (g l); [by apply tsetSlice_containers|by intros [= _ ->]].
  - destruct init; [by apply tsetSlice_containers|by intros [= _ ->]].
Qed.

Lemma container_step (g : M json (result unit)) j pc x r x' :
  (∀ x r x', is_obj x → g x = (Ret (Ok r), x') →
     is_obj x' ∧ NestedFieldNoCopy x' (wc_name pc.2) = NestedFieldNoCopy x (wc_name pc.2)) →
  container_of (wm_containers m) fss j pc → jget pc.1 j = Some x → g x = (Ret (Ok r), x') →
  tBindablePods names (wm_containers m) fss (jput pc.1 x' j) = tBindablePods names (wm_containers m) fss j.
Proof.
  intros Hg (k & f0 & ix0 & Hc & Hf & Hne & E & mx & Hm) Hx Hgx.
  destruct Hwell as (_ & Hnd & _). rewrite Hm in Hx. simplify_eq.
  destruct (Hg _ _ _ ltac:(by eexists) Hgx) as [[m' ->] Hn]. rewrite E in *.
  apply tBindablePods_ext. intros k' c fields Hc' Hf'. split; [by eapply step_list_shape|].
  intros ix Hix. eapply step_tname; [done..|]. intros ->.
  assert (k' = k) as -> by by eapply NoDup_lookup. rewrite Hc in Hc'. injection Hc' as <-.
  unfold NestedString. by rewrite Hn.
Qed.

(** A loop over the containers that were found. *)
Lemma each_containers (g : WorkloadContainer → M json (result unit)) cs j r j' :
  (∀ c x r x', c ∈ wm_containers m → is_obj x → g c x = (Ret (Ok r), x') →
     is_obj x' ∧ NestedFieldNoCopy x' (wc_name c) = NestedFieldNoCopy x (wc_name c)) →
  ForallOrdPairs (λ pc pc', incomparable pc.1 pc'.1) cs →
  Forall (container_of (wm_containers m) fss j) cs →
  each_res cs (λ pc, lift_at pc.1 (g pc.2)) j = (Ret (Ok r), j') →
  tBindablePods names (wm_containers m) fss j' = tBindablePods names (wm_containers m) fss j.
Proof.
  intros Hg Hs. revert j. induction Hs as [|[p c] cs Hp Hs IH]; intros j Hcs Hj; simpl in Hj.
  { unfold mret, M_ret in Hj. by simplify_eq. }
  unfold rbind, mbind, M_bind in Hj. unfold lift_at at 1 in Hj. simpl in Hj.
  destruct (jget p j) as [x|] eqn:Ex; [|done].
  destruct (g c x) as [[[u|]|] x'] eqn:Eg; try done.
  apply Forall_cons in Hcs as [Hpc Hcs].
  assert (c ∈ wm_containers m) as Hc
    by (destruct Hpc as (k & ? & ? & Hk & _); by eapply list_elem_of_lookup_2).
  rewrite (IH (jput p x' j)).
  - eapply (container_step (g c) j (p, c)); eauto.
  - apply Forall_forall. intros [p' c'] Hin. rewrite Forall_forall in Hp, Hcs.
    destruct (Hcs _ Hin) as (k & f & ix & ? & ? & ? & ? & mx & ?). exists k, f, ix. split_and!; [done..|].
    exists mx. rewrite jget_jput_ne; [done|]. exact (Hp _ Hin).
  - done.
Qed.

Lemma files_container_name name c x r x' :
  c ∈ wm_containers m → is_obj x → tfiles_container name c x = (Ret (Ok r), x') →
  is_obj x' ∧ NestedFieldNoCopy x' (wc_name c) = NestedFieldNoCopy x (wc_name c).
Proof.
  intros Hc Hx Hf. destruct Hwell as (_ & _ & Hsep). rewrite Forall_forall in Hsep.
  destruct (Hsep _ Hc) as (Hs & He & Hv & _).
  destruct (tfiles_container_spec _ _ _ _ _ Hx Hs Hf) as (_ & _ & _ & _ & _ & _ & Hx' & _ & Hp). auto.
Qed.

(** The projection does not change which containers are found. *)
Lemma tfiles_pod_containers name secretName cs j r j1 :
  is_obj j → tBindablePods names (wm_containers m) fss j = Ok cs →
  tfiles_pod name secretName (wm_volume m) cs j = (Ret (Ok r), j1) →
  tBindablePods names (wm_containers m) fss j1 = Ok cs ∧ is_obj j1.
Proof.
  intros Hj Hb Hf. pose proof (tBindablePods_pod_ok _ _ _ _ _ Hwell Hj Hb) as Hok.
  split.
  - unfold tfiles_pod, rbind, mbind, M_bind in Hf.
    destruct (tAddVolume (wm_volume m) _ j) as [[[u|]|] ja] eqn:Ea; try done.
    pose proof (volumes_containers _ _ _ _ _ _ Hj Ea) as Eb. rewrite Hb in Eb.
    rewrite <- Eb. eapply (each_containers (tfiles_container name)); [|apply Hok| |exact Hf].
    + intros. by eapply files_container_name.
    + eapply tBindablePods_spec; [apply Hwell|exact Eb].
  - destruct (tfiles_pod_spec _ _ _ _ _ _ _ Hok Hf) as (vols & _ & Hv1 & _).
    pose proof (pod_volumes _ _ _ Hok). destruct (wm_volume m); [done|].
    simpl in Hv1. destruct j1; try done. by eexists.
Qed.
End Kept.
