(* ===== verification/TreeWire.v ===== *)
(** * What the cluster keeps of an object

    An object that is written to the cluster and read back has lost the
    difference between Go's two types of slices. The edits on trees respect the
    equivalence this makes, so that what is proved of the object in memory
    holds of the object the next reconciliation reads, as long as it had no nil
    slice, which is written as null. *)

From S2P Require Import Prelude.
From S2P Require Import GoLib.
From S2P Require Import GoValue.
From S2P Require Import JsonPath.
From S2P Require Import Heap.
From S2P Require Import Converter.
From S2P Require Import Workload.
From S2P Require Import Application.
From S2P Require Import Context.
From S2P Require Import Tree.
From S2P Require Import TreeEdit.
From S2P Require Import TreeOps.
From S2P Require Import TreePods.
From S2P Require Import TreeApps.
From S2P Require Import TreeLaws.
From S2P Require Import TreeBind.
From S2P Require Import TreeShape.

(** ** Objects that are the same on the wire *)

(** The tree without the types of its slices. *)
Fixpoint plain (j : json) : json :=
  match j with
  | JArr _ l => JArr SliceAny (map plain l)
  | JObj m => JObj (map (λ kv, (kv.1, plain kv.2)) m)
  | _ => j
  end.

Definition on_wire (j j' : json) : Prop := plain j = plain j'.
Definition on_wires (l l' : list json) : Prop := plain <$> l = plain <$> l'.

#[export] Instance on_wire_equivalence : Equivalence on_wire.
Proof. split; unfold on_wire; [by intros ?|by intros ? ?|intros ? ? ?; congruence]. Qed.

(** Conversion does not depend on the type of a slice. *)
Class ConverterOnWire `{Converter} :=
  from_unstructured_plain k x : from_unstructured k (plain x) = from_unstructured k x.

Definition norm_fields (m : list (string * json)) : list (string * json) :=
  map (λ kv, (kv.1, plain kv.2)) m.

Lemma plain_idem j : plain (plain j) = plain j.
Proof.
  induction j as [| | | | |t l IH|m IH] using json_ind'; simpl; try done; f_equal; rewrite map_map.
  - apply map_ext_in. intros x Hx. rewrite Forall_forall in IH. by apply IH, list_elem_of_In.
  - apply map_ext_in. intros [k x] Hx. simpl. f_equal. rewrite Forall_forall in IH.
    apply (IH (k, x)). by apply list_elem_of_In.
Qed.

Lemma plain_on_wire j : on_wire (plain j) j.
Proof. apply plain_idem. Qed.

Lemma aget_norm k m : aget k (norm_fields m) = plain <$> aget k m.
Proof. induction m as [|[k' v] m IH]; simpl; [done|]. by destruct (String.eqb k k'). Qed.

Lemma aset_norm k x m : norm_fields (aset k x m) = aset k (plain x) (norm_fields m).
Proof. induction m as [|[k' v] m IH]; simpl; [done|]. destruct (String.eqb k k'); simpl; by rewrite ?IH. Qed.

Lemma jget_plain p j : jget p (plain j) = plain <$> jget p j.
Proof.
  revert j. induction p as [|[k|i] p IH]; intros j; [done|..]; destruct j as [| | | | |t l|m]; try done; simpl.
  - fold (norm_fields m). rewrite aget_norm. destruct (aget k m); simpl; [apply IH|done].
  - change (map plain l) with (plain <$> l). rewrite list_lookup_fmap.
    destruct (l !! i); simpl; [apply IH|done].
Qed.

Lemma jput_plain p x j : plain (jput p x j) = jput p (plain x) (plain j).
Proof.
  revert j. induction p as [|[k|i] p IH]; intros j; [done|..]; destruct j as [| | | | |t l|m]; try done; simpl.
  - fold (norm_fields m). rewrite aget_norm. destruct (aget k m); simpl; [|done].
    fold (norm_fields (aset k (jput p x j) m)). by rewrite aset_norm, IH.
  - change (map plain l) with (plain <$> l). rewrite list_lookup_fmap.
    destruct (l !! i) as [y|]; simpl; [|done].
    change (map plain (<[i:=jput p x y]> l)) with (plain <$> <[i:=jput p x y]> l).
    by rewrite list_fmap_insert, IH.
Qed.

Lemma jwrite_plain path x j : plain (jwrite path x j) = jwrite path (plain x) (plain j).
Proof.
  revert j. induction path as [|k path IH]; intros j; [done|]. destruct j as [| | | | | |m]; try (by destruct path).
  destruct path as [|k' path]; cbn [jwrite plain]; fold (norm_fields m); rewrite <- ?aget_norm.
  - f_equal. apply aset_norm.
  - f_equal. etrans; [apply aset_norm|]. f_equal.
    etrans; [exact (IH (default (JObj []) (aget k m)))|]. rewrite aget_norm. by destruct (aget k m).
Qed.

Definition nested_map {A B} (f : A → B) (x : nested A) : nested B :=
  match x with Found a => Found (f a) | NotFound => NotFound | NErr e => NErr e end.

Lemma nested_plain j path :
  NestedFieldNoCopy (plain j) path = nested_map plain (NestedFieldNoCopy j path).
Proof.
  revert j. induction path as [|k path IH]; intros j; [done|]. destruct j as [| | | | | |m]; try done. simpl.
  fold (norm_fields m). rewrite aget_norm. destruct (aget k m); simpl; [apply IH|done].
Qed.

Lemma NestedString_plain j path : NestedString (plain j) path = NestedString j path.
Proof.
  unfold NestedString. rewrite nested_plain. by destruct (NestedFieldNoCopy j path) as [[]| |].
Qed.

(** ** The tests on an element *)
Lemma tstring_at_is_plain fields name x : tstring_at_is fields name (plain x) = tstring_at_is fields name x.
Proof. unfold tstring_at_is. by rewrite NestedString_plain. Qed.
Lemma tfield_plain k x : tfield k (plain x) = tfield k x.
Proof.
  destruct x as [| | | | | |m]; try done. simpl. fold (norm_fields m). rewrite aget_norm.
  by destruct (aget k m) as [[]|].
Qed.
Lemma tname_is_plain name x : tname_is name (plain x) = tname_is name x.
Proof.
  destruct x as [| | | | | |m]; try done. simpl. fold (norm_fields m). rewrite aget_norm.
  by destruct (aget "name" m) as [[]|].
Qed.

(** ** Computations that respect the equivalence *)
Abbreviation respects f := (Proper (on_wire ==> prod_relation eq on_wire) f).

Section Respects.
Context `{ConverterOnWire}.
Implicit Types (j : json) (l : list json).

Lemma respects_intro {A} (f : M json A) :
  (∀ j, (f (plain j)).1 = (f j).1 ∧ on_wire (f (plain j)).2 (f j).2) → respects f.
Proof.
  intros Hf j j' Hj. unfold on_wire in Hj. destruct (Hf j) as [E1 E2]. destruct (Hf j') as [E1' E2'].
  rewrite Hj in E1, E2. split; [by rewrite <- E1|]. rewrite <- E2. by rewrite E2'.
Qed.

Lemma respects_ret {A} (a : A) : respects (mret a : M json A).
Proof. by intros j j' Hj. Qed.

Lemma respects_bind {A B} (f : M json A) (k : A → M json B) :
  respects f → (∀ a, respects (k a)) → respects (f ≫= k).
Proof.
  intros Hf Hk j j' Hj. destruct (Hf j j' Hj) as [E Hj1]. unfold mbind, M_bind.
  destruct (f j) as [[a|] j1], (f j') as [[a'|] j1']; simpl in *; simplify_eq; [by apply Hk|done].
Qed.

Lemma respects_rbind {A B} (f : M json (result A)) (k : A → M json (result B)) :
  respects f → (∀ a, respects (k a)) → respects (let! a := f in k a).
Proof. intros Hf Hk. apply respects_bind; [done|]. intros [a|e]; [apply Hk|apply respects_ret]. Qed.

Lemma respects_each {A} (xs : list A) (k : A → M json (result unit)) :
  (∀ x, respects (k x)) → respects (each_res xs k).
Proof. intros Hk. induction xs as [|x xs IH]; simpl; [apply respects_ret|]. by apply respects_rbind. Qed.

Lemma respects_for_all {A} (xs : list A) (k : A → M json unit) :
  (∀ x, respects (k x)) → respects (for_all xs k).
Proof.
  intros Hk. induction xs as [|x xs IH]; simpl; [apply respects_ret|]. by apply respects_bind.
Qed.

Lemma respects_lift {A} p (f : M json A) : respects f → respects (lift_at p f).
Proof.
  intros Hf j j' Hj. unfold lift_at. pose proof (jget_plain p j) as E. pose proof (jget_plain p j') as E'.
  unfold on_wire in Hj. rewrite Hj, E' in E.
  destruct (jget p j) as [x|], (jget p j') as [x'|]; simplify_eq/=; [|done].
  destruct (Hf x x') as [Ef Hx]; [done|]. destruct (f x), (f x'). split; [done|]. simpl in *.
  unfold on_wire in *. rewrite !jput_plain. congruence.
Qed.

Lemma blocked_plain seen ps j : blocked seen ps (plain j) = blocked seen ps j.
Proof.
  revert seen j. induction ps as [|p ps IH]; intros seen j; [done|]. destruct j as [| | | | | |m]; try done. simpl.
  fold (norm_fields m). rewrite aget_norm. destruct (aget p m) as [[]|]; try done. simpl. apply (IH _ (JObj m0)).
Qed.

Lemma write_error_plain path j : write_error path (plain j) = write_error path j.
Proof.
  unfold write_error. rewrite nested_plain, blocked_plain.
  by destruct (NestedFieldNoCopy j (path_init path)) as [[]| |].
Qed.

Lemma tsetSlice_wire t l l' path j j' :
  on_wires l l' → on_wire j j' → prod_relation eq on_wire (tsetSlice t l path j) (tsetSlice t l' path j').
Proof.
  intros Hl Hj. unfold tsetSlice. destruct path as [|k path]; [done|].
  pose proof (write_error_plain (k :: path) j) as E. rewrite Hj, write_error_plain in E. rewrite E.
  destruct (write_error (k :: path) j); [done|]. split; [done|]. cbn [snd].
  unfold on_wire at 1. etrans; [apply jwrite_plain|]. etrans; [|symmetry; apply jwrite_plain].
  unfold on_wires, on_wire in *. cbn [plain]. by rewrite Hj, (Hl : map plain l = _).
Qed.

Lemma tconvert_items_plain k l :
  tconvert_items k (plain <$> l) = nested_map (fmap plain) (tconvert_items k l).
Proof.
  induction l as [|x l IH]; [done|]. csimpl. destruct x as [| | | | | |m]; try done.
  pose proof (from_unstructured_plain k (JObj m)) as E. simpl in E. simpl. rewrite E.
  destruct (from_unstructured k (JObj m)); [done|]. rewrite IH. by destruct (tconvert_items k l).
Qed.

Lemma tResources_plain k path j :
  tResources k path (plain j) = nested_map (fmap plain) (tResources k path j).
Proof.
  unfold tResources. rewrite nested_plain. destruct (NestedFieldNoCopy j path) as [x| |]; [|done..].
  destruct x as [| | | | |t l|]; try done. simpl. apply tconvert_items_plain.
Qed.

(** The resources at a path of two trees. *)
Lemma tlist_plain k path j : tlist k path (plain j) = option_map (fmap plain) (tlist k path j).
Proof. unfold tlist. rewrite tResources_plain. by destruct (tResources k path j). Qed.

Lemma tResources_wire k path j j' :
  on_wire j j' → match tResources k path j, tResources k path j' with
                 | Found l, Found l' => on_wires l l'
                 | NotFound, NotFound => True
                 | NErr e, NErr e' => e = e'
                 | _, _ => False
                 end.
Proof.
  intros Hj. pose proof (tResources_plain k path j) as E. rewrite Hj, tResources_plain in E.
  destruct (tResources k path j), (tResources k path j'); simplify_eq/=; [by symmetry|done..].
Qed.

Lemma tupdate_respects k path ty init (g : list json → option (list json)) :
  (∀ l : list json, g (plain <$> l) = option_map (fmap plain) (g l)) → respects (tupdate k path ty init g).
Proof.
  intros Hg j j' Hj. unfold tupdate. pose proof (tResources_wire k path j j' Hj) as Hr.
  destruct (tResources k path j) as [l| |], (tResources k path j') as [l'| |]; try done.
  - pose proof (Hg l) as E. rewrite Hr, Hg in E.
    destruct (g l) as [l1|], (g l') as [l2|]; simplify_eq/=; [|done].
    assert (length l1 = length l2) as -> by (apply (f_equal length) in E; by rewrite !length_fmap in E).
    by apply tsetSlice_wire.
  - destruct init; [by apply tsetSlice_wire|done].
  - by subst.
Qed.

Lemma remove_first_plain p l :
  (∀ x, p (plain x) = p x) → remove_first p (plain <$> l) = option_map (fmap plain) (remove_first p l).
Proof.
  intros Hp. induction l as [|x l IH]; [done|]. csimpl. rewrite Hp, IH. destruct (p x); [done|].
  by destruct (remove_first p l).
Qed.

Lemma replace_or_append_plain p u l :
  (∀ x, p (plain x) = p x) → plain u = u →
  replace_or_append p u (plain <$> l) = plain <$> replace_or_append p u l.
Proof.
  intros Hp Hu. unfold replace_or_append.
  assert (existsb p (plain <$> l) = existsb p l) as ->
    by (induction l as [|x l IH]; [done|]; csimpl; by rewrite Hp, IH).
  assert (map (λ x, if p x then u else x) (plain <$> l) = plain <$> map (λ x, if p x then u else x) l) as ->.
  { induction l as [|x l IH]; [done|]. csimpl. rewrite Hp, IH. by destruct (p x); rewrite ?Hu. }
  destruct (existsb p l); [done|]. by rewrite fmap_app, <- Hu at 1.
Qed.

Lemma tremove_respects k path p : (∀ x, p (plain x) = p x) → respects (tremove k path p).
Proof. intros Hp. apply tupdate_respects. intros l. by apply remove_first_plain. Qed.
Lemma tput_respects k path p u :
  (∀ x, p (plain x) = p x) → plain u = u → respects (tput k path p u).
Proof. intros Hp Hu. apply tupdate_respects. intros l. simpl. f_equal. by apply replace_or_append_plain. Qed.
Lemma tappend_respects k path us : plain <$> us = us → respects (tappend k path us).
Proof. intros Hu. apply tupdate_respects. intros l. simpl. by rewrite fmap_app, Hu. Qed.

Lemma tmount_is_plain name x : tmount_is name (plain x) = tmount_is name x.
Proof. unfold tmount_is. by rewrite from_unstructured_plain, tfield_plain. Qed.

Lemma tfind_root_plain l : tfind_root (plain <$> l) = tfind_root l.
Proof.
  induction l as [|x l IH]; [done|]. csimpl. by rewrite from_unstructured_plain, !tfield_plain, IH.
Qed.

Lemma tMountPath_respects path name : respects (tMountPath path name).
Proof.
  intros j j' Hj. unfold tMountPath, rbind, mbind, M_bind, mget, mret, M_ret. simpl.
  pose proof (tResources_wire KEnvVar path j j' Hj) as Hr.
  destruct (tResources KEnvVar path j) as [l| |], (tResources KEnvVar path j') as [l'| |]; try done.
  - pose proof (tfind_root_plain l) as E. rewrite Hr, tfind_root_plain in E. rewrite E.
    destruct (tfind_root l); [done|].
    pose proof (tsetSlice_wire SliceMap (l ++ [root_env]) (l' ++ [root_env]) path j j') as [Es Hs];
      [unfold on_wires in *; rewrite !fmap_app; congruence|done|].
    destruct (tsetSlice _ (l ++ _) _ _) as [[[]|] ?], (tsetSlice _ (l' ++ _) _ _) as [[[]|] ?]; by simplify_eq/=.
  - pose proof (tsetSlice_wire SliceMap [root_env] [root_env] path j j' eq_refl Hj) as [Es Hs].
    destruct (tsetSlice _ _ _ j) as [[[]|] ?], (tsetSlice _ _ _ j') as [[[]|] ?]; by simplify_eq/=.
  - by subst.
Qed.

Lemma EnvVar_plain e : plain (EnvVar_json e) = EnvVar_json e.
Proof.
  unfold EnvVar_json, omitempty. destruct (String.eqb _ _), (ev_secretKeyRef e) as [[name key]|]; simpl; try done;
    by destruct (String.eqb _ _).
Qed.
Lemma Volume_plain v : plain (Volume_json v) = Volume_json v.
Proof. unfold Volume_json, omitempty. by destruct (String.eqb _ _). Qed.
Lemma EnvFrom_plain e : plain (EnvFromSource_json e) = EnvFromSource_json e.
Proof. unfold EnvFromSource_json, omitempty. by destruct (String.eqb _ _). Qed.

Lemma tfiles_container_respects name c : respects (tfiles_container name c).
Proof.
  apply respects_rbind; [apply tMountPath_respects|].
  intros mp. apply tput_respects; [|done]. intros x. by rewrite tfield_plain.
Qed.

(** The three handlers, on a pod. *)
Lemma tfiles_pod_respects name secretName volumes cs : respects (tfiles_pod name secretName volumes cs).
Proof.
  apply respects_rbind.
  - apply tput_respects; [apply tname_is_plain|apply Volume_plain].
  - intros _. apply respects_each. intros pc. apply respects_lift, tfiles_container_respects.
Qed.

Lemma tenv_pod_respects asFiles secretName vars volumes cs :
  respects (tenv_pod asFiles secretName vars volumes cs).
Proof.
  apply respects_each. intros pc. apply respects_lift, respects_rbind.
  - destruct asFiles; [apply respects_ret|]. unfold tAddEnvFromVar.
    destruct (wc_envFrom pc.2) as [|k path]; [apply respects_ret|]. apply respects_bind.
    + apply tremove_respects, tstring_at_is_plain.
    + intros _. apply tappend_respects. cbn [fmap list_fmap]. f_equal. apply EnvFrom_plain.
  - intros _. apply respects_bind.
    + apply respects_for_all. intros v. apply respects_bind; [|intros ?; apply respects_ret].
      apply tremove_respects, tstring_at_is_plain.
    + intros _. apply tappend_respects. rewrite <- list_fmap_compose. apply list_fmap_ext.
      intros _ v _. apply EnvVar_plain.
Qed.

Lemma tclean_pod_respects name secretName names volumes cs :
  respects (tclean_pod name secretName names volumes cs).
Proof.
  apply respects_rbind; [apply tremove_respects, tstring_at_is_plain|]. intros _.
  apply respects_each. intros pc. apply respects_lift, respects_rbind.
  - apply respects_each. intros v. apply tremove_respects, tstring_at_is_plain.
  - intros _. apply respects_rbind; [apply tremove_respects, tstring_at_is_plain|].
    intros _. apply tremove_respects, tmount_is_plain.
Qed.
End Respects.

Lemma respects_ret_ok {A} (f : M json A) j j' a j1 :
  respects f → on_wire j' j → f j = (Ret a, j1) → ∃ j1', f j' = (Ret a, j1') ∧ on_wire j1' j1.
Proof.
  intros Hf Hj E. destruct (Hf j' j Hj) as [E1 E2]. rewrite E in E1, E2. simpl in *.
  destruct (f j') as [o j1']. simpl in *. subst. eauto.
Qed.
