(* ===== verification/TreeNil.v ===== *)
(** * Nil slices in a tree

    A slice that was built by appending nothing is nil: in memory it reads as
    an empty list, but it is written to the cluster as null.  A tree without
    nil slices is written as it is, up to the types of its slices, and only
    [AddEnvVars] puts a nil slice into one. *)

From S2P Require Import Prelude.
From S2P Require Import GoLib.
From S2P Require Import GoValue.
From S2P Require Import JsonPath.
From S2P Require Import Heap.
From S2P Require Import Converter.
From S2P Require Import Workload.
From S2P Require Import Application.
From S2P Require Import Context.
From S2P Require Import Tree.
From S2P Require Import TreeEdit.
From S2P Require Import TreeOps.
From S2P Require Import TreePods.
From S2P Require Import TreeApps.
From S2P Require Import TreeLaws.
From S2P Require Import TreeBind.
From S2P Require Import TreeShape.
From S2P Require Import TreeWire.

Fixpoint nil_free (j : json) : bool :=
  match j with
  | JArr SliceMapNil _ => false
  | JArr _ l => forallb nil_free l
  | JObj m => forallb (λ kv, nil_free kv.2) m
  | _ => true
  end.
Abbreviation nil_frees l := (Forall (λ x, nil_free x = true) l).

(** ** What is written *)
Lemma normalize_plain j : nil_free j = true → normalize j = plain j.
Proof.
  induction j as [| | | | |t l IH|m IH] using json_ind'; simpl; try done.
  - intros Hl. assert (map normalize l = map plain l) as E.
    { destruct t; [| |done]; induction IH as [|x l Hx _ IH]; try done; simpl in *;
        apply andb_true_iff in Hl as [? ?]; by rewrite Hx, IH. }
    destruct t, l; simpl in *; try done; by rewrite E.
  - intros Hm. f_equal. induction IH as [|[k x] m Hx _ IH]; [done|]. simpl in *.
    apply andb_true_iff in Hm as [? ?]. by rewrite Hx, IH.
Qed.

Lemma copyable_nil_free j : deep_copyable j = true → nil_free j = true.
Proof.
  induction j as [| | | | |t l IH|m IH] using json_ind'; simpl; try done.
  - destruct t; try done. intros Hl. induction IH as [|x l Hx _ IH]; [done|]. simpl in *.
    apply andb_true_iff in Hl as [? ?]. by rewrite Hx, IH.
  - intros Hm. induction IH as [|[k x] m Hx _ IH]; [done|]. simpl in *.
    apply andb_true_iff in Hm as [? ?]. by rewrite Hx, IH.
Qed.

Lemma copyable_plain j : deep_copyable j = true → plain j = j.
Proof.
  induction j as [| | | | |t l IH|m IH] using json_ind'; simpl; try done.
  - destruct t; try done. intros Hl. f_equal. induction IH as [|x l Hx _ IH]; [done|]. simpl in *.
    apply andb_true_iff in Hl as [? ?]. by rewrite Hx, IH.
  - intros Hm. f_equal. induction IH as [|[k x] m Hx _ IH]; [done|]. simpl in *.
    apply andb_true_iff in Hm as [? ?]. by rewrite Hx, IH.
Qed.

Lemma plain_copyable j : deep_copyable (plain j) = true.
Proof.
  induction j as [| | | | |t l IH|m IH] using json_ind'; simpl; try done.
  - induction IH as [|x l Hx _ IH]; [done|]. simpl. by rewrite Hx.
  - induction IH as [|x m Hx _ IH]; [done|]. simpl. by rewrite Hx.
Qed.

Lemma normalize_copyable j : deep_copyable (normalize j) = true.
Proof.
  induction j as [| | | | |t l IH|m IH] using json_ind'; try done.
  - assert (forallb deep_copyable (map normalize l) = true) as E
      by (induction IH as [|x l Hx _ IH]; [done|]; simpl; by rewrite Hx).
    by destruct t, l.
  - simpl. induction IH as [|x m Hx _ IH]; [done|]. simpl. by rewrite Hx.
Qed.

Lemma deep_copyable_normal j : deep_copyable j = true → normalize j = j.
Proof. intros Hj. rewrite normalize_plain by by apply copyable_nil_free. by apply copyable_plain. Qed.

Lemma plain_normalize j : plain (normalize j) = normalize j.
Proof. apply copyable_plain, normalize_copyable. Qed.

Lemma normalize_nil_free j : nil_free (normalize j) = true.
Proof. apply copyable_nil_free, normalize_copyable. Qed.

(** Two trees without nil slices that differ in the types of slices only are
    written alike. *)
Lemma on_wire_written j j' : nil_free j = true → nil_free j' = true → on_wire j j' → normalize j = normalize j'.
Proof. intros Hj Hj' Hw. by rewrite !normalize_plain. Qed.

Lemma aget_normalize k (m : list (string * json)) :
  aget k (map (λ kv, (kv.1, normalize kv.2)) m) = normalize <$> aget k m.
Proof. induction m as [|[k' v] m IH]; simpl; [done|]. by destruct (String.eqb k k'). Qed.

Lemma jget_normalize p j : jget p (normalize j) = normalize <$> jget p j.
Proof.
  revert j. induction p as [|[k|i] p IH]; intros j; [done|..]; destruct j as [| | | | |t l|m]; try done.
  - by destruct t, l.
  - simpl. rewrite aget_normalize. destruct (aget k m); simpl; [apply IH|done].
  - assert (normalize (JArr t l) = JArr SliceAny (normalize <$> l) ∨ l = []) as [->| ->].
    { destruct t, l; auto. }
    + simpl. rewrite list_lookup_fmap. destruct (l !! i); simpl; [apply IH|done].
    + by destruct t.
Qed.

(** ** Trees without nil slices *)
Lemma forallb_nil_frees l : forallb nil_free l = true ↔ nil_frees l.
Proof. rewrite forallb_forall, Forall_forall. split; intros Hl x Hx; apply Hl; by apply list_elem_of_In. Qed.

Lemma nil_free_arr t l : nil_free (JArr t l) = true ↔ t ≠ SliceMapNil ∧ nil_frees l.
Proof. simpl. destruct t; rewrite <- forallb_nil_frees; intuition congruence. Qed.

Lemma nil_free_aget k m x : nil_free (JObj m) = true → aget k m = Some x → nil_free x = true.
Proof.
  simpl. rewrite forallb_forall. intros Hm Hx. apply (Hm (k, x)), list_elem_of_In. by apply aget_elem.
Qed.

Lemma nil_free_aset k m x : nil_free (JObj m) = true → nil_free x = true → nil_free (JObj (aset k x m)) = true.
Proof.
  simpl. intros Hm Hx. induction m as [|[k' y] m IH]; simpl in *; [by rewrite Hx|].
  apply andb_true_iff in Hm as [H1 H2]. destruct (String.eqb k k'); simpl; rewrite ?Hx, ?H1, ?H2; auto.
Qed.

Lemma nil_free_jget p j x : nil_free j = true → jget p j = Some x → nil_free x = true.
Proof.
  revert j. induction p as [|[k|i] p IH]; intros j Hj Hx; [by simplify_eq/=|..];
    destruct j as [| | | | |t l|m]; try done; simpl in Hx.
  - destruct (aget k m) as [y|] eqn:Ey; [|done]. eapply IH; [|exact Hx]. by eapply nil_free_aget.
  - destruct (l !! i) as [y|] eqn:Ey; [|done]. eapply IH; [|exact Hx].
    apply nil_free_arr in Hj as [_ Hl]. by eapply Forall_lookup in Hl.
Qed.

Lemma nil_free_jput p x j : nil_free j = true → nil_free x = true → nil_free (jput p x j) = true.
Proof.
  intros Hj Hx. revert j Hj. induction p as [|[k|i] p IH]; intros j Hj; [done|..];
    destruct j as [| | | | |t l|m]; try done; cbn [jput].
  - destruct (aget k m) as [y|] eqn:Ey; [|done]. apply nil_free_aset; [done|]. apply IH. by eapply nil_free_aget.
  - destruct (l !! i) as [y|] eqn:Ey; [|done]. apply nil_free_arr in Hj as [Ht Hl]. apply nil_free_arr.
    split; [done|]. apply Forall_insert; [done|]. apply IH. by eapply Forall_lookup in Hl.
Qed.

Lemma nil_free_jwrite path x j : nil_free j = true → nil_free x = true → nil_free (jwrite path x j) = true.
Proof.
  intros Hj Hx. revert j Hj. induction path as [|k path IH]; intros j Hj; [done|].
  destruct j as [| | | | | |m]; try by destruct path. destruct path as [|k' path]; cbn [jwrite].
  - by apply nil_free_aset.
  - apply nil_free_aset; [done|]. apply IH. destruct (aget k m) as [y|] eqn:Ey; [|done]. by eapply nil_free_aget.
Qed.

(** ** Edits *)
Definition keeps_nil_free {A} (f : M json A) : Prop := ∀ j, nil_free j = true → nil_free (f j).2 = true.

Lemma keeps_ret {A} (a : A) : keeps_nil_free (mret a).
Proof. by intros j. Qed.
Lemma keeps_bind {A B} (f : M json A) (k : A → M json B) :
  keeps_nil_free f → (∀ a, keeps_nil_free (k a)) → keeps_nil_free (f ≫= k).
Proof.
  intros Hf Hk j Hj. unfold mbind, M_bind. specialize (Hf j Hj). destruct (f j) as [[a|] j1]; [by apply Hk|done].
Qed.
Lemma keeps_rbind {A B} (f : M json (result A)) (k : A → M json (result B)) :
  keeps_nil_free f → (∀ a, keeps_nil_free (k a)) → keeps_nil_free (let! a := f in k a).
Proof. intros Hf Hk. apply keeps_bind; [done|]. intros [a|e]; [apply Hk|apply keeps_ret]. Qed.
Lemma keeps_each {A} (xs : list A) (k : A → M json (result unit)) :
  (∀ x, keeps_nil_free (k x)) → keeps_nil_free (each_res xs k).
Proof. intros Hk. induction xs as [|x xs IH]; simpl; [apply keeps_ret|]. by apply keeps_rbind. Qed.
Lemma keeps_for_all {A} (xs : list A) (k : A → M json unit) :
  (∀ x, keeps_nil_free (k x)) → keeps_nil_free (for_all xs k).
Proof. intros Hk. induction xs as [|x xs IH]; simpl; [apply keeps_ret|]. by apply keeps_bind. Qed.
Lemma keeps_lift {A} p (f : M json A) : keeps_nil_free f → keeps_nil_free (lift_at p f).
Proof.
  intros Hf j Hj. unfold lift_at. destruct (jget p j) as [x|] eqn:Hx; [|done].
  pose proof (Hf x (nil_free_jget _ _ _ Hj Hx)) as H1. destruct (f x). by apply nil_free_jput.
Qed.

Section Edits.
Context `{Converter}.

Lemma tResources_nil_free k path j l : nil_free j = true → tResources k path j = Found l → nil_frees l.
Proof.
  intros Hj [[t Ht] _]%tResources_Found. apply nested_jget in Ht.
  by apply (nil_free_jget _ _ _ Hj), nil_free_arr in Ht as [_ ?].
Qed.

Lemma tlist_nil_free k path j l : nil_free j = true → tlist k path j = Some l → nil_frees l.
Proof.
  unfold tlist. intros Hj. destruct (tResources k path j) eqn:E; intros ?; simplify_eq; [|constructor].
  by eapply tResources_nil_free.
Qed.

Lemma tsetSlice_nil_free t l path : t ≠ SliceMapNil → nil_frees l → keeps_nil_free (tsetSlice t l path).
Proof.
  intros Ht Hl j Hj. unfold tsetSlice. destruct path; [done|]. destruct (write_error _ j); [done|].
  apply nil_free_jwrite; [done|]. by apply nil_free_arr.
Qed.

(** An edit whose lists are not nil. *)
Lemma tupdate_nil_free k path ty init g j :
  nil_free j = true →
  (∀ l, tResources k path j = NotFound → init = Some l → ty (length l) ≠ SliceMapNil ∧ nil_frees l) →
  (∀ l l', tResources k path j = Found l → nil_frees l → g l = Some l' → ty (length l') ≠ SliceMapNil ∧ nil_frees l') →
  nil_free (tupdate k path ty init g j).2 = true.
Proof.
  intros Hj Hi Hg. unfold tupdate. destruct (tResources k path j) as [l| |] eqn:E; [| |done].
  - destruct (g l) as [l'|] eqn:Eg; [|done].
    destruct (Hg l l' eq_refl (tResources_nil_free _ _ _ _ Hj E) Eg). by apply tsetSlice_nil_free.
  - destruct init as [l|]; [|done]. destruct (Hi l eq_refl eq_refl). by apply tsetSlice_nil_free.
Qed.

Lemma tremove_nil_free k path p : keeps_nil_free (tremove k path p).
Proof.
  intros j Hj. apply tupdate_nil_free; [done..|]. intros l l' _ Hl Hr. split; [done|]. by eapply remove_first_Forall.
Qed.
Lemma tput_nil_free k path p u : nil_free u = true → keeps_nil_free (tput k path p u).
Proof.
  intros Hu j Hj. apply tupdate_nil_free; [done|..].
  - intros l _ [= <-]. split; [done|]. by constructor.
  - intros l l' _ Hl [= <-]. split; [done|]. by apply replace_or_append_Forall.
Qed.
Lemma tappend_nil_free k path us j :
  nil_frees us → nil_free j = true → us ≠ [] ∨ (∃ x l, tResources k path j = Found (x :: l)) →
  nil_free (tappend k path us j).2 = true.
Proof.
  intros Hus Hj Hne. apply tupdate_nil_free; [done|..].
  - intros l En [= <-]. split; [|done]. destruct us; [|done]. destruct Hne as [?|(x & l & E)]; congruence.
  - intros l l' El Hl [= <-]. split; [|by apply Forall_app].
    destruct us as [|u us]; [|by rewrite built_app]. destruct Hne as [?|(x & l0 & E)]; [done|].
    rewrite El in E. by simplify_eq.
Qed.

Lemma EnvVar_nil_free e : nil_free (EnvVar_json e) = true.
Proof. apply copyable_nil_free. rewrite <- EnvVar_plain. apply plain_copyable. Qed.
Lemma EnvFrom_nil_free e : nil_free (EnvFromSource_json e) = true.
Proof. apply copyable_nil_free. rewrite <- EnvFrom_plain. apply plain_copyable. Qed.
Lemma Volume_nil_free v : nil_free (Volume_json v) = true.
Proof. apply copyable_nil_free. rewrite <- Volume_plain. apply plain_copyable. Qed.

Lemma tMountPath_nil_free path name : keeps_nil_free (tMountPath path name).
Proof.
  intros j Hj. unfold tMountPath, rbind, mbind, M_bind, mget, mret, M_ret. simpl.
  destruct (tResources KEnvVar path j) as [l| |] eqn:E; [| |done].
  - destruct (tfind_root l); [done|].
    assert (nil_frees (l ++ [root_env])) as Hl.
    { apply Forall_app. split; [by eapply tResources_nil_free|]. constructor; [apply EnvVar_nil_free|constructor]. }
    pose proof (tsetSlice_nil_free SliceMap _ path ltac:(done) Hl j Hj) as Hs.
    by destruct (tsetSlice _ _ path j) as [[[]|] ?].
  - assert (nil_frees ([] ++ [root_env])) as Hl by (constructor; [apply EnvVar_nil_free|constructor]).
    pose proof (tsetSlice_nil_free SliceMap _ path ltac:(done) Hl j Hj) as Hs.
    by destruct (tsetSlice _ _ path j) as [[[]|] ?].
Qed.

(** Projecting files, and unbinding. *)
Lemma tfiles_pod_nil_free name secretName volumes cs : keeps_nil_free (tfiles_pod name secretName volumes cs).
Proof.
  apply keeps_rbind; [apply tput_nil_free, Volume_nil_free|].
  intros _. apply keeps_each. intros pc. apply keeps_lift, keeps_rbind; [apply tMountPath_nil_free|].
  intros mp. by apply tput_nil_free.
Qed.

Lemma tclean_pod_nil_free name secretName names volumes cs :
  keeps_nil_free (tclean_pod name secretName names volumes cs).
Proof.
  apply keeps_rbind; [apply tremove_nil_free|]. intros _. apply keeps_each. intros pc. apply keeps_lift, keeps_rbind.
  - apply keeps_each. intros v. apply tremove_nil_free.
  - intros _. apply keeps_rbind; [apply tremove_nil_free|]. intros _. apply tremove_nil_free.
Qed.
End Edits.

(** ** Reading the object that was written *)
Section Read.
Context `{ConverterOnWire}.

(** A list whose elements have no nil slice. *)
Definition whole_list (k : rkind) (path : list string) (j : json) (l : list json) : Prop :=
  tlist k path j = Some l ∧ nil_frees l.

Lemma whole_list_normalize k path j l :
  whole_list k path j l → l ≠ [] → whole_list k path (normalize j) (plain <$> l).
Proof.
  intros [Hl Hn] Hne. split.
  - unfold tlist in Hl. destruct (tResources k path j) as [l0| |] eqn:E; simplify_eq.
    apply tResources_Found in E as [[t Ht] Hc]. apply tlist_Found, tResources_Found. split.
    + exists SliceAny. apply nested_jget. apply nested_jget in Ht. rewrite jget_normalize, Ht. simpl.
      assert (normalize <$> l = plain <$> l) as El.
      { apply list_fmap_ext. intros i x Hx. apply normalize_plain. by eapply Forall_lookup in Hn. }
      f_equal. transitivity (JArr SliceAny (normalize <$> l)); [by destruct t, l|by rewrite El].
    + apply Forall_fmap. eapply Forall_impl; [exact Hc|]. intros x [[mx ->] Hx]. split; [by eexists|].
      rewrite <- Hx. apply (from_unstructured_plain k (JObj mx)).
  - apply Forall_fmap, Forall_true. intros x. apply copyable_nil_free, plain_copyable.
Qed.
End Read.

Lemma nested_normalize j path v :
  NestedFieldNoCopy j path = Found v → NestedFieldNoCopy (normalize j) path = Found (normalize v).
Proof. intros Hv. apply nested_jget. apply nested_jget in Hv. by rewrite jget_normalize, Hv. Qed.

(** The containers are found as before, nil slices or not. *)
Lemma map_res_impl {A B E} (f g : A → res E B) xs zs ys :
  Forall2 (λ x z, ∀ y, f x = Ok y → g z = Ok y) xs zs → map_res f xs = Ok ys → map_res g zs = Ok ys.
Proof.
  intros Hxz. revert ys. induction Hxz as [|x z xs zs Hx _ IH]; intros ys Hm; simpl in *; [done|].
  destruct (f x) as [y|] eqn:Ex; [|done]. rewrite (Hx y eq_refl). simpl in *.
  destruct (map_res f xs) as [l|]; [|done]. rewrite (IH l eq_refl). done.
Qed.

Lemma tcontainer_maps_normalize p x ps :
  tcontainer_maps p x = Ok ps → tcontainer_maps p (normalize x) = Ok ps.
Proof.
  destruct x as [| | | | |[] l|]; try done. simpl. intros <-. apply map_res_ext.
  generalize 0 as i. induction l as [|x l IH]; intros i; simpl; constructor; [|apply IH].
  by destruct x as [| | | | |[] []|].
Qed.

Lemma string_normalize x path :
  match NestedString (normalize x) path with Found s => s | _ => "" end =
  match NestedString x path with Found s => s | _ => "" end.
Proof.
  unfold NestedString. revert x. induction path as [|k path IH]; intros x.
  - by destruct x as [| | | | |[] []|].
  - destruct x as [| | | | |[] []|m]; try done. simpl.
    rewrite aget_normalize. destruct (aget k m); [apply IH|done].
Qed.

Lemma tname_normalize c j p : tname c (normalize j) p = tname c j p.
Proof. unfold tname. rewrite jget_normalize. destruct (jget p j); [|done]. apply string_normalize. Qed.

Lemma tpath_containers_normalize names cf j l :
  tpath_containers names cf j = Ok l → tpath_containers names cf (normalize j) = Ok l.
Proof.
  destruct cf as [c fields]. unfold tpath_containers. cbn [fst snd].
  destruct (NestedFieldNoCopy j fields) as [x| |] eqn:E.
  - rewrite (nested_normalize _ _ _ E). destruct x as [| | | | |t xs|]; try done.
    destruct (decide (xs = [])) as [->|Hne]; [by destruct t|].
    assert (normalize (JArr t xs) = JArr SliceAny (map normalize xs)) as -> by by destruct t, xs.
    destruct (map_res _ (enum 0 xs)) as [pss|] eqn:Em; [|done]. simpl. intros ?; simplify_eq.
    erewrite map_res_impl; [| |exact Em].
    + simpl. f_equal. apply flat_map_ext_elem. intros p _. unfold tselected. by rewrite tname_normalize.
    + clear. generalize 0 as i. induction xs as [|x xs IH]; intros i; simpl; constructor; [|apply IH].
      intros y. apply tcontainer_maps_normalize.
  - intros [= <-]. destruct (NestedFieldNoCopy (normalize j) fields) as [y| |] eqn:E'; [|done..].
    apply nested_jget in E'. rewrite jget_normalize in E'. apply fmap_Some in E' as (z & Hz & _).
    apply nested_jget in Hz. congruence.
  - intros [= <-]. destruct (NestedFieldNoCopy (normalize j) fields) as [y| |] eqn:E'; [|done..].
    apply nested_jget in E'. rewrite jget_normalize in E'. apply fmap_Some in E' as (z & Hz & _).
    apply nested_jget in Hz. congruence.
Qed.

Lemma tBindablePods_normalize names cs fss j l :
  tBindablePods names cs fss j = Ok l → tBindablePods names cs fss (normalize j) = Ok l.
Proof.
  unfold tBindablePods. destruct (map_res _ (zip cs fss)) as [ll|] eqn:Em; [|done]. intros Hl.
  erewrite map_res_impl; [exact Hl| |exact Em]. apply Forall2_same_length_lookup. split; [done|].
  intros k x y Hx Hy. rewrite Hx in Hy. injection Hy as ->. intros z. apply tpath_containers_normalize.
Qed.

(** ** Binding again, and unbinding, after the object was read back *)
Section ReadBack.
Context `{ConverterAccepts, !ConverterOnWire}.
Context (m : WorkloadMapping) (fss : list (list string)) (names : list string).
Hypothesis Hwell : well_laid m fss.

(** What runs on the object in memory runs on the one that is read back. *)
Lemma respects_written {A} (f : M json A) j a j1 :
  respects f → nil_free j = true → f j = (Ret a, j1) → ∃ j2, f (normalize j) = (Ret a, j2) ∧ on_wire j2 j1.
Proof.
  intros Hf Hn E. eapply respects_ret_ok; [done| |exact E]. rewrite normalize_plain by done. apply plain_on_wire.
Qed.

Lemma keeps_run {A} (f : M json A) j a j1 : keeps_nil_free f → nil_free j = true → f j = (Ret a, j1) → nil_free j1 = true.
Proof. intros Hf Hn E. specialize (Hf j Hn). by rewrite E in Hf. Qed.

Lemma tfiles_pod_read_back name secretName cs j r j1 :
  is_obj j → nil_free j = true → tBindablePods names (wm_containers m) fss j = Ok cs →
  tfiles_pod name secretName (wm_volume m) cs j = (Ret (Ok r), j1) →
  tBindablePods names (wm_containers m) fss (normalize j1) = Ok cs ∧
  ∃ j2, tfiles_pod name secretName (wm_volume m) cs (normalize j1) = (Ret (Ok tt), j2) ∧ normalize j2 = normalize j1.
Proof.
  intros Hj Hn Hb Hf. destruct (tfiles_pod_containers _ _ _ Hwell _ _ _ _ _ _ Hj Hb Hf) as [Hb1 Hj1].
  split; [by apply tBindablePods_normalize|].
  pose proof (keeps_run _ _ _ _ (tfiles_pod_nil_free _ _ _ _) Hn Hf) as Hn1.
  assert (tfiles_pod name secretName (wm_volume m) cs j1 = (Ret (Ok tt), j1)) as Hf1
    by (eapply tfiles_pod_again; [|exact Hf]; by eapply tBindablePods_pod_ok).
  eapply respects_written in Hf1 as (j2 & Hf2 & Hw); [|apply tfiles_pod_respects|done].
  exists j2. split; [done|]. apply on_wire_written; [|done..].
  eapply keeps_run; [apply tfiles_pod_nil_free|apply normalize_nil_free|exact Hf2].
Qed.

Lemma tclean_pod_read_back name secretName cs j r j1 vols :
  is_obj j → nil_free j = true → tBindablePods names (wm_containers m) fss j = Ok cs →
  tfiles_pod name secretName (wm_volume m) cs j = (Ret (Ok r), j1) →
  tlist KVolume (wm_volume m) j = Some vols → existsb (tname_is name) vols = false →
  Forall (λ pc, ∀ x, jget pc.1 j = Some x → unused name secretName pc.2 x) cs →
  tBindablePods names (wm_containers m) fss (normalize j1) = Ok cs ∧
  ∃ j2 j2', tclean_pod name secretName [] (wm_volume m) cs (normalize j1) = (Ret (Ok tt), j2) ∧
    normalize j2 = plain j2' ∧ tlist KVolume (wm_volume m) j2' = Some vols ∧
    Forall (λ pc, ∃ x x2, jget pc.1 j = Some x ∧ jget pc.1 j2' = Some x2 ∧ restored pc.2 x x2) cs ∧
    ∀ q, incomparable (K <$> wm_volume m) q → Forall (λ pc, incomparable pc.1 q) cs → jget q j2' = jget q j.
Proof.
  intros Hj Hn Hb Hf Hv Hfree Hun. destruct (tfiles_pod_containers _ _ _ Hwell _ _ _ _ _ _ Hj Hb Hf) as [Hb1 Hj1].
  split; [by apply tBindablePods_normalize|].
  pose proof (keeps_run _ _ _ _ (tfiles_pod_nil_free _ _ _ _) Hn Hf) as Hn1.
  destruct (tclean_tfiles_pod name secretName (wm_volume m) cs j r j1 vols) as (j2' & Hc & Hrest); [|done..|].
  { by eapply tBindablePods_pod_ok. }
  eapply respects_written in Hc as (j2 & Hc & Hw); [|apply tclean_pod_respects|done].
  exists j2, j2'. split; [done|]. split; [|done]. rewrite normalize_plain; [done|].
  eapply keeps_run; [apply tclean_pod_nil_free|apply normalize_nil_free|exact Hc].
Qed.
End ReadBack.
