(* ===== verification/TreePair.v ===== *)
(** * Two bindings on one workload, on trees

    A binding is settled in a workload when projecting it as files changes
    nothing.  The edits made for another binding, of another name, keep it
    settled. *)

From S2P Require Import Prelude.
From S2P Require Import GoLib.
From S2P Require Import GoValue.
From S2P Require Import JsonPath.
From S2P Require Import Heap.
From S2P Require Import Converter.
From S2P Require Import Workload.
From S2P Require Import Application.
From S2P Require Import Context.
From S2P Require Import Tree.
From S2P Require Import TreeEdit.
From S2P Require Import TreeOps.
From S2P Require Import TreePods.
From S2P Require Import TreeApps.
From S2P Require Import TreeLaws.
From S2P Require Import TreeBind.
From S2P Require Import TreeShape.
From S2P Require Import TreeWire.
From S2P Require Import TreeNil.

(** ** Lists with a named entry *)
Section Settled.
Context {A : Type}.
Implicit Types (p q : A → bool) (u v : A) (l : list A).

(** The entry is there, and nothing else goes by its name. *)
Definition settled p u l : Prop := u ∈ l ∧ Forall (λ x, p x = true → x = u) l.

Lemma map_replace_same p u l :
  map (λ x, if p x then u else x) l = l ↔ Forall (λ x, p x = true → x = u) l.
Proof.
  induction l as [|x l IH]; simpl; [by split|]. rewrite Forall_cons, <- IH. split.
  - intros [= E Hl]. rewrite Hl. split; [|done]. intros Hp. by rewrite Hp in E.
  - intros [Hx Hl]. rewrite Hl. destruct (p x); [by rewrite Hx|done].
Qed.

Lemma settled_iff p u l : p u = true → replace_or_append p u l = l ↔ settled p u l.
Proof.
  intros Hu. unfold settled. rewrite <- map_replace_same. split.
  - intros E. assert (u ∈ l) as Hin by (rewrite <- E; apply replace_or_append_elem). split; [done|].
    revert E. unfold replace_or_append. destruct (existsb p l) eqn:He; [done|].
    intros _. exfalso. apply (existsb_false _ _ _ He) in Hin. congruence.
  - intros [Hin Hm]. unfold replace_or_append. rewrite Hm.
    assert (existsb p l = true) as ->; [|done]. apply existsb_exists. exists u. by rewrite <- list_elem_of_In.
Qed.

Lemma settled_replace p u q v l :
  p v = false → q u = false → settled p u l → settled p u (replace_or_append q v l).
Proof.
  intros Hv Hu [Hin Hl]. split.
  - apply replace_or_append_others; [done|]. by left.
  - apply replace_or_append_Forall; [congruence|done].
Qed.

Lemma settled_remove p u q l l' :
  q u = false → remove_first q l = Some l' → settled p u l → settled p u l'.
Proof.
  intros Hu Hr [Hin Hl]. split; [|by eapply remove_first_Forall].
  apply remove_first_Some in Hr as (l1 & x & l2 & -> & -> & Hx & _).
  apply elem_of_app in Hin as [?|[->|?]%elem_of_cons]; [set_solver|congruence|set_solver].
Qed.
End Settled.

Lemma settled_plain (p : json → bool) u l :
  (∀ x, p (plain x) = p x) → plain u = u → settled p u l → settled p u (plain <$> l).
Proof.
  intros Hp Hu [Hin Hl]. split.
  - rewrite <- Hu. by apply list_elem_of_fmap_2.
  - apply Forall_fmap. eapply Forall_impl; [exact Hl|]. intros x Hx. simpl. rewrite Hp. intros E. by rewrite (Hx E).
Qed.

(** ** Containers *)
Section Containers.
Context `{ConverterAccepts}.
Implicit Types (x j : json) (c : WorkloadContainer) (n : string).

(** The container has the variable [SERVICE_BINDING_ROOT] and the mount. *)
Definition settled_container n c x : Prop :=
  ∃ envs mounts, whole_list KEnvVar (wc_env c) x envs ∧ is_Some (tfind_root envs) ∧
    whole_list KVolumeMount (wc_volumeMounts c) x mounts ∧ settled (is_mount n) (mount_of n envs) mounts.

(** The lists of a container are in different places, apart from its name. *)
Definition apart_paths c : Prop :=
  separate_paths c ∧ incomparable (K <$> wc_env c) (K <$> wc_name c) ∧
  incomparable (K <$> wc_volumeMounts c) (K <$> wc_name c) ∧
  incomparable (K <$> wc_envFrom c) (K <$> wc_name c).

(** What an edit of the container for another binding keeps. *)
Definition spared_container n c x x' : Prop :=
  is_obj x' ∧ NestedFieldNoCopy x' (wc_name c) = NestedFieldNoCopy x (wc_name c) ∧
  (settled_container n c x → settled_container n c x').

Lemma spared_refl n c x : is_obj x → spared_container n c x x.
Proof. done. Qed.

Lemma spared_trans n c x1 x2 x3 :
  spared_container n c x1 x2 → spared_container n c x2 x3 → spared_container n c x1 x3.
Proof. intros (_ & Hn & Hs) (Ho & Hn' & Hs'). split_and!; [done|congruence|auto]. Qed.

Lemma mount_of_is n envs : is_mount n (mount_of n envs) = true.
Proof. unfold is_mount, mount_of. simpl. apply String.eqb_refl. Qed.
Lemma mount_of_other n n' envs : n' ≠ n → is_mount n' (mount_of n envs) = false.
Proof. intros Hne. unfold is_mount, mount_of. simpl. apply String.eqb_neq. congruence. Qed.

(** An element of a list that can be read, without nil slices. *)
Definition whole k x : Prop := converts k x ∧ nil_free x = true.

Lemma tlist_converts k path j l : tlist k path j = Some l → Forall (converts k) l.
Proof.
  unfold tlist. destruct (tResources k path j) as [l0| |] eqn:E; intros ?; simplify_eq; [|constructor].
  by apply tResources_Found in E as [_ ?].
Qed.

Lemma whole_list_whole k path j l : whole_list k path j l → Forall (whole k) l.
Proof. intros [Hl Hn]. apply Forall_and. split; [by eapply tlist_converts|done]. Qed.

(** What an edit makes of a list that is not empty. *)
Lemma tupdate_list k path ty init g j r j' l :
  is_obj j → tupdate k path ty init g j = (Ret (Ok r), j') → whole_list k path j l → l ≠ [] →
  Forall (whole k) (default l (g l)) → whole_list k path j' (default l (g l)).
Proof.
  intros Hj Hu [Hl _] Hne [Hc Hn]%Forall_and. split; [|done].
  apply tupdate_spec in Hu as (_ & _ & Hres); [|done]. unfold tlist in Hl.
  destruct (tResources k path j) as [l0| |] eqn:E; simplify_eq.
  destruct (g l) as [l'|]; simpl in *; [by apply tlist_Found, Hres|]. subst. by apply tlist_Found.
Qed.

Lemma whole_list_outside k path path' j j' l :
  outside path' j j' → incomparable (K <$> path') (K <$> path) → whole_list k path j l → whole_list k path j' l.
Proof. intros Ho Hi [Hl Hn]. split; [|done]. by rewrite (tlist_outside _ _ _ _ _ Ho Hi). Qed.

(** Edits of the three lists. *)
Lemma envFrom_spared n c ty init g x r x' :
  is_obj x → apart_paths c → tupdate KEnvFromSource (wc_envFrom c) ty init g x = (Ret (Ok r), x') →
  spared_container n c x x'.
Proof.
  intros Hx ((H1' & H2' & H3') & _ & _ & Hn) Hu. apply tupdate_spec in Hu as (Hx' & Ho & _); [|done].
  split_and!; [done|by apply Ho|]. intros (envs & mounts & He & Hr & Hm & Hs). exists envs, mounts.
  split_and!; [|done| |done]; (eapply whole_list_outside; [exact Ho| |done]); [by apply incomparable_sym|done].
Qed.

Lemma env_spared n c ty init g x r x' :
  is_obj x → apart_paths c → tupdate KEnvVar (wc_env c) ty init g x = (Ret (Ok r), x') →
  (∀ l v, Forall (whole KEnvVar) l → tfind_root l = Some v →
     Forall (whole KEnvVar) (default l (g l)) ∧ tfind_root (default l (g l)) = Some v) →
  spared_container n c x x'.
Proof.
  intros Hx ((_ & H2' & _) & Hn & _) Hu Hg. pose proof Hu as (Hx' & Ho & _)%tupdate_spec; [|done].
  split_and!; [done|by apply Ho|]. intros (envs & mounts & He & [v Hr] & Hm & Hs).
  destruct (Hg envs v) as [Hc Hv]; [by eapply whole_list_whole|done|].
  exists (default envs (g envs)), mounts.
  split_and!; [eapply tupdate_list; [exact Hx|exact Hu|done|by intros ->|done]|by eexists|by eapply whole_list_outside|].
  unfold mount_of in *. rewrite Hr in Hs. by rewrite Hv.
Qed.

Lemma mounts_spared n c ty init g x r x' :
  is_obj x → apart_paths c → tupdate KVolumeMount (wc_volumeMounts c) ty init g x = (Ret (Ok r), x') →
  (∀ l envs, Forall (whole KVolumeMount) l → settled (is_mount n) (mount_of n envs) l →
     Forall (whole KVolumeMount) (default l (g l)) ∧ settled (is_mount n) (mount_of n envs) (default l (g l))) →
  spared_container n c x x'.
Proof.
  intros Hx ((_ & H2' & _) & _ & Hn & _) Hu Hg. pose proof Hu as (Hx' & Ho & _)%tupdate_spec; [|done].
  split_and!; [done|by apply Ho|]. intros (envs & mounts & He & Hr & Hm & Hs).
  destruct (Hg mounts envs) as [Hc Hv]; [by eapply whole_list_whole|done|].
  exists envs, (default mounts (g mounts)).
  split_and!; [by eapply whole_list_outside; [exact Ho|apply incomparable_sym|]|done| |done].
  eapply tupdate_list; [exact Hx|exact Hu|done|intros ->; by destruct Hs as [?%elem_of_nil _]|done].
Qed.

(** *** The containers of the three operations *)
Lemma files_container_spared n1 n c x r x' :
  n1 ≠ n → is_obj x → apart_paths c → tfiles_container n1 c x = (Ret (Ok r), x') → spared_container n c x x'.
Proof.
  intros Hne Hx (Hs & Hen & Hvn & Hfn) Hf.
  destruct (tfiles_container_spec _ _ _ _ _ Hx Hs Hf) as (envs & mounts & He & Hm & He' & Hm' & Hx' & _ & Hp).
  split_and!; [done|by apply Hp|]. intros (envs0 & mounts0 & [He0 Hen0] & [v Hr] & [Hm0 Hmn0] & Hset). simplify_eq.
  assert (with_root envs = envs) as Hroot by (unfold with_root; by rewrite Hr). rewrite Hroot in *.
  eexists envs, _. split_and!; [done|by eexists|split; [by apply tlist_Found|by apply replace_or_append_Forall]|].
  apply settled_replace; [by apply mount_of_other|by apply mount_of_other|done].
Qed.

Lemma tfind_root_remove name l l' :
  name ≠ bindingRootEnvVar → Forall (converts KEnvVar) l →
  remove_first (tstring_at_is ["name"] name) l = Some l' → tfind_root l' = tfind_root l.
Proof.
  intros Hne Hl. revert l'. induction Hl as [|e l [[m ->] Hc] _ IH]; intros l' Hr; simpl in Hr; [done|].
  cbn [tfind_root]. rewrite Hc. rewrite tstring_name in Hr. destruct (tname_is name (JObj m)) eqn:En.
  - simplify_eq. simpl in En |- *. destruct (aget "name" m) as [[]|]; try done.
    apply String.eqb_eq in En as ->. destruct (String.eqb_spec name bindingRootEnvVar); done.
  - apply fmap_Some in Hr as (l0 & Hr & ->). cbn [tfind_root]. rewrite Hc. by rewrite (IH l0 Hr).
Qed.

Lemma remove_env_spared n c name x r x' :
  name ≠ bindingRootEnvVar → is_obj x → apart_paths c →
  tRemoveEnvVars (wc_env c) name x = (Ret (Ok r), x') → spared_container n c x x'.
Proof.
  intros Hne Hx Hc Hr. eapply env_spared; [done..|exact Hr|]. intros l v Hl Hv.
  destruct (remove_first _ l) as [l'|] eqn:E; [|done]. simpl. split; [by eapply remove_first_Forall|].
  apply Forall_and in Hl as [Hl _]. by rewrite (tfind_root_remove _ _ _ Hne Hl E).
Qed.

Lemma remove_envs_spared n c names x r x' :
  bindingRootEnvVar ∉ names → is_obj x → apart_paths c →
  each_res names (tRemoveEnvVars (wc_env c)) x = (Ret (Ok r), x') → spared_container n c x x'.
Proof.
  intros Hn Hx Hc. revert x Hx. induction names as [|name names IH]; intros x Hx; cbn [each_res].
  { unfold mret, M_ret. intros [= _ <-]. by apply spared_refl. }
  unfold rbind, mbind, M_bind. destruct (tRemoveEnvVars _ _ x) as [[[u|]|] x1] eqn:E; try done.
  apply (remove_env_spared n) in E; [|set_solver|done..]. intros Hr.
  eapply spared_trans; [exact E|]. apply IH; [set_solver|by destruct E|done].
Qed.

Lemma clean_container_spared n1 n secretName names c x r x' :
  n1 ≠ n → bindingRootEnvVar ∉ names → is_obj x → apart_paths c →
  tclean_container n1 secretName names c x = (Ret (Ok r), x') → spared_container n c x x'.
Proof.
  intros Hne Hn Hx Hc. unfold tclean_container, rbind, mbind, M_bind.
  destruct (each_res names _ x) as [[[u|]|] x1] eqn:E1; try done.
  apply (remove_envs_spared n) in E1; [|done..]. pose proof E1 as [Hx1 _].
  destruct (tRemoveEnvFromVars _ _ x1) as [[[u1|]|] x2] eqn:E2; try done.
  eapply (envFrom_spared n) in E2; [|done..]. pose proof E2 as [Hx2 _]. intros E3.
  eapply spared_trans; [exact E1|]. eapply spared_trans; [exact E2|].
  eapply mounts_spared; [done..|exact E3|]. intros l envs Hl Hs.
  destruct (remove_first (tmount_is n1) l) as [l'|] eqn:E; [|done]. simpl. split; [by eapply remove_first_Forall|].
  eapply settled_remove; [|exact E|done]. rewrite tmount_is_converted by apply converts_mount.
  by apply mount_of_other.
Qed.

(** An edit that fails changes nothing. *)
Lemma tupdate_failed k path ty init g j e j' : tupdate k path ty init g j = (Ret (Err e), j') → j' = j.
Proof.
  assert (∀ t l, tsetSlice t l path j = (Ret (Err e), j') → j' = j) as Hset.
  { intros t l. unfold tsetSlice. destruct path; [done|]. destruct (write_error _ j); [|done]. by intros [= _ ->]. }
  unfold tupdate. destruct (tResources k path j) as [l| |]; [| |by intros [= _ ->]].
  - destruct (g l); [apply Hset|done].
  - destruct init; [apply Hset|done].
Qed.

Lemma add_envs_spared n c vars x r x' :
  bindingRootEnvVar ∉ ev_name <$> vars → is_obj x → apart_paths c →
  tAddEnvVars (wc_env c) vars x = (Ret (Ok r), x') → spared_container n c x x'.
Proof.
  intros Hn Hx Hc. unfold tAddEnvVars. unfold mbind at 1, M_bind at 1.
  destruct (for_all vars _ x) as [[u|] x1] eqn:E; [|done].
  assert (spared_container n c x x1) as H1'.
  { revert x Hx E. induction vars as [|v vars IH]; intros x Hx; csimpl in Hn.
    { intros [= _ <-]. by apply spared_refl. }
    cbn [for_all]. unfold mbind, M_bind. destruct (tRemoveEnvVars _ _ x) as [[[u1|e]|] x2] eqn:E2; [| |done].
    - apply (remove_env_spared n) in E2; [|set_solver|done..]. intros Hr.
      eapply spared_trans; [exact E2|]. apply IH; [set_solver|by destruct E2|done].
    - apply tupdate_failed in E2 as ->. apply IH; [set_solver|done]. }
  intros Ha. eapply spared_trans; [exact H1'|]. eapply env_spared; [by destruct H1'|done|exact Ha|].
  intros l v Hl Hv. simpl. split.
  - apply Forall_app. split; [done|]. apply Forall_fmap, Forall_true. intros e.
    split; [split; [by eexists|apply accepts_env]|apply EnvVar_nil_free].
  - by rewrite tfind_root_app, Hv.
Qed.

Lemma env_container_spared n asFiles secretName vars c x r x' :
  bindingRootEnvVar ∉ ev_name <$> vars → is_obj x → apart_paths c →
  tenv_container asFiles secretName vars c x = (Ret (Ok r), x') → spared_container n c x x'.
Proof.
  intros Hn Hx Hc. unfold tenv_container, rbind. unfold mbind at 1, M_bind at 1.
  destruct ((if asFiles then mret (Ok tt)
    else tAddEnvFromVar (wc_envFrom c) {| efs_secretRef := secretName |}) x) as [[[u|]|] x1] eqn:E; try done.
  assert (spared_container n c x x1) as H1'.
  { destruct asFiles; [unfold mret, M_ret in E; simplify_eq; by apply spared_refl|].
    unfold tAddEnvFromVar in E. destruct (wc_envFrom c) as [|k path] eqn:Ef; [done|]. rewrite <- Ef in *.
    unfold mbind, M_bind in E. destruct (tRemoveEnvFromVars _ _ x) as [[[u1|e]|] x2] eqn:E2; [| |done].
    - eapply (envFrom_spared n) in E2; [|done..]. eapply spared_trans; [exact E2|].
      eapply envFrom_spared; [by destruct E2|done|exact E].
    - apply tupdate_failed in E2 as ->. eapply envFrom_spared; [done..|exact E]. }
  intros Ha. eapply spared_trans; [exact H1'|]. eapply add_envs_spared; [done|by destruct H1'|done|exact Ha].
Qed.
End Containers.

(** ** Pods *)
Definition settled_pod `{Converter} (n secretName : string) (volumes : list string)
    (cs : list (pos * WorkloadContainer)) (j : json) : Prop :=
  (∃ vols, whole_list KVolume volumes j vols ∧ settled (tname_is n) (volume_of n secretName) vols) ∧
  Forall (λ pc, ∃ x, jget pc.1 j = Some x ∧ settled_container n pc.2 x) cs.

Section Pods.
Context `{ConverterAccepts} (m : WorkloadMapping) (fss : list (list string)).
Hypothesis Hwell : well_laid m fss.
Implicit Types (j : json) (cs : list (pos * WorkloadContainer)) (n : string).

Abbreviation containers names j := (tBindablePods names (wm_containers m) fss j).

Lemma well_laid_apart c : c ∈ wm_containers m → apart_paths c.
Proof. destruct Hwell as (_ & _ & Hsep). rewrite Forall_forall in Hsep. intros Hc. by apply Hsep. Qed.

Lemma containers_of names j cs : containers names j = Ok cs → Forall (container_of (wm_containers m) fss j) cs.
Proof. apply tBindablePods_spec, Hwell. Qed.

Lemma container_of_mapping j pc : container_of (wm_containers m) fss j pc → pc.2 ∈ wm_containers m.
Proof. intros (k & ? & ? & Hk & _). by eapply list_elem_of_lookup_2. Qed.

(** Two containers are the same or apart. *)
Lemma containers_same_or_apart j pc pc' :
  container_of (wm_containers m) fss j pc → container_of (wm_containers m) fss j pc' →
  pc = pc' ∨ incomparable pc.1 pc'.1.
Proof.
  intros Hpc Hpc'. destruct (decide (pc.1 = pc'.1)) as [E|Hne].
  - left. destruct pc as [p c], pc' as [p' c']. simpl in E. subst p'.
    destruct Hpc as (k & f & ix & Hc & Hf & Hix & Ep & _).
    destruct Hpc' as (k' & f' & ix' & Hc' & Hf' & Hix' & E & _). simpl in *. rewrite Ep in E.
    apply element_pos_inj in E as [-> ->]; [|done..].
    assert (k = k') as -> by (eapply NoDup_lookup; [apply Hwell|done..]). congruence.
  - right. pose proof Hpc as (_ & _ & _ & _ & _ & _ & _ & m1 & Hm1).
    pose proof Hpc' as (_ & _ & _ & _ & _ & _ & _ & m2 & Hm2).
    eapply objects_incomparable; eauto using container_of_pos.
Qed.

Lemma each_lift_obj (g : WorkloadContainer → M json (result unit)) cs j o j' :
  Forall (λ pc, pc.1 ≠ []) cs → is_obj j →
  each_res cs (λ pc, lift_at pc.1 (g pc.2)) j = (o, j') → is_obj j'.
Proof.
  intros Hcs. revert j. induction Hcs as [|[p c] cs Hp _ IH]; intros j Hj; cbn [each_res].
  { unfold mret, M_ret. by intros [= _ <-]. }
  unfold rbind, mbind, M_bind, lift_at at 1. simpl in *.
  destruct (jget p j) as [x|]; [|by intros [= _ <-]].
  destruct (g c x) as [o1 x']. assert (is_obj (jput p x' j)) as Hput.
  { destruct Hj as [mj ->]. destruct p as [|[k|i] p]; [done| |by eexists]. simpl.
    destruct (aget k mj); by eexists. }
  destruct o1 as [[u|]|]; [by apply IH|by intros [= _ <-]..].
Qed.

(** The edit of the containers of one binding, seen by another one. *)
Lemma each_spared (g : WorkloadContainer → M json (result unit)) n secretName names1 names cs1 cs j r j' :
  (∀ c x r x', c ∈ wm_containers m → is_obj x → g c x = (Ret (Ok r), x') → spared_container n c x x') →
  is_obj j → containers names1 j = Ok cs1 → containers names j = Ok cs →
  each_res cs1 (λ pc, lift_at pc.1 (g pc.2)) j = (Ret (Ok r), j') →
  is_obj j' ∧ containers names j' = Ok cs ∧
  (settled_pod n secretName (wm_volume m) cs j → settled_pod n secretName (wm_volume m) cs j').
Proof.
  intros Hg Hj Hb1 Hb Hrun.
  pose proof (tBindablePods_pod_ok _ _ _ _ _ Hwell Hj Hb1) as Hok.
  pose proof (containers_of _ _ _ Hb1) as Hof1. pose proof (containers_of _ _ _ Hb) as Hof.
  pose proof (each_lift_inv _ _ _ _ _ (pod_separate _ _ _ Hok) Hrun) as Hed. split_and!.
  - eapply each_lift_obj; [|exact Hj|exact Hrun]. eapply Forall_impl; [exact Hof1|].
    intros pc (k & f & ix & _ & _ & Hix & -> & _). unfold element_pos. by destruct f, ix.
  - rewrite <- Hb. eapply (each_containers _ _ _ Hwell g); [|apply Hok|exact Hof1|exact Hrun].
    intros c x u x' Hc Hx Hgx. by destruct (Hg _ _ _ _ Hc Hx Hgx) as (? & ? & _).
  - intros [(vols & Hv & Hvs) Hcs]. split.
    + exists vols. split; [|done]. destruct Hv as [Hv Hvn]. split; [|done]. unfold tlist in Hv.
      destruct (tResources KVolume (wm_volume m) j) as [l| |] eqn:E; simplify_eq;
        [|by destruct Hvs as [?%elem_of_nil _]].
      apply tResources_Found in E as [[t Ht] Hc]. apply tlist_Found, tResources_Found.
      split; [|done]. exists t. eapply edited_found; [exact Hed|apply Hok|done].
    + destruct Hed as [Hed1 Hq]. apply Forall_forall. intros pc Hin. rewrite Forall_forall in Hcs, Hof.
      destruct (Hcs _ Hin) as (x & Hx & Hset).
      assert (∀ pc1, pc1 ∈ cs1 → pc1 = pc ∨ incomparable pc1.1 pc.1) as Hapart.
      { rewrite Forall_forall in Hof1. eauto using containers_same_or_apart. }
      destruct (decide (pc.1 ∈ cs1.*1)) as [(pc1 & E & Hin1)%list_elem_of_fmap|Hnin].
      * destruct (Hapart _ Hin1) as [->|Hi]; [|rewrite E in Hi; by destruct Hi as [[] _]].
        rewrite Forall_forall in Hed1. destruct (Hed1 _ Hin1) as (y & u & y' & Hy & Hgy & Hy').
        rewrite Hx in Hy. simplify_eq. exists y'. split; [done|].
        pose proof (Hof _ Hin) as Hpc. pose proof Hpc as (_ & _ & _ & _ & _ & _ & _ & mx & Hmx).
        rewrite Hx in Hmx. simplify_eq.
        by apply (Hg _ _ _ _ (container_of_mapping _ _ Hpc) ltac:(by eexists) Hgy).
      * exists x. split; [|done]. rewrite <- Hx. apply Hq. apply Forall_forall. intros pc1 Hin1.
        destruct (Hapart _ Hin1) as [->|?]; [|done]. destruct Hnin. by apply list_elem_of_fmap_2.
Qed.

(** The edit of the volumes. *)
Lemma volumes_spared ty init g n secretName names cs j r j' :
  is_obj j → containers names j = Ok cs → tupdate KVolume (wm_volume m) ty init g j = (Ret (Ok r), j') →
  (∀ l, Forall (whole KVolume) l → settled (tname_is n) (volume_of n secretName) l →
     Forall (whole KVolume) (default l (g l)) ∧ settled (tname_is n) (volume_of n secretName) (default l (g l))) →
  settled_pod n secretName (wm_volume m) cs j → settled_pod n secretName (wm_volume m) cs j'.
Proof.
  intros Hj Hb Hu Hg [(vols & Hv & Hvs) Hcs]. destruct (Hg vols) as [Hc Hs]; [by eapply whole_list_whole|done|].
  pose proof Hu as (_ & Ho & _)%tupdate_spec; [|done]. split.
  - exists (default vols (g vols)). split; [|done].
    eapply tupdate_list; [done..| |done]. intros ->. by destruct Hvs as [?%elem_of_nil _].
  - pose proof (pod_outside _ _ _ (tBindablePods_pod_ok _ _ _ _ _ Hwell Hj Hb)) as Hout.
    rewrite Forall_forall in Hcs, Hout. apply Forall_forall. intros pc Hin.
    destruct (Hcs _ Hin) as (x & Hx & Hset). exists x. split; [|done]. rewrite <- Hx. apply Ho. auto.
Qed.

(** ** The three operations on a pod *)
Definition pod_spared n secretName names1 names
    (f : list string → list (pos * WorkloadContainer) → M json (result unit)) : Prop :=
  ∀ cs1 cs j r j', is_obj j → containers names1 j = Ok cs1 → containers names j = Ok cs →
    f (wm_volume m) cs1 j = (Ret (Ok r), j') →
    is_obj j' ∧ containers names j' = Ok cs ∧
    (settled_pod n secretName (wm_volume m) cs j → settled_pod n secretName (wm_volume m) cs j').

Lemma volume_of_other n1 n secretName : n1 ≠ n → tname_is n1 (volume_of n secretName) = false.
Proof. intros Hne. simpl. apply String.eqb_neq. congruence. Qed.

(** An edit of the volumes and of the containers. *)
Lemma volumes_and_containers ty init g (k : WorkloadContainer → M json (result unit)) n secretName names1 names :
  (∀ l, Forall (whole KVolume) l → settled (tname_is n) (volume_of n secretName) l →
     Forall (whole KVolume) (default l (g l)) ∧ settled (tname_is n) (volume_of n secretName) (default l (g l))) →
  (∀ c x r x', apart_paths c → is_obj x → k c x = (Ret (Ok r), x') → spared_container n c x x') →
  pod_spared n secretName names1 names (λ volumes cs,
    let! _ := tupdate KVolume volumes ty init g in each_res cs (λ pc, lift_at pc.1 (k pc.2))).
Proof.
  intros Hg Hk cs1 cs j r j' Hj Hb1 Hb. unfold rbind. unfold mbind at 1, M_bind at 1.
  destruct (tupdate _ _ _ _ _ j) as [[[u|]|] ja] eqn:Ea; try done. intros Hrun.
  pose proof Ea as (Hja & _ & _)%tupdate_spec; [|done].
  assert (∀ names, containers names ja = containers names j) as Hsame by (intros; by eapply volumes_containers).
  destruct (each_spared k n secretName names1 names cs1 cs ja r j') as (? & ? & Hs); try done.
  - intros c x v x' Hc. by apply Hk, well_laid_apart.
  - by rewrite Hsame.
  - by rewrite Hsame.
  - split_and!; [done..|]. intros Hset. apply Hs. eapply volumes_spared; [exact Hj|exact Hb|exact Ea|done|done].
Qed.

Lemma files_pod_spared n1 secretName1 n secretName names1 names :
  n1 ≠ n → pod_spared n secretName names1 names (tfiles_pod n1 secretName1).
Proof.
  intros Hne. apply volumes_and_containers.
  - intros l Hl Hs. simpl.
    split; [apply replace_or_append_Forall; [split; [apply converts_volume|apply Volume_nil_free]|done]|].
    apply settled_replace; [|by apply (volume_of_other n1)|done].
    apply (volume_of_other n n1 secretName1). congruence.
  - intros c x r x' Hc Hx. by apply files_container_spared.
Qed.

Lemma clean_pod_spared n1 secretName1 vars n secretName names1 names :
  n1 ≠ n → bindingRootEnvVar ∉ vars →
  pod_spared n secretName names1 names (tclean_pod n1 secretName1 vars).
Proof.
  intros Hne Hv. apply volumes_and_containers.
  - intros l Hl Hs. destruct (remove_first _ l) as [l'|] eqn:E; [|done]. simpl.
    split; [by eapply remove_first_Forall|]. eapply settled_remove; [|exact E|done].
    unfold volume_of, Volume_json. rewrite tstring_name. by apply (volume_of_other n1).
  - intros c x r x' Hc Hx. by apply clean_container_spared.
Qed.

Lemma env_pod_spared asFiles secretName1 vars n secretName names1 names :
  bindingRootEnvVar ∉ ev_name <$> vars →
  pod_spared n secretName names1 names (tenv_pod asFiles secretName1 vars).
Proof.
  intros Hv cs1 cs j r j' Hj Hb1 Hb Hrun.
  eapply (each_spared (tenv_container asFiles secretName1 vars)); [|exact Hj|exact Hb1|exact Hb|exact Hrun].
  intros c x u x' Hc Hx. apply env_container_spared; [done..|by apply well_laid_apart].
Qed.
End Pods.

(** ** Settled means that projecting changes nothing on the wire *)
Section Runs.
Context `{ConverterAccepts, !ConverterOnWire} (m : WorkloadMapping) (fss : list (list string)).
Hypothesis Hwell : well_laid m fss.
Implicit Types (j x : json) (cs : list (pos * WorkloadContainer)) (n : string).

Lemma is_mount_plain n x : is_mount n (plain x) = is_mount n x.
Proof. unfold is_mount. by rewrite tfield_plain. Qed.

(** A list that is rewritten to itself. *)
Lemma settled_rewritten (p : json → bool) u k path j j1 l :
  (∀ x, p (plain x) = p x) → plain u = u → p u = true →
  plain j1 = j → tlist k path j = Some l → tlist k path j1 = Some (replace_or_append p u l) →
  plain j = j → settled p u l.
Proof.
  intros Hp Hu Hpu <- Hl Hl1 Hj. apply settled_iff; [done|].
  pose proof (tlist_plain k path j1) as E. rewrite Hl, Hl1 in E. simpl in E. injection E as E.
  pose proof (tlist_plain k path (plain j1)) as E'. rewrite Hj, Hl in E'. simpl in E'. injection E' as E'.
  rewrite <- replace_or_append_plain in E by done. by rewrite <- E' in E.
Qed.

Lemma unmoved_settled n secretName names cs j r j1 :
  is_obj j → plain j = j → tBindablePods names (wm_containers m) fss j = Ok cs →
  tfiles_pod n secretName (wm_volume m) cs j = (Ret (Ok r), j1) → plain j1 = j →
  settled_pod n secretName (wm_volume m) cs j.
Proof.
  intros Hj Hnorm Hb Hf Hw. pose proof (tBindablePods_pod_ok _ _ _ _ _ Hwell Hj Hb) as Hok.
  destruct (tfiles_pod_spec _ _ _ _ _ _ _ Hok Hf) as (vols & Hv & Hv1 & Hc & HF & _).
  assert (nil_free j = true) as Hn by (rewrite <- Hnorm; apply copyable_nil_free, plain_copyable). split.
  - exists vols. split; [split; [done|by eapply tlist_nil_free]|].
    eapply settled_rewritten; [apply tname_is_plain|apply Volume_plain|apply tname_is_volume|exact Hw|done| |done].
    apply tlist_Found, tResources_Found. eauto.
  - pose proof (pod_paths _ _ _ Hok) as Hpaths. rewrite Forall_forall in HF, Hpaths. apply Forall_forall.
    intros pc Hin. destruct (HF _ Hin) as (mx & u & x' & Hx & Hg & Hx'). exists (JObj mx). split; [done|].
    assert (plain x' = JObj mx) as Hnx.
    { pose proof (jget_plain pc.1 j1) as E. rewrite Hw, Hx, Hx' in E. by injection E. }
    assert (plain (JObj mx) = JObj mx) as Hnm by (rewrite <- Hnx; apply plain_idem).
    destruct (tfiles_container_spec n pc.2 (JObj mx) u x' (ex_intro _ mx eq_refl) (proj1 (Hpaths _ Hin)) Hg)
      as (envs & mounts & He & Hm & He' & Hm' & _).
    pose proof (nil_free_jget _ _ _ Hn Hx) as Hnf.
    exists envs, mounts. split_and!; [split; [done|by eapply tlist_nil_free]| |split; [done|by eapply tlist_nil_free]|].
    + pose proof (tlist_plain KEnvVar (wc_env pc.2) x') as E. rewrite Hnx, He, He' in E. simpl in E.
      injection E as E. unfold with_root in E. destruct (tfind_root envs) eqn:Er; [by eexists|].
      apply (f_equal length) in E. rewrite length_fmap, length_app in E. simpl in E. lia.
    + eapply settled_rewritten; [apply is_mount_plain|done|apply mount_of_is|exact Hnx|done| |done].
      by apply tlist_Found.
Qed.

Lemma rewrite_wire (k : rkind) path j l :
  path ≠ [] → tlist k path j = Some l → l ≠ [] →
  ∃ j', tsetSlice SliceMap l path j = (Ret (Ok tt), j') ∧ on_wire j' j.
Proof.
  intros Hne Hl Hnil. unfold tlist in Hl. destruct (tResources k path j) as [l0| |] eqn:E; simplify_eq.
  apply tResources_Found in E as [[t Ht] _]. rewrite (tsetSlice_found _ _ _ _ _ Hne Ht). eexists. split; [done|].
  unfold on_wire. rewrite jwrite_plain. apply jwrite_same. rewrite nested_plain, Ht. done.
Qed.

Lemma container_runs n c x :
  wc_volumeMounts c ≠ [] → settled_container n c x →
  ∃ x', tfiles_container n c x = (Ret (Ok tt), x') ∧ on_wire x' x.
Proof.
  intros Hne (envs & mounts & [He _] & [v Hr] & [Hm _] & Hs). unfold tfiles_container, rbind, mbind, M_bind, mret, M_ret.
  assert (tMountPath (wc_env c) n x = (Ret (Ok (path_Join v n)), x)) as ->.
  { unfold tMountPath, mbind, M_bind, mget. simpl. unfold tlist in He.
    destruct (tResources KEnvVar (wc_env c) x); simplify_eq. by rewrite Hr. }
  assert (mounts ≠ []) as Hnil by (intros ->; by destruct Hs as [?%elem_of_nil _]).
  destruct (rewrite_wire _ _ _ _ Hne Hm Hnil) as (x' & Hset & Hw). exists x'. split; [|done].
  unfold tAddVolumeMount, tput, tupdate. unfold tlist in Hm.
  destruct (tResources KVolumeMount (wc_volumeMounts c) x) as [l| |]; simplify_eq.
  apply settled_iff in Hs; [|apply mount_of_is]. unfold mount_of, is_mount in Hs. rewrite Hr in Hs.
  cbn [vm_name default id] in *. by rewrite Hs.
Qed.

Lemma each_lift_wire (g : WorkloadContainer → M json (result unit)) cs j j0 :
  (∀ c, respects (g c)) → on_wire j0 j →
  Forall (λ pc, ∃ x x', jget pc.1 j = Some x ∧ g pc.2 x = (Ret (Ok tt), x') ∧ on_wire x' x) cs →
  ∃ j', each_res cs (λ pc, lift_at pc.1 (g pc.2)) j0 = (Ret (Ok tt), j') ∧ on_wire j' j.
Proof.
  intros Hg Hw Hcs. revert j0 Hw. induction Hcs as [|[p c] cs (x & x' & Hx & Hgx & Hwx) _ IH]; intros j0 Hw.
  { by exists j0. }
  simpl in *. unfold on_wire in Hw. pose proof (jget_plain p j) as E. pose proof (jget_plain p j0) as E0.
  rewrite Hw, E, Hx in E0. destruct (jget p j0) as [x0|] eqn:Hx0; simplify_eq/=.
  destruct (respects_ret_ok (g c) x x0 (Ok tt) x' (Hg c)) as (x1 & Hg1 & Hw1); [done|done|].
  destruct (IH (jput p x1 j0)) as (j' & Hrun & Hw').
  - unfold on_wire in *. rewrite jput_plain, Hw. apply jput_same. rewrite E, Hx. simpl. congruence.
  - exists j'. split; [|done]. unfold rbind, mbind, M_bind. unfold lift_at at 1. by rewrite Hx0, Hg1.
Qed.

Lemma settled_unmoved n secretName names cs j :
  is_obj j → tBindablePods names (wm_containers m) fss j = Ok cs →
  settled_pod n secretName (wm_volume m) cs j →
  ∃ j1, tfiles_pod n secretName (wm_volume m) cs j = (Ret (Ok tt), j1) ∧ on_wire j1 j.
Proof.
  intros Hj Hb [(vols & [Hv _] & Hvs) Hcs]. pose proof (tBindablePods_pod_ok _ _ _ _ _ Hwell Hj Hb) as Hok.
  assert (vols ≠ []) as Hnil by (intros ->; by destruct Hvs as [?%elem_of_nil _]).
  destruct (rewrite_wire _ _ _ _ (pod_volumes _ _ _ Hok) Hv Hnil) as (ja & Hset & Hwa).
  assert (tAddVolume (wm_volume m) {| vol_name := n; vol_secretName := secretName |} j = (Ret (Ok tt), ja)) as Ha.
  { unfold tAddVolume, tput, tupdate. unfold tlist in Hv.
    destruct (tResources KVolume (wm_volume m) j) as [l| |]; simplify_eq. simpl. fold (volume_of n secretName).
    apply settled_iff in Hvs; [|apply tname_is_volume]. by rewrite Hvs. }
  unfold tfiles_pod, rbind, mbind, M_bind. rewrite Ha.
  apply each_lift_wire; [intros; apply tfiles_container_respects|done|].
  pose proof (pod_paths _ _ _ Hok) as Hpaths. rewrite Forall_forall in Hcs, Hpaths. apply Forall_forall.
  intros pc Hin. destruct (Hcs _ Hin) as (x & Hx & Hset'). destruct (Hpaths _ Hin) as [_ Hne].
  destruct (container_runs n pc.2 x Hne Hset') as (x' & Hr & Hw). eauto.
Qed.

(** What is written is settled when it is read back. *)
Lemma settled_not_nil {A} (p : A → bool) u l : settled p u l → l ≠ [].
Proof. intros [Hin _] ->. by apply elem_of_nil in Hin. Qed.

Lemma settled_pod_normalize n secretName volumes cs j :
  settled_pod n secretName volumes cs j → settled_pod n secretName volumes cs (normalize j).
Proof.
  intros [(vols & Hv & Hvs) Hcs]. split.
  - exists (plain <$> vols). split; [by eapply whole_list_normalize, settled_not_nil|].
    apply settled_plain; [apply tname_is_plain|apply Volume_plain|done].
  - eapply Forall_impl; [exact Hcs|]. intros pc (x & Hx & envs & mounts & He & [v Hr] & Hm & Hs).
    exists (normalize x). rewrite jget_normalize, Hx. split; [done|].
    exists (plain <$> envs), (plain <$> mounts). split_and!.
    + apply whole_list_normalize; [done|by intros ->].
    + rewrite tfind_root_plain. by eexists.
    + by eapply whole_list_normalize, settled_not_nil.
    + unfold mount_of. rewrite tfind_root_plain. apply settled_plain; [apply is_mount_plain|done|done].
Qed.
End Runs.
