(* ===== verification/TreeEnv.v ===== *)
(** * Projecting variables twice, on trees

    [AddEnvVars] and [AddEnvFromVar] take out the entries that go by the names
    they add, one for each name, and append theirs.  When no name was there
    more than once, doing it again changes nothing in memory; when the list is
    not empty in the end, it changes nothing in the cluster either. *)

From S2P Require Import Prelude.
From S2P Require Import GoLib.
From S2P Require Import GoValue.
From S2P Require Import JsonPath.
From S2P Require Import Heap.
From S2P Require Import Converter.
From S2P Require Import Workload.
From S2P Require Import Application.
From S2P Require Import Context.
From S2P Require Import Tree.
From S2P Require Import TreeEdit.
From S2P Require Import TreeOps.
From S2P Require Import TreePods.
From S2P Require Import TreeApps.
From S2P Require Import TreeLaws.
From S2P Require Import TreeBind.
From S2P Require Import TreeShape.
From S2P Require Import TreeWire.
From S2P Require Import TreeNil.
From S2P Require Import TreePair.

(** ** Lists *)
Section Drops.
Context {A X : Type} (p : X → A → bool).
Implicit Types (l : list A) (ks : list X).

Definition drop_one l x : list A := default l (remove_first (p x) l).
Definition drops ks l : list A := foldl drop_one l ks.

Definition count (x : X) l : nat := length (filter (λ y, p x y = true) l).
(** No name is there more than once. *)
Definition singles ks l : Prop := Forall (λ x, count x l ≤ 1) ks.
(** No name is there. *)
Definition lacks ks l : Prop := Forall (λ x, count x l = 0) ks.

Lemma count_drop_le x y l : count x (drop_one l y) ≤ count x l.
Proof.
  unfold drop_one. destruct (remove_first (p y) l) as [l'|] eqn:E; [|done]. simpl.
  apply remove_first_Some in E as (l1 & z & l2 & -> & -> & _ & _). unfold count.
  rewrite !filter_app, !length_app, filter_cons. destruct (decide _); simpl; lia.
Qed.

Lemma count_drop x l : count x l ≤ 1 → count x (drop_one l x) = 0.
Proof.
  intros Hc. unfold drop_one. destruct (remove_first (p x) l) as [l'|] eqn:E; simpl.
  - apply remove_first_Some in E as (l1 & z & l2 & -> & -> & Hz & _). unfold count in *.
    rewrite filter_app, length_app, filter_cons_True in Hc by done. rewrite filter_app, length_app. simpl in Hc. lia.
  - apply remove_first_None in E. unfold count. induction E as [|y l Hy _ IH]; [done|].
    rewrite filter_cons_False by congruence. apply IH. unfold count in Hc. rewrite filter_cons_False in Hc by congruence. done.
Qed.

Lemma count_drops_le x ks l : count x (drops ks l) ≤ count x l.
Proof.
  revert l. induction ks as [|k ks IH]; intros l; [done|]. simpl. etrans; [apply IH|apply count_drop_le].
Qed.

Lemma drops_lacks ks l : singles ks l → lacks ks (drops ks l).
Proof.
  revert l. induction ks as [|k ks IH]; intros l Hs; [constructor|]. apply Forall_cons in Hs as [Hk Hs].
  change (drops (k :: ks) l) with (drops ks (drop_one l k)). constructor.
  - pose proof (count_drops_le k ks (drop_one l k)). pose proof (count_drop k l Hk). lia.
  - apply IH. eapply Forall_impl; [exact Hs|]. cbv beta. intros x Hx. pose proof (count_drop_le x k l). lia.
Qed.

(** What was appended is taken out again, and nothing else. *)
Lemma drops_app (f : X → A) ks l :
  Forall (λ x, p x (f x) = true) ks → lacks ks l → drops ks (l ++ (f <$> ks)) = l.
Proof.
  intros Hf Hl. induction Hl as [|k ks Hk _ IH]; csimpl; [by rewrite app_nil_r|].
  apply Forall_cons in Hf as [Hfk Hf]. specialize (IH Hf).
  assert (drop_one (l ++ f k :: (f <$> ks)) k = l ++ (f <$> ks)) as ->; [|done].
  unfold drop_one. erewrite (proj2 (remove_first_Some _ _ _)); [done|].
  exists l, (f k), (f <$> ks). split_and!; [done..|]. unfold count in Hk. apply nil_length_inv in Hk.
  apply Forall_forall. intros y Hy. destruct (p k y) eqn:E; [|done].
  assert (y ∈ filter (λ y, p k y = true) l) as Hin by (by apply list_elem_of_filter).
  rewrite Hk in Hin. by apply elem_of_nil in Hin.
Qed.
End Drops.

(** ** Writing twice at a path *)
Lemma aset_aset {A} k (x y : A) m : aset k x (aset k y m) = aset k x m.
Proof.
  induction m as [|[k' z] m IH]; simpl; [by rewrite String.eqb_refl|].
  destruct (String.eqb k k') eqn:E; simpl; rewrite ?String.eqb_refl, ?E, ?IH; done.
Qed.

Lemma jwrite_cons k path x m :
  path ≠ [] → jwrite (k :: path) x (JObj m) = JObj (aset k (jwrite path x (default (JObj []) (aget k m))) m).
Proof. by destruct path. Qed.

Lemma jwrite_jwrite path x y j : jwrite path x (jwrite path y j) = jwrite path x j.
Proof.
  revert j. induction path as [|k path IH]; intros j; [done|].
  destruct j; try by destruct path. destruct (decide (path = [])) as [->|Hne]; [simpl; by rewrite aset_aset|].
  rewrite !jwrite_cons by done. rewrite aget_aset_eq, aset_aset. cbn [default id]. by rewrite IH.
Qed.

(** The list at the path was replaced, or nothing was done. *)
Definition rewritten (path : list string) (j j' : json) : Prop :=
  j' = j ∨ ∃ x, j' = jwrite path x j.

Lemma rewritten_trans path j1 j2 j3 : rewritten path j1 j2 → rewritten path j2 j3 → rewritten path j1 j3.
Proof.
  intros [->|[l ->]] [->|[l' ->]]; [by left|by right; eexists|by right; eexists|].
  right. exists l'. apply jwrite_jwrite.
Qed.

Lemma tupdate_rewritten `{Converter} k path ty init g j o j' :
  tupdate k path ty init g j = (o, j') → rewritten path j j'.
Proof.
  assert (∀ t l, tsetSlice t l path j = (o, j') → rewritten path j j') as Hset.
  { intros t l. unfold tsetSlice. destruct path; [intros [= _ <-]; by left|].
    destruct (write_error _ j); intros [= _ <-]; [by left|right; eauto]. }
  unfold tupdate. destruct (tResources k path j) as [l| |]; [| |intros [= _ <-]; by left].
  - destruct (g l); [apply Hset|intros [= _ <-]; by left].
  - destruct init; [apply Hset|intros [= _ <-]; by left].
Qed.

Lemma rewritten_same path j j' v :
  path ≠ [] → is_obj j → rewritten path j j' →
  NestedFieldNoCopy j path = Found v → NestedFieldNoCopy j' path = Found v → j' = j.
Proof.
  intros Hne [m ->] [->|[l ->]] Hv Hv'; [done|].
  pose proof (write_error_writable _ _ Hne (found_write_error _ _ _ Hne Hv)) as Hw.
  apply nested_jget in Hv'. rewrite jget_jwrite in Hv' by done. simplify_eq. by apply jwrite_same.
Qed.

(** ** Replacing entries by name *)
Section Keyed.
Context `{Converter} {X : Type} (k : rkind) (path : list string) (p : X → json → bool) (f : X → json).
Implicit Types (ks : list X) (j : json).

Definition take_out ks : M json unit := for_all ks (λ x, _ ← tremove k path (p x); mret tt).
Definition tkeyed ks : M json (result unit) := _ ← take_out ks; tappend k path (f <$> ks).

Lemma outside_trans j1 j2 j3 : outside path j1 j2 → outside path j2 j3 → outside path j1 j3.
Proof. intros [H1 H2] [H3 H4]. split; intros q Hq; [by rewrite H3, H1|by rewrite H4, H2]. Qed.

(** What an edit leaves at the path. *)
Definition at_path (g : list json → list json) j j' : Prop :=
  ∃ l, tlist k path j = Some l ∧ tlist k path j' = Some (g l) ∧ is_obj j' ∧ outside path j j' ∧ rewritten path j j'.

Lemma tremove_failed q j e j' : tremove k path q j = (Ret (Err e), j') → tlist k path j = None ∧ j' = j.
Proof.
  intros Hr. split; [|by eapply tupdate_failed]. revert Hr. unfold tremove, tupdate, tlist.
  destruct (tResources k path j) as [l| |] eqn:E; try done. destruct (remove_first q l); [|done].
  apply tResources_Found in E as [[t Ht] _]. destruct (decide (path = [])) as [->|Hne]; [done|].
  by rewrite (tsetSlice_found _ _ _ _ _ Hne Ht).
Qed.

Lemma take_out_spec ks j u j' :
  is_obj j → take_out ks j = (Ret u, j') →
  at_path (drops p ks) j j' ∨ tlist k path j = None ∧ j' = j.
Proof.
  unfold take_out. revert j. induction ks as [|x ks IH]; intros j Hj; cbn [for_all].
  { intros [= _ <-]. destruct (tlist k path j) as [l|] eqn:E; [|by right].
    left. exists l. split_and!; [done..|apply outside_refl|by left]. }
  unfold mbind, M_bind. destruct (tremove k path (p x) j) as [[[v|e]|] j1] eqn:E; [| |done].
  - pose proof (tupdate_rewritten _ _ _ _ _ _ _ _ E) as Hw.
    apply tremove_spec in E as (l & Hl & Hl1 & Hj1 & Ho & _); [|done]. intros Hr.
    destruct (IH j1 Hj1 Hr) as [(l1 & Hl1' & Hl2 & Hj2 & Ho2 & Hw2)|[? _]]; [|congruence].
    left. exists l. split_and!; [done| |done|by eapply outside_trans|by eapply rewritten_trans].
    rewrite Hl1 in Hl1'. injection Hl1' as <-. exact Hl2.
  - apply tremove_failed in E as [Hn ->]. intros Hr. right. split; [done|].
    destruct (IH j Hj Hr) as [(l & ? & _)|[_ ?]]; [congruence|done].
Qed.

Lemma tkeyed_spec ks j r j' :
  is_obj j → Forall (converts k) (f <$> ks) → tkeyed ks j = (Ret (Ok r), j') →
  at_path (λ l, drops p ks l ++ (f <$> ks)) j j' ∧ ∃ l, NestedFieldNoCopy j' path = Found (JArr (built (length l)) l).
Proof.
  intros Hj Hc. unfold tkeyed. unfold mbind at 1, M_bind at 1.
  destruct (take_out ks j) as [[u|] j1] eqn:E; [|done].
  intros Hr. pose proof Hr as Hw%tupdate_rewritten.
  apply take_out_spec in E as [(l & Hl & Hl1 & Hj1 & Ho & Hw1)|[Hn ->]]; [| |done].
  - pose proof Hr as [l2 Hs]%tupdate_slice; [|done]. split; [|by eexists].
    apply tupdate_spec in Hr as (Hj' & Ho' & Hres); [|done].
    exists l. split_and!; [done| |done|by eapply outside_trans|by eapply rewritten_trans].
    pose proof (tlist_converts _ _ _ _ Hl1) as Hcl. unfold tlist in Hl1.
    destruct (tResources k path j1) as [l0| |]; [| |done]; injection Hl1 as Hl1; rewrite <- Hl1 in *; apply tlist_Found, Hres; [|done].
    by apply Forall_app.
  - exfalso. unfold tappend, tupdate, tlist in *. by destruct (tResources k path j).
Qed.

(** It works where there is a list. *)
Lemma take_out_runs ks j l :
  path ≠ [] → is_obj j → tResources k path j = Found l →
  ∃ j' l', take_out ks j = (Ret tt, j') ∧ tResources k path j' = Found l'.
Proof.
  intros Hne. unfold take_out. revert j l. induction ks as [|x ks IH]; intros j l Hj Hl; cbn [for_all].
  { by exists j, l. }
  destruct (tremove_found k path (p x) j l Hne Hl) as [j1 E].
  assert (is_obj j1 ∧ ∃ l1, tResources k path j1 = Found l1) as [Hj1 [l1 Hl1]].
  { pose proof E as (Hj1 & _ & Hres)%tupdate_spec; [|done]. split; [done|]. rewrite Hl in Hres.
    destruct (remove_first (p x) l) as [l1|] eqn:Er; [|subst; eauto]. exists l1. apply Hres.
    apply tResources_Found in Hl as [_ Hc]. by eapply remove_first_Forall. }
  destruct (IH j1 l1 Hj1 Hl1) as (j' & l' & Hr & Hl'). exists j', l'. split; [|done].
  unfold mbind, M_bind. rewrite E. exact Hr.
Qed.

Lemma slice_list j t l l' :
  NestedFieldNoCopy j path = Found (JArr t l) → tlist k path j = Some l' → l = l' ∧ tResources k path j = Found l.
Proof.
  unfold tlist, tResources. intros ->. simpl. destruct (tconvert_items k l) as [l0| |] eqn:E; intros ?; simplify_eq.
  - apply tconvert_items_Found in E as [-> Hc]. done.
  - by apply tconvert_items_not_missing in E.
Qed.

(** The entries are at the end of the list, and nothing else goes by their names. *)
Definition appended ks j : Prop :=
  ∃ l, NestedFieldNoCopy j path = Found (JArr (built (length (l ++ (f <$> ks)))) (l ++ (f <$> ks))) ∧ Forall (converts k) l ∧ lacks p ks l.

Lemma tkeyed_appends ks j r j' l :
  is_obj j → Forall (converts k) (f <$> ks) → tlist k path j = Some l → singles p ks l →
  tkeyed ks j = (Ret (Ok r), j') → appended ks j' ∧ is_obj j' ∧ outside path j j'.
Proof.
  intros Hj Hc Hl Hs Hr.
  destruct (tkeyed_spec _ _ _ _ Hj Hc Hr) as ((l0 & Hl0 & Hl' & Hj' & Ho & _) & l1 & Hs1).
  rewrite Hl in Hl0. injection Hl0 as <-. split; [|done]. exists (drops p ks l).
  pose proof (tlist_converts _ _ _ _ Hl') as [? _]%Forall_app.
  destruct (slice_list _ _ _ _ Hs1 Hl') as [<- _]. split_and!; [done..|]. by apply drops_lacks.
Qed.

Lemma appended_Found ks j :
  Forall (converts k) (f <$> ks) → appended ks j →
  ∃ l, NestedFieldNoCopy j path = Found (JArr (built (length (l ++ (f <$> ks)))) (l ++ (f <$> ks))) ∧
    tResources k path j = Found (l ++ (f <$> ks)) ∧ lacks p ks l.
Proof.
  intros Hc (l & Hl & Hcl & Hlacks). exists l. split_and!; [done| |done].
  apply tResources_Found. split; [by eexists|]. by apply Forall_app.
Qed.

(** Then doing it again changes nothing. *)
Lemma tkeyed_appended ks j :
  path ≠ [] → is_obj j → Forall (converts k) (f <$> ks) → Forall (λ x, p x (f x) = true) ks →
  appended ks j → tkeyed ks j = (Ret (Ok tt), j).
Proof.
  intros Hne Hj Hc Hf Happ. destruct (appended_Found _ _ Hc Happ) as (l & Hl & Hres & Hlacks).
  assert (∃ j2, tkeyed ks j = (Ret (Ok tt), j2)) as [j2 Hr2].
  { destruct (take_out_runs ks j _ Hne Hj Hres) as (ja & la & Ha & Hla). unfold tkeyed.
    unfold mbind, M_bind. rewrite Ha. unfold tappend, tupdate. rewrite Hla.
    apply tResources_Found in Hla as [[t Ht] _]. rewrite (tsetSlice_found _ _ _ _ _ Hne Ht). eauto. }
  rewrite Hr2. f_equal.
  destruct (tkeyed_spec _ _ _ _ Hj Hc Hr2) as ((l2 & Hl2 & Hl2' & _ & _ & Hw) & l3 & Hs3).
  rewrite (tlist_Found _ _ _ _ Hres) in Hl2. injection Hl2 as <-.
  eapply rewritten_same; [done|exact Hj|exact Hw|exact Hl|]. rewrite Hs3.
  destruct (slice_list _ _ _ _ Hs3 Hl2') as [-> _]. by rewrite drops_app.
Qed.

Lemma appended_outside path' ks j j' :
  outside path' j j' → incomparable (K <$> path') (K <$> path) → appended ks j → appended ks j'.
Proof. intros [_ Ho] Hi (l & Hl & Hrest). exists l. by rewrite Ho. Qed.
End Keyed.

(** ** Containers *)
Abbreviation named_var := (λ v : EnvVar, tstring_at_is ["name"] (ev_name v)).
Abbreviation from_secret := (λ e : EnvFromSource, tstring_at_is ["secretRef"; "name"] (efs_secretRef e)).

Section Containers.
Context `{ConverterAccepts} (asFiles : bool) (secretName : string) (vars : list EnvVar).
Implicit Types (x j : json) (c : WorkloadContainer).
Hypothesis Hsecret : secretName ≠ "".
Abbreviation source := {| efs_secretRef := secretName |}.

(** No variable of the binding is there more than once, nor is its secret, and
    the container has a variable in the end. *)
Definition no_doubles c x : Prop :=
  (∃ envs, tlist KEnvVar (wc_env c) x = Some envs ∧ singles named_var vars envs ∧ (envs ≠ [] ∨ vars ≠ [])) ∧
  (∃ froms, tlist KEnvFromSource (wc_envFrom c) x = Some froms ∧ singles from_secret [source] froms).

Lemma envs_convert : Forall (converts KEnvVar) (EnvVar_json <$> vars).
Proof. apply Forall_fmap, Forall_true. intros e. split; [by eexists|apply accepts_env]. Qed.
Lemma froms_convert : Forall (converts KEnvFromSource) (EnvFromSource_json <$> [source]).
Proof. constructor; [|constructor]. split; [by eexists|apply accepts_envFrom]. Qed.
Lemma envs_named : Forall (λ v, named_var v (EnvVar_json v) = true) vars.
Proof.
  apply Forall_true. intros v. unfold tstring_at_is, NestedString. simpl. apply String.eqb_refl.
Qed.
Lemma froms_named : Forall (λ e, from_secret e (EnvFromSource_json e) = true) [source].
Proof.
  constructor; [|constructor]. unfold EnvFromSource_json, omitempty. simpl.
  destruct (String.eqb_spec secretName ""); [done|]. unfold tstring_at_is, NestedString. simpl. apply String.eqb_refl.
Qed.

Lemma tAddEnvFromVar_keyed path x :
  path ≠ [] → tAddEnvFromVar path source x = tkeyed KEnvFromSource path from_secret EnvFromSource_json [source] x.
Proof.
  intros Hne. unfold tAddEnvFromVar. destruct path; [done|]. unfold tkeyed, take_out, tRemoveEnvFromVars.
  cbn [for_all]. unfold mbind, M_bind, mret, M_ret. by destruct (tremove _ _ _ x) as [[[]|] x1].
Qed.

Lemma incomparable_nonempty path q : incomparable (K <$> path) q → path ≠ [].
Proof. intros [Hi _] ->. apply Hi, prefix_nil. Qed.

(** The variables and the secret are in the container. *)
Definition has_vars c x : Prop :=
  is_obj x ∧ appended KEnvVar (wc_env c) named_var EnvVar_json vars x ∧
  (asFiles = false → appended KEnvFromSource (wc_envFrom c) from_secret EnvFromSource_json [source] x).

Lemma tenv_container_spec c x r x' :
  is_obj x → separate_paths c → no_doubles c x →
  tenv_container asFiles secretName vars c x = (Ret (Ok r), x') →
  has_vars c x' ∧
  ∀ path, incomparable (K <$> wc_env c) (K <$> path) → incomparable (K <$> wc_envFrom c) (K <$> path) →
    NestedFieldNoCopy x' path = NestedFieldNoCopy x path.
Proof.
  intros Hx (Hi & _ & _) [(envs & He & Hes & Hnil) (froms & Hf & Hfs)].
  pose proof (incomparable_nonempty _ _ (incomparable_sym _ _ Hi)) as Hne.
  unfold tenv_container, rbind. unfold mbind at 1, M_bind at 1.
  destruct ((if asFiles then mret (Ok tt) else tAddEnvFromVar (wc_envFrom c) source) x)
    as [[[u|]|] x1] eqn:E; try done.
  assert (is_obj x1 ∧ outside (wc_envFrom c) x x1 ∧
    (asFiles = false → appended KEnvFromSource (wc_envFrom c) from_secret EnvFromSource_json [source] x1))
    as (Hx1 & Ho & Ha).
  { destruct asFiles; [unfold mret, M_ret in E; simplify_eq; by split_and!|].
    rewrite tAddEnvFromVar_keyed in E by done.
    eapply tkeyed_appends in E as (? & ? & ?); [..|exact Hfs]; [done|done|apply froms_convert|done]. }
  intros Hr. rewrite <- (tlist_outside _ _ _ _ _ Ho (incomparable_sym _ _ Hi)) in He.
  eapply (tkeyed_appends KEnvVar (wc_env c) named_var) in Hr as (Ha' & Hx' & Ho'); [|done|apply envs_convert|exact He|done].
  split; [split_and!; [done..|]|].
  - intros Hfl. eapply appended_outside; [exact Ho'|done|auto].
  - intros path H1' H2'. rewrite (proj2 Ho') by done. by apply Ho.
Qed.

Lemma tenv_container_again c x :
  separate_paths c → has_vars c x → tenv_container asFiles secretName vars c x = (Ret (Ok tt), x).
Proof.
  intros (Hi & _ & _) (Hx & Ha & Hf). pose proof (incomparable_nonempty _ _ Hi) as Hne.
  pose proof (incomparable_nonempty _ _ (incomparable_sym _ _ Hi)) as Hne'.
  assert ((if asFiles then mret (Ok tt) else tAddEnvFromVar (wc_envFrom c) source) x = (Ret (Ok tt), x)) as E.
  { destruct asFiles; [done|]. rewrite tAddEnvFromVar_keyed by done.
    apply tkeyed_appended; [done|done|apply froms_convert|apply froms_named|auto]. }
  unfold tenv_container, rbind. unfold mbind at 1, M_bind at 1. rewrite E.
  apply tkeyed_appended; [done|done|apply envs_convert|apply envs_named|done].
Qed.
End Containers.

(** ** Pods *)
Section Pods.
Context `{ConverterAccepts, !ConverterOnWire}.
Context (m : WorkloadMapping) (fss : list (list string)) (names : list string).
Context (asFiles : bool) (secretName : string) (vars : list EnvVar).
Hypothesis Hwell : well_laid m fss.
Hypothesis Hsecret : secretName ≠ "".
Implicit Types (j x : json) (cs : list (pos * WorkloadContainer)) (c : WorkloadContainer).

(** The containers are found as before. *)
Lemma tenv_container_name c x r x' :
  is_obj x → apart_paths c → tenv_container asFiles secretName vars c x = (Ret (Ok r), x') →
  is_obj x' ∧ NestedFieldNoCopy x' (wc_name c) = NestedFieldNoCopy x (wc_name c).
Proof.
  intros Hx ((Hi & _) & Hen & _ & Hfn). unfold tenv_container, rbind. unfold mbind at 1, M_bind at 1.
  destruct ((if asFiles then mret (Ok tt) else tAddEnvFromVar (wc_envFrom c) {| efs_secretRef := secretName |}) x)
    as [[[u|]|] x1] eqn:E; try done.
  assert (is_obj x1 ∧ outside (wc_envFrom c) x x1) as [Hx1 Ho].
  { destruct asFiles; [unfold mret, M_ret in E; by simplify_eq|].
    rewrite tAddEnvFromVar_keyed in E by by eapply incomparable_nonempty.
    apply tkeyed_spec in E as [(? & _ & _ & ? & ? & _) _]; [done|done|apply froms_convert]. }
  intros Hr. eapply (tkeyed_spec KEnvVar (wc_env c) (λ v, tstring_at_is ["name"] (ev_name v))) in Hr
    as [(? & _ & _ & Hx' & Ho' & _) _]; [|done|apply envs_convert].
  split; [done|]. rewrite (proj2 Ho') by done. by apply Ho.
Qed.

Lemma tenv_pod_has_vars cs j r j1 :
  is_obj j → tBindablePods names (wm_containers m) fss j = Ok cs →
  Forall (λ pc, ∀ x, jget pc.1 j = Some x → no_doubles secretName vars pc.2 x) cs →
  tenv_pod asFiles secretName vars (wm_volume m) cs j = (Ret (Ok r), j1) →
  Forall (λ pc, separate_paths pc.2 ∧ ∃ x, jget pc.1 j1 = Some x ∧ has_vars asFiles secretName vars pc.2 x) cs.
Proof.
  intros Hj Hb Hnd Hrun. pose proof (tBindablePods_pod_ok _ _ _ _ _ Hwell Hj Hb) as Hok.
  pose proof (each_lift_inv _ _ _ _ _ (pod_separate _ _ _ Hok) Hrun) as [Hed _].
  apply Forall_forall. intros pc Hin.
  pose proof (pod_paths _ _ _ Hok) as Hpaths. pose proof (pod_containers _ _ _ Hok) as Hcs.
  rewrite Forall_forall in Hed, Hpaths, Hcs, Hnd.
  destruct (Hed _ Hin) as (x & u & x' & Hx & Hg & Hx'). destruct (Hcs _ Hin) as [mx Hmx].
  rewrite Hx in Hmx. injection Hmx as ->. split; [by apply Hpaths|]. exists x'. split; [done|].
  eapply tenv_container_spec; [by eexists|by apply Hpaths|by apply Hnd|exact Hg].
Qed.

Lemma tenv_pod_again cs j r j1 :
  is_obj j → tBindablePods names (wm_containers m) fss j = Ok cs →
  Forall (λ pc, ∀ x, jget pc.1 j = Some x → no_doubles secretName vars pc.2 x) cs →
  tenv_pod asFiles secretName vars (wm_volume m) cs j = (Ret (Ok r), j1) →
  is_obj j1 ∧ tBindablePods names (wm_containers m) fss j1 = Ok cs ∧
  tenv_pod asFiles secretName vars (wm_volume m) cs j1 = (Ret (Ok tt), j1).
Proof.
  intros Hj Hb Hnd Hrun. pose proof (tBindablePods_pod_ok _ _ _ _ _ Hwell Hj Hb) as Hok.
  pose proof (containers_of m fss Hwell _ _ _ Hb) as Hof. split_and!.
  - eapply each_lift_obj; [|exact Hj|exact Hrun]. eapply Forall_impl; [exact Hof|].
    intros pc (k & f & ix & _ & _ & Hix & -> & _). unfold element_pos. by destruct f, ix.
  - rewrite <- Hb. eapply (each_containers _ _ _ Hwell (tenv_container asFiles secretName vars));
      [|apply Hok|exact Hof|exact Hrun].
    intros c x u x' Hc Hx. apply tenv_container_name; [done|by eapply well_laid_apart].
  - apply each_lift_same. eapply Forall_impl; [by eapply tenv_pod_has_vars|].
    intros pc (Hs & x & Hx & Hv). exists x. split; [done|]. by apply tenv_container_again.
Qed.

(** *** Nil slices *)
Definition some_vars c x : Prop := ∃ envs, tlist KEnvVar (wc_env c) x = Some envs ∧ (envs ≠ [] ∨ vars ≠ []).

Lemma tAddEnvFromVar_nil_free path e : keeps_nil_free (tAddEnvFromVar path e).
Proof.
  unfold tAddEnvFromVar. destruct path as [|k path]; [apply keeps_ret|].
  apply keeps_bind; [apply tremove_nil_free|]. intros _ j Hj. apply tappend_nil_free; [|done|by left].
  constructor; [apply EnvFrom_nil_free|constructor].
Qed.

Lemma tAddEnvVars_nil_free path x envs :
  nil_free x = true → tlist KEnvVar path x = Some envs → envs ≠ [] ∨ vars ≠ [] →
  nil_free (tAddEnvVars path vars x).2 = true.
Proof.
  intros Hx He Hne. unfold tAddEnvVars.
  assert (∀ x, nil_free x = true → vars ≠ [] ∨ (∃ y l, tResources KEnvVar path x = Found (y :: l)) →
    nil_free (tappend KEnvVar path (EnvVar_json <$> vars) x).2 = true) as Ha.
  { intros y Hy Hv. apply tappend_nil_free; [|done|].
    - apply Forall_fmap, Forall_true. intros v. apply EnvVar_nil_free.
    - destruct Hv as [Hv|Hv]; [left|by right]. by destruct vars. }
  destruct (decide (vars = [])) as [E|Hv].
  - rewrite E in *. apply (Ha x Hx). right. destruct Hne as [Hne|]; [|done].
    unfold tlist in He. destruct (tResources KEnvVar path x) as [[|y l]| |]; simplify_eq; eauto.
  - revert x Hx He. clear -Ha Hv. intros x Hx _. revert x Hx. apply keeps_bind; [|intros _ y Hy; by apply Ha; [|left]].
    apply keeps_for_all. intros v. apply keeps_bind; [apply tremove_nil_free|intros _; apply keeps_ret].
Qed.

Lemma tenv_container_nil_free c x r x' :
  is_obj x → separate_paths c → nil_free x = true → some_vars c x →
  tenv_container asFiles secretName vars c x = (Ret (Ok r), x') → nil_free x' = true.
Proof.
  intros Hx (Hi & _ & _) Hn (envs & He & Hne). unfold tenv_container, rbind. unfold mbind at 1, M_bind at 1.
  destruct ((if asFiles then mret (Ok tt) else tAddEnvFromVar (wc_envFrom c) {| efs_secretRef := secretName |}) x)
    as [[[u|]|] x1] eqn:E; try done.
  assert (nil_free x1 = true ∧ outside (wc_envFrom c) x x1) as [Hn1 Ho].
  { destruct asFiles; [unfold mret, M_ret in E; by simplify_eq|].
    split; [by eapply keeps_run; [apply tAddEnvFromVar_nil_free| |exact E]|].
    rewrite tAddEnvFromVar_keyed in E by by eapply incomparable_nonempty, incomparable_sym.
    apply tkeyed_spec in E as [(? & _ & _ & _ & ? & _) _]; [done|done|apply froms_convert]. }
  intros Hr. rewrite <- (tlist_outside _ _ _ _ _ Ho (incomparable_sym _ _ Hi)) in He.
  pose proof (tAddEnvVars_nil_free _ _ _ Hn1 He Hne) as Hn'. by rewrite Hr in Hn'.
Qed.

Lemma tenv_pod_nil_free cs j r j1 :
  is_obj j → tBindablePods names (wm_containers m) fss j = Ok cs → nil_free j = true →
  Forall (λ pc, ∀ x, jget pc.1 j = Some x → some_vars pc.2 x) cs →
  tenv_pod asFiles secretName vars (wm_volume m) cs j = (Ret (Ok r), j1) → nil_free j1 = true.
Proof.
  intros Hj Hb Hn Hv. pose proof (tBindablePods_pod_ok _ _ _ _ _ Hwell Hj Hb) as Hok.
  pose proof (pod_paths _ _ _ Hok) as Hpaths. pose proof (pod_containers _ _ _ Hok) as Hcs.
  pose proof (pod_separate _ _ _ Hok) as Hsep. clear Hok Hb Hj. unfold tenv_pod. revert j Hn Hv Hcs Hpaths.
  induction Hsep as [|[p c] cs Hp _ IH]; intros j Hn Hv Hcs Hpaths; cbn [each_res].
  { unfold mret, M_ret. by intros [= _ <-]. }
  apply Forall_cons in Hv as [Hv Hvs]. apply Forall_cons in Hcs as [[mx Hmx] Hcs]. apply Forall_cons in Hpaths as [[Hs _] Hpaths].
  unfold rbind, mbind, M_bind. unfold lift_at at 1. simpl in *. rewrite Hmx.
  destruct (tenv_container asFiles secretName vars c (JObj mx)) as [[[u|]|] x'] eqn:E; try done.
  assert (∀ pc, pc ∈ cs → jget pc.1 (jput p x' j) = jget pc.1 j) as Hsame.
  { intros pc Hin. rewrite Forall_forall in Hp. apply jget_jput_ne. by apply Hp. }
  apply IH.
  - apply nil_free_jput; [done|]. eapply tenv_container_nil_free; [by eexists|done| |by apply Hv|exact E].
    by eapply nil_free_jget.
  - rewrite Forall_forall in Hvs |- *. intros pc Hin. rewrite Hsame by done. by apply Hvs.
  - rewrite Forall_forall in Hcs |- *. intros pc Hin. rewrite Hsame by done. by apply Hcs.
  - done.
Qed.

(** The same after the object was read back. *)
Lemma tenv_pod_read_back cs j r j1 :
  is_obj j → nil_free j = true → tBindablePods names (wm_containers m) fss j = Ok cs →
  Forall (λ pc, ∀ x, jget pc.1 j = Some x → no_doubles secretName vars pc.2 x) cs →
  tenv_pod asFiles secretName vars (wm_volume m) cs j = (Ret (Ok r), j1) →
  is_obj j1 ∧ tBindablePods names (wm_containers m) fss (normalize j1) = Ok cs ∧
  ∃ j2, tenv_pod asFiles secretName vars (wm_volume m) cs (normalize j1) = (Ret (Ok tt), j2) ∧
    normalize j2 = normalize j1.
Proof.
  intros Hj Hn Hb Hnd Hrun. destruct (tenv_pod_again _ _ _ _ Hj Hb Hnd Hrun) as (Hj1 & Hb1 & Hrun1).
  apply tBindablePods_normalize in Hb1. split_and!; [done..|].
  assert (nil_free j1 = true) as Hn1.
  { eapply tenv_pod_nil_free; [exact Hj|exact Hb|done| |exact Hrun]. eapply Forall_impl; [exact Hnd|].
    intros pc Hpc x Hx. destruct (Hpc x Hx) as [(envs & ? & _ & ?) _]. by exists envs. }
  eapply respects_written in Hrun1 as (j2 & Hrun2 & Hw); [|apply tenv_pod_respects|done].
  exists j2. split; [done|]. apply on_wire_written; [|done..].
  eapply tenv_pod_nil_free; [|exact Hb1|apply normalize_nil_free| |exact Hrun2]; [destruct Hj1 as [mj ->]; by eexists|].
  eapply Forall_impl; [exact (tenv_pod_has_vars _ _ _ _ Hj Hb Hnd Hrun)|].
  intros pc (_ & x & Hx & (_ & Happ & _)) x2.
  rewrite jget_normalize, Hx. intros [= <-]. pose proof (nil_free_jget _ _ _ Hn1 Hx) as Hnx.
  destruct (appended_Found _ _ _ _ _ _ (envs_convert vars) Happ) as (l & Hl & Hres & _).
  exists (plain <$> (l ++ (EnvVar_json <$> vars))). rewrite normalize_plain, tlist_plain, (tlist_Found _ _ _ _ Hres) by done.
  split; [done|]. left. apply nested_jget in Hl. apply (nil_free_jget _ _ _ Hnx) in Hl.
  intros E%fmap_nil_inv. by rewrite E in Hl.
Qed.
End Pods.
