(* ===== verification/ProjectionSpec.v ===== *)
(** * What binding and unbinding leave in the workloads

    The projecting handlers compute functions on the trees of the workloads;
    projecting a binding as files into a workload that was read back from the
    cluster writes the same object again; unbinding it afterwards gives back
    the workload as it was before, with one variable more. *)

From S2P Require Import Prelude.
From S2P Require Import GoLib.
From S2P Require Import GoValue.
From S2P Require Import JsonPath.
From S2P Require Import Heap.
From S2P Require Import Converter.
From S2P Require Import Kube.
From S2P Require Import Apis.
From S2P Require Import Binding.
From S2P Require Import Service.
From S2P Require Import Workload.
From S2P Require Import Application.
From S2P Require Import Context.
From S2P Require Import Kinds.
From S2P Require Import Project.
From S2P Require Import Cluster.
From S2P Require Import ContextSpec.
From S2P Require Import Tree.
From S2P Require Import TreeEdit.
From S2P Require Import TreeOps.
From S2P Require Import TreePods.
From S2P Require Import TreeApps.
From S2P Require Import Projection.
From S2P Require Import TreeLaws.
From S2P Require Import TreeBind.
From S2P Require Import TreeShape.
From S2P Require Import TreeWire.
From S2P Require Import TreeNil.

(** ** Objects as they are read from the cluster *)
(** An application that was just read, whose mapping keeps its lists apart. *)
Definition loaded (a : application) : Prop :=
  fresh_app a = true ∧ ∃ fss, well_laid (a_resourceMapping a) fss.

(** The same application, read again after the tree [j] was written.  The
    server is taken to return exactly what it was sent: no field it owns, such
    as [resourceVersion], is in the object, and it fills in no default, such as
    the [defaultMode] of a secret volume. *)
Definition reread (a : application) (j : json) (a' : application) : Prop :=
  a_resource a' = None ∧ a_persistedResource a' = normalize j ∧ a_bindingPath a' = a_bindingPath a ∧
  a_bindableContainerNames a' = a_bindableContainerNames a ∧ a_resourceMapping a' = a_resourceMapping a.

(** A second pass over the applications, after the trees the first pass left
    were written and read back. *)
Lemma tapps_again (g g' : application → M json (result unit)) (P : application → Prop)
    (R : application → application → json → Prop) l js1 l' :
  (∀ a j1 a', P a → g a (a_persistedResource a) = (Ret (Ok tt), j1) → reread a j1 a' →
     ∃ j2, g' a' (a_persistedResource a') = (Ret (Ok tt), j2) ∧ R a a' j2) →
  Forall P l → tapps g l (a_persistedResource <$> l) = (Ret (Ok tt), js1) → Forall3 reread l js1 l' →
  ∃ js2, tapps g' l' (a_persistedResource <$> l') = (Ret (Ok tt), js2) ∧ Forall3 R l l' js2.
Proof.
  intros Hg HP Hb Hre. revert HP Hb. induction Hre as [|a j1 a' l js1 l' Ha _ IH]; intros HP Hb.
  { exists []. by split; [|constructor]. }
  apply Forall_cons in HP as [Pa Pl]. csimpl in *.
  destruct (g a (a_persistedResource a)) as [[[[]|]|] j] eqn:E; simplify_eq.
  destruct (tapps g l (a_persistedResource <$> l)) as [o js] eqn:El. simplify_eq.
  destruct (Hg a j1 a' Pa E Ha) as (j2 & -> & HR). destruct (IH Pl eq_refl) as (js2 & -> & HRs).
  exists (j2 :: js2). by split; [|constructor].
Qed.

Section Again.
Context `{ConverterAccepts, !ConverterOnWire}.
Context (name secretName : string).
Abbreviation tbind := (tapp pods_missing (tfiles_pod name secretName)).

Lemma fresh_app_spec a : fresh_app a = true →
  a_resource a = None ∧ is_obj (a_persistedResource a) ∧ deep_copyable (a_persistedResource a) = true.
Proof.
  unfold fresh_app. destruct (a_resource a); [done|]. destruct (a_persistedResource a) eqn:E; try done.
  destruct (layout _); [|done]. intros. split_and!; [done|by eexists|done].
Qed.

(** One application, bound again. *)
Lemma rebind_app a r j1 a' :
  loaded a →
  tbind a (a_persistedResource a) = (Ret (Ok r), j1) → reread a j1 a' →
  ∃ j2, tbind a' (a_persistedResource a') = (Ret (Ok tt), j2) ∧ normalize j2 = a_persistedResource a'.
Proof.
  intros [Hfresh [fss Hwell]] Hbind (_ & Ep & Eb & En & Em). unfold tapp in *. rewrite Em, En, Ep.
  destruct (fresh_app_spec _ Hfresh) as (_ & Hobj & Hcopy). pose proof Hwell as [Hlay _]. rewrite Hlay in *.
  destruct (tBindablePods _ _ fss (a_persistedResource a)) as [cs|e] eqn:Hb.
  - destruct (tfiles_pod_read_back _ _ _ Hwell _ _ _ _ _ _ Hobj (copyable_nil_free _ Hcopy) Hb Hbind) as [-> Hagain]. exact Hagain.
  - unfold pods_missing, SecretPath in *. simplify_eq.
    rewrite (deep_copyable_normal _ Hcopy), Hb, Eb.
    destruct (negb _); [|done]. eexists. split; [done|]. by apply deep_copyable_normal.
Qed.

(** *** Unbinding *)

(** Nothing in the workload goes by the name of the binding or refers to its
    secret yet. *)
Definition free_of (a : application) (j : json) : Prop :=
  ∀ fss cs, layout (a_resourceMapping a) = Some fss →
    tBindablePods (a_bindableContainerNames a) (wm_containers (a_resourceMapping a)) fss j = Ok cs →
    (∃ vols, tlist KVolume (wm_volume (a_resourceMapping a)) j = Some vols ∧ existsb (tname_is name) vols = false) ∧
    Forall (λ pc, ∀ x, jget pc.1 j = Some x → unused name secretName pc.2 x) cs.

(** The workload [j2] is the workload [j] again, up to the variable
    [SERVICE_BINDING_ROOT] of its containers. *)
Definition released (a : application) (j j2 : json) : Prop :=
  ∃ fss cs, layout (a_resourceMapping a) = Some fss ∧
    tBindablePods (a_bindableContainerNames a) (wm_containers (a_resourceMapping a)) fss j = Ok cs ∧
    tlist KVolume (wm_volume (a_resourceMapping a)) j2 = tlist KVolume (wm_volume (a_resourceMapping a)) j ∧
    Forall (λ pc, ∃ x x2, jget pc.1 j = Some x ∧ jget pc.1 j2 = Some x2 ∧ restored pc.2 x x2) cs ∧
    ∀ q, incomparable (K <$> wm_volume (a_resourceMapping a)) q → Forall (λ pc, incomparable pc.1 q) cs →
      jget q j2 = jget q j.

Lemma with_root_plain envs : plain <$> with_root envs = with_root (plain <$> envs).
Proof.
  unfold with_root. rewrite tfind_root_plain. destruct (tfind_root envs); [done|]. by rewrite fmap_app.
Qed.

Lemma restored_plain c x x2 : plain x = x → restored c x x2 → restored c x (plain x2).
Proof.
  intros Hx (Hm & He & Hq). split_and!.
  - rewrite tlist_plain, Hm, <- tlist_plain. by rewrite Hx.
  - rewrite tlist_plain, He. rewrite <- Hx at 2. rewrite tlist_plain.
    destruct (tlist KEnvVar (wc_env c) x); simpl; [|done]. f_equal. apply with_root_plain.
  - intros q Hi1 Hi2. rewrite jget_plain, Hq, <- jget_plain by done. by rewrite Hx.
Qed.

(** It is what the cluster gets. *)
Lemma released_plain a j j2 : plain j = j → released a j j2 → released a j (plain j2).
Proof.
  intros Hj (fss & cs & Hlay & Hb & Hv & Hc & Hq). exists fss, cs. split_and!; [done|done| | |].
  - rewrite tlist_plain, Hv, <- tlist_plain. by rewrite Hj.
  - eapply Forall_impl; [exact Hc|]. intros pc (x & x2 & Hx & Hx2 & Hres). exists x, (plain x2).
    rewrite jget_plain, Hx2. split_and!; [done..|]. apply restored_plain; [|done].
    pose proof (jget_plain pc.1 j) as E. rewrite Hj, Hx in E. by injection E.
  - intros q Hi1 Hi2. rewrite jget_plain, Hq, <- jget_plain by done. by rewrite Hj.
Qed.

Abbreviation tunbind := (tapp pods_nil (tclean_pod name secretName [])).

Lemma unbind_app_spec a r j1 a' :
  loaded a → SecretPath a = "" →
  tbind a (a_persistedResource a) = (Ret (Ok r), j1) → free_of a (a_persistedResource a) → reread a j1 a' →
  ∃ j2, tunbind a' (a_persistedResource a') = (Ret (Ok tt), j2) ∧
    released a (a_persistedResource a) (normalize j2).
Proof.
  intros [Hfresh [fss Hwell]] Hpath Hbind Hfree (_ & Ep & Eb & En & Em). unfold tapp in *. rewrite Em, En, Ep.
  destruct (fresh_app_spec _ Hfresh) as (_ & Hobj & Hcopy). pose proof Hwell as [Hlay _]. rewrite Hlay in *.
  destruct (tBindablePods _ _ fss (a_persistedResource a)) as [cs|e] eqn:Hb.
  - destruct (Hfree fss cs Hlay Hb) as ((vols & Hv & Hvf) & Hun).
    destruct (tclean_pod_read_back _ _ _ Hwell name secretName cs _ _ _ vols Hobj (copyable_nil_free _ Hcopy) Hb Hbind Hv Hvf Hun)
      as (-> & j2 & j2' & Hc & Hw & Hvols & Hcs & Hq).
    exists j2. split; [done|]. rewrite Hw. apply released_plain; [by apply copyable_plain|]. exists fss, cs. rewrite Hv, Hvols. done.
  - unfold pods_missing in Hbind. rewrite Hpath in Hbind. done.
Qed.
End Again.

(** ** The handlers *)
Section Handlers.
Context {W B : Type} `{KubeAPI W} `{BindingAPI W B} `{Clock W} `{ServiceBindingKind B}.
Context `{UserInfoJSON} `{JSONPathLib} `{BucketRateLimiter} `{MappingDecoder} `{Converter}.
Context `{LoadedApplications W B}.

(** C5: [BindingsAsFiles] computes [files_trees]: the secret becomes a volume
    of every workload and a mount of every container that was found, written
    through pointers into the copies of the workloads, which end up holding the
    trees the function gives; the first failure stops the flow, and no cell
    outside the copies is touched. *)
Theorem BindingsAsFiles_refines (s s0 : st W B) (F X : gset loc) (js : list json) (secretName : string) :
  let b := i_binding (st_ctx s) in
  let apps := i_applications (st_ctx s) in
  BindingSecretName s = (Ret secretName, s0) → apps ≠ [] → BindAsFiles b = true →
  below (length (st_heap s)) F → apps_repr F (st_heap s) apps js X →
  leaves_trees s s0 F X BindingsAsFiles (files_trees b secretName apps js) conclude.
Proof. intros b apps Hname Hne Hfiles Hb Hr. by apply BindingsAsFiles_trees. Qed.

(** C18: [BindingsAsEnv] computes [env_trees]: the variables of the binding, and
    the reference to the secret unless the binding is projected as files, in
    every container that was found. *)
Theorem BindingsAsEnv_refines (s s0 : st W B) (F X : gset loc) (js : list json) (secretName : string) :
  let b := i_binding (st_ctx s) in
  let apps := i_applications (st_ctx s) in
  BindingSecretName s = (Ret secretName, s0) → apps ≠ [] → BindAsFiles b = false ∨ EnvBindings b ≠ [] →
  below (length (st_heap s)) F → apps_repr F (st_heap s) apps js X →
  leaves_trees s s0 F X BindingsAsEnv (env_trees b secretName apps js) conclude.
Proof. intros b apps Hname Hne Henv Hb Hr. by apply BindingsAsEnv_trees. Qed.

(** C19: [Unbind] computes [clean_trees], and goes on to the annotations of the
    binding when every workload was cleaned; a workload without containers
    makes it panic. *)
Theorem Unbind_refines (s s0 : st W B) (F X : gset loc) (js : list json) (secretName : string) :
  let b := i_binding (st_ctx s) in
  let apps := i_applications (st_ctx s) in
  BindingSecretName s = (Ret secretName, s0) → apps ≠ [] →
  UnbindRequested (st_ctx s) = true → secretName ≠ "" →
  below (length (st_heap s)) F → apps_repr F (st_heap s) apps js X →
  leaves_trees s s0 F X Unbind (clean_trees b secretName apps js) unbound.
Proof. intros b apps Hname Hne Hun Hsec Hb Hr. by apply Unbind_trees. Qed.

(** A handler that came through has not stopped the flow. *)
Lemma conclude_inv o (s s1 : st W B) :
  conclude o s = (Ret tt, s1) → f_stop (i_flow (st_ctx s1)) = false → o = Ret (Ok tt) ∧ s1 = s.
Proof.
  destruct o as [[[]|e]|e]; simpl; [| |done].
  - intros E. by injection E as <-.
  - unfold stop, StopProcessing, Error, SetCondition, ctx_modify. m_unfold. intros E.
    injection E as <-. simpl. discriminate.
Qed.
End Handlers.

(** The application [a1] was written, and read again as [a']. *)
Definition reread_from (h : heap) (a a1 a' : application) : Prop := ∃ j, holds h a1 j ∧ reread a j a'.

Lemma holds_functional h a j j' : holds h a j → holds h a j' → j = j'.
Proof. unfold holds. destruct (a_resource a); congruence. Qed.

Lemma reread_trees h l l1 l' js :
  Forall3 (reread_from h) l l1 l' → Forall2 (holds h) l1 js → Forall3 reread l js l'.
Proof.
  intros Hre. revert js. induction Hre as [|a a1 a' l l1 l' (j & Hj & Ha) _ IH]; intros js Hh;
    inversion Hh as [|? y ? ys Hy Hys]; subst; constructor; [|by apply IH].
  by rewrite (holds_functional _ _ _ _ Hy Hj).
Qed.

(** ** Two reconciliations *)
Section Twice.
Context {W B : Type} `{KubeAPI W} `{BindingAPI W B} `{Clock W} `{ServiceBindingKind B}.
Context `{UserInfoJSON} `{JSONPathLib} `{BucketRateLimiter} `{MappingDecoder}.
Context `{ConverterAccepts} `{!ConverterOnWire} `{LoadedApplications W B}.

(** The first one projects the binding into workloads that were just read. *)
Definition projects_files (s s0 s1 : st W B) (secretName : string) : Prop :=
  BindAsFiles (i_binding (st_ctx s)) = true ∧ BindingSecretName s = (Ret secretName, s0) ∧
  i_applications (st_ctx s) ≠ [] ∧ Forall loaded (i_applications (st_ctx s)) ∧
  BindingsAsFiles s = (Ret tt, s1) ∧ f_stop (i_flow (st_ctx s1)) = false.

(** The second one reads what the first one left. *)
Definition follows (s s1 s' s0' : st W B) (secretName : string) : Prop :=
  BindingName (i_binding (st_ctx s')) = BindingName (i_binding (st_ctx s)) ∧
  BindingSecretName s' = (Ret secretName, s0') ∧
  Forall3 (reread_from (st_heap s1)) (i_applications (st_ctx s)) (i_applications (st_ctx s1))
    (i_applications (st_ctx s')).

Lemma reread_fresh name secretName a j1 a' :
  loaded a → tapp pods_missing (tfiles_pod name secretName) a (a_persistedResource a) = (Ret (Ok tt), j1) →
  reread a j1 a' → fresh_app a' = true.
Proof.
  intros [Hfresh [fss Hwell]] Hbind (Er & Ep & _ & _ & Em). unfold fresh_app. rewrite Er, Ep, Em.
  destruct (fresh_app_spec _ Hfresh) as (_ & Hobj & _). pose proof Hwell as [Hlay _].
  unfold tapp in Hbind. rewrite Hlay in *.
  assert (is_obj j1) as [m ->].
  { destruct (tBindablePods _ _ fss (a_persistedResource a)) as [cs|e] eqn:Hb.
    - eapply tfiles_pod_containers; [exact Hwell|exact Hobj|exact Hb|exact Hbind].
    - unfold pods_missing in Hbind. by simplify_eq. }
  exact (normalize_copyable (JObj m)).
Qed.

Lemma loaded_fresh l : Forall loaded l → forallb fresh_app l = true.
Proof. induction 1 as [|a l [Ha _] _ IH]; [done|]. simpl. by rewrite Ha. Qed.

Lemma first_projection s s0 s1 s' s0' secretName :
  projects_files s s0 s1 secretName → follows s s1 s' s0' secretName →
  ∃ js1, files_trees (i_binding (st_ctx s)) secretName (i_applications (st_ctx s))
      (a_persistedResource <$> i_applications (st_ctx s)) = (Ret (Ok tt), js1) ∧
    Forall3 reread (i_applications (st_ctx s)) js1 (i_applications (st_ctx s')) ∧
    forallb fresh_app (i_applications (st_ctx s')) = true ∧ i_applications (st_ctx s') ≠ [].
Proof.
  intros (Hfiles & Hname & Hne & Hl & Hrun & Hgo) (_ & _ & Hre).
  set (apps := i_applications (st_ctx s)) in *.
  destruct (BindingsAsFiles_trees s s0 ∅ ∅ (a_persistedResource <$> apps) secretName)
    as (F' & h' & l' & X' & Hsame & E & Hholds & _); [done|done|by intros ? ?%elem_of_empty| |done|].
  { apply fresh_apps_repr. by apply loaded_fresh. }
  rewrite E in Hrun. fold apps in E, Hrun, Hholds.
  destruct (files_trees _ secretName apps (a_persistedResource <$> apps)) as [o js1] eqn:Et. simpl in *.
  apply conclude_inv in Hrun as [-> ->]; [|done]. simpl in Hre. exists js1.
  pose proof (reread_trees _ _ _ _ _ Hre Hholds) as Hre'.
  split_and!; [done|done| |].
  - unfold files_trees in Et. clear Hre Hholds E Hgo Hne Hsame Hname. clearbody apps. revert Hl Et.
    induction Hre' as [|a j1 a' l js1 l2 Ha _ IH]; intros Hl Et; [done|].
    apply Forall_cons in Hl as [Hla Hl]. csimpl in *.
    destruct (tapp _ _ a (a_persistedResource a)) as [[[[]|]|] j] eqn:Ea; simplify_eq.
    destruct (tapps _ l (a_persistedResource <$> l)) as [o js] eqn:El. simplify_eq.
    rewrite (reread_fresh _ _ _ _ _ Hla Ea Ha). by apply IH.
  - intros E'. rewrite E' in Hre'. inversion Hre'. congruence.
Qed.

(** C7: reconciling a bound workload again is stable: when the workloads read
    in the second reconciliation are exactly what the first one wrote,
    [BindingsAsFiles] succeeds and the objects it leaves to be written are
    those that are in the cluster already. *)
Theorem rebinding_is_stable (s s0 s1 s' s0' : st W B) (secretName : string) :
  projects_files s s0 s1 secretName → follows s s1 s' s0' secretName →
  BindAsFiles (i_binding (st_ctx s')) = true →
  ∃ h' l', BindingsAsFiles s' = (Ret tt, put_apps h' l' s0') ∧
    Forall2 (λ a a', ∃ j, holds h' a' j ∧ normalize j = a_persistedResource a) (i_applications (st_ctx s')) l'.
Proof.
  intros Hp Hf Hfiles. destruct (first_projection _ _ _ _ _ _ Hp Hf) as (js1 & Et & Hre & Hfresh & Hne).
  destruct Hp as (_ & _ & _ & Hl & _). destruct Hf as (Eb & Hname & _).
  destruct (tapps_again _ (tapp pods_missing (tfiles_pod (BindingName (i_binding (st_ctx s))) secretName)) loaded
    (λ _ a' j2, normalize j2 = a_persistedResource a') _ _ _ ltac:(intros; by eapply rebind_app) Hl Et Hre)
    as (js2 & Et2 & HR).
  destruct (BindingsAsFiles_trees s' s0' ∅ ∅ (a_persistedResource <$> i_applications (st_ctx s')) secretName)
    as (F' & h' & l' & X' & Hsame & E & Hholds & _); [done|done|by intros ? ?%elem_of_empty| |done|].
  { by apply fresh_apps_repr. }
  unfold files_trees in E, Hholds. rewrite Eb, Et2 in E. rewrite Eb, Et2 in Hholds.
  exists h', l'. split; [exact E|]. simpl in Hholds.
  clear -HR Hholds. revert l' Hholds. induction HR; intros l' Hh; inversion Hh; subst; constructor; eauto.
Qed.

(** C6: unbinding gives the workloads back: for a binding that is projected as
    files, has no variables and no secret path, into workloads in which nothing
    has its name or refers to its secret yet, [Unbind] leaves the volumes and
    the mounts as they were before the binding was projected (a list that was
    missing may be empty then), and everything else, except that the containers
    keep the variable [SERVICE_BINDING_ROOT] that binding may have added. *)
Theorem unbinding_restores (s s0 s1 s' s0' : st W B) (secretName : string) :
  projects_files s s0 s1 secretName → follows s s1 s' s0' secretName →
  UnbindRequested (st_ctx s') = true → secretName ≠ "" → EnvBindings (i_binding (st_ctx s')) = [] →
  Forall (λ a, SecretPath a = "" ∧
    free_of (BindingName (i_binding (st_ctx s))) secretName a (a_persistedResource a)) (i_applications (st_ctx s)) →
  ∃ h' l', Unbind s' = unbound (Ret (Ok tt)) (put_apps h' l' s0') ∧
    Forall2 (λ a a', ∃ j, holds h' a' j ∧ released a (a_persistedResource a) (normalize j))
      (i_applications (st_ctx s)) l'.
Proof.
  intros Hp Hf Hun Hsec Henv Hfree. destruct (first_projection _ _ _ _ _ _ Hp Hf) as (js1 & Et & Hre & Hfresh & Hne).
  destruct Hp as (_ & _ & _ & Hl & _). destruct Hf as (Eb & Hname & _).
  set (name := BindingName (i_binding (st_ctx s))) in *.
  destruct (tapps_again _ (tapp pods_nil (tclean_pod name secretName []))
    (λ a, loaded a ∧ SecretPath a = "" ∧ free_of name secretName a (a_persistedResource a))
    (λ a _ j2, released a (a_persistedResource a) (normalize j2)) _ _ _
    ltac:(intros ? ? ? (? & ? & ?) ? ?; by eapply unbind_app_spec)
    (proj2 (Forall_and _ _) (conj Hl Hfree)) Et Hre) as (js2 & Et2 & HR).
  destruct (Unbind_trees s' s0' ∅ ∅ (a_persistedResource <$> i_applications (st_ctx s')) secretName)
    as (F' & h' & l' & X' & Hsame & E & Hholds & _); [done|done|by intros ? ?%elem_of_empty| |done|done|].
  { by apply fresh_apps_repr. }
  unfold clean_trees in E, Hholds. rewrite Eb, Henv in E. rewrite Eb, Henv in Hholds.
  fold name in E, Hholds. csimpl in E. csimpl in Hholds. rewrite Et2 in E. rewrite Et2 in Hholds.
  exists h', l'. split; [exact E|]. simpl in Hholds.
  clear -HR Hholds. revert l' Hholds. induction HR; intros l' Hh; inversion Hh; subst; constructor; eauto.
Qed.
End Twice.

(** ** At work *)

#[export] Instance any_object_accepts : ConverterAccepts.
Proof. done. Qed.
#[export] Instance any_object_on_wire : ConverterOnWire.
Proof. done. Qed.

(** The mapping of a workload type without a mapping of its own. *)
Definition default_mapping : WorkloadMapping :=
  Eval vm_compute in
    match FromWorkloadResourceMappingTemplate DefaultTemplate with
    | Ok m => m
    | Err _ => {| wm_containers := []; wm_volume := [] |}
    end.
Definition default_lists : list (list string) :=
  [["spec"; "template"; "spec"; "containers"]; ["spec"; "template"; "spec"; "initContainers"]].

#[export] Instance incomparable_dec p q : Decision (incomparable p q).
Proof. unfold incomparable. apply _. Defined.
#[export] Instance separate_paths_dec c : Decision (separate_paths c).
Proof. unfold separate_paths. apply _. Defined.
#[export] Instance well_laid_dec m fss : Decision (well_laid m fss).
Proof. unfold well_laid. apply _. Defined.

Lemma default_well_laid :
  FromWorkloadResourceMappingTemplate DefaultTemplate = Ok default_mapping ∧
  well_laid default_mapping default_lists.
Proof. split; [by vm_compute|]. apply (bool_decide_unpack _). by vm_compute. Qed.

Definition web (j : json) : application :=
  {| a_gvr := deploymentGVR; a_persistedResource := j; a_resource := None; a_bindingPath := None;
     a_bindableContainerNames := []; a_resourceMapping := default_mapping |}.

Lemma web_loaded m : deep_copyable (JObj m) = true → loaded (web (JObj m)).
Proof. intros Hm. split; [done|]. exists default_lists. apply default_well_laid. Qed.

Definition sb_state (j : json) (b : v1beta1.ServiceBinding) :
    st (cluster v1beta1.ServiceBinding) v1beta1.ServiceBinding :=
  {| st_world := demo_cluster demo_workload []; st_heap := [];
     st_ctx := set_applications [web j] (new_impl b) |}.
Definition web_secret : string := hashed_name "binding" [].

(** The first reconciliation, and the workload it leaves. *)
Definition first_state := sb_state demo_workload (demo_binding (demo_meta [] [] None) [] None).
Definition first_end := Eval vm_compute in (BindingsAsFiles first_state).2.
Definition first_app : application := Eval vm_compute in
  match i_applications (st_ctx first_end) with a :: _ => a | [] => web demo_workload end.
Definition first_tree : json := Eval vm_compute in
  match a_resource first_app with
  | Some r => default JNil (resource_json (st_heap first_end) r)
  | None => JNil
  end.
Definition second_state := sb_state (normalize first_tree) (demo_binding (demo_meta [] [] None) [] None).
Definition unbind_state :=
  sb_state (normalize first_tree) (demo_binding (demo_meta [] [finalizerName] (Some 50%Z)) [] (Some web_secret)).
Definition env_state := sb_state demo_workload (demo_binding (demo_meta [] [] None)
  [{| v1beta1.em_name := "PW"; v1beta1.em_key := "password" |}] None).

Lemma demo_fresh j b :
  fresh_app (web j) = true →
  apps_repr ∅ (st_heap (sb_state j b)) (i_applications (st_ctx (sb_state j b))) [j] ∅.
Proof. intros Hj. apply (fresh_apps_repr ∅ [] [web j]). cbn [forallb]. by rewrite Hj. Qed.

Lemma below_nothing n : below n ∅.
Proof. by intros a ?%elem_of_empty. Qed.

Definition files_tree :=
  files_trees (W := cluster v1beta1.ServiceBinding) (i_binding (st_ctx first_state)) web_secret
    [web demo_workload] [demo_workload].

Lemma BindingsAsFiles_refines_witness :
  leaves_trees first_state first_state ∅ ∅ BindingsAsFiles files_tree conclude ∧
  files_tree = (Ret (Ok tt), [first_tree]).
Proof.
  split; [|by vm_compute].
  apply (BindingsAsFiles_refines first_state first_state ∅ ∅ [demo_workload] web_secret);
    [by vm_compute|done|done|apply below_nothing|by apply demo_fresh].
Defined.

Definition env_tree := env_trees (W := cluster v1beta1.ServiceBinding) (i_binding (st_ctx env_state)) web_secret [web demo_workload] [demo_workload].

Lemma BindingsAsEnv_refines_witness :
  leaves_trees env_state env_state ∅ ∅ BindingsAsEnv env_tree conclude ∧ env_tree.1 = Ret (Ok tt).
Proof.
  split; [|by vm_compute].
  apply (BindingsAsEnv_refines env_state env_state ∅ ∅ [demo_workload] web_secret);
    [by vm_compute|done|by right|apply below_nothing|by apply demo_fresh].
Defined.

Definition unbind_tree :=
  clean_trees (W := cluster v1beta1.ServiceBinding) (i_binding (st_ctx unbind_state)) web_secret [web (normalize first_tree)] [normalize first_tree].

Lemma Unbind_refines_witness :
  leaves_trees unbind_state unbind_state ∅ ∅ Unbind unbind_tree unbound ∧ unbind_tree.1 = Ret (Ok tt).
Proof.
  split; [|by vm_compute].
  apply (Unbind_refines unbind_state unbind_state ∅ ∅ [normalize first_tree] web_secret);
    [by vm_compute|done|done|by vm_compute|apply below_nothing|by apply demo_fresh].
Defined.

Lemma demo_projects : projects_files first_state first_state first_end web_secret.
Proof.
  split_and!; [done|by vm_compute|done| |by vm_compute|by vm_compute].
  constructor; [|constructor]. by apply web_loaded.
Qed.

Lemma demo_follows b :
  BindingName (W := cluster v1beta1.ServiceBinding) b = "db" → BindingSecretName (sb_state (normalize first_tree) b) =
    (Ret web_secret, sb_state (normalize first_tree) b) →
  follows first_state first_end (sb_state (normalize first_tree) b) (sb_state (normalize first_tree) b) web_secret.
Proof.
  intros Hname Hsecret. split_and!; [done|done|].
  change (i_applications (st_ctx first_end)) with [first_app].
  constructor; [|constructor]. exists first_tree. split; [by vm_compute|done].
Qed.

Lemma rebinding_is_stable_witness :
  ∃ h' l', BindingsAsFiles second_state = (Ret tt, put_apps h' l' second_state) ∧
    Forall2 (λ a a', ∃ j, holds h' a' j ∧ normalize j = a_persistedResource a) (i_applications (st_ctx second_state)) l'.
Proof.
  apply (rebinding_is_stable first_state first_state first_end second_state second_state web_secret);
    [apply demo_projects|apply demo_follows; [done|by vm_compute]|done].
Defined.

Lemma unbinding_restores_witness :
  ∃ h' l', Unbind unbind_state = unbound (Ret (Ok tt)) (put_apps h' l' unbind_state) ∧
    Forall2 (λ a a', ∃ j, holds h' a' j ∧ released a (a_persistedResource a) (normalize j))
      (i_applications (st_ctx first_state)) l'.
Proof.
  apply (unbinding_restores first_state first_state first_end unbind_state unbind_state web_secret);
    [apply demo_projects|apply demo_follows; [done|by vm_compute]|done|by vm_compute|done|].
  constructor; [|constructor]. split; [done|]. intros fss cs Hlay Hb.
  assert (fss = default_lists) as -> by (vm_compute in Hlay; by injection Hlay as <-).
  assert (∃ pc, cs = [pc] ∧ pc = ([K "spec"; K "template"; K "spec"; K "containers"; I 0],
            default (snd pc) (wm_containers default_mapping !! 0))) as (pc & -> & ->)
    by (vm_compute in Hb; injection Hb as <-; by eexists).
  split; [exists []; by vm_compute|]. constructor; [|constructor]. intros x Hx. vm_compute in Hx. injection Hx as <-.
  split; exists []; by vm_compute.
Defined.
