(* ===== verification/ProjectionPair.v ===== *)
(** * Two bindings on one workload

    What a reconciliation for one binding does to the workloads keeps every
    other binding in them: a binding that was projected as files, so that
    projecting it again changed nothing, is still projected after another one
    was bound or unbound. *)

From S2P Require Import Prelude.
From S2P Require Import GoLib.
From S2P Require Import GoValue.
From S2P Require Import JsonPath.
From S2P Require Import Heap.
From S2P Require Import Converter.
From S2P Require Import Kube.
From S2P Require Import Apis.
From S2P Require Import Binding.
From S2P Require Import Service.
From S2P Require Import Workload.
From S2P Require Import Application.
From S2P Require Import Context.
From S2P Require Import Kinds.
From S2P Require Import Project.
From S2P Require Import Cluster.
From S2P Require Import ContextSpec.
From S2P Require Import Tree.
From S2P Require Import TreeEdit.
From S2P Require Import TreeOps.
From S2P Require Import TreePods.
From S2P Require Import TreeApps.
From S2P Require Import Projection.
From S2P Require Import TreeLaws.
From S2P Require Import TreeBind.
From S2P Require Import TreeShape.
From S2P Require Import TreeWire.
From S2P Require Import TreeNil.
From S2P Require Import TreePair.
From S2P Require Import ProjectionSpec.

(** ** One application of each binding *)

(** The same workload, seen by two bindings. *)
Definition same_workload (a1 a : application) : Prop :=
  a_persistedResource a = a_persistedResource a1 ∧ a_resourceMapping a = a_resourceMapping a1.

Section Applications.
Context `{ConverterAccepts, !ConverterOnWire}.
Context (n secretName : string).
Abbreviation tbind := (tapp pods_missing (tfiles_pod n secretName)).

(** Projecting the binding changes nothing in the cluster. *)
Definition unmoved (a : application) : Prop :=
  ∃ j, tbind a (a_persistedResource a) = (Ret (Ok tt), j) ∧ normalize j = a_persistedResource a.

(** An edit that keeps the binding in every pod. *)
Definition sparing (f : list string → list (pos * WorkloadContainer) → M json (result unit)) : Prop :=
  ∀ m fss names1 names, well_laid m fss → pod_spared m fss n secretName names1 names f.

Lemma app_spared miss f a1 j1 a a' :
  sparing f → (∀ e, miss a1 e ≠ Ret (Ok tt)) → loaded a1 →
  tapp miss f a1 (a_persistedResource a1) = (Ret (Ok tt), j1) →
  same_workload a1 a → SecretPath a = "" → reread a j1 a' → unmoved a → fresh_app a' = true ∧ unmoved a'.
Proof.
  intros Hf Hmiss [Hfresh [fss Hwell]] Hrun [Ep Em] Hpath (Er & Ep' & Eb' & En' & Em') (j & Hj & Hw).
  destruct (fresh_app_spec _ Hfresh) as (_ & Hobj & Hcopy).
  pose proof Hwell as [Hlay _]. unfold unmoved, fresh_app, tapp in *. rewrite Er, Em', Em, En', Ep', Ep, Hlay in *.
  destruct (tBindablePods (a_bindableContainerNames a1) _ _ _) as [cs1|e1] eqn:Hb1;
    [|by destruct (Hmiss e1); simplify_eq].
  destruct (tBindablePods (a_bindableContainerNames a) _ _ _) as [cs|e] eqn:Hb;
    [|unfold pods_missing in Hj; by rewrite Hpath in Hj].
  destruct (Hf _ _ _ _ Hwell _ _ _ _ _ Hobj Hb1 Hb Hrun) as (Hobj1 & Hb' & Hset).
  assert (is_obj (normalize j1)) as Hobj'.
  { destruct Hobj1 as [mj ->]. by eexists. }
  assert (settled_pod n secretName (wm_volume (a_resourceMapping a1)) cs (normalize j1)) as Hs.
  { apply settled_pod_normalize, Hset. eapply unmoved_settled; [done|done|by apply copyable_plain|exact Hb|exact Hj|].
    rewrite <- normalize_plain; [done|].
    by eapply keeps_run; [apply tfiles_pod_nil_free|apply copyable_nil_free|exact Hj]. }
  rewrite (tBindablePods_normalize _ _ _ _ _ Hb'). split.
  - destruct Hobj1 as [mj ->]. exact (normalize_copyable (JObj mj)).
  - destruct (settled_unmoved _ _ Hwell n secretName (a_bindableContainerNames a) cs (normalize j1))
      as (j2 & Hrun2 & Hw2); [done|by apply tBindablePods_normalize|done|].
    exists j2. split; [done|]. rewrite <- (deep_copyable_normal (normalize j1)) by apply normalize_copyable.
    apply on_wire_written; [|apply normalize_nil_free|done].
    eapply keeps_run; [apply tfiles_pod_nil_free|apply normalize_nil_free|exact Hrun2].
Qed.

Lemma apps_spared miss f l1 js1 l l' :
  sparing f → Forall (λ a1, loaded a1 ∧ ∀ e, miss a1 e ≠ Ret (Ok tt)) l1 →
  tapps (tapp miss f) l1 (a_persistedResource <$> l1) = (Ret (Ok tt), js1) →
  Forall2 same_workload l1 l → Forall (λ a, SecretPath a = "" ∧ unmoved a) l → Forall3 reread l js1 l' →
  Forall (λ a, fresh_app a = true ∧ unmoved a) l'.
Proof.
  intros Hf Hl1 Hrun Hsame Hl Hre. revert js1 l' Hrun Hre Hl1 Hl.
  induction Hsame as [|a1 a l1 l Ha _ IH]; intros js1 l' Hrun Hre Hl1 Hl.
  { inversion Hre; subst; constructor. }
  inversion Hre as [|? j1 a' ? js2 l2 Hre1 Hre2]; subst. csimpl in Hrun.
  apply Forall_cons in Hl1 as [[Hl1 Hm1] Hl1s]. apply Forall_cons in Hl as [[Hp Hu] Hls].
  destruct (tapp miss f a1 _) as [[[[]|]|] j] eqn:E; simplify_eq.
  destruct (tapps _ l1 _) as [o js] eqn:Es. simplify_eq.
  constructor; [by eapply app_spared|by eapply IH].
Qed.

(** A pass that changes nothing. *)
Lemma tapps_unmoved l :
  Forall unmoved l → ∃ js, tapps tbind l (a_persistedResource <$> l) = (Ret (Ok tt), js) ∧
    Forall2 (λ a j, normalize j = a_persistedResource a) l js.
Proof.
  induction 1 as [|a l (j & Hj & Hw) _ (js & Hjs & Hws)]; [by exists []|].
  exists (j :: js). csimpl. rewrite Hj, Hjs. split; [done|]. by constructor.
Qed.

Lemma unmoved_tapps l js :
  tapps tbind l (a_persistedResource <$> l) = (Ret (Ok tt), js) →
  Forall2 (λ a j, normalize j = a_persistedResource a) l js → Forall unmoved l.
Proof.
  revert js. induction l as [|a l IH]; intros js Hrun Hw; [constructor|]. csimpl in Hrun.
  destruct (tbind a _) as [[[[]|]|] j] eqn:E; simplify_eq.
  destruct (tapps _ l _) as [o js'] eqn:Es. simplify_eq. inversion Hw; subst.
  constructor; [by eexists|by eapply IH].
Qed.
End Applications.

(** ** The handler that runs for one binding *)
Section Edit.
Context {W B : Type} `{KubeAPI W} `{BindingAPI W B} `{Clock W} `{ServiceBindingKind B}.
Context `{UserInfoJSON} `{JSONPathLib} `{BucketRateLimiter} `{MappingDecoder}.
Context `{ConverterAccepts} `{LoadedApplications W B}.

(** One of the handlers that change workloads has work to do, and does it on
    workloads that were just read; none of them has a secret path. *)
Definition edits (s s0 s1 : st W B) (secretName : string) (handler : M (st W B) unit) : Prop :=
  let b := i_binding (st_ctx s) in
  BindingSecretName s = (Ret secretName, s0) ∧
  i_applications (st_ctx s) ≠ [] ∧
  Forall (λ a, loaded a ∧ SecretPath a = "") (i_applications (st_ctx s)) ∧
  (handler = BindingsAsFiles ∧ BindAsFiles b = true ∨
   handler = BindingsAsEnv ∧ (BindAsFiles b = false ∨ EnvBindings b ≠ []) ∨
   handler = Unbind ∧ UnbindRequested (st_ctx s) = true ∧ secretName ≠ "") ∧
  handler s = (Ret tt, s1) ∧ f_err (i_flow (st_ctx s1)) = None.

(** The binding does not set [SERVICE_BINDING_ROOT] itself. *)
Definition leaves_root (b : B) : Prop :=
  (bindingRootEnvVar ∉ eb_Var <$> EnvBindings b) ∧ (bindingRootEnvVar ∉ eb_Name <$> EnvBindings b).

Lemma conclude_no_error o (s s1 : st W B) :
  conclude o s = (Ret tt, s1) → f_err (i_flow (st_ctx s1)) = None → o = Ret (Ok tt) ∧ s1 = s.
Proof.
  destruct o as [[[]|e]|e]; simpl; [| |done].
  - intros E. by injection E as <-.
  - unfold stop, StopProcessing, Error, SetCondition, ctx_modify. m_unfold. intros E.
    injection E as <-. simpl. discriminate.
Qed.

Lemma unbound_no_error o (s s1 : st W B) :
  unbound o s = (Ret tt, s1) → f_err (i_flow (st_ctx s1)) = None →
  o = Ret (Ok tt) ∧ st_heap s1 = st_heap s ∧ i_applications (st_ctx s1) = i_applications (st_ctx s).
Proof.
  destruct o as [[[]|e]|e]; simpl; [| |done].
  - unfold CleanAnnotations, RetryProcessing, StopProcessing, ctx_modify, ctx_gets. m_unfold. unfold id.
    destruct (aget _ _); intros [= <-]; done.
  - unfold stop, StopProcessing, Error, SetCondition, ctx_modify. m_unfold. intros E.
    injection E as <-. simpl. discriminate.
Qed.

(** It is a pass over the trees that keeps every other binding. *)
Lemma edits_trees s s0 s1 secretName handler :
  edits s s0 s1 secretName handler → leaves_root (i_binding (st_ctx s)) →
  ∃ miss f js, tapps (tapp miss f) (i_applications (st_ctx s))
      (a_persistedResource <$> i_applications (st_ctx s)) = (Ret (Ok tt), js) ∧
    Forall2 (holds (st_heap s1)) (i_applications (st_ctx s1)) js ∧
    Forall (λ a, loaded a ∧ ∀ e, miss a e ≠ Ret (Ok tt)) (i_applications (st_ctx s)) ∧
    ∀ n secret, BindingName (i_binding (st_ctx s)) ≠ n → sparing n secret f.
Proof.
  intros (Hname & Hne & Hl & Hh & Hrun & Herr) [Hvar Hnames].
  set (apps := i_applications (st_ctx s)) in *. set (js := a_persistedResource <$> apps).
  assert (apps_repr ∅ (st_heap s) apps js ∅) as Hr.
  { apply fresh_apps_repr, loaded_fresh. eapply Forall_impl; [exact Hl|]. by intros a [? _]. }
  assert (below (length (st_heap s)) ∅) as Hbelow by by intros ? ?%elem_of_empty.
  assert (Forall (λ a, loaded a ∧ ∀ e, pods_missing a e ≠ Ret (Ok tt)) apps) as Hmissing.
  { eapply Forall_impl; [exact Hl|]. intros a [? Hp]. split; [done|]. intros e. unfold pods_missing. by rewrite Hp. }
  destruct Hh as [[-> Hfiles]|[[-> Henv]|(-> & Hun & Hsec)]].
  - destruct (BindingsAsFiles_trees s s0 ∅ ∅ js secretName Hname Hne Hbelow Hr Hfiles)
      as (F' & h' & l' & X' & _ & E & Hholds & _).
    rewrite E in Hrun. apply conclude_no_error in Hrun as [Eo ->]; [|done].
    eexists pods_missing, _, _. split_and!; [by rewrite <- Eo; apply surjective_pairing|exact Hholds|done|].
    intros n secret Hn m fss names1 names Hwell. by apply files_pod_spared.
  - destruct (BindingsAsEnv_trees s s0 ∅ ∅ js secretName Hname Hne Hbelow Hr Henv)
      as (F' & h' & l' & X' & _ & E & Hholds & _).
    rewrite E in Hrun. apply conclude_no_error in Hrun as [Eo ->]; [|done].
    eexists pods_missing, _, _. split_and!; [by rewrite <- Eo; apply surjective_pairing|exact Hholds|done|].
    intros n secret Hn m fss names1 names Hwell. apply env_pod_spared; [done|].
    unfold env_vars. change (@map) with (λ A B f l, @fmap list _ A B f l). by rewrite <- list_fmap_compose.
  - destruct (Unbind_trees s s0 ∅ ∅ js secretName Hname Hne Hbelow Hr Hun Hsec)
      as (F' & h' & l' & X' & _ & E & Hholds & _).
    rewrite E in Hrun. apply unbound_no_error in Hrun as (Eo & Eh & Ea); [|done].
    eexists pods_nil, _, _. rewrite Eh, Ea. split_and!; [by rewrite <- Eo; apply surjective_pairing|exact Hholds| |].
    + eapply Forall_impl; [exact Hl|]. by intros a [? _].
    + intros n secret Hn m fss names1 names Hwell. by apply clean_pod_spared.
Qed.
End Edit.

(** ** The other binding *)
Section Pair.
Context {W B1 B2 : Type} `{KubeAPI W} `{Clock W} `{BindingAPI W B1} `{BindingAPI W B2}.
Context `{ServiceBindingKind B1} `{ServiceBindingKind B2}.
Context `{UserInfoJSON} `{JSONPathLib} `{BucketRateLimiter} `{MappingDecoder}.
Context `{ConverterAccepts} `{!ConverterOnWire} `{LoadedApplications W B1} `{LoadedApplications W B2}.

(** The reconciliation [t] of the other binding found it projected: it wrote
    what was there. *)
Definition finds_projected (t t0 t1 : st W B2) (secretName : string) : Prop :=
  projects_files t t0 t1 secretName ∧ Forall (λ a, SecretPath a = "") (i_applications (st_ctx t)) ∧
  Forall2 (λ a a1, ∃ j, holds (st_heap t1) a1 j ∧ normalize j = a_persistedResource a)
    (i_applications (st_ctx t)) (i_applications (st_ctx t1)).

(** The reconciliation [t'] of the other binding reads what [s1] left. *)
Definition reads_after (t : st W B2) (s1 : st W B1) (t' t0' : st W B2) (secretName : string) : Prop :=
  BindingName (i_binding (st_ctx t')) = BindingName (i_binding (st_ctx t)) ∧
  BindAsFiles (i_binding (st_ctx t')) = true ∧ BindingSecretName t' = (Ret secretName, t0') ∧
  Forall3 (reread_from (st_heap s1)) (i_applications (st_ctx t)) (i_applications (st_ctx s1))
    (i_applications (st_ctx t')).

Lemma finds_projected_unmoved t t0 t1 secretName :
  finds_projected t t0 t1 secretName →
  Forall (λ a, SecretPath a = "" ∧ unmoved (BindingName (i_binding (st_ctx t))) secretName a)
    (i_applications (st_ctx t)).
Proof.
  intros ((Hfiles & Hname & Hne & Hl & Hrun & Hgo) & Hpath & Hsame). apply Forall_and. split; [done|].
  destruct (BindingsAsFiles_trees t t0 ∅ ∅ (a_persistedResource <$> i_applications (st_ctx t)) secretName)
    as (F' & h' & l' & X' & _ & E & Hholds & _); [done|done|by intros ? ?%elem_of_empty| |done|].
  { by apply fresh_apps_repr, loaded_fresh. }
  rewrite E in Hrun. destruct (files_trees _ _ _ _) as [o js] eqn:Et. simpl in *.
  apply conclude_inv in Hrun as [-> ->]; [|done]. eapply unmoved_tapps; [exact Et|]. simpl in Hsame.
  clear -Hsame Hholds. revert js Hholds. induction Hsame as [|a a1 l l1 (j & Hj & Hw) _ IH]; intros js Hh;
    inversion Hh as [|? y ? ys Hy Hys]; subst; constructor; [|by apply IH].
  by rewrite (holds_functional _ _ _ _ Hy Hj).
Qed.

End Pair.

(** ** At work: unbinding a queue from a workload that is bound to a database *)
Section Witness.
Definition queue_binding (meta : ObjectMeta) (secret : option string) : v1beta1.ServiceBinding :=
  {| v1beta1.sb_kind := "ServiceBinding"; v1beta1.sb_apiVersion := "servicebinding.io/v1beta1";
     v1beta1.sb_objectMeta := meta;
     v1beta1.sb_spec :=
       {| v1beta1.sp_name := "queue"; v1beta1.sp_type := ""; v1beta1.sp_provider := "";
          v1beta1.sp_workload := v1beta1.sp_workload (demo_spec []);
          v1beta1.sp_service := v1beta1.sp_service (demo_spec []);
          v1beta1.sp_env := v1beta1.sp_env (demo_spec []) |};
     v1beta1.sb_status := {| v1beta1.ss_observedGeneration := 0; v1beta1.ss_conditions := [];
                             v1beta1.ss_binding := secret |} |}.

Definition tree_after (s : st (cluster v1beta1.ServiceBinding) v1beta1.ServiceBinding) : json :=
  match i_applications (st_ctx s) with
  | a :: _ => match a_resource a with Some r => default JNil (resource_json (st_heap s) r) | None => JNil end
  | [] => JNil
  end.

(** The workload with both bindings in it. *)
Definition both_tree : json := Eval vm_compute in
  normalize (tree_after (BindingsAsFiles (sb_state (normalize first_tree) (queue_binding (demo_meta [] [] None) None))).2).
Definition db_state := sb_state both_tree (demo_binding (demo_meta [] [] None) [] None).
Definition db_end := Eval vm_compute in (BindingsAsFiles db_state).2.
Definition queue_unbind :=
  sb_state both_tree (queue_binding (demo_meta [] [finalizerName] (Some 50%Z)) (Some web_secret)).
Definition queue_end := Eval vm_compute in (Unbind queue_unbind).2.
Definition after_tree : json := Eval vm_compute in tree_after queue_end.
Definition db_again := sb_state (normalize after_tree) (demo_binding (demo_meta [] [] None) [] None).

End Witness.
