(* ===== verification/ProjectionEnv.v ===== *)
(** * Projecting a binding as variables again

    [BindingsAsEnv] on workloads that were read back from the cluster after it
    ran: it leaves what is there, unless a variable of the binding, or its
    secret, was in a container more than once, or a container has no variable
    at all: its environment is null then. *)

From S2P Require Import Prelude.
From S2P Require Import GoLib.
From S2P Require Import GoValue.
From S2P Require Import JsonPath.
From S2P Require Import Heap.
From S2P Require Import Converter.
From S2P Require Import Kube.
From S2P Require Import Apis.
From S2P Require Import Binding.
From S2P Require Import Service.
From S2P Require Import Workload.
From S2P Require Import Application.
From S2P Require Import Context.
From S2P Require Import Kinds.
From S2P Require Import Project.
From S2P Require Import Cluster.
From S2P Require Import ContextSpec.
From S2P Require Import Tree.
From S2P Require Import TreeEdit.
From S2P Require Import TreeOps.
From S2P Require Import TreePods.
From S2P Require Import TreeApps.
From S2P Require Import Projection.
From S2P Require Import TreeLaws.
From S2P Require Import TreeBind.
From S2P Require Import TreeShape.
From S2P Require Import TreeWire.
From S2P Require Import TreeNil.
From S2P Require Import TreePair.
From S2P Require Import TreeEnv.
From S2P Require Import ProjectionSpec.
From S2P Require Import ProjectionPair.

Section Applications.
Context `{ConverterAccepts, !ConverterOnWire}.
Context (asFiles : bool) (secretName : string) (vars : list EnvVar).
Hypothesis Hsecret : secretName ≠ "".

(** No container of the workload has a variable of the binding, or its secret,
    twice, and every container has a variable in the end. *)
Definition clear_names (a : application) : Prop :=
  ∀ fss cs, layout (a_resourceMapping a) = Some fss →
    tBindablePods (a_bindableContainerNames a) (wm_containers (a_resourceMapping a)) fss (a_persistedResource a) = Ok cs →
    Forall (λ pc, ∀ x, jget pc.1 (a_persistedResource a) = Some x → no_doubles secretName vars pc.2 x) cs.

Lemma env_app a j1 a' :
  loaded a ∧ clear_names a →
  tapp pods_missing (tenv_pod asFiles secretName vars) a (a_persistedResource a) = (Ret (Ok tt), j1) →
  reread a j1 a' →
  ∃ j2, tapp pods_missing (tenv_pod asFiles secretName vars) a' (a_persistedResource a') = (Ret (Ok tt), j2) ∧
    fresh_app a' = true ∧ normalize j2 = a_persistedResource a'.
Proof.
  intros [[Hfresh [fss Hwell]] Hclear] Hrun (Er & Ep & Eb & En & Em).
  destruct (fresh_app_spec _ Hfresh) as (_ & Hobj & Hcopy). pose proof Hwell as [Hlay _].
  unfold tapp, fresh_app in *. rewrite Er, Em, En, Ep, Hlay in *.
  destruct (tBindablePods _ _ fss (a_persistedResource a)) as [cs|e] eqn:Hb.
  - destruct (tenv_pod_read_back _ _ _ _ _ _ Hwell Hsecret cs _ _ _ Hobj (copyable_nil_free _ Hcopy) Hb (Hclear fss cs Hlay Hb) Hrun)
      as ([mj ->] & -> & j2 & Hj2 & Hw).
    exists j2. split_and!; [done|exact (normalize_copyable (JObj mj))|done].
  - unfold pods_missing, SecretPath in *. simplify_eq. rewrite (deep_copyable_normal _ Hcopy), Hb, Eb.
    destruct (negb _); [|done]. eexists. split_and!; [done| |by apply deep_copyable_normal].
    destruct Hobj as [mj Emj]. rewrite Emj in *. done.
Qed.
End Applications.

(** ** Two reconciliations *)
Section Twice.
Context {W B : Type} `{KubeAPI W} `{BindingAPI W B} `{Clock W} `{ServiceBindingKind B}.
Context `{UserInfoJSON} `{JSONPathLib} `{BucketRateLimiter} `{MappingDecoder}.
Context `{ConverterAccepts} `{!ConverterOnWire} `{LoadedApplications W B}.

(** Both reconciliations project the same variables, and the same secret. *)
Definition same_projection (b b' : B) : Prop :=
  EnvBindings b' = EnvBindings b ∧ BindAsFiles b' = BindAsFiles b.

(** C8: projecting variables again is stable: when the workloads read in the
    second reconciliation are exactly what the first one wrote, no container had
    a variable of the binding, or its secret, twice, and every container had a
    variable or gets one of the binding, [BindingsAsEnv] succeeds and the objects
    it leaves to be written are those that are in the cluster already. *)
Theorem rebinding_env_is_stable (s s0 s1 s' s0' : st W B) (secretName : string) :
  edits s s0 s1 secretName BindingsAsEnv → follows s s1 s' s0' secretName →
  same_projection (i_binding (st_ctx s)) (i_binding (st_ctx s')) →
  BindAsFiles (i_binding (st_ctx s)) = false ∨ EnvBindings (i_binding (st_ctx s)) ≠ [] → secretName ≠ "" →
  Forall (clear_names secretName (env_vars secretName (EnvBindings (i_binding (st_ctx s))))) (i_applications (st_ctx s)) →
  ∃ h' l', BindingsAsEnv s' = (Ret tt, put_apps h' l' s0') ∧
    Forall2 (λ a a', ∃ j, holds h' a' j ∧ normalize j = a_persistedResource a) (i_applications (st_ctx s')) l'.
Proof.
  intros (Hname & Hne & Hl & _ & Hrun & Herr) (_ & Hname' & Hre) [Ee Ef] Henv Hsec Hclear.
  set (apps := i_applications (st_ctx s)) in *.
  assert (Forall loaded apps) as Hloaded by (eapply Forall_impl; [exact Hl|]; by intros a [? _]).
  destruct (BindingsAsEnv_trees s s0 ∅ ∅ (a_persistedResource <$> apps) secretName)
    as (F' & h' & l' & X' & _ & E & Hholds & _); [done|done|by intros ? ?%elem_of_empty| |done|].
  { by apply fresh_apps_repr, loaded_fresh. }
  rewrite E in Hrun. fold apps in Hrun, Hholds.
  destruct (env_trees _ secretName apps _) as [o js1] eqn:Et. simpl in *.
  apply conclude_no_error in Hrun as [-> ->]; [|done]. simpl in Hre.
  pose proof (reread_trees _ _ _ _ _ Hre Hholds) as Hre'.
  destruct (tapps_again _ _ (λ a, loaded a ∧ clear_names secretName (env_vars secretName (EnvBindings (i_binding (st_ctx s)))) a)
    (λ _ a' j2, fresh_app a' = true ∧ normalize j2 = a_persistedResource a') _ _ _
    (env_app (BindAsFiles (i_binding (st_ctx s))) secretName (env_vars secretName (EnvBindings (i_binding (st_ctx s)))) Hsec)
    (proj2 (Forall_and _ _) (conj Hloaded Hclear)) Et Hre')
    as (js2 & Et2 & HR).
  destruct (BindingsAsEnv_trees s' s0' ∅ ∅ (a_persistedResource <$> i_applications (st_ctx s')) secretName)
    as (F2 & h2 & l2 & X2 & _ & E2 & Hholds2 & _); [done| |by intros ? ?%elem_of_empty| |by rewrite Ee, Ef|].
  { intros E'. apply Hne, nil_length_inv. by rewrite (Forall3_length_lr _ _ _ _ Hre'), E'. }
  { apply fresh_apps_repr. clear -HR. induction HR as [|a a' j l l' js [Hf _] _ IH]; [done|]. simpl. by rewrite Hf. }
  unfold env_trees in E2, Hholds2. rewrite Ee, Ef, Et2 in E2, Hholds2. exists h2, l2. split; [exact E2|].
  simpl in Hholds2. clear -HR Hholds2. revert l2 Hholds2.
  induction HR as [|a a' j l l' js [_ Hj] _ IH]; intros k Hh; inversion Hh; subst; constructor; eauto.
Qed.
End Twice.

(** A container that has no variable and gets none: the empty list [AddEnvVars]
    builds is a nil slice, which is written as null; read back, the environment
    of the container is not a slice, so that neither variables nor files can be
    projected into it any more. *)
Lemma no_variables_null `{Converter} (path : list string) (x x' : json) r :
  is_obj x → tlist KEnvVar path x = Some [] → tAddEnvVars path [] x = (Ret (Ok r), x') →
  tResources KEnvVar path (normalize x') = NErr (ENew "not a slice") ∧
  (∀ vars, tappend KEnvVar path vars (normalize x') = (Ret (Err (ENew "not a slice")), normalize x')) ∧
  (∀ name, (tMountPath path name (normalize x')).1 = Ret (Err (ENew "not a slice"))).
Proof.
  intros Hobj Hl Ha.
  assert (tsetSlice SliceMapNil [] path x = (Ret (Ok r), x')) as Hs.
  { unfold tlist in Hl. change (tappend KEnvVar path [] x = (Ret (Ok r), x')) in Ha. unfold tappend, tupdate in Ha.
    destruct (tResources KEnvVar path x) as [l| |]; [by injection Hl as ->|done|done]. }
  assert (tResources KEnvVar path (normalize x') = NErr (ENew "not a slice")) as Hr.
  { destruct Hobj as [m ->]. unfold tsetSlice in Hs. destruct path as [|k0 path]; [done|].
    destruct (write_error _ _) eqn:Ew; [done|]. apply (f_equal snd) in Hs. cbn [snd] in Hs. rewrite <- Hs.
    apply write_error_writable in Ew; [|done]. unfold tResources.
    by rewrite (nested_normalize _ _ (JArr SliceMapNil [])) by (apply nested_jget; by apply jget_jwrite). }
  split_and!; [done|..].
  - intros vars. unfold tappend, tupdate. by rewrite Hr.
  - intros name. unfold tMountPath. m_unfold. by rewrite Hr.
Qed.

(** ** At work *)
Section Witness.
Definition env_binding := demo_binding (demo_meta [] [] None)
  [{| v1beta1.em_name := "PW"; v1beta1.em_key := "password" |}] None.
Definition env_end := Eval vm_compute in (BindingsAsEnv env_state).2.
Definition env_after : json := Eval vm_compute in tree_after env_end.
Definition env_again := sb_state (normalize env_after) env_binding.

Lemma rebinding_env_is_stable_witness :
  normalize env_after ≠ demo_workload ∧
  ∃ h' l', BindingsAsEnv env_again = (Ret tt, put_apps h' l' env_again) ∧
    Forall2 (λ a a', ∃ j, holds h' a' j ∧ normalize j = a_persistedResource a) (i_applications (st_ctx env_again)) l'.
Proof.
  split; [by vm_compute|].
  apply (rebinding_env_is_stable env_state env_state env_end env_again env_again web_secret);
    [| |done|by right|by vm_compute|].
  - split_and!; [by vm_compute|done| |right; left; split; [reflexivity|by right]|by vm_compute|reflexivity].
    constructor; [|constructor]. split; [by apply web_loaded|done].
  - split_and!; [done|by vm_compute|].
    constructor; [|constructor]. exists env_after. split; [by vm_compute|done].
  - constructor; [|constructor]. intros fss cs Hlay Hb.
    assert (fss = default_lists) as -> by (vm_compute in Hlay; by injection Hlay as <-).
    assert (∃ pc, cs = [pc] ∧ pc = ([K "spec"; K "template"; K "spec"; K "containers"; I 0],
              default (snd pc) (wm_containers default_mapping !! 0))) as (pc & -> & ->)
      by (vm_compute in Hb; injection Hb as <-; by eexists).
    constructor; [|constructor]. intros x Hx. vm_compute in Hx. injection Hx as <-.
    split; exists []; (split; [by vm_compute|by repeat constructor]).
Defined.

(** A variable that was there twice is still there once after the first
    projection, and the second one takes it away. *)
Definition twice_set : json := JObj [("env", JArr SliceAny [
  JObj [("name", JStr "PW"); ("value", JStr "a")]; JObj [("name", JStr "PW"); ("value", JStr "b")]])].
Definition pw : EnvVar := {| ev_name := "PW"; ev_value := ""; ev_secretKeyRef := Some ("s", "password") |}.
Definition add_pw (x : json) : json := normalize (tAddEnvVars ["env"] [pw] x).2.

Lemma doubled_variable_moves :
  add_pw (add_pw twice_set) ≠ add_pw twice_set ∧ add_pw (add_pw (add_pw twice_set)) = add_pw (add_pw twice_set).
Proof. split; by vm_compute. Qed.
End Witness.
