(* ===== verification/Locking.v ===== *)
(** * Optimistic locking of the binding ([persistBinding] of [context/impl.go])

    The API server gives an object a new resource version with every change
    and refuses an update made from an older one.  [persistBinding] writes the
    status and then the object, both from the copy that was read at the start;
    the answer to the first write, with the new version, is dropped. *)

From S2P Require Import Prelude.
From S2P Require Import GoLib.
From S2P Require Import GoValue.
From S2P Require Import JsonPath.
From S2P Require Import Heap.
From S2P Require Import Converter.
From S2P Require Import Kube.
From S2P Require Import Apis.
From S2P Require Import Service.
From S2P Require Import Context.
From S2P Require Import Kinds.
From S2P Require Import Collect.
From S2P Require Import Project.
From S2P Require Import Pipeline.
From S2P Require Import Cluster.
From S2P Require Import Invariant.
From S2P Require Import Safety.
From S2P Require Import PipelineSpec.

(** ** A server with resource versions

    [lk_version] is the version of the binding in the cluster, [lk_held] that
    of the copy that is being processed; the status is a subresource with
    writes of its own. *)
Record locked (W B : Type) := {
  lk_world : W;
  lk_status : B;
  lk_meta : ObjectMeta;
  lk_version : nat;
  lk_held : nat
}.
Arguments lk_world {W B}.
Arguments lk_status {W B}.
Arguments lk_meta {W B}.
Arguments lk_version {W B}.
Arguments lk_held {W B}.

Definition conflict : goerr := EAPI false "the object has been modified".

(** What the server compares: a write that changes nothing keeps the version. *)
Class Compares (B : Type) := {
  status_differs : B → B → bool;
  meta_differs : ObjectMeta → ObjectMeta → bool
}.

Section Server.
Context {W B : Type} `{ServiceBindingKind B} `{Compares B}.

(** A call that has nothing to do with the binding. *)
Definition beside {A} (m : M W A) : M (locked W B) A := λ l,
  let '(r, w) := m (lk_world l) in
  (r, {| lk_world := w; lk_status := lk_status l; lk_meta := lk_meta l;
         lk_version := lk_version l; lk_held := lk_held l |}).

#[export] Instance locked_api `{KubeAPI W} : KubeAPI (locked W B) := {|
  kube_get gvr ns name := beside (kube_get gvr ns name);
  kube_list gvr ns sel := beside (kube_list gvr ns sel);
  kube_create gvr ns o := beside (kube_create gvr ns o);
  kube_update gvr ns o := beside (kube_update gvr ns o);
  kube_subjectAccessReview user groups verb ns gvr name :=
    beside (kube_subjectAccessReview user groups verb ns gvr name);
  kube_resourceForKind k := beside (kube_resourceForKind k);
  kube_kindForResource r := beside (kube_kindForResource r)
|}.
#[export] Instance locked_clock `{Clock W} : Clock (locked W B) := beside time_Now.

(** A write from the copy that is held. *)
Definition versioned (change : locked W B → option (B * ObjectMeta)) : M (locked W B) (result unit) := λ l,
  if lk_held l =? lk_version l then
    match change l with
    | Some (status, meta) =>
        (Ret (Ok tt), {| lk_world := lk_world l; lk_status := status; lk_meta := meta;
                         lk_version := S (lk_version l); lk_held := lk_held l |})
    | None => (Ret (Ok tt), l)
    end
  else (Ret (Err conflict), l).

Definition stored (l : locked W B) : B := sbk_set_meta (lk_meta l) (lk_status l).

#[export] Instance locked_bindings : BindingAPI (locked W B) B := {|
  binding_get _ _ := λ l,
    (Ret (Ok (stored l)), {| lk_world := lk_world l; lk_status := lk_status l; lk_meta := lk_meta l;
                             lk_version := lk_version l; lk_held := lk_version l |});
  binding_update b := versioned (λ l,
    if meta_differs (sbk_meta b) (lk_meta l) then Some (lk_status l, sbk_meta b) else None);
  binding_updateStatus b := versioned (λ l,
    if status_differs b (lk_status l) then Some (b, lk_meta l) else None)
|}.

(** What every call keeps: the version only grows, and while it is the same so
    is the status. *)
Definition since (l0 l : locked W B) : Prop :=
  lk_held l = lk_held l0 ∧ lk_version l0 ≤ lk_version l ∧
  (lk_version l = lk_version l0 → lk_status l = lk_status l0).

Lemma beside_since l0 {A} (m : M W A) : inv (since l0) (beside m).
Proof. intros l Hl. unfold beside. by destruct (m (lk_world l)). Qed.

Lemma versioned_since l0 change : inv (since l0) (versioned change).
Proof.
  intros l (Hh & Hv & Hs). unfold versioned. destruct (_ =? _); [|done].
  destruct (change l) as [[status meta]|]; [|done]. unfold since. simpl. split_and!; [done|lia|lia].
Qed.

Definition since_pledge (l0 : locked W B) (m : ObjectMeta) : pledge (locked W B) :=
  {| pl_meta := m; pl_may _ _ _ _ := True; pl_owned := True; pl_world := since l0 |}.

#[export] Instance since_safe `{KubeAPI W} `{Clock W} `{UserInfoJSON} l0 m :
  SafeWorld (locked W B) B (since_pledge l0 m).
Proof. split; intros; try done; try apply beside_since; apply versioned_since. Qed.

(** Both writes go through only if neither the status nor anything before it
    was changed. *)
Lemma writes_unchanged l0 l b l1 l2 :
  since l0 l → lk_held l0 = lk_version l0 →
  binding_updateStatus b l = (Ret (Ok tt), l1) → binding_update b l1 = (Ret (Ok tt), l2) →
  lk_status l2 = lk_status l0.
Proof.
  intros (Hh & Hv & Hs) Hheld. simpl. unfold versioned.
  destruct (Nat.eqb_spec (lk_held l) (lk_version l)) as [E|]; [|done].
  assert (lk_status l = lk_status l0) as Hl by (apply Hs; lia).
  destruct (status_differs b (lk_status l)); intros ?; simplify_eq/=.
  - destruct (Nat.eqb_spec (lk_held l) (S (lk_version l))); [lia|done].
  - apply Nat.eqb_eq in E. rewrite E. destruct (meta_differs _ _); intros ?; by simplify_eq/=.
Qed.
End Server.

(** ** Processing a binding *)
Section Process.
Context {W B : Type} `{KubeAPI W} `{Clock W} `{ServiceBindingKind B} `{!ServiceBindingLaws B} `{Compares B}.
Context `{UserInfoJSON} `{JSONPathLib} `{BucketRateLimiter} `{MappingDecoder}.
Context (l0 : locked W B) (m : ObjectMeta).
Hypothesis Hheld : lk_held l0 = lk_version l0.
Hypothesis Huid : om_uid m ≠ "".
Abbreviation P := (st_inv (W := locked W B) (B := B) (since_pledge l0 m) 0).

Lemma persistBinding_unchanged s u s' :
  P s → persistBinding s = (Ret (Ok u), s') → lk_status (st_world s') = lk_status l0.
Proof.
  intros HP. unfold persistBinding. rewrite (mbind_ret _ _ _ (st_ctx s) s) by done.
  assert (om_uid (bindingMeta (st_ctx s)) = om_uid m) as ->.
  { destruct HP as (_ & _ & Hk & _). destruct (kept_fields _ _ Hk) as (_ & _ & Hu & _). exact Hu. }
  destruct (String.eqb_spec (om_uid m) ""); [done|].
  intros ([] & s1 & Hset & Hrun)%mbind_inv.
  pose proof (inv_set_status_conditions (since_pledge l0 m) 0 (i_conditions (st_ctx s)).*2 s HP) as HP1.
  unfold id in Hset. rewrite Hset in HP1. simpl in HP1. destruct HP1 as (_ & _ & _ & _ & Hw).
  rewrite (mbind_ret _ _ _ (i_binding (st_ctx s1)) s1) in Hrun by done.
  apply rbind_inv in Hrun as ([] & s2 & Hst & Hup). unfold on_world, zoom in Hst, Hup.
  destruct (binding_updateStatus (i_binding (st_ctx s1)) (st_world s1)) as [r1 w1] eqn:E1.
  injection Hst as -> <-. cbn [st_world st_ctx st_heap] in Hup.
  destruct (binding_update (i_binding (st_ctx s1)) w1) as [r2 w2] eqn:E2. injection Hup as -> <-.
  destruct u. eapply writes_unchanged; [exact Hw|exact Hheld|exact E1|exact E2].
Qed.

Lemma Close_unchanged s u s' :
  P s → Close s = (Ret (Ok u), s') → lk_status (st_world s') = lk_status l0.
Proof.
  intros HP. unfold Close. rewrite (mbind_ret _ _ _ (st_ctx s) s) by done. unfold id.
  destruct (f_err (i_flow (st_ctx s))) as [err|].
  - intros ([] & s1 & Hset & Hrun)%mbind_inv. eapply persistBinding_unchanged; [|exact Hrun].
    pose proof (inv_SetCondition (since_pledge l0 m) 0 (cond_NotBindingReady "ProcessingError" (Some err)) s HP) as HP1.
    by rewrite Hset in HP1.
  - intros ([] & s1 & Happ & Hrun)%rbind_inv. apply mbind_inv in Hrun as ([] & s2 & Hset & Hrun).
    eapply persistBinding_unchanged; [|exact Hrun].
    pose proof (inv_update_applications (since_pledge l0 m) 0 (seq 0 (length (i_applications (st_ctx s)))) s HP) as HP1.
    rewrite Happ in HP1.
    pose proof (inv_SetCondition (since_pledge l0 m) 0 (cond_BindingReady "ApplicationsBound" None) s1 HP1) as HP2.
    by rewrite Hset in HP2.
Qed.

Lemma process_ctx_unchanged hs s p s' :
  P s → Forall (inv P) hs → process_ctx hs s = (Ret p, s') →
  lk_status (st_world s') = lk_status l0 ∨ p_retry p = true ∧ ∃ e, p_err p = Some e.
Proof.
  intros HP Hhs. unfold process_ctx. intros (status & s1 & Hrun & Hc)%mbind_inv.
  pose proof (inv_run_handlers (since_pledge l0 m) 0 hs zero_status Hhs s HP) as HP1. rewrite Hrun in HP1.
  apply mbind_inv in Hc as ([u|e] & s2 & Hclose & Hret).
  - left. unfold mret, M_ret in Hret. simplify_eq. by eapply Close_unchanged.
  - right. unfold mret, M_ret in Hret. simplify_eq. split; [done|by eexists].
Qed.
End Process.

(** ** Both kinds of binding *)
Section Kinds.
Context {W : Type} `{KubeAPI W} `{Clock W} `{Compares v1alpha1.ServiceBinding} `{Compares v1beta1.ServiceBinding}.
Context `{UserInfoJSON} `{JSONPathLib} `{BucketRateLimiter} `{MappingDecoder} `{Converter} `{Templates}.

(** What came of processing: the status in the cluster is as before, or the
    pipeline reports an error and asks for another try. *)
Definition unchanged_or_retry {B} (l0 : locked W B) (r : processed * B * locked W B) : Prop :=
  lk_status r.2 = lk_status l0 ∨ p_retry r.1.1 = true ∧ ∃ e, p_err r.1.1 = Some e.

(** C11: a change of the status never goes through at once: on a server with
    optimistic locking, processing a binding that was just read either leaves
    the status in the cluster as it is, or ends with an error and a retry, for
    both kinds of binding and on every path, success included: the update
    after a status update that changed something is made from the old version. *)
Theorem status_change_retries (hlaws : JSONPathLaws) :
  (∀ (l0 : locked W v1alpha1.ServiceBinding) b, lk_held l0 = lk_version l0 → om_uid (sbk_meta b) ≠ "" →
     unchanged_or_retry l0 (Process Provider_Get defaultFlow b l0)) ∧
  (∀ (l0 : locked W v1beta1.ServiceBinding) b, lk_held l0 = lk_version l0 → om_uid (sbk_meta b) ≠ "" →
     unchanged_or_retry l0 (Process SpecProvider_Get specFlow b l0)).
Proof.
  split; intros l0 b Hheld Huid; unfold Process, unchanged_or_retry.
  - pose proof (process_ctx_unchanged l0 (sbk_meta b) Hheld Huid defaultFlow (fresh (Provider_Get b) l0)) as Hp.
    unfold fresh in Hp. destruct (process_ctx defaultFlow _) as [[p|e] s'] eqn:E; simpl.
    + eapply Hp; [by apply fresh_Provider|exact (proj1 (inv_flows (since_pledge l0 (sbk_meta b)) 0) I)|done].
    + right. split; [done|by eexists].
  - pose proof (process_ctx_unchanged l0 (sbk_meta b) Hheld Huid specFlow (fresh (SpecProvider_Get b) l0)) as Hp.
    unfold fresh in Hp. destruct (process_ctx specFlow _) as [[p|e] s'] eqn:E; simpl.
    + eapply Hp; [by apply fresh_SpecProvider|exact (proj2 (inv_flows (since_pledge l0 (sbk_meta b)) 0))|done].
    + right. split; [done|by eexists].
Qed.
End Kinds.

(** ** At work: the first try and the second *)
Section Witness.

(** What a user sees of the status. *)
#[local] Instance visible {B} `{ServiceBindingKind B} : Compares B := {|
  status_differs b b' := negb (bool_decide
    ((statusSecretName b, (λ c, (c_type c, c_status c, c_reason c)) <$> statusConditions b) =
     (statusSecretName b', (λ c, (c_type c, c_status c, c_reason c)) <$> statusConditions b')));
  meta_differs m m' := negb (bool_decide
    ((om_annotations m, om_finalizers m) = (om_annotations m', om_finalizers m')))
|}.

Definition just_read (b : v1beta1.ServiceBinding) : locked (cluster v1beta1.ServiceBinding) v1beta1.ServiceBinding :=
  {| lk_world := start; lk_status := b; lk_meta := sbk_meta b; lk_version := 7; lk_held := 7 |}.
Definition read_again (l : locked (cluster v1beta1.ServiceBinding) v1beta1.ServiceBinding) :
    locked (cluster v1beta1.ServiceBinding) v1beta1.ServiceBinding :=
  {| lk_world := lk_world l; lk_status := lk_status l; lk_meta := lk_meta l;
     lk_version := lk_version l; lk_held := lk_version l |}.

Definition first_try := Process SpecProvider_Get specFlow new_binding (just_read new_binding).
Definition second_try :=
  Process SpecProvider_Get specFlow (stored first_try.2) (read_again first_try.2).

Lemma status_change_retries_witness : unchanged_or_retry (just_read new_binding) first_try.
Proof.
  refine (proj2 (status_change_retries dotted_laws) (just_read new_binding) new_binding _ _);
    [done|by vm_compute].
Defined.

(** The binding is ready and the workload bound after the first try, which
    reports a conflict; the second try has nothing to change any more. *)
Lemma conflict_after_success :
  first_try.1.1 = {| p_retry := true; p_delay := 0; p_err := Some conflict |} ∧
  IsStatusConditionTrue (statusConditions (lk_status first_try.2)) BindingReady = true ∧
  workload_of (lk_world first_try.2) = Ok (workload_with [env_PW; env_root] [demo_mount] [demo_volume]) ∧
  second_try.1.1 = {| p_retry := false; p_delay := 0; p_err := None |} ∧
  lk_version second_try.2 = lk_version first_try.2.
Proof. by vm_compute. Qed.
End Witness.
