(* ===== verification/Interleaving.v ===== *)
(** * Reconciliations that are interrupted

    In [System.v] a reconciliation is one step.  Here everybody else may act
    between any two calls the operator makes, and the operator's reads of the
    binding come from a cache that may be behind the server.  What protects the
    binding is the version the server compares when it is written. *)

From S2P Require Import Prelude.
From S2P Require Import GoLib.
From S2P Require Import GoValue.
From S2P Require Import JsonPath.
From S2P Require Import Heap.
From S2P Require Import Converter.
From S2P Require Import Kube.
From S2P Require Import Apis.
From S2P Require Import Service.
From S2P Require Import Context.
From S2P Require Import Kinds.
From S2P Require Import Collect.
From S2P Require Import Project.
From S2P Require Import Pipeline.
From S2P Require Import Webhooks.
From S2P Require Import Cluster.
From S2P Require Import Invariant.
From S2P Require Import Safety.
From S2P Require Import Writes.
From S2P Require Import WebhooksSpec.
From S2P Require Import System.
From S2P Require Import Locking.

(** ** What happens between two calls *)
Inductive action (W B : Type) :=
| UserCreates (user : UserInfo) (o : json)
| UserUpdates (user : UserInfo) (o : json)
| UserDeletes (t : Z)
| ServerRemoves
| StatusWritten (b : B)
| MappingChanged (text : string)
| ClusterChanges (w : W).
Arguments UserCreates {W B}.
Arguments UserUpdates {W B}.
Arguments UserDeletes {W B}.
Arguments ServerRemoves {W B}.
Arguments StatusWritten {W B}.
Arguments MappingChanged {W B}.
Arguments ClusterChanges {W B}.

(** What is done before a call; for a read of the binding, the copy the cache
    has (the stored binding when there is none); for a write, whether the
    version the writer holds follows the one the server gave (it does when the
    write changed nothing, or its answer was decoded into the written object). *)
Record turn (W B : Type) := {
  tn_actions : list (action W B);
  tn_copy : option nat;
  tn_follows : bool
}.
Arguments tn_actions {W B}.
Arguments tn_copy {W B}.
Arguments tn_follows {W B}.

(** A binding as it was stored once, with the user who had written it. *)
Record copy (B : Type) := { cp_version : nat; cp_binding : B; cp_writer : option UserInfo }.
Arguments cp_version {B}.
Arguments cp_binding {B}.
Arguments cp_writer {B}.

(** [sh_writer] is the user who wrote the binding last, [sh_copies] every
    binding that was stored (the newest first), [sh_held] the version of the
    copy that is being processed and [sh_read] its writer and metadata. *)
Record shared (W B : Type) := {
  sh_api : traced W;
  sh_binding : option B;
  sh_writer : option UserInfo;
  sh_version : nat;
  sh_copies : list (copy B);
  sh_held : nat;
  sh_read : option (option UserInfo * ObjectMeta);
  sh_plan : list (turn W B)
}.
Arguments sh_api {W B}.
Arguments sh_binding {W B}.
Arguments sh_writer {W B}.
Arguments sh_version {W B}.
Arguments sh_copies {W B}.
Arguments sh_held {W B}.
Arguments sh_read {W B}.
Arguments sh_plan {W B}.

Definition empty_server {W B} (w : W) : shared W B :=
  {| sh_api := {| tr_world := w; tr_log := [] |}; sh_binding := None; sh_writer := None;
     sh_version := 0; sh_copies := []; sh_held := 0; sh_read := None; sh_plan := [] |}.

Section Shared.
Context {W B : Type} `{KubeAPI W} `{Clock W} `{ServiceBindingKind B} `{BindingServer B} `{UserInfoJSON}.
Context (operator : UserInfo) (serviceAccountName : string).

Abbreviation state := (shared W B).

Definition with_api (t : traced W) (s : state) : state :=
  {| sh_api := t; sh_binding := sh_binding s; sh_writer := sh_writer s; sh_version := sh_version s;
     sh_copies := sh_copies s; sh_held := sh_held s; sh_read := sh_read s; sh_plan := sh_plan s |}.

(** A change of the binding gives it the next version. *)
Definition store (b : option B) (writer : option UserInfo) (s : state) : state :=
  let version := S (sh_version s) in
  {| sh_api := sh_api s; sh_binding := b; sh_writer := writer; sh_version := version;
     sh_copies := match b with
                  | Some b => {| cp_version := version; cp_binding := b; cp_writer := writer |} :: sh_copies s
                  | None => sh_copies s
                  end;
     sh_held := sh_held s; sh_read := sh_read s; sh_plan := sh_plan s |}.

Definition holds (version : nat) (s : state) : state :=
  {| sh_api := sh_api s; sh_binding := sh_binding s; sh_writer := sh_writer s; sh_version := sh_version s;
     sh_copies := sh_copies s; sh_held := version; sh_read := sh_read s; sh_plan := sh_plan s |}.

Definition reads (c : copy B) (s : state) : state :=
  {| sh_api := sh_api s; sh_binding := sh_binding s; sh_writer := sh_writer s; sh_version := sh_version s;
     sh_copies := sh_copies s; sh_held := cp_version c;
     sh_read := Some (cp_writer c, sbk_meta (cp_binding c)); sh_plan := sh_plan s |}.

Definition planned (plan : list (turn W B)) (s : state) : state :=
  {| sh_api := sh_api s; sh_binding := sh_binding s; sh_writer := sh_writer s; sh_version := sh_version s;
     sh_copies := sh_copies s; sh_held := sh_held s; sh_read := sh_read s; sh_plan := plan |}.

(** The server's answer to a write of [b] over what is stored. *)
Definition written (answer : result (option B)) (writer : option UserInfo) (s : state) : state :=
  match answer with Ok b => store b writer s | Err _ => s end.

Definition act (s : state) (a : action W B) : state :=
  match a, sh_binding s with
  | UserCreates user o, None =>
      if String.eqb (ui_username user) serviceAccountName then s
      else written (let? b := admitted serviceAccountName user Create o in
                    let? b' := srv_create b in Ok (Some b')) (Some user) s
  | UserUpdates user o, Some old =>
      if String.eqb (ui_username user) serviceAccountName then s
      else written (let? b := admitted serviceAccountName user Update o in srv_update old b) (Some user) s
  | UserDeletes t, Some old =>
      store (Some (sbk_set_meta (with_deletion t (sbk_meta old)) old)) (sh_writer s) s
  | ServerRemoves, Some _ => store None (sh_writer s) s
  | StatusWritten b, Some old => written (srv_updateStatus old b) (sh_writer s) s
  | MappingChanged text, Some old =>
      written (let? b := admitted serviceAccountName operator Update (srv_encode (marked text old)) in srv_update old b)
        (sh_writer s) s
  | ClusterChanges w, _ => with_api {| tr_world := w; tr_log := tr_log (sh_api s) |} s
  | _, _ => s
  end.

(** The others take their turn; without a plan nothing happens. *)
Definition take_turn (s : state) : turn W B * state :=
  match sh_plan s with
  | t :: plan => (t, foldl act (planned plan s) (tn_actions t))
  | [] => ({| tn_actions := []; tn_copy := None; tn_follows := false |}, s)
  end.

Definition interrupted {A} (x : M (traced W) A) : M state A := λ s,
  zoom sh_api with_api x (take_turn s).2.

Definition shared_api : KubeAPI state := lifted_api (@interrupted).
Definition shared_clock : Clock state := interrupted time_Now.

(** The copy a read of the binding finds. *)
Definition found (t : turn W B) (s : state) : option (copy B) :=
  match tn_copy t with
  | Some i => sh_copies s !! i
  | None => (λ b, {| cp_version := sh_version s; cp_binding := b; cp_writer := sh_writer s |}) <$> sh_binding s
  end.

Definition named (ns name : string) (c : copy B) : bool :=
  String.eqb (om_namespace (sbk_meta (cp_binding c))) ns && String.eqb (om_name (sbk_meta (cp_binding c))) name.

(** The operator's writes; [checked] tells whether the server compares the
    version. *)
Definition write (checked : bool) (answer : B → result (option B)) : M state (result unit) := λ s,
  let '(t, s) := take_turn s in
  match sh_binding s with
  | None => (Ret (Err (EAPI true "")), s)
  | Some old =>
      if checked && negb (sh_held s =? sh_version s) then (Ret (Err conflict), s)
      else match answer old with
           | Ok b => let s' := store b (sh_writer s) s in
               (Ret (Ok tt), if tn_follows t then holds (sh_version s') s' else s')
           | Err e => (Ret (Err e), s)
           end
  end.

Definition shared_bindings (checked : bool) : BindingAPI state B := {|
  binding_get ns name := λ s,
    let '(t, s) := take_turn s in
    match found t s with
    | Some c => if named ns name c then (Ret (Ok (cp_binding c)), reads c s)
                else (Ret (Err (EAPI true name)), s)
    | None => (Ret (Err (EAPI true name)), s)
    end;
  binding_update b := write checked (λ old,
    let? b' := admitted serviceAccountName operator Update (srv_encode b) in srv_update old b');
  binding_updateStatus b := write checked (λ old, srv_updateStatus old b)
|}.

(** ** Sessions

    A session is a sequence of reconciliations, each with the plan of the
    others; the calls are collected with the copy they were made for. *)
Record request := { rq_namespace : string; rq_name : string; rq_plan : list (turn W B) }.

Definition beginning (plan : list (turn W B)) (s : state) : state :=
  {| sh_api := {| tr_world := tr_world (sh_api s); tr_log := [] |}; sh_binding := sh_binding s;
     sh_writer := sh_writer s; sh_version := sh_version s; sh_copies := sh_copies s;
     sh_held := sh_held s; sh_read := None; sh_plan := plan |}.

Context (process : B → state → processed * B * state) (checked : bool).

Fixpoint session (s : state) (l : list request) :
    state * list (option (option UserInfo * ObjectMeta) * access) :=
  match l with
  | [] => (s, [])
  | r :: l =>
      let s1 := (@Reconcile _ _ (shared_bindings checked) _ process (rq_namespace r) (rq_name r)
        (beginning (rq_plan r) s)).2 in
      let '(s2, done) := session s1 l in
      (s2, map (λ a, (sh_read s1, a)) (tr_log (sh_api s1)) ++ done)
  end.
End Shared.
Arguments request W B : clear implicits.

(** ** The invariant *)
Section Guarded.
Context {W B : Type} `{KubeAPI W} `{Clock W} `{ServiceBindingKind B} `{BindingServer B} `{UserInfoJSON}.
Context `{!ServiceBindingLaws B} `{!BindingServerLaws B}.
Context (operator : UserInfo) (serviceAccountName : string).
Context (allowed : string → list string → string → string → GroupVersionResource → string → Prop).
Context (owned : Prop).
Context (Hoperator : ui_username operator = serviceAccountName).
Context (Hcodec : ∀ u, unmarshal_UserInfo (marshal_UserInfo u) = Ok u).
Context (Hreview : sound_review (W := W) allowed) (Hget : named_get (W := W)).

#[local] Instance guarded_api : KubeAPI (shared W B) := shared_api operator serviceAccountName.
#[local] Instance guarded_clock : Clock (shared W B) := shared_clock operator serviceAccountName.
#[local] Instance checked_bindings : BindingAPI (shared W B) B := shared_bindings operator serviceAccountName true.

Abbreviation take_turn := (take_turn operator serviceAccountName).
Abbreviation act := (act operator serviceAccountName).

(** The writer is recorded in the binding, as it is stored and in every copy;
    the copies of the version that is stored are of its writer. *)
Definition recorded (b : B) (writer : option UserInfo) : Prop :=
  ∃ u, writer = Some u ∧ Requester (sbk_meta b) = Some u.
Definition copy_of (s : shared W B) (c : copy B) : Prop :=
  recorded (cp_binding c) (cp_writer c) ∧ cp_version c ≤ sh_version s ∧
  (cp_version c = sh_version s → sh_writer s = cp_writer c).
Definition faithful (s : shared W B) : Prop :=
  (∀ b, sh_binding s = Some b → recorded b (sh_writer s)) ∧ Forall (copy_of s) (sh_copies s).

(** What the others may do while a copy is processed: the writer changes only
    with the version. *)
Definition moves (s s' : shared W B) : Prop :=
  sh_version s ≤ sh_version s' ∧ (sh_version s' = sh_version s → sh_writer s' = sh_writer s) ∧
  sh_held s' = sh_held s ∧ sh_read s' = sh_read s ∧ tr_log (sh_api s') = tr_log (sh_api s).

#[local] Instance moves_preorder : PreOrder moves.
Proof.
  split; [by intros s; split_and!|]. intros s1 s2 s3 (Hv & Hw & Hh & Hr & Hl) (Hv' & Hw' & Hh' & Hr' & Hl').
  split_and!; [lia| |congruence..]. intros Hs. rewrite Hw' by lia. apply Hw. lia.
Qed.

Lemma store_moves b writer s : moves s (store b writer s).
Proof. split_and!; simpl; (done || lia). Qed.

Lemma store_faithful b writer s :
  faithful s → (∀ b', b = Some b' → recorded b' writer) → faithful (store b writer s).
Proof.
  intros [Hb Hc] Hr. split; [done|].
  assert (Forall (copy_of (store b writer s)) (sh_copies s)) as Hold.
  { eapply Forall_impl; [exact Hc|]. intros c (H1' & H2' & _). split_and!; [done|simpl; lia|simpl; lia]. }
  destruct b as [b|]; simpl; [|done]. constructor; [|done]. split_and!; [by apply Hr|done..].
Qed.

Lemma recorded_text b b' writer :
  requester_text (sbk_meta b') = requester_text (sbk_meta b) → recorded b writer → recorded b' writer.
Proof. intros Hr%Requester_text (u & Hu & Hb). exists u. by rewrite Hr. Qed.

Lemma written_faithful answer writer s :
  faithful s → (∀ b, answer = Ok (Some b) → recorded b writer) →
  faithful (written answer writer s) ∧ moves s (written answer writer s).
Proof.
  intros Hs Hr. unfold written. destruct answer as [b|e]; [|done].
  split; [|apply store_moves]. apply store_faithful; [done|]. intros b' ->. by apply Hr.
Qed.

(** The operator's own writes of a binding that has the requester. *)
Lemma operator_answer old b b' :
  (let? b1 := admitted serviceAccountName operator Update (srv_encode b) in srv_update old b1) = Ok (Some b') →
  requester_text (sbk_meta b') = requester_text (sbk_meta b).
Proof.
  destruct (admitted _ _ _ _) as [b1|e] eqn:Ha; simpl; [|done]. intros Hb%update_requester.
  rewrite Hb. by eapply admitted_operator.
Qed.

Lemma marked_text text b : requester_text (sbk_meta (marked text b)) = requester_text (sbk_meta b).
Proof. unfold marked, requester_text. rewrite meta_set. simpl. by apply aget_aset_ne. Qed.

Lemma act_faithful a s : faithful s → faithful (act s a) ∧ moves s (act s a).
Proof.
  intros Hs. unfold act. destruct (sh_binding s) as [old|] eqn:Hb; destruct a as [user o|user o|t| |b|text|w]; try done.
  - destruct (String.eqb_spec (ui_username user) serviceAccountName); [done|]. apply written_faithful; [done|].
    intros b. destruct (admitted _ _ _ _) as [b1|e] eqn:Ha; simpl; [|done]. intros Hu%update_requester.
    eapply recorded_text; [exact Hu|]. exists user. split; [done|]. by eapply admitted_user; [..|right|].
  - split; [|apply store_moves]. apply store_faithful; [done|]. intros b' [= <-].
    eapply recorded_text; [|by apply Hs]. by rewrite meta_set.
  - split; [|apply store_moves]. by apply store_faithful.
  - apply written_faithful; [done|]. intros b' Hb'%updateStatus_requester.
    eapply recorded_text; [exact Hb'|by apply Hs].
  - apply written_faithful; [done|]. intros b' Hb'%operator_answer.
    eapply recorded_text; [|by apply Hs]. by rewrite Hb', marked_text.
  - destruct (String.eqb_spec (ui_username user) serviceAccountName); [done|]. apply written_faithful; [done|].
    intros b. destruct (admitted _ _ _ _) as [b1|e] eqn:Ha; simpl; [|done].
    destruct (srv_create b1) as [b2|e] eqn:Hc; simpl; [|done]. intros [= <-].
    eapply recorded_text; [by eapply create_requester|]. exists user. split; [done|]. by eapply admitted_user; [..|left|].
Qed.

Lemma take_turn_faithful s : faithful s → faithful (take_turn s).2 ∧ moves s (take_turn s).2.
Proof.
  intros Hs. unfold take_turn. destruct (sh_plan s) as [|t plan]; [done|]. simpl.
  assert (faithful (planned plan s) ∧ moves s (planned plan s)) as [Hp Hm] by done.
  revert Hp Hm. generalize (planned plan s). induction (tn_actions t) as [|a l IH]; intros s1 Hp Hm; [done|].
  simpl. destruct (act_faithful a s1 Hp) as [Hp' Hm']. apply IH; [done|]. by etrans.
Qed.

(** *** Processing a copy

    While the copy with metadata [m] that [u] wrote is processed: as long as the
    held version is the stored one, the stored binding is [u]'s. *)
Definition minding (u : UserInfo) (m : ObjectMeta) (s : shared W B) : Prop :=
  faithful s ∧ Forall (accounted allowed u m owned) (tr_log (sh_api s)) ∧
  sh_held s ≤ sh_version s ∧ (sh_held s = sh_version s → sh_writer s = Some u) ∧
  sh_read s = Some (Some u, m).

Lemma take_turn_minding u m s : minding u m s → minding u m (take_turn s).2.
Proof.
  intros (Hf & Hl & Hle & Hu & Hr). destruct (take_turn_faithful s Hf) as [Hf' (Hv & Hw & Hh & Hr' & Hl')].
  split_and!; [done|by rewrite Hl'|lia| |congruence]. intros He. rewrite Hw by lia. apply Hu. lia.
Qed.

Lemma interrupted_minding {A} u m (x : M (traced W) A) :
  inv (λ t, Forall (accounted allowed u m owned) (tr_log t)) x →
  inv (minding u m) (interrupted operator serviceAccountName x).
Proof.
  intros Hx s (Hf & Hl & Hrest)%take_turn_minding. unfold interrupted, zoom.
  specialize (Hx _ Hl). destruct (x (sh_api (take_turn s).2)) as [r t]. done.
Qed.

Lemma interrupted_run {A} (x : M (traced W) A) s r s' :
  interrupted operator serviceAccountName x s = (Ret r, s') → ∃ t t', x t = (Ret r, t').
Proof.
  unfold interrupted, zoom. destruct (x (sh_api (take_turn s).2)) as [r' t'] eqn:E. intros [= -> <-]. eauto.
Qed.

(** A write is accepted only over what [u] wrote. *)
Lemma write_minding u m answer :
  (∀ old b, answer old = Ok (Some b) → recorded old (Some u) → recorded b (Some u)) →
  inv (minding u m) (write operator serviceAccountName true answer).
Proof.
  intros Ha s Hs%take_turn_minding. unfold write. destruct (take_turn s) as [t s1]. simpl in Hs.
  destruct (sh_binding s1) as [old|] eqn:Hb; [|done]. simpl.
  destruct (Nat.eqb_spec (sh_held s1) (sh_version s1)) as [Hheld|]; [|done]. simpl.
  destruct (answer old) as [b|e] eqn:Hans; [|done]. destruct Hs as (Hf & Hl & Hle & Hu & Hr).
  specialize (Hu Hheld). assert (faithful (store b (sh_writer s1) s1)) as Hst.
  { apply store_faithful; [done|]. intros b' ->. rewrite Hu. apply (Ha old); [done|].
    rewrite <- Hu. by apply Hf. }
  destruct (tn_follows t); split_and!; simpl; try done; lia.
Qed.

Lemma update_minding u m b :
  Requester (sbk_meta b) = Some u → inv (minding u m) (binding_update b).
Proof.
  intros Hu. apply write_minding. intros old b' Hb%operator_answer _.
  exists u. split; [done|]. rewrite <- Hu. by apply Requester_text.
Qed.

Lemma status_minding u m b : inv (minding u m) (binding_updateStatus b).
Proof.
  apply write_minding. intros old b' Hb%updateStatus_requester. by apply recorded_text.
Qed.

(** *** Reconciling *)
Context (process : B → shared W B → processed * B * shared W B).
Context (Hprocess : ∀ (pl : pledge (shared W B)) b s,
  SafeWorld (shared W B) B pl → kept (pl_meta pl) (sbk_meta b) → pl_owned pl = owned → pl_world pl s →
  let r := process b s in kept (pl_meta pl) (sbk_meta r.1.2) ∧ pl_world pl r.2).

(** The copy that is read, from the cache or the server, is a copy. *)
Lemma found_copy t s c : faithful s → found t s = Some c → copy_of s c.
Proof.
  intros [Hb Hc] Hf. unfold found in Hf. destruct (tn_copy t) as [i|].
  - by eapply Forall_lookup_1.
  - destruct (sh_binding s) as [b|] eqn:E; [|done]. simplify_eq/=. split_and!; [by apply Hb|done..].
Qed.

(** Every call was made for the copy that was read, with the rights of the
    user who had written it. *)
Definition minded (s : shared W B) : Prop :=
  faithful s ∧ Forall (λ a, ∃ u m, sh_read s = Some (Some u, m) ∧ accounted allowed u m owned a)
    (tr_log (sh_api s)).

Lemma Reconcile_minded ns name s :
  faithful s → tr_log (sh_api s) = [] → minded (Reconcile process ns name s).2.
Proof.
  intros Hs Hlog. destruct (take_turn_faithful s Hs) as [Hf (_ & _ & _ & _ & Hl)].
  destruct (binding_get ns name s) as [r s1] eqn:Hread. pose proof Hread as Hread'. simpl in Hread.
  destruct (take_turn s) as [t s2]. simpl in Hf, Hl. rewrite Hlog in Hl.
  assert ((∃ e, (r, s1) = (Ret (Err e), s2)) ∨
    ∃ c, copy_of s2 c ∧ (r, s1) = (Ret (Ok (cp_binding c)), reads c s2)) as [[e Hr]|(c & Hc & Hr)].
  { rewrite <- Hread. destruct (found t s2) as [c|] eqn:E; [|eauto].
    destruct (named ns name c); [right; eauto using found_copy|eauto]. }
  - simplify_eq. unfold Reconcile, mbind, M_bind. rewrite Hread'. split; [by destruct (IsNotFound e)|].
    destruct (IsNotFound e); simpl; rewrite Hl; constructor.
  - simplify_eq. destruct Hc as ((u & Hu & Hreq) & Hle & Hw).
    assert (minding u (sbk_meta (cp_binding c)) (Reconcile process ns name s).2) as (Hf' & Hl' & _ & _ & Hr').
    { eapply (Reconcile_keeps (@interrupted W B _ _ _ operator serviceAccountName));
        [| | | |done|done|exact Hprocess|exact Hread'|done|done|].
      - intros. by eapply interrupted_run.
      - intros A x Hx. by apply interrupted_minding.
      - apply update_minding.
      - apply status_minding.
      - split_and!; simpl; [done|by rewrite Hl; constructor|done| |by rewrite Hu].
        intros He. by rewrite Hw. }
    split; [done|]. eapply Forall_impl; [exact Hl'|]. eauto.
Qed.

Lemma session_minded s l :
  faithful s →
  let r := session operator serviceAccountName process true s l in
  faithful r.1 ∧ Forall (λ d, ∃ u m, d.1 = Some (Some u, m) ∧ accounted allowed u m owned d.2) r.2.
Proof.
  revert s. induction l as [|q l IH]; intros s Hs; [by split|]. simpl.
  destruct (Reconcile_minded (rq_namespace q) (rq_name q) (beginning (rq_plan q) s)) as [Hf Hl]; [done..|].
  specialize (IH _ Hf). destruct (session _ _ _ _ _ _) as [s2 done2]. simpl in IH. destruct IH as [IH1 IH2].
  split; [done|]. apply Forall_app. split; [|done]. by apply Forall_map.
Qed.
End Guarded.

(** ** Both kinds of binding *)
Section Kinds.
Context {W : Type} `{KubeAPI W} `{Clock W} `{UserInfoJSON} `{JSONPathLib} `{BucketRateLimiter}
  `{MappingDecoder} `{Converter} `{Templates}.
Context `{BindingServer v1alpha1.ServiceBinding} `{BindingServer v1beta1.ServiceBinding}.
Context (operator : UserInfo) (serviceAccountName : string).

#[local] Instance coreos_api : KubeAPI (shared W v1alpha1.ServiceBinding) := shared_api operator serviceAccountName.
#[local] Instance coreos_clock : Clock (shared W v1alpha1.ServiceBinding) := shared_clock operator serviceAccountName.
#[local] Instance spec_api : KubeAPI (shared W v1beta1.ServiceBinding) := shared_api operator serviceAccountName.
#[local] Instance spec_clock : Clock (shared W v1beta1.ServiceBinding) := shared_clock operator serviceAccountName.

(** The reconcilers of [controllers/binding] and [controllers/spec]. *)
Definition coreos_session (checked : bool) :=
  let _ := shared_bindings (W := W) (B := v1alpha1.ServiceBinding) operator serviceAccountName checked in
  session operator serviceAccountName (Process Provider_Get defaultFlow) checked.
Definition spec_session (checked : bool) :=
  let _ := shared_bindings (W := W) (B := v1beta1.ServiceBinding) operator serviceAccountName checked in
  session operator serviceAccountName (Process SpecProvider_Get specFlow) checked.

(** C2: the operator acts with the rights of the user who wrote the binding,
    also when it is interrupted: whatever users, other controllers and the
    cluster do before each single call of each reconciliation, and however old
    the copy of the binding is that a reconciliation reads, the requester
    recorded in the stored binding is the user who wrote it last, and every
    call is one [accounted] allows for the user who had written the copy that
    was read, given that the server compares the version of a binding that
    is written; for both kinds of binding. *)
Theorem interrupted_acts_for_writer (hlaws : JSONPathLaws)
    (alaws : BindingServerLaws v1alpha1.ServiceBinding) (blaws : BindingServerLaws v1beta1.ServiceBinding)
    (allowed : string → list string → string → string → GroupVersionResource → string → Prop) (w : W)
    (l1 : list (request W v1alpha1.ServiceBinding)) (l2 : list (request W v1beta1.ServiceBinding)) :
  ui_username operator = serviceAccountName →
  (∀ u, unmarshal_UserInfo (marshal_UserInfo u) = Ok u) →
  sound_review (W := W) allowed → named_get (W := W) →
  let r1 := coreos_session true (empty_server w) l1 in
  let r2 := spec_session true (empty_server w) l2 in
  (∀ b, sh_binding r1.1 = Some b → recorded b (sh_writer r1.1)) ∧
  Forall (λ d, ∃ u m, d.1 = Some (Some u, m) ∧ accounted allowed u m True d.2) r1.2 ∧
  (∀ b, sh_binding r2.1 = Some b → recorded b (sh_writer r2.1)) ∧
  Forall (λ d, ∃ u m, d.1 = Some (Some u, m) ∧ accounted allowed u m False d.2) r2.2.
Proof.
  intros Hop Hcodec Hrev Hget r1 r2.
  assert (∀ B `{ServiceBindingKind B}, faithful (B := B) (empty_server w)) as H0' by (intros; by split).
  destruct (session_minded operator serviceAccountName allowed True Hop Hcodec Hrev Hget
    (let _ := shared_bindings operator serviceAccountName true in Process Provider_Get defaultFlow))
    with (s := empty_server (B := v1alpha1.ServiceBinding) w) (l := l1) as [[Hb1 _] Hl1]; [|done|].
  { intros pl b s Hs Hid Ho Hw. apply Process_inv_coreos; [done..| |done]. by rewrite Ho. }
  destruct (session_minded operator serviceAccountName allowed False Hop Hcodec Hrev Hget
    (let _ := shared_bindings operator serviceAccountName true in Process SpecProvider_Get specFlow))
    with (s := empty_server (B := v1beta1.ServiceBinding) w) (l := l2) as [[Hb2 _] Hl2]; [|done|].
  { intros pl b s Hs Hid Ho Hw. by apply Process_inv_spec. }
  by split_and!.
Qed.
End Kinds.

(** ** At work: [bob] writes the binding while it is reconciled for [alice] *)
Section Witness.
#[local] Instance coreos_server : BindingServer v1alpha1.ServiceBinding := simple_server demo_app.
#[local] Instance spec_server : BindingServer v1beta1.ServiceBinding :=
  simple_server (λ m, demo_binding m [] None).
#[local] Instance coreos_server_laws : BindingServerLaws v1alpha1.ServiceBinding.
Proof. by apply simple_server_laws. Qed.
#[local] Instance spec_server_laws : BindingServerLaws v1beta1.ServiceBinding.
Proof. by apply simple_server_laws. Qed.

Abbreviation sbo := {| ui_username := "sbo"; ui_groups := [] |}.
Abbreviation alice := {| ui_username := "alice"; ui_groups := [] |}.
Abbreviation bob := {| ui_username := "bob"; ui_groups := [] |}.
Abbreviation W0 := (cluster v1beta1.ServiceBinding).
Abbreviation B0 := (v1beta1.ServiceBinding).

Definition after_actions (l : list (action W0 B0)) (follows : bool) : turn W0 B0 :=
  {| tn_actions := l; tn_copy := None; tn_follows := follows |}.
Definition reconciling (plan : list (turn W0 B0)) : request W0 B0 :=
  {| rq_namespace := "ns"; rq_name := "binding"; rq_plan := plan |}.

(** [alice] creates the binding, which is read; before the finalizer is added
    [bob] updates it.  Then it is reconciled without interruptions, and once
    more from the copy that [alice] wrote. *)
Definition crossing : list (request W0 B0) :=
  [ reconciling [after_actions [UserCreates alice sent] false; after_actions [UserUpdates bob sent] true];
    reconciling [after_actions [] false; after_actions [] true];
    reconciling [{| tn_actions := []; tn_copy := Some 3; tn_follows := false |}] ].

Definition crossed (checked : bool) := spec_session (W := W0) sbo "sbo" checked
  (empty_server (demo_cluster demo_workload [])) crossing.

Definition crossed_summary (checked : bool) :=
  let r := crossed checked in
  (sh_writer r.1, sh_binding r.1 ≫= λ b, Requester (sbk_meta b), sh_version r.1, length (sh_copies r.1),
   map (λ d, (d.1 ≫= fst)) (List.filter (is_write ∘ snd) r.2)).

(** Only what was done for [bob] went through. *)
Lemma interrupted_acts_for_writer_witness :
  crossed_summary true = (Some bob, Some bob, 4, 4, [Some bob]) ∧
  Forall (λ d, ∃ u m, d.1 = Some (Some u, m) ∧ accounted not_eve u m False d.2) (crossed true).2 ∧
  ∀ b, sh_binding (crossed true).1 = Some b → recorded b (sh_writer (crossed true).1).
Proof.
  destruct (interrupted_acts_for_writer sbo "sbo" dotted_laws coreos_server_laws spec_server_laws
    not_eve (demo_cluster demo_workload []) [] crossing
    eq_refl user_codec_law server_review server_get) as (_ & _ & Hb & Hl).
  split; [by vm_compute|]. split; [exact Hl|exact Hb].
Defined.

(** Without the comparison of the versions the finalizer is added to the copy
    that was read, and what [bob] wrote is lost: the binding is [alice]'s again. *)
Lemma not_recorded (s : shared W0 B0) u u' :
  sh_writer s = Some u → (sh_binding s ≫= λ b, Requester (sbk_meta b)) = Some u' → u ≠ u' →
  ∃ b, sh_binding s = Some b ∧ ¬ recorded b (sh_writer s).
Proof.
  intros Hu Hr Hne. destruct (sh_binding s) as [b|]; [|done]. exists b. split; [done|].
  intros (u1 & Hu1 & Hr1). simpl in Hr, Hr1. congruence.
Qed.

Lemma unchecked_loses_writes :
  ∃ b, sh_binding (crossed false).1 = Some b ∧ ¬ recorded b (sh_writer (crossed false).1).
Proof. apply (not_recorded _ bob alice); [by vm_compute|by vm_compute|done]. Qed.
End Witness.
